(* ===== verification/_CoqProject ===== *)
-Q . S2P
Prelude.v
GoStrings.v
GoPath.v
GoTime.v
Crypto.v
Filter.v
Authz.v
StoreApi.v
Memory.v
MemoryProps.v
Faulty.v
Concurrency.v
Manager.v
ManagerSafety.v
ConcurrencyThms.v
ManagerThms.v
Lifetimes.v
Labels.v
Revocation.v
Http.v
HttpProps.v
GoStrconv.v
GoDuration.v
Cookies.v
CookieThms.v
Staging.v
StagingThms.v
Handler.v
HandlerProps.v
Serve.v
HandlerThms.v
ServeThms.v
Admin.v
Lifecycle.v
Config.v
Caddyfile.v
CaddyfileThms.v
RedisApi.v
RedisStore.v
RedisProps.v
RedisRefine.v
RedisControls.v
RedisAtomic.v
RedisThms.v
RedisSystem.v
Contract.v
