(* ===== verification/Prelude.v ===== *)
(** * Verification of gosestor, a session store for the Caddy web server

    gosestor is an HTTP handler that sits between browsers and a backend.  It
    keeps the backend's cookies in a server-side session store and hands the
    browser one opaque key instead.  The backend steers the session through
    response headers: it names the owner (login), grants labels, asks for a new
    key or for a revocation (logout).  Requests for protected paths must prove a
    label before they reach the backend.

    ** The program and its model

    The parts, from the bottom up, with the files under [src/] they come from
    and the files here that model them.

    - Go's standard library, as far as the sources use it.  [GoStrings] (byte
      strings, UTF-8 runes, [strings.Fields], sorting), [GoPath] ([path.Clean]),
      [GoTime] (durations, [int64(d.Seconds())] through its [float64]
      roundings), [GoStrconv] ([ParseInt], [ParseBool], [FormatInt]),
      [GoDuration] ([time.ParseDuration] with its [float64] fractions,
      [fmt.Sscanf]), [Crypto] (base64url, SHA-256), and the [net/http] and [net/textproto] parts of
      [Http] and [Cookies] (canonical header names, cookie parsing and printing).
    - [internal/filter/filter.go]: [Filter], which backend cookies are stored,
      forwarded or dropped.
    - [internal/authz/authz.go]: [Authz], [New] compiles a policy with every
      validation of the source, [Required] maps a path to a label.
    - [internal/store/store.go]: [StoreApi].  The rows, the sentinel errors and
      the [Store] interface; the interface is the class [Store], whose one
      operation executes a [store_op].  The same file has the type [prog] of
      programs over store, clock and random source: a tree of calls with
      continuations, so that one text is run over a store ([run]), quantified
      over every answer ([always]) and interleaved with others ([Concurrency]).
    - [internal/store/memory.go]: [Memory], one definition per method, and its
      instance of [Store].
    - Failures of any store: [Faulty], a layer over an instance of [Store] that
      loses calls before or after they took effect; the theorems on error paths
      are stated over it.
    - [internal/store/redis.go]: [RedisApi] has the commands the store sends,
      what the command reference says of each ([documented]) and Lua scripts as
      trees of commands; [RedisStore] has every script, command by command, every
      method, and the instance of [Store].
    - [internal/store/contract.go]: [Contract], each subtest as a program.
    - [internal/session/manager.go], [clock.go]: [Manager], one program per
      method; the handle [Live] is a record passed and returned.
    - [session_store.go]: [Labels] ([splitLabels]), [Http] (managed trailers,
      copying and clearing of header maps), [Cookies] (upstream rewriting, proxy
      cookie, deletion detection), [Staging] ([stagedBody] and the shared
      budget), [Handler] (the response pipeline [ensureProcessed], [process],
      [processLocked]), [Serve] (the interceptor's methods, the body wrapper
      [trailerScrubbingBody] and [ServeHTTP]),
      [Config] ([Provision], [Validate]), [Caddyfile] ([UnmarshalCaddyfile]).
    - [admin.go]: [Admin], the registry and the revoke endpoint; [Lifecycle], the
      handlers of changing configurations around it ([Cleanup]).

    ** What the theorems show

    - Store ([MemoryProps]): the four indexes stay consistent ([wf]) and each
      method's effect on what callers observe.
    - Redis ([RedisProps], [RedisRefine], [RedisControls], [RedisAtomic],
      [RedisThms]): the Redis store refines the in-memory one, for whole programs
      of store calls ([redis_refines_memory]); a script that fails has changed
      nothing; a lock is released by its holder only and frees itself after its
      lifetime.  [RedisProps] is a weakest-precondition calculus over the keys of
      the store as slots, [repr] the representation of a [Memory] in a database.
      [Contract]: both stores pass the contract suite.  [RedisSystem] composes
      the handler with it: a whole request over Redis is the request over the
      in-memory store ([request_over_redis]), with and without the session lock,
      so that what is proved of requests there holds in production.
    - Concurrency ([Concurrency], [ManagerSafety], [ConcurrencyThms]): requests
      interleave at every store call, may be lost before or after a call took
      effect, and read any clock.  The store invariant holds in every reachable
      state; a rotated key never resolves again, a revoked session never comes
      back, a key never changes its session.  Programs qualify by a syntactic
      discipline (publish only identifiers just drawn, each once), which every
      manager method and the whole of [ServeHTTP] satisfy.
    - Manager ([ManagerThms], [Lifetimes], [Revocation], [Labels]): committing a
      response is all or nothing, rotates the key on a privilege change and
      leaves the keys alone otherwise, leaves the handle in agreement with the
      store and loses to a concurrent rotation; timeouts are exact and the final
      one absolute; logout-everywhere removes all of the owner's sessions and
      touches no other; identifiers are faithful.
    - Handler ([CookieThms], [HandlerProps], [HandlerThms], [ServeThms]): no
      control header or unmanaged cookie reaches the wire, no client-forged
      control (late trailers included) or managed cookie reaches the backend, the
      authorization gate and revocation fail closed over failing stores, granted
      labels survive storage except the reserved one.  [second_hijack_leaks] shows
      why the wire theorem asks for a single takeover of the connection.
    - Admin ([Admin]): a revocation reaches every store, and is reported as done
      only if it is.
    - Staging ([StagingThms]): limits hold over every schedule; the client gets
      the backend's bytes.
    - Configuration and policy ([Config], [CaddyfileThms], [Authz]): the parser
      returns on every token stream, computes the meaning of the document's lines
      and reads a printed configuration back; what validates is safe, what
      compiles has no redirect loop and does not depend on rule order.
    - Reloads ([Lifecycle]): a revocation starts with open Redis clients only.

    ** Parameters

    The Redis server is the class [RedisServer]: any type with a [send] that acts
    on a [view] of it as [documented] says; the reference itself is an instance.
    Caddy's token dispenser is the class [Dispenser]: five methods that lose no
    tokens, and for the theorems on documents the hypothesis [doc_at] that it
    serves the document; [tokens_dispenser] is an instance.
    [date] is [time.Parse] on cookie dates, whose result depends on the zone
    database; [simple_fold] is the Unicode folding table of [strings.EqualFold],
    of which only the ASCII part is assumed.  What the operating system does with
    a spool file and the client with a write are arguments of the calls; the
    downstream handler is an arbitrary function from the request to the calls it
    makes and the error it returns; what net/http puts into a request's trailer
    map while the body is read is an argument of the read, and a request whose
    trailer map is nil keeps it nil (net/http fills the map of declared trailers);
    the order in which Go ranges over a map is
    the order of a list argument or of [map_to_list].

    ** Bounds

    The loops of the Caddyfile parser run on fuel, the tokens left being enough
    ([parser_terminates]); so does [duration_items], with the length of the text
    ([duration_items_fuel]).  Otherwise recursion is structural but in three places: [format_go] prints
    an [int64] with 18 steps of fuel, enough for its 19 digits; [chunks] cuts a
    padded SHA-256 message into blocks with the message's length as fuel;
    [drive], used in examples only, runs a schedule with fuel.  [cookie_max] is [net/http]'s limit of 3000 cookies.
    [sane_seconds] bounds clock and timeouts by [2^32] seconds so that deadlines
    do not wrap; wrap-around itself is written out with [wrap64].
    Lua numbers are doubles: [num] rounds to 53 bits, and [op_ok] and [args_ok]
    bound the numbers of a call so that the rounding is exact.  [tonumber] is
    modelled on the decimal integers that Go prints.  [op_ok] also asks for
    session ids that cannot be confused with a key's suffix ([plain]) and leaves
    out the calls on which the two stores differ: past a deadline (the in-memory
    store keeps none), on a key already bound to another session, for a missing
    session of the anonymous owner, and the locks, whose tokens differ (they are
    related by [represents_at], which [request_over_redis] uses).
    [stagedHeaderBytes] adds header lengths in [Z], which the 1 MiB limit keeps far
    from [int64]'s range.  Time stands still while a script runs, as Redis freezes it.

    ** Not modelled

    Logging; contexts and cancellation, except that any store call may fail;
    Caddy's routing and module registration; the order of [SMEMBERS] (a set
    here); go-redis, but for the lifetime its [SetNX] sends ([setnx_lifetime],
    whole seconds as milliseconds); the texts of parse errors; the unit tests; the demo backend, an example program. *)

(** * Shared prelude *)

From stdpp Require Import base gmap strings list sorting fin_maps.
From Stdlib Require Import ZArith Lia.

(** ** Go results

    A Go function returning [(T, error)] is a [result T]; one returning only an
    [error] is an [option error], [None] being [nil]. *)

Inductive result (E A : Type) : Type :=
| Ok (a : A)
| Err (e : E).
Arguments Ok {E A} a.
Arguments Err {E A} e.

Definition is_Ok {E A} (r : result E A) : bool :=
  match r with Ok _ => true | Err _ => false end.

(** ** Machine integers

    [int64] values are [Z]; every arithmetic operation whose Go counterpart may
    wrap goes through [wrap64]. *)

Definition wrap64 (z : Z) : Z := (z + 2 ^ 63) mod 2 ^ 64 - 2 ^ 63.
Definition int64 (z : Z) : Prop := (- 2 ^ 63 <= z < 2 ^ 63)%Z.

Lemma wrap64_id z : int64 z -> wrap64 z = z.
Proof. unfold int64, wrap64. intros H. rewrite Z.mod_small; lia. Qed.

Lemma wrap64_range z : int64 (wrap64 z).
Proof.
  unfold int64, wrap64.
  pose proof (Z.mod_pos_bound (z + 2 ^ 63) (2 ^ 64)). lia.
Qed.

Create HintDb go discriminated.
#[export] Hint Resolve wrap64_id wrap64_range : go.

(** ** Tactics *)

(** Case analysis on every [match] scrutinee of the goal or of a hypothesis. *)
Ltac case_all :=
  repeat (case_match; simplify_eq/=; try done).

(** Close goals about [gmap] lookups after case analysis on key equality. *)
Ltac map_cases :=
  repeat match goal with
  | H : context [<[_:=_]> _ !! _] |- _ => rewrite lookup_insert in H
  | H : context [delete _ _ !! _] |- _ => rewrite lookup_delete in H
  | |- context [<[_:=_]> _ !! _] => rewrite lookup_insert
  | |- context [delete _ _ !! _] => rewrite lookup_delete
  | H : context [decide _] |- _ => case_decide; simplify_eq/=
  | |- context [decide _] => case_decide; simplify_eq/=
  end.
