(* ===== verification/GoStrings.v ===== *)
(** * Go strings

    The parts of Go's [strings], [strconv], [unicode/utf8] and [sort] packages
    that the sources call.  A Go string is a byte sequence, here a [string] of
    [ascii]. *)

From S2P Require Import Prelude.
From stdpp Require Import base gmap strings list sorting.
From Stdlib Require Import ZArith Lia Ascii.

(** ** Bytes *)

Definition byte_val (c : ascii) : Z := Z.of_N (N_of_ascii c).
Definition slash : ascii := "/"%char.

(** ** Prefixes, splitting, joining *)

Fixpoint has_prefix (s p : string) : bool :=
  match p, s with
  | EmptyString, _ => true
  | String a p', String b s' => bool_decide (a = b) && has_prefix s' p'
  | _, _ => false
  end.

(** [strings.TrimPrefix] *)
Fixpoint trim_prefix_go (s p : string) : option string :=
  match p, s with
  | EmptyString, _ => Some s
  | String a p', String b s' => if decide (a = b) then trim_prefix_go s' p' else None
  | _, _ => None
  end.
Definition trim_prefix (s p : string) : string := default s (trim_prefix_go s p).

(** [strings.Split] on a one-byte separator; never empty. *)
Fixpoint split_byte (sep : ascii) (s : string) : list string :=
  match s with
  | EmptyString => [""]
  | String c s' =>
      if decide (c = sep) then "" :: split_byte sep s'
      else match split_byte sep s' with
           | [] => [String c ""]
           | w :: ws => String c w :: ws
           end
  end.

(** [strings.Join] *)
Fixpoint join_with (sep : string) (l : list string) : string :=
  match l with
  | [] => ""
  | [w] => w
  | w :: l' => w +:+ sep +:+ join_with sep l'
  end.

(** [strings.Cut] on a one-byte separator. *)
Fixpoint cut (sep : ascii) (s : string) : string * string * bool :=
  match s with
  | EmptyString => ("", "", false)
  | String c s' =>
      if decide (c = sep) then ("", s', true)
      else let '(a, b, f) := cut sep s' in (String c a, b, f)
  end.

(** [s[:strings.IndexByte(s, c)]], or [s] when the byte does not occur. *)
Fixpoint before_byte (c : ascii) (s : string) : string :=
  match s with
  | EmptyString => ""
  | String b s' => if decide (b = c) then "" else String b (before_byte c s')
  end.

Fixpoint contains_byte (c : ascii) (s : string) : bool :=
  match s with
  | EmptyString => false
  | String b s' => bool_decide (b = c) || contains_byte c s'
  end.

(** ** UTF-8 runes *)

Definition RuneError : Z := 0xFFFD.

Definition cont_byte (lo hi : Z) (c : ascii) : bool :=
  ((lo <=? byte_val c) && (byte_val c <=? hi))%Z.

(** [utf8.DecodeRuneInString]: the first rune and its width in bytes. *)
Definition decode_rune (s : string) : Z * nat :=
  match s with
  | EmptyString => (RuneError, 0)
  | String a s1 =>
    let p0 := byte_val a in
    if (p0 <? 0x80)%Z then (p0, 1)
    else if ((p0 <? 0xC2) || (0xF4 <? p0))%Z then (RuneError, 1)
    else if (p0 <? 0xE0)%Z then
      match s1 with
      | String b _ =>
          if cont_byte 0x80 0xBF b
          then (((p0 - 0xC0) * 64 + (byte_val b - 0x80))%Z, 2) else (RuneError, 1)
      | _ => (RuneError, 1)
      end
    else if (p0 <? 0xF0)%Z then
      match s1 with
      | String b (String c _) =>
          let lo := if (p0 =? 0xE0)%Z then 0xA0%Z else 0x80%Z in
          let hi := if (p0 =? 0xED)%Z then 0x9F%Z else 0xBF%Z in
          if cont_byte lo hi b && cont_byte 0x80 0xBF c
          then (((p0 - 0xE0) * 4096 + (byte_val b - 0x80) * 64 + (byte_val c - 0x80))%Z, 3)
          else (RuneError, 1)
      | _ => (RuneError, 1)
      end
    else
      match s1 with
      | String b (String c (String d _)) =>
          let lo := if (p0 =? 0xF0)%Z then 0x90%Z else 0x80%Z in
          let hi := if (p0 =? 0xF4)%Z then 0x8F%Z else 0xBF%Z in
          if cont_byte lo hi b && cont_byte 0x80 0xBF c && cont_byte 0x80 0xBF d
          then (((p0 - 0xF0) * 262144 + (byte_val b - 0x80) * 4096
                + (byte_val c - 0x80) * 64 + (byte_val d - 0x80))%Z, 4)
          else (RuneError, 1)
      | _ => (RuneError, 1)
      end
  end.

(** [for _, r := range s]: the runes of a string, each with its bytes. *)
Fixpoint runes (s : string) : list (Z * string) :=
  match s with
  | EmptyString => []
  | String a s1 =>
    match decode_rune s, s1 with
    | (r, 4), String b (String c (String d s4)) =>
        (r, String a (String b (String c (String d "")))) :: runes s4
    | (r, 3), String b (String c s3) => (r, String a (String b (String c ""))) :: runes s3
    | (r, 2), String b s2 => (r, String a (String b "")) :: runes s2
    | (r, _), _ => (r, String a "") :: runes s1
    end
  end.

(** [unicode.IsSpace]: Unicode's White_Space property. *)
Definition is_space (r : Z) : bool :=
  (((0x09 <=? r) && (r <=? 0x0D)) || (r =? 0x20) || (r =? 0x85) || (r =? 0xA0)
   || (r =? 0x1680) || ((0x2000 <=? r) && (r <=? 0x200A))
   || (r =? 0x2028) || (r =? 0x2029) || (r =? 0x202F) || (r =? 0x205F)
   || (r =? 0x3000))%Z.

(** [strings.FieldsFunc]: the maximal runs of runes that do not satisfy [f]. *)
Fixpoint fields_go (f : Z -> bool) (cur : string) (rs : list (Z * string)) : list string :=
  match rs with
  | [] => if decide (cur = "") then [] else [cur]
  | (r, c) :: rs' =>
      if f r then
        if decide (cur = "") then fields_go f "" rs' else cur :: fields_go f "" rs'
      else fields_go f (cur +:+ c) rs'
  end.
Definition fields_func (f : Z -> bool) (s : string) : list string := fields_go f "" (runes s).
Definition fields (s : string) : list string := fields_func is_space s.

(** [strings.TrimSpace] *)
Fixpoint drop_spaces (rs : list (Z * string)) : list (Z * string) :=
  match rs with
  | (r, c) :: rs' => if is_space r then drop_spaces rs' else rs
  | [] => []
  end.
Definition concat_runes (rs : list (Z * string)) : string :=
  foldr (fun rc acc => rc.2 +:+ acc) "" rs.
Definition trim_space (s : string) : string :=
  concat_runes (reverse (drop_spaces (reverse (drop_spaces (runes s))))).

(** ** [sort.Strings]: bytewise lexicographic order *)

Definition sort_strings (l : list string) : list string := merge_sort String.le l.

(** ** Lemmas on strings *)

Lemma sapp_cons a s t : String a s +:+ t = String a (s +:+ t).
Proof. reflexivity. Qed.
Lemma sapp_nil_l t : "" +:+ t = t.
Proof. reflexivity. Qed.
Lemma sapp_nil_r s : s +:+ "" = s.
Proof. induction s as [|a s IH]; [done|]. by rewrite sapp_cons, IH. Qed.
Lemma sapp_assoc s t u : (s +:+ t) +:+ u = s +:+ (t +:+ u).
Proof. induction s as [|a s IH]; [done|]. by rewrite !sapp_cons, IH. Qed.
Lemma sapp_eq_nil s t : s +:+ t = "" -> s = "" /\ t = "".
Proof. destruct s; simpl; [done|discriminate]. Qed.

#[export] Hint Rewrite sapp_cons sapp_nil_l sapp_nil_r sapp_assoc : gostr.

Lemma has_prefix_spec s p : has_prefix s p = true <-> exists t, s = p +:+ t.
Proof.
  revert s; induction p as [|a p IH]; intros s.
  - split; [exists s; done|by destruct s].
  - destruct s as [|b s]; [split; [done|by intros [? ?]]|]. cbn [has_prefix].
    rewrite andb_true_iff, bool_decide_eq_true, IH.
    split; [intros [-> [t ->]]; by exists t | intros [t [= -> ->]]; eauto].
Qed.

Definition sep_free (sep : ascii) (s : string) : Prop := contains_byte sep s = false.

Lemma sep_free_cons sep a s : sep_free sep (String a s) <-> a <> sep /\ sep_free sep s.
Proof.
  unfold sep_free; cbn [contains_byte]. rewrite orb_false_iff, bool_decide_eq_false. done.
Qed.

Lemma sep_free_app sep s t : sep_free sep (s +:+ t) <-> sep_free sep s /\ sep_free sep t.
Proof.
  induction s as [|a s IH]; [rewrite sapp_nil_l; by intuition|].
  rewrite sapp_cons, !sep_free_cons. tauto.
Qed.

Lemma split_nonempty sep s : split_byte sep s <> [].
Proof. destruct s; simpl; [done|]. repeat case_match; done. Qed.

Lemma split_sep_free sep s : Forall (sep_free sep) (split_byte sep s).
Proof.
  induction s as [|c s IH]; simpl; [by repeat constructor|].
  case_decide; [by constructor|].
  destruct (split_byte sep s) as [|w ws] eqn:E; [by apply split_nonempty in E|].
  inversion IH; subst. constructor; [|done]. by apply sep_free_cons.
Qed.

Lemma split_free sep w : sep_free sep w -> split_byte sep w = [w].
Proof.
  induction w as [|a w IH]; [done|]. intros [Ha Hw]%sep_free_cons; simpl.
  rewrite decide_False by done. by rewrite IH.
Qed.

Lemma split_app_sep sep w s :
  sep_free sep w -> split_byte sep (w +:+ String sep s) = w :: split_byte sep s.
Proof.
  induction w as [|a w IH]; simpl; [intros; by rewrite decide_True|].
  intros [Ha Hw]%sep_free_cons. simpl. rewrite decide_False by done. by rewrite IH.
Qed.

Lemma join_split sep s : join_with (String sep "") (split_byte sep s) = s.
Proof.
  induction s as [|c s IH]; [done|]. simpl.
  destruct (split_byte sep s) as [|w ws] eqn:E; [by apply split_nonempty in E|].
  destruct (decide (c = sep)) as [->|Hc].
  - by rewrite <-IH.
  - rewrite <-IH. by destruct ws.
Qed.

Lemma split_join sep l :
  l <> [] -> Forall (sep_free sep) l -> split_byte sep (join_with (String sep "") l) = l.
Proof.
  induction l as [|w [|w' l] IH]; [done|..]; intros _ Hl; inversion Hl; subst; simpl.
  - by apply split_free.
  - change (String sep "" +:+ ?t) with (String sep t).
    rewrite split_app_sep by done. f_equal. by apply IH.
Qed.

(** ** Lemmas on runes *)

Lemma cont_byte_ascii lo hi x : (0x80 <= lo)%Z -> (byte_val x < 0x80)%Z -> cont_byte lo hi x = false.
Proof. intros. unfold cont_byte. apply andb_false_iff. left. apply Z.leb_gt. lia. Qed.

Lemma byte_val_range x : (0 <= byte_val x < 256)%Z.
Proof.
  unfold byte_val. pose proof (N_ascii_bounded x). lia.
Qed.

(** An ASCII byte never continues a rune that starts before it. *)
Lemma decode_rune_app_ascii s x t :
  s <> "" -> (byte_val x < 0x80)%Z -> decode_rune (s +:+ String x t) = decode_rune s.
Proof.
  intros Hs Hx.
  assert (HC : forall lo hi, (0x80 <= lo)%Z -> cont_byte lo hi x = false)
    by (intros; by apply cont_byte_ascii).
  destruct s as [|a [|b [|c [|d s]]]]; [done|..]; rewrite ?sapp_cons, ?sapp_nil_l;
    unfold decode_rune; repeat case_match; simplify_eq; try done;
    repeat match goal with
    | H : context [cont_byte _ _ x] |- _ => rewrite HC in H by (try case_match; lia)
    end; rewrite ?andb_false_r in *; simplify_eq; try done;
    rewrite ?andb_true_iff, ?andb_false_iff in *; naive_solver.
Qed.

Lemma decode_rune_width s r n : decode_rune s = (r, n) -> s <> "" -> 1 <= n <= String.length s.
Proof.
  intros H Hs. destruct s as [|a [|b [|c [|d s]]]]; [done|..];
    unfold decode_rune in H; repeat case_match; simplify_eq/=; lia.
Qed.

(** One step of [runes]: a nonempty chunk, of the width [decode_rune] reports. *)
Lemma runes_step s :
  s <> "" -> exists r c rest,
    s = c +:+ rest /\ c <> "" /\ decode_rune s = (r, String.length c)
    /\ runes s = (r, c) :: runes rest.
Proof.
  intros Hs. destruct (decode_rune s) as [r n] eqn:E.
  pose proof (decode_rune_width _ _ _ E Hs) as Hn.
  destruct s as [|a s1]; [done|].
  assert (H4 : n <= 4).
  { unfold decode_rune in E. repeat case_match; simplify_eq/=; lia. }
  destruct n as [|[|[|[|[|n]]]]]; simpl in Hn; try lia.
  - exists r, (String a ""), s1. cbn [runes]. rewrite E. by destruct s1.
  - destruct s1 as [|b s2]; simpl in Hn; [lia|].
    exists r, (String a (String b "")), s2. cbn [runes]. by rewrite E.
  - destruct s1 as [|b [|c s3]]; simpl in Hn; try lia.
    exists r, (String a (String b (String c ""))), s3. cbn [runes]. by rewrite E.
  - destruct s1 as [|b [|c [|d s4]]]; simpl in Hn; try lia.
    exists r, (String a (String b (String c (String d "")))), s4. cbn [runes]. by rewrite E.
Qed.

Lemma runes_ascii_cons c s :
  (byte_val c < 0x80)%Z -> runes (String c s) = (byte_val c, String c "") :: runes s.
Proof.
  intros H. cbn [runes]. unfold decode_rune. rewrite (proj2 (Z.ltb_lt _ _)) by done. done.
Qed.

Lemma sapp_length s t : String.length (s +:+ t) = String.length s + String.length t.
Proof. induction s as [|a s IH]; [done|]. rewrite sapp_cons. simpl. by rewrite IH. Qed.

Lemma sapp_inj_length c c' s s' :
  String.length c = String.length c' -> c +:+ s = c' +:+ s' -> c = c' /\ s = s'.
Proof.
  revert c'; induction c as [|a c IH]; intros [|a' c']; try done; simpl.
  rewrite !sapp_cons. intros [= Hl] [= -> [-> ->]%IH]; done.
Qed.

Lemma runes_ind (P : string -> Prop) :
  P "" ->
  (forall s r c rest, s = c +:+ rest -> c <> "" -> decode_rune s = (r, String.length c) ->
     runes s = (r, c) :: runes rest -> P rest -> P s) ->
  forall s, P s.
Proof.
  intros H0 HS s. induction s as [s IH] using (induction_ltof1 _ String.length).
  destruct (decide (s = "")) as [->|Hs]; [done|].
  destruct (runes_step s Hs) as (r & c & rest & -> & Hc & Hd & Hr).
  eapply HS; eauto. apply IH. unfold ltof. rewrite sapp_length. destruct c; [done|simpl; lia].
Qed.

Lemma concat_runes_runes s : concat_runes (runes s) = s.
Proof.
  induction s as [|s r c rest -> Hc _ Hr IH] using runes_ind; [done|].
  rewrite Hr. simpl. by rewrite IH.
Qed.

Lemma runes_app_ascii s x t :
  (byte_val x < 0x80)%Z -> runes (s +:+ String x t) = runes s ++ runes (String x t).
Proof.
  intros Hx. induction s as [|s r c rest -> Hc Hd Hr IH] using runes_ind; [done|].
  rewrite Hr, <-app_comm_cons, <-IH.
  destruct (runes_step ((c +:+ rest) +:+ String x t)) as (r' & c' & rest' & Hs & Hc' & Hd' & Hr').
  { rewrite sapp_assoc. by destruct c. }
  rewrite decode_rune_app_ascii in Hd' by (try done; by destruct c).
  rewrite Hd in Hd'. injection Hd' as -> Hl. rewrite sapp_assoc in Hs.
  apply sapp_inj_length in Hs as [<- <-]; [|done]. done.
Qed.

Lemma runes_app_space s t : runes (s +:+ String " " t) = runes s ++ (32%Z, " ") :: runes t.
Proof. rewrite runes_app_ascii by done. by destruct t. Qed.

Lemma runes_chunks s : Forall (fun rc => rc.2 <> "") (runes s).
Proof.
  induction s as [|s r c rest _ Hc _ Hr IH] using runes_ind; [constructor|].
  rewrite Hr. by constructor.
Qed.

(** ** Words: what [strings.Fields] returns *)

Definition word (w : string) : Prop :=
  w <> "" /\ Forall (fun rc => is_space rc.1 = false) (runes w).

Lemma fields_go_app f cur rs rs' :
  Forall (fun rc => f rc.1 = false) rs ->
  fields_go f cur (rs ++ rs') = fields_go f (cur +:+ concat_runes rs) rs'.
Proof.
  intros H; revert cur; induction H as [|[r c] rs Hf _ IH]; intros cur; simpl in *.
  - by rewrite sapp_nil_r.
  - by rewrite Hf, IH, sapp_assoc.
Qed.

(** [strings.Fields] inverts [strings.Join(_, " ")] on lists of words. *)
Lemma fields_join ws : Forall word ws -> fields (join_with " " ws) = ws.
Proof.
  unfold fields, fields_func.
  induction ws as [|w [|w' ws] IH]; intros Hws; [done|..]; inversion Hws as [|?? [Hne Hw] Hrest]; subst.
  - simpl. rewrite <-(app_nil_r (runes w)), fields_go_app by done.
    rewrite concat_runes_runes. simpl. by rewrite decide_False.
  - change (join_with " " (w :: w' :: ws)) with (w +:+ String " " (join_with " " (w' :: ws))).
    rewrite runes_app_space, fields_go_app, concat_runes_runes by done.
    cbn -[join_with]. rewrite decide_False by done. f_equal. by apply IH.
Qed.

(** Decoding looks no further than the rune it returns: cutting the string at a
    later rune boundary does not change it. *)
Lemma decode_rune_trunc c u t r :
  c <> "" -> decode_rune (c +:+ u +:+ t) = (r, String.length c) ->
  decode_rune (c +:+ u) = (r, String.length c).
Proof.
  destruct c as [|a [|b [|x [|d [|e c]]]]]; [done|..]; intros _; rewrite ?sapp_cons, ?sapp_nil_l;
    [destruct u as [|u1 [|u2 [|u3 u]]]; destruct t as [|t1 [|t2 [|t3 t]]] |..];
    rewrite ?sapp_cons, ?sapp_nil_l;
    unfold decode_rune; intros H; repeat case_match; simplify_eq/=; done.
Qed.

Lemma runes_prefix rs rs' s : runes s = rs ++ rs' -> runes (concat_runes rs) = rs.
Proof.
  revert s; induction rs as [|[r c] rs IH]; intros s Hs; [done|].
  assert (Hne : s <> "") by (by intros ->).
  destruct (runes_step s Hne) as (r' & c' & rest & Hsc & Hc & Hd & Hr).
  rewrite Hr in Hs. injection Hs as -> -> Hrest.
  specialize (IH rest Hrest). simpl.
  assert (Hrs : rest = concat_runes rs +:+ concat_runes rs').
  { rewrite <-(concat_runes_runes rest), Hrest. clear.
    induction rs as [|[??] rs IH]; [done|]. simpl. by rewrite IH, sapp_assoc. }
  rewrite Hsc, Hrs in Hd. apply decode_rune_trunc in Hd; [|done].
  destruct (runes_step (c +:+ concat_runes rs)) as (r2 & c2 & rest2 & Hs2 & Hc2 & Hd2 & Hr2).
  { by destruct c. }
  rewrite Hd in Hd2. injection Hd2 as -> Hl.
  apply sapp_inj_length in Hs2 as [<- <-]; [|done]. by rewrite Hr2, IH.
Qed.

Lemma runes_suffix rs rs' s : runes s = rs ++ rs' -> runes (concat_runes rs') = rs'.
Proof.
  revert s; induction rs as [|[r c] rs IH]; intros s Hs; simpl in Hs.
  - by rewrite <-Hs, concat_runes_runes.
  - assert (Hne : s <> "") by (by intros ->).
    destruct (runes_step s Hne) as (r' & c' & rest & _ & _ & _ & Hr).
    rewrite Hr in Hs. injection Hs as -> -> Hrest. by eapply IH.
Qed.

Lemma concat_runes_app rs rs' : concat_runes (rs ++ rs') = concat_runes rs +:+ concat_runes rs'.
Proof. induction rs as [|[??] rs IH]; [done|]. simpl. by rewrite IH, sapp_assoc. Qed.

(** Every field is nonempty and made of runes that do not satisfy the separator
    predicate. *)
Lemma fields_func_spec f s :
  Forall (fun w => w <> "" /\ Forall (fun rc => f rc.1 = false) (runes w)) (fields_func f s).
Proof.
  unfold fields_func.
  enough (H : forall rs cur pre, runes s = pre ++ cur ++ rs ->
      Forall (fun rc => f rc.1 = false) cur ->
      Forall (fun w => w <> "" /\ Forall (fun rc => f rc.1 = false) (runes w))
        (fields_go f (concat_runes cur) rs)).
  { by apply (H (runes s) [] []). }
  induction rs as [|[r c] rs IH]; intros cur pre Hs Hcur; simpl.
  - case_decide as Hne; [constructor|]. constructor; [|constructor]. split; [done|].
    rewrite app_nil_r in Hs. by rewrite (runes_suffix _ _ _ Hs).
  - assert (Hw : runes (concat_runes cur) = cur).
    { pose proof (runes_suffix _ _ _ Hs) as H2. by apply runes_prefix in H2. }
    destruct (f r) eqn:Ef.
    + specialize (IH [] (pre ++ cur ++ [(r, c)])). rewrite <-!app_assoc in IH.
      specialize (IH Hs (Forall_nil_2 _)). case_decide; [done|].
      constructor; [|done]. by rewrite Hw.
    + specialize (IH (cur ++ [(r, c)]) pre). rewrite <-!app_assoc, concat_runes_app in IH.
      simpl in IH. rewrite sapp_nil_r in IH. apply IH; [done|].
      apply Forall_app; split; [done|]. by repeat constructor.
Qed.

Lemma fields_words s : Forall word (fields s).
Proof. apply fields_func_spec. Qed.

Lemma drop_spaces_id rs : Forall (fun rc => is_space rc.1 = false) rs -> drop_spaces rs = rs.
Proof. destruct 1 as [|[r c] rs H _]; [done|]. simpl in *. by rewrite H. Qed.

Lemma trim_space_word w : word w -> trim_space w = w.
Proof.
  intros [_ H]. unfold trim_space.
  rewrite (drop_spaces_id (runes w)), drop_spaces_id, reverse_involutive by (by rewrite ?Forall_reverse).
  apply concat_runes_runes.
Qed.

(** ** Sorting *)

Lemma sort_strings_perm l : sort_strings l ≡ₚ l.
Proof. apply merge_sort_Permutation. Qed.

Lemma sort_strings_sorted l : StronglySorted String.le (sort_strings l).
Proof. apply (StronglySorted_merge_sort String.le). Qed.

(** The sorted list depends only on the multiset of elements. *)
Lemma sort_strings_canonical l l' : l ≡ₚ l' -> sort_strings l = sort_strings l'.
Proof.
  intros H. apply (StronglySorted_unique String.le); try apply sort_strings_sorted.
  by rewrite !sort_strings_perm.
Qed.
