(* ===== verification/GoPath.v ===== *)
(** * Go's [path.Clean]

    Lexical cleaning, by segments: empty and ["."] segments disappear, [".."]
    removes the segment before it, and a rooted path never climbs above its
    root.  The second half relates string prefixes of cleaned paths to list
    prefixes of their segments, which is what segment-aware matching needs. *)

From S2P Require Import Prelude GoStrings.
From stdpp Require Import base gmap strings list sorting.
From Stdlib Require Import ZArith Lia Ascii.

(** One segment pushed on the reversed output. *)
Definition clean_step (rooted : bool) (out : list string) (seg : string) : list string :=
  if decide (seg = "" \/ seg = ".") then out
  else if decide (seg = "..") then
    match out with
    | [] => if rooted then [] else [".."]
    | top :: rest => if decide (top = "..") then ".." :: out else rest
    end
  else seg :: out.

Definition clean_segs (rooted : bool) (p : string) : list string :=
  reverse (foldl (clean_step rooted) [] (split_byte slash p)).

(** [path.Clean] *)
Definition clean (p : string) : string :=
  if decide (p = "") then "."
  else if has_prefix p "/" then "/" +:+ join_with "/" (clean_segs true p)
  else match clean_segs false p with
       | [] => "."
       | segs => join_with "/" segs
       end.

(** The segments of a path, read from the root. *)
Definition segs (p : string) : list string := clean_segs true p.

Definition rooted_path (l : list string) : string := "/" +:+ join_with "/" l.

(** ** Lemmas *)

Definition plain (w : string) : Prop :=
  w <> "" /\ w <> "." /\ w <> ".." /\ sep_free slash w.

Lemma clean_rooted p : has_prefix p "/" = true -> clean p = rooted_path (segs p).
Proof. intros H. unfold clean. destruct p; [done|]. by rewrite decide_False, H. Qed.

Lemma foldl_clean_plain l out :
  Forall (sep_free slash) l -> Forall plain out -> Forall plain (foldl (clean_step true) out l).
Proof.
  revert out; induction l as [|w l IH]; intros out Hl Hout; simpl; [done|].
  inversion Hl; subst. apply IH; [done|]. unfold clean_step.
  repeat case_decide; [done|..].
  - destruct out as [|top rest]; [done|]. inversion Hout as [|?? Ht Hr]; subst.
    destruct Ht as (? & ? & ? & ?). by rewrite decide_False.
  - constructor; [|done]. unfold plain. naive_solver.
Qed.

Lemma segs_plain p : Forall plain (segs p).
Proof.
  unfold segs, clean_segs. apply Forall_reverse, foldl_clean_plain; [apply split_sep_free|constructor].
Qed.

Lemma foldl_clean_id l out :
  Forall plain l -> foldl (clean_step true) out l = reverse l ++ out.
Proof.
  intros H; revert out; induction H as [|w l (H1 & H2 & H3 & H4) _ IH]; intros out; simpl; [done|].
  rewrite IH, reverse_cons, <-app_assoc. unfold clean_step.
  by rewrite decide_False, decide_False by tauto.
Qed.

Lemma plain_sep_free l : Forall plain l -> Forall (sep_free slash) l.
Proof. intros H. eapply Forall_impl; [exact H|]. by intros w (_ & _ & _ & ?). Qed.

Lemma split_rooted l : Forall (sep_free slash) l -> l <> [] -> split_byte slash (rooted_path l) = "" :: l.
Proof.
  intros Hl Hne. unfold rooted_path. change ("/" +:+ join_with "/" l) with (String slash (join_with "/" l)).
  simpl. by rewrite split_join.
Qed.

(** Cleaning is stable on already-clean rooted paths. *)
Lemma segs_rooted l : Forall plain l -> segs (rooted_path l) = l.
Proof.
  intros Hl. destruct (decide (l = [])) as [->|Hne]; [done|].
  unfold segs, clean_segs. rewrite split_rooted by auto using plain_sep_free.
  simpl. rewrite foldl_clean_id, app_nil_r by done. apply reverse_involutive.
Qed.

Lemma rooted_has_prefix l : has_prefix (rooted_path l) "/" = true.
Proof. apply has_prefix_spec. by eexists. Qed.

Lemma clean_idemp p : has_prefix p "/" = true -> clean (clean p) = clean p.
Proof.
  intros H. rewrite (clean_rooted p) by done.
  rewrite clean_rooted by apply rooted_has_prefix. by rewrite segs_rooted by apply segs_plain.
Qed.

Lemma rooted_path_inj l l' : Forall plain l -> Forall plain l' -> rooted_path l = rooted_path l' -> l = l'.
Proof. intros Hl Hl' H. by rewrite <-(segs_rooted l), <-(segs_rooted l'), H. Qed.

Lemma split_app sep s t : split_byte sep (s +:+ String sep t) = split_byte sep s ++ split_byte sep t.
Proof.
  induction s as [|c s IH]; simpl; [by rewrite decide_True|].
  rewrite IH. case_decide; [done|].
  destruct (split_byte sep s) eqn:E; [by apply split_nonempty in E|]. done.
Qed.

Lemma join_app sep l k : l <> [] -> k <> [] -> join_with sep (l ++ k) = join_with sep l +:+ sep +:+ join_with sep k.
Proof.
  induction l as [|w [|w' l] IH]; [done|..]; intros _ Hk.
  - by destruct k.
  - change (join_with sep ((w :: w' :: l) ++ k)) with (w +:+ sep +:+ join_with sep ((w' :: l) ++ k)).
    rewrite IH by done. simpl. by rewrite !sapp_assoc.
Qed.

(** A rule path covers a request path exactly when its segments are a prefix of
    the request's: the string test of the code is segment-aware. *)
Lemma covers_prefix l k :
  Forall plain l -> Forall plain k ->
  (rooted_path l = "/" \/ rooted_path k = rooted_path l
    \/ has_prefix (rooted_path k) (rooted_path l +:+ "/") = true) <-> l `prefix_of` k.
Proof.
  intros Hl Hk. split.
  - intros [H|[H|H]].
    + assert (l = []) as -> by (by apply rooted_path_inj; [..|constructor|]). apply prefix_nil.
    + apply rooted_path_inj in H as ->; done.
    + destruct (decide (l = [])) as [->|Hne]; [apply prefix_nil|].
      apply has_prefix_spec in H as [t Ht].
      assert (Hkne : k <> []).
      { intros ->. unfold rooted_path in Ht. rewrite sapp_assoc, !sapp_cons in Ht.
        injection Ht. destruct l as [|w [|w' l]]; simpl; [done|..];
          inversion Hl as [|?? [Hw _] _]; subst; by destruct w. }
      apply (f_equal (split_byte slash)) in Ht.
      rewrite split_rooted, sapp_assoc in Ht by auto using plain_sep_free.
      change ("/" +:+ t) with (String slash t) in Ht.
      rewrite split_app, split_rooted in Ht by auto using plain_sep_free.
      injection Ht as ->. by exists (split_byte slash t).
  - intros [t ->]. destruct (decide (l = [])) as [->|Hne]; [by left|right].
    destruct (decide (t = [])) as [->|Ht]; [left; by rewrite app_nil_r|right].
    apply has_prefix_spec. exists (join_with "/" t). unfold rooted_path.
    rewrite join_app by done. by rewrite !sapp_assoc.
Qed.

Lemma rooted_path_length_app l k :
  Forall plain l -> Forall plain k -> k <> [] ->
  String.length (rooted_path l) < String.length (rooted_path (l ++ k)).
Proof.
  intros Hl Hk Hne. unfold rooted_path. rewrite !sapp_cons. simpl.
  rewrite !sapp_nil_l. apply -> Nat.succ_lt_mono.
  assert (0 < String.length (join_with "/" k)).
  { destruct k as [|w k]; [done|]. inversion Hk as [|?? [Hw _] _]; subst.
    destruct k; simpl; rewrite ?sapp_length; destruct w; simpl; done || lia. }
  destruct (decide (l = [])) as [->|Hl']; [simpl; lia|].
  rewrite join_app, !sapp_length by done. lia.
Qed.
