(* ===== verification/GoTime.v ===== *)
(** * Go durations and times

    [time.Duration] is an [int64] count of nanoseconds, [time.Time] here the
    nanoseconds since the Unix epoch.  [int64(d.Seconds())] goes through
    [float64], whose two roundings are written out. *)

From stdpp Require Import base numbers.
From Stdlib Require Import ZArith Lia.
From S2P Require Import Prelude.
Local Open Scope Z_scope.

Definition Second : Z := 1000000000.
Definition Millisecond : Z := 1000000.

(** [t.Unix()] *)
Definition Unix (t : Z) : Z := t / Second.

(** [d.Milliseconds()]: Go's division truncates toward zero. *)
Definition Milliseconds (d : Z) : Z := Z.quot d Millisecond.

(** [time.Duration(n) * time.Second], wrapping. *)
Definition of_seconds (n : Z) : Z := wrap64 (n * Second).

(** Division rounded to nearest, ties to even. *)
Definition rne_div (a b : Z) : Z :=
  let q := a / b in
  let r := a mod b in
  if 2 * r <? b then q else if b <? 2 * r then q + 1 else if Z.even q then q else q + 1.

(** [n] rounded to 53 significant bits. *)
Definition round53 (n : Z) : Z :=
  let sh := Z.log2 n - 52 in
  if sh <=? 0 then n else rne_div n (2 ^ sh) * 2 ^ sh.

(** [float64(n)/1e9] for [0 <= n < 1e9], as [m / 2^k]. *)
Definition frac_exp (n : Z) : Z := 52 + (52 - Z.log2 (n * 2 ^ 52 / Second)).
Definition frac_mant (n : Z) : Z := rne_div (n * 2 ^ frac_exp n) Second.

(** [int64(d.Seconds())] for [0 <= d]. *)
Definition seconds_pos (d : Z) : Z :=
  let k := frac_exp (d mod Second) in
  round53 (d / Second * 2 ^ k + frac_mant (d mod Second)) / 2 ^ k.

Definition Seconds (d : Z) : Z := if d <? 0 then - seconds_pos (- d) else seconds_pos d.

(** ** Lemmas *)

Lemma rne_div_ge a b m : 0 < b -> m * b <= a -> m <= rne_div a b.
Proof.
  intros Hb H. assert (m <= a / b) by (apply Z.div_le_lower_bound; lia).
  unfold rne_div. repeat case_match; lia.
Qed.

Lemma rne_div_le a b m : 0 < b -> a <= m * b -> rne_div a b <= m.
Proof.
  intros Hb H. pose proof (Z.div_mod a b ltac:(lia)). pose proof (Z.mod_pos_bound a b Hb).
  unfold rne_div. assert (a / b <= m) by (apply Z.div_le_upper_bound; lia).
  assert (2 * (a mod b) < b \/ a / b + 1 <= m) by nia.
  repeat case_match; rewrite ?Z.ltb_ge, ?Z.ltb_lt in *; lia.
Qed.

Lemma rne_div_pos a b : 0 < b -> 0 <= a -> 0 <= rne_div a b.
Proof. intros. apply rne_div_ge; lia. Qed.

(** Rounding to 53 bits keeps a number between two multiples of [2^k], when
    [k] is at least the rounding unit. *)
Lemma round53_between n k lo hi :
  0 < n -> Z.log2 n - 52 <= k -> 0 <= k -> lo * 2 ^ k <= n <= hi * 2 ^ k ->
  lo * 2 ^ k <= round53 n <= hi * 2 ^ k.
Proof.
  intros Hn Hk Hk0 [Hlo Hhi]. unfold round53. case_match eqn:E; [lia|].
  apply Z.leb_gt in E. set (sh := Z.log2 n - 52) in *.
  assert (Hp : 2 ^ k = 2 ^ (k - sh) * 2 ^ sh) by (rewrite <-Z.pow_add_r; [f_equal|..]; lia).
  assert (0 < 2 ^ sh) by (apply Z.pow_pos_nonneg; lia).
  rewrite Hp in *. rewrite !Z.mul_assoc in *.
  split; apply Z.mul_le_mono_nonneg_r; try lia.
  - by apply rne_div_ge.
  - by apply rne_div_le.
Qed.

Lemma frac_exp_range n : 0 <= n < Second -> 52 <= frac_exp n <= 104.
Proof.
  intros H. unfold frac_exp, Second in *.
  assert (0 <= n * 2 ^ 52 / 1000000000 < 2 ^ 52).
  { split; [apply Z.div_pos; lia|]. apply Z.div_lt_upper_bound; lia. }
  pose proof (Z.log2_nonneg (n * 2 ^ 52 / 1000000000)).
  assert (Z.log2 (n * 2 ^ 52 / 1000000000) <= 52); [|lia].
  pose proof (Z.log2_le_mono (n * 2 ^ 52 / 1000000000) (2 ^ 52) ltac:(lia)) as Hl.
  rewrite Z.log2_pow2 in Hl; lia.
Qed.

Lemma frac_mant_range n : 0 <= n < Second -> 0 <= frac_mant n <= 2 ^ frac_exp n.
Proof.
  intros H. unfold frac_mant. pose proof (frac_exp_range n H) as Hk.
  assert (0 < 2 ^ frac_exp n) by (apply Z.pow_pos_nonneg; lia).
  unfold Second in *. split; [apply rne_div_pos; nia|]. apply rne_div_le; nia.
Qed.

Lemma seconds_pos_between d lo hi :
  0 < d -> d < 2 ^ 63 -> lo <= d / Second ->
  d / Second * 2 ^ frac_exp (d mod Second) + frac_mant (d mod Second)
    <= hi * 2 ^ frac_exp (d mod Second) ->
  lo <= seconds_pos d <= hi.
Proof.
  intros Hd Hmax Hlo Hhi. unfold seconds_pos.
  set (n := d mod Second) in *. set (k := frac_exp n) in *. set (q := d / Second) in *.
  assert (Hn : 0 <= n < Second) by (apply Z.mod_pos_bound; done).
  pose proof (frac_exp_range n Hn) as Hk. pose proof (frac_mant_range n Hn) as Hm. fold k in Hk, Hm.
  assert (Hq : 0 <= q < 2 ^ 34).
  { unfold q, Second in *. split; [apply Z.div_pos; lia|]. apply Z.div_lt_upper_bound; lia. }
  assert (Hpk : 0 < 2 ^ k) by (apply Z.pow_pos_nonneg; lia).
  set (N := q * 2 ^ k + frac_mant n) in *.
  destruct (decide (N = 0)) as [HN|HN].
  { rewrite HN in *. assert (q = 0) by nia. assert (0 <= hi) by nia.
    unfold round53. simpl. rewrite Z.div_0_l by lia. lia. }
  assert (Hl : Z.log2 N - 52 <= k).
  { assert (N <= 2 ^ (35 + k)) as HNb by (rewrite Z.pow_add_r by lia; nia).
    apply Z.log2_le_mono in HNb. rewrite Z.log2_pow2 in HNb; lia. }
  destruct (round53_between N k q hi) as [H1 H2]; try lia.
  split.
  - etrans; [exact Hlo|]. apply Z.div_le_lower_bound; lia.
  - apply Z.div_le_upper_bound; lia.
Qed.

(** [int64(d.Seconds())] is the whole seconds of [d], or one more when
    [float64] rounds up to the next second; whole seconds are exact. *)
Lemma Seconds_bounds d : 0 <= d < 2 ^ 63 -> d / Second <= Seconds d <= d / Second + 1.
Proof.
  intros Hd. unfold Seconds. case_match eqn:E; [lia|]. clear E.
  destruct (decide (d = 0)) as [->|Hne]; [vm_compute; split; congruence|].
  assert (Hn : 0 <= d mod Second < Second) by (apply Z.mod_pos_bound; done).
  pose proof (frac_mant_range _ Hn). apply seconds_pos_between; try lia.
Qed.

Lemma frac_mant_0 : frac_mant 0 = 0.
Proof. reflexivity. Qed.

Lemma Seconds_exact n : 0 <= n < 2 ^ 33 -> Seconds (n * Second) = n.
Proof.
  intros Hn. destruct (decide (n = 0)) as [->|Hne]; [reflexivity|].
  assert (0 < n * Second < 2 ^ 63) by (unfold Second; lia).
  unfold Seconds. case_match eqn:E; [lia|]. clear E.
  assert (Hq : n * Second / Second = n) by (apply Z.div_mul; done).
  assert (Hr : (n * Second) mod Second = 0) by (apply Z.mod_mul; done).
  assert (n <= seconds_pos (n * Second) <= n); [|lia].
  apply seconds_pos_between; rewrite ?Hq, ?Hr, ?frac_mant_0; lia.
Qed.

Lemma of_seconds_id n : Z.abs n < 2 ^ 33 -> of_seconds n = n * Second.
Proof. intros H. apply wrap64_id. unfold int64, Second. lia. Qed.
