(* ===== verification/Crypto.v ===== *)
(** * Encodings and hashes from Go's standard library

    [base64.RawURLEncoding.EncodeToString] and [sha256.Sum256], the two the
    session manager uses to print identifiers and to fingerprint cookies. *)

From stdpp Require Import base strings list.
From Stdlib Require Import ZArith Lia Ascii.
From S2P Require Import Prelude GoStrings.

Definition ascii_of_Z (z : Z) : ascii := ascii_of_N (Z.to_N z).

(** ** [base64.RawURLEncoding] *)

Definition b64_char (n : Z) : ascii :=
  ascii_of_Z (if n <? 26 then 65 + n
              else if n <? 52 then 97 + (n - 26)
              else if n <? 62 then 48 + (n - 52)
              else if n =? 62 then 45 else 95)%Z.

Fixpoint base64_rawurl (s : string) : string :=
  match s with
  | String a (String b (String c s')) =>
      let n := (byte_val a * 65536 + byte_val b * 256 + byte_val c)%Z in
      String (b64_char (n / 262144)) (String (b64_char (n / 4096 mod 64))
        (String (b64_char (n / 64 mod 64)) (String (b64_char (n mod 64)) (base64_rawurl s'))))
  | String a (String b "") =>
      let n := (byte_val a * 65536 + byte_val b * 256)%Z in
      String (b64_char (n / 262144)) (String (b64_char (n / 4096 mod 64))
        (String (b64_char (n / 64 mod 64)) ""))
  | String a "" =>
      let n := (byte_val a * 65536)%Z in
      String (b64_char (n / 262144)) (String (b64_char (n / 4096 mod 64)) "")
  | "" => ""
  end.

(** ** SHA-256 (FIPS 180-4) *)

(** The constants are the first 32 bits of the fractional parts of the cube
    roots of the first 64 primes, and of the square roots of the first 8. *)
Definition is_prime (n : nat) : bool :=
  forallb (fun d => negb (bool_decide (n mod d = 0)%nat)) (seq 2 (n - 2)).
Definition primes : list Z := Eval vm_compute in
  Z.of_nat <$> filter (fun n => Is_true (is_prime n)) (seq 2 310).

(** The integer cube root, one bit at a time from bit [i]. *)
Fixpoint cbrt_from (i : nat) (acc n : Z) : Z :=
  let acc' := (acc + 2 ^ Z.of_nat i)%Z in
  let acc := if (acc' * acc' * acc' <=? n)%Z then acc' else acc in
  match i with 0 => acc | S i => cbrt_from i acc n end.

Definition sha_k : list Z := Eval vm_compute in
  (fun p => cbrt_from 40 0 (p * 2 ^ 96) mod 2 ^ 32)%Z <$> take 64 primes.
Definition sha_h0 : list Z := Eval vm_compute in
  (fun p => Z.sqrt (p * 2 ^ 64) mod 2 ^ 32)%Z <$> take 8 primes.

Definition w32 (z : Z) : Z := z mod 2 ^ 32.
Definition rotr (n x : Z) : Z := Z.lor (Z.shiftr x n) (w32 (Z.shiftl x (32 - n))).

Definition big_sigma0 x := Z.lxor (Z.lxor (rotr 2 x) (rotr 13 x)) (rotr 22 x).
Definition big_sigma1 x := Z.lxor (Z.lxor (rotr 6 x) (rotr 11 x)) (rotr 25 x).
Definition small_sigma0 x := Z.lxor (Z.lxor (rotr 7 x) (rotr 18 x)) (Z.shiftr x 3).
Definition small_sigma1 x := Z.lxor (Z.lxor (rotr 17 x) (rotr 19 x)) (Z.shiftr x 10).
Definition sha_ch x y z := Z.lxor (Z.land x y) (Z.land (2 ^ 32 - 1 - x) z).
Definition sha_maj x y z := Z.lxor (Z.lxor (Z.land x y) (Z.land x z)) (Z.land y z).

(** The schedule, newest word first: 16 message words extended [n] times. *)
Fixpoint sha_extend (n : nat) (w : list Z) : list Z :=
  match n with
  | 0 => w
  | S n' =>
      let at_ i := nth i w 0%Z in
      sha_extend n' (w32 (small_sigma1 (at_ 1) + at_ 6 + small_sigma0 (at_ 14) + at_ 15) :: w)
  end.

Definition sha_round (st : list Z) (kw : Z * Z) : list Z :=
  match st with
  | [a; b; c; d; e; f; g; h] =>
      let t1 := w32 (h + big_sigma1 e + sha_ch e f g + kw.1 + kw.2) in
      let t2 := w32 (big_sigma0 a + sha_maj a b c) in
      [w32 (t1 + t2); a; b; c; w32 (d + t1); e; f; g]
  | _ => st
  end.

Definition sha_block (h w : list Z) : list Z :=
  let ws := reverse (sha_extend 48 (reverse w)) in
  zip_with (fun x y => w32 (x + y)) h (foldl sha_round h (zip sha_k ws)).

Fixpoint bytes_of (s : string) : list Z :=
  match s with "" => [] | String c s' => byte_val c :: bytes_of s' end.
Definition string_of_bytes (l : list Z) : string :=
  foldr (fun b s => String (ascii_of_Z b) s) "" l.

(** Big-endian bytes of an [n]-byte integer, and back. *)
Fixpoint be_bytes (n : nat) (z : Z) : list Z :=
  match n with 0 => [] | S n' => (z / 256 ^ Z.of_nat n' mod 256)%Z :: be_bytes n' z end.
Definition be_word (l : list Z) : Z := foldl (fun acc b => (acc * 256 + b)%Z) 0%Z l.

Fixpoint chunks {A} (fuel n : nat) (l : list A) : list (list A) :=
  match fuel, l with
  | S fuel', _ :: _ => take n l :: chunks fuel' n (drop n l)
  | _, _ => []
  end.

(** Padding: [0x80], zeros to 56 mod 64, then the bit length in 8 bytes. *)
Definition sha_pad (msg : list Z) : list Z :=
  let len := length msg in
  let zeros := Z.to_nat ((55 - Z.of_nat len) mod 64) in
  msg ++ [0x80%Z] ++ replicate zeros 0%Z ++ be_bytes 8 (8 * Z.of_nat len)%Z.

Definition sha256 (s : string) : string :=
  let m := sha_pad (bytes_of s) in
  let blocks := chunks (length m) 64 m in
  let h := foldl (fun h b => sha_block h (be_word <$> chunks 16 4 b)) sha_h0 blocks in
  string_of_bytes (concat (be_bytes 4 <$> h)).

(** ** Lemmas *)

Definition hex_digit (z : Z) : ascii := ascii_of_Z (if z <? 10 then 48 + z else 87 + z)%Z.
Fixpoint hex (s : string) : string :=
  match s with
  | "" => ""
  | String c s' => String (hex_digit (byte_val c / 16)) (String (hex_digit (byte_val c mod 16)) (hex s'))
  end.

Example sha256_abc :
  hex (sha256 "abc") = "ba7816bf8f01cfea414140de5dae2223b00361a396177a9cb410ff61f20015ad".
Proof. vm_compute. reflexivity. Qed.

Example sha256_two_blocks :
  hex (sha256 "abcdbcdecdefdefgefghfghighijhijkijkljklmklmnlmnomnopnopq")
  = "248d6a61d20638b8e5c026930c3e6039a33ce45964ff2167f6ecedd419db06c1".
Proof. vm_compute. reflexivity. Qed.

Example base64_hello : base64_rawurl "hello?>" = "aGVsbG8_Pg".
Proof. vm_compute. reflexivity. Qed.

(** *** Base64 is injective: a decoder undoes it *)

Definition b64_val (c : ascii) : Z :=
  let n := byte_val c in
  (if (65 <=? n) && (n <=? 90) then n - 65
   else if (97 <=? n) && (n <=? 122) then n - 97 + 26
   else if (48 <=? n) && (n <=? 57) then n - 48 + 52
   else if n =? 45 then 62 else 63)%Z.

Fixpoint b64_decode (s : string) : string :=
  match s with
  | String c1 (String c2 s2) =>
      let x1 := b64_val c1 in let x2 := b64_val c2 in
      let a := ascii_of_Z (x1 * 4 + x2 / 16) in
      match s2 with
      | "" => String a ""
      | String c3 s3 =>
          let x3 := b64_val c3 in
          let b := ascii_of_Z ((x2 mod 16) * 16 + x3 / 4) in
          match s3 with
          | "" => String a (String b "")
          | String c4 s4 =>
              String a (String b (String (ascii_of_Z ((x3 mod 4) * 64 + b64_val c4)) (b64_decode s4)))
          end
      end
  | _ => ""
  end.

Definition below (n : nat) : list Z := Z.of_nat <$> seq 0 n.

Lemma forall_below (n : nat) (P : Z -> bool) :
  forallb P (below n) = true -> forall z, (0 <= z < Z.of_nat n)%Z -> P z = true.
Proof.
  rewrite forallb_forall. intros H z Hz. apply H.
  apply list_elem_of_In, list_elem_of_fmap. exists (Z.to_nat z).
  split; [lia|]. apply elem_of_seq. lia.
Qed.

Lemma b64_val_char n : (0 <= n < 64)%Z -> b64_val (b64_char n) = n.
Proof.
  intros H. apply Z.eqb_eq.
  by apply (forall_below 64 (fun n => b64_val (b64_char n) =? n)%Z).
Qed.

Lemma ascii_of_Z_byte a z : z = byte_val a -> ascii_of_Z z = a.
Proof. intros ->. unfold ascii_of_Z, byte_val. by rewrite N2Z.id, ascii_N_embedding. Qed.

(** Equations on bytes, by checking all 256 of them. *)
Lemma forall_ascii_eq {A} `{EqDecision A} (f g : ascii -> A) :
  forallb (fun z => bool_decide (f (ascii_of_Z z) = g (ascii_of_Z z))) (below 256) = true ->
  forall c, f c = g c.
Proof.
  intros H c. apply (forall_below 256 (fun z => bool_decide (f (ascii_of_Z z) = g (ascii_of_Z z))))
    with (z := byte_val c) in H; [|apply byte_val_range].
  apply bool_decide_eq_true in H. by rewrite (ascii_of_Z_byte c) in H.
Qed.

Lemma base64_decode_encode s : b64_decode (base64_rawurl s) = s.
Proof.
  induction s as [s IH] using (induction_ltof1 _ String.length).
  destruct s as [|a [|b [|c s]]]; [done|..];
    cbn [base64_rawurl b64_decode];
    pose proof (byte_val_range a); try pose proof (byte_val_range b);
    try pose proof (byte_val_range c);
    rewrite !b64_val_char by (Z.to_euclidean_division_equations; lia);
    repeat (apply f_equal2; [apply ascii_of_Z_byte; Z.to_euclidean_division_equations; lia|]);
    try done.
  apply IH. unfold ltof. simpl. lia.
Qed.

Lemma base64_inj s t : base64_rawurl s = base64_rawurl t -> s = t.
Proof. intros H. by rewrite <-(base64_decode_encode s), H, base64_decode_encode. Qed.

(** The alphabet: letters, digits, ['-'] and ['_']. *)
Definition b64_alphabet (c : ascii) : bool :=
  let n := byte_val c in
  (((65 <=? n) && (n <=? 90)) || ((97 <=? n) && (n <=? 122)) || ((48 <=? n) && (n <=? 57))
   || (n =? 45) || (n =? 95))%Z.

Fixpoint all_bytes (P : ascii -> bool) (s : string) : bool :=
  match s with "" => true | String c s' => P c && all_bytes P s' end.

Lemma b64_char_alphabet n : (0 <= n < 64)%Z -> b64_alphabet (b64_char n) = true.
Proof. apply (forall_below 64 (fun n => b64_alphabet (b64_char n))). by vm_compute. Qed.

Lemma base64_alphabet s : all_bytes b64_alphabet (base64_rawurl s) = true.
Proof.
  induction s as [s IH] using (induction_ltof1 _ String.length).
  destruct s as [|a [|b [|c s]]]; [done|..];
    cbn [base64_rawurl all_bytes];
    pose proof (byte_val_range a); try pose proof (byte_val_range b);
    try pose proof (byte_val_range c);
    rewrite !b64_char_alphabet by (Z.to_euclidean_division_equations; lia); try done.
  cbn [andb]. apply IH. unfold ltof. simpl. lia.
Qed.

Lemma base64_length s :
  Z.of_nat (String.length (base64_rawurl s)) = ((Z.of_nat (String.length s) * 8 + 5) / 6)%Z.
Proof.
  induction s as [s IH] using (induction_ltof1 _ String.length).
  destruct s as [|a [|b [|c s]]]; [done|done|done|].
  cbn [base64_rawurl String.length].
  specialize (IH s). unfold ltof in IH. simpl in IH. specialize (IH ltac:(lia)).
  Z.to_euclidean_division_equations; lia.
Qed.
