(* ===== verification/Filter.v ===== *)
(** * The cookie filter ([internal/filter/filter.go])

    Deny by default: a backend [Set-Cookie] is stored, forwarded or dropped. *)

From stdpp Require Import base gmap strings list.
From S2P Require Import Prelude.

Module Filter.

Inductive Decision := Drop | Forward | Store.

#[global] Instance Decision_eq_dec : EqDecision Decision.
Proof. solve_decision. Defined.

Record Filter := MkFilter { forward : gset string; store : gset string }.

(** A Go [map[string]struct{}] filled from a list. *)
Definition toSet (names : list string) : gset string :=
  foldl (fun s n => {[n]} ∪ s) ∅ names.

Definition New (forward store : list string) : Filter :=
  MkFilter (toSet forward) (toSet store).

Definition Decide (f : Filter) (name : string) : Decision :=
  if decide (name ∈ store f) then Store
  else if decide (name ∈ forward f) then Forward
  else Drop.

Lemma elem_of_foldl_set names acc n :
  n ∈ foldl (fun (s : gset string) n => {[n]} ∪ s) acc names <-> n ∈ acc \/ n ∈ names.
Proof.
  revert acc; induction names as [|x names IH]; intros acc; simpl; [set_solver|].
  rewrite IH. set_solver.
Qed.

Lemma elem_of_toSet names n : n ∈ toSet names <-> n ∈ names.
Proof. unfold toSet. rewrite elem_of_foldl_set. set_solver. Qed.

Lemma Decide_New fw st name :
  Decide (New fw st) name =
    if decide (name ∈ st) then Store else if decide (name ∈ fw) then Forward else Drop.
Proof.
  unfold Decide, New; simpl.
  rewrite !(decide_ext _ _ _ _ (elem_of_toSet _ name)). done.
Qed.

End Filter.
