(* ===== verification/Authz.v ===== *)
(** * Path-based authorization ([internal/authz/authz.go])

    [New] validates and compiles a policy, [Required] maps a request path to the
    label it must prove. *)

From stdpp Require Import base gmap strings list sorting.
From Stdlib Require Import ZArith Lia Ascii.
From S2P Require Import Prelude GoStrings GoPath.

Module Authz.

Definition Anonymous : string := "anonymous".

Record Rule := MkRule { Path : string; Label : string }.

Record Config := MkConfig {
  Rules : list Rule;
  DefaultLabel : string;
  AuthEndpoints : gmap string string;
  RedirectParam : string }.

Record Authz := MkAuthz {
  rules : list Rule;
  defaultLabel : string;
  endpoints : gmap string string;
  redirectParam : string }.

(** The errors [New] returns, with the values they print. *)
Inductive Error :=
| ErrRulePath (path : string)
| ErrEmptyLabel (path : string)
| ErrDuplicate (path : string)
| ErrNoEndpoint (label : string)
| ErrNotAbsolute (label ep : string)
| ErrRedirectLoop (ep label req : string).

(** The first loop of [New]: validate, clean and collect the rules. *)
Fixpoint compile_rules (seen : gset string) (rs : list Rule) : result Error (list Rule) :=
  match rs with
  | [] => Ok []
  | r :: rs' =>
      if negb (has_prefix (Path r) "/") then Err (ErrRulePath (Path r))
      else if decide (Label r = "") then Err (ErrEmptyLabel (Path r))
      else
        let p := clean (Path r) in
        if decide (p ∈ seen) then Err (ErrDuplicate p)
        else match compile_rules ({[p]} ∪ seen) rs' with
             | Ok out => Ok (MkRule p (Label r) :: out)
             | Err e => Err e
             end
  end.

(** The order of [sort.Slice]: longer paths first. *)
Definition longer (r r' : Rule) : Prop := String.length (Path r') <= String.length (Path r).

#[export] Instance longer_dec : RelDecision longer.
Proof. intros r r'. unfold longer. apply _. Defined.

Definition sort_rules (rs : list Rule) : list Rule := merge_sort longer rs.

(** [Required]'s loop body: does this rule govern the cleaned path [p]? *)
Definition rule_matches (p : string) (r : Rule) : bool :=
  bool_decide (Path r = "/") || bool_decide (p = Path r) || has_prefix p (Path r +:+ "/").

Fixpoint first_match (p : string) (rs : list Rule) : option Rule :=
  match rs with
  | [] => None
  | r :: rs' => if rule_matches p r then Some r else first_match p rs'
  end.

Definition Required (a : Authz) (reqPath : string) : string :=
  match first_match (clean ("/" +:+ reqPath)) (rules a) with
  | Some r => Label r
  | None => defaultLabel a
  end.

(** Reading a missing key of a Go map gives the zero value. *)
Definition Endpoint (a : Authz) (label : string) : string := default "" (endpoints a !! label).

Definition GetRedirectParam (a : Authz) : string := redirectParam a.

(** Every enforced label has an auth endpoint; the first that has none. *)
Fixpoint check_labels (a : Authz) (labels : list string) : option Error :=
  match labels with
  | [] => None
  | l :: labels' =>
      if decide (l = Anonymous) then check_labels a labels'
      else if decide (Endpoint a l = "") then Some (ErrNoEndpoint l)
      else check_labels a labels'
  end.

(** No auth endpoint itself requires a label; the first that does. *)
Fixpoint check_endpoints (a : Authz) (eps : list (string * string)) : option Error :=
  match eps with
  | [] => None
  | (label, ep) :: eps' =>
      if negb (has_prefix ep "/") then Some (ErrNotAbsolute label ep)
      else
        let req := Required a (before_byte "?"%char ep) in
        if decide (req = Anonymous) then check_endpoints a eps'
        else Some (ErrRedirectLoop ep label req)
  end.

(** The labels the policy enforces: the keys of [used]. *)
Definition used_labels (a : Authz) : gset string :=
  foldl (fun s r => {[Label r]} ∪ s) {[defaultLabel a]} (rules a).

Definition New (cfg : Config) : result Error Authz :=
  let dl := if decide (DefaultLabel cfg = "") then Anonymous else DefaultLabel cfg in
  let rp := if decide (RedirectParam cfg = "") then "rd" else RedirectParam cfg in
  match compile_rules ∅ (Rules cfg) with
  | Err e => Err e
  | Ok rs =>
      let a := MkAuthz (sort_rules rs) dl (AuthEndpoints cfg) rp in
      match check_labels a (elements (used_labels a)) with
      | Some e => Err e
      | None =>
          match check_endpoints a (map_to_list (endpoints a)) with
          | Some e => Err e
          | None => Ok a
          end
      end
  end.

(** ** Specification: longest covering rule, by path segments *)

Definition covers (r : Rule) (reqPath : string) : Prop :=
  segs (Path r) `prefix_of` segs ("/" +:+ reqPath).

Definition longest_match (rs : list Rule) (reqPath : string) (r : Rule) : Prop :=
  r ∈ rs /\ covers r reqPath /\
  forall r', r' ∈ rs -> covers r' reqPath ->
    length (segs (Path r')) <= length (segs (Path r)).

(** ** The compiled rules *)

Definition compiled (r : Rule) : Rule := MkRule (clean (Path r)) (Label r).

Definition wf_rule (r : Rule) : Prop := exists l, Forall plain l /\ Path r = rooted_path l.

Lemma compile_rules_Ok seen rs out :
  compile_rules seen rs = Ok out <->
    out = compiled <$> rs /\ Forall (fun r => has_prefix (Path r) "/" = true) rs
    /\ Forall (fun r => Label r <> "") rs
    /\ NoDup (Path <$> out) /\ Forall (fun r => Path r ∉ seen) out.
Proof.
  revert seen out; induction rs as [|r rs IH]; intros seen out; simpl.
  { split; [intros [= <-]|intros [-> _]; done]. repeat constructor. }
  destruct (has_prefix (Path r) "/") eqn:Hp; simpl;
    [|split; [done|]; intros (_ & H & _); inversion H; congruence].
  case_decide as Hl; [split; [done|]; intros (_ & _ & H & _); by inversion H|].
  case_decide as Hs; [split; [done|]; intros (-> & _ & _ & _ & H); by inversion H|].
  specialize (IH ({[clean (Path r)]} ∪ seen)).
  destruct (compile_rules _ rs) as [out'|e].
  - destruct (proj1 (IH out') eq_refl) as (-> & H1 & H2 & H3 & H4).
    split; [intros [= <-]|intros [-> _]; done].
    rewrite !Forall_cons, fmap_cons, NoDup_cons. split_and!; try done.
    + intros (r' & Hr' & Hin)%list_elem_of_fmap. rewrite Forall_forall in H4.
      specialize (H4 r' Hin). simpl in Hr'. set_solver.
    + eapply Forall_impl; [exact H4|]. set_solver.
  - split; [done|]. intros (-> & H1 & H2 & H3 & H4). exfalso.
    rewrite fmap_cons in *. rewrite NoDup_cons in H3.
    apply Forall_cons in H1 as [_ H1], H2 as [_ H2], H4 as [_ H4]. destruct H3 as [H3 H3'].
    enough (Err e = Ok (compiled <$> rs)) by done. apply IH.
    split_and!; try done. rewrite Forall_forall in *.
    intros r' Hin. specialize (H4 r' Hin).
    assert (Path r' <> clean (Path r)); [|set_solver].
    intros Heq. apply H3. simpl. rewrite <-Heq. by apply list_elem_of_fmap_2.
Qed.

Lemma compiled_wf r : has_prefix (Path r) "/" = true -> wf_rule (compiled r).
Proof. intros H. exists (segs (Path r)). split; [apply segs_plain|]. by apply clean_rooted. Qed.

Lemma segs_compiled r : has_prefix (Path r) "/" = true -> segs (Path (compiled r)) = segs (Path r).
Proof. intros H. simpl. rewrite clean_rooted by done. apply segs_rooted, segs_plain. Qed.

(** The string test of [Required] decides [covers] on compiled rules. *)
Lemma rule_matches_covers r reqPath :
  wf_rule r -> rule_matches (clean ("/" +:+ reqPath)) r = true <-> covers r reqPath.
Proof.
  intros (l & Hl & Hr). unfold rule_matches, covers.
  rewrite clean_rooted by (apply has_prefix_spec; by eexists).
  rewrite !orb_true_iff, !bool_decide_eq_true, Hr, segs_rooted by done.
  rewrite <-covers_prefix by auto using segs_plain. tauto.
Qed.

#[export] Instance longer_total : Total longer.
Proof. intros r r'. unfold longer. lia. Qed.
#[export] Instance longer_trans : Transitive longer.
Proof. intros r1 r2 r3. unfold longer. lia. Qed.

Lemma sort_rules_perm rs : sort_rules rs ≡ₚ rs.
Proof. apply merge_sort_Permutation. Qed.
Lemma sort_rules_sorted rs : StronglySorted longer (sort_rules rs).
Proof. apply (StronglySorted_merge_sort longer). Qed.

Lemma first_match_None p rs : first_match p rs = None -> forall r, r ∈ rs -> rule_matches p r = false.
Proof.
  induction rs as [|r rs IH]; simpl; [intros _ r; by rewrite elem_of_nil|].
  destruct (rule_matches p r) eqn:E; [done|].
  intros H r' [->|Hr']%elem_of_cons; [done|]. by apply IH.
Qed.

Lemma first_match_Some p rs r :
  StronglySorted longer rs -> first_match p rs = Some r ->
  r ∈ rs /\ rule_matches p r = true /\
  forall r', r' ∈ rs -> rule_matches p r' = true -> longer r r'.
Proof.
  induction 1 as [|r0 rs Hs IH Hall]; simpl; [done|].
  destruct (rule_matches p r0) eqn:E.
  - intros [= ->]. split_and!; [set_solver|done|].
    intros r' [->|Hr']%elem_of_cons _; [unfold longer; lia|].
    rewrite Forall_forall in Hall. by apply Hall.
  - intros (H1 & H2 & H3)%IH. split_and!; [set_solver|done|].
    intros r' [->|Hr']%elem_of_cons ?; [congruence|]. by apply H3.
Qed.

(** Of two rules covering the same path, the longer string has more segments. *)
Lemma covers_longer r r' reqPath :
  wf_rule r -> wf_rule r' -> covers r reqPath -> covers r' reqPath -> longer r r' ->
  length (segs (Path r')) <= length (segs (Path r)).
Proof.
  unfold covers, longer. intros (l & Hl & ->) (l' & Hl' & ->).
  rewrite !segs_rooted by done. intros Hc Hc' Hlen.
  destruct (decide (length l' <= length l)) as [|Hgt]; [done|].
  destruct (prefix_weak_total _ _ _ Hc Hc') as [[k ->]|[k ->]];
    [|rewrite length_app in Hgt; lia].
  assert (k <> []) by (intros ->; rewrite app_nil_r in Hgt; lia).
  apply Forall_app in Hl' as [_ Hk].
  pose proof (rooted_path_length_app l k Hl Hk H). lia.
Qed.

Lemma longest_match_unique rs reqPath r r' :
  Forall wf_rule rs -> NoDup (Path <$> rs) ->
  longest_match rs reqPath r -> longest_match rs reqPath r' -> r = r'.
Proof.
  intros Hwf Hnd (Hin & Hc & Hmax) (Hin' & Hc' & Hmax').
  assert (Hp : Path r = Path r').
  { specialize (Hmax r' Hin' Hc'). specialize (Hmax' r Hin Hc).
    rewrite Forall_forall in Hwf.
    destruct (Hwf r Hin) as (l & Hl & Hr), (Hwf r' Hin') as (l' & Hl' & Hr').
    unfold covers in Hc, Hc'. rewrite Hr, Hr' in *. rewrite !segs_rooted in * by done.
    destruct (prefix_weak_total _ _ _ Hc Hc') as [[k ->]|[k ->]];
      rewrite length_app in *; destruct k; simpl in *; try lia; by rewrite app_nil_r. }
  apply list_elem_of_lookup in Hin as [i Hi]. apply list_elem_of_lookup in Hin' as [j Hj].
  assert (i = j) as ->; [|congruence].
  eapply (NoDup_lookup (Path <$> rs)); [done|..]; rewrite list_lookup_fmap.
  - by rewrite Hi.
  - rewrite Hj. simpl. by rewrite Hp.
Qed.

(** [Required] on any longest-first list of compiled rules. *)
Lemma required_sorted a reqPath :
  Forall wf_rule (rules a) -> StronglySorted longer (rules a) ->
  (exists r, longest_match (rules a) reqPath r /\ Required a reqPath = Label r) \/
  ((forall r, r ∈ rules a -> ~ covers r reqPath) /\ Required a reqPath = defaultLabel a).
Proof.
  intros Hwf Hs. unfold Required. rewrite Forall_forall in Hwf.
  destruct (first_match _ (rules a)) as [r|] eqn:E.
  - left. exists r. split; [|done].
    destruct (first_match_Some _ _ _ Hs E) as (Hin & Hm & Hmax).
    apply rule_matches_covers in Hm; [|auto]. split_and!; [done..|].
    intros r' Hin' Hc'. apply (covers_longer r r' reqPath); auto.
    apply Hmax; [done|]. apply rule_matches_covers; auto.
  - right. split; [|done]. intros r Hin Hc.
    apply rule_matches_covers in Hc; [|auto].
    by rewrite (first_match_None _ _ E r Hin) in Hc.
Qed.

(** ** Compilation succeeds exactly on valid configurations *)

Lemma check_labels_None a labels :
  check_labels a labels = None <-> Forall (fun l => l <> Anonymous -> Endpoint a l <> "") labels.
Proof.
  induction labels as [|l labels IH]; simpl; [by rewrite Forall_nil|].
  rewrite Forall_cons, <-IH. repeat case_decide; tauto || (split; [done|tauto]).
Qed.

Definition endpoint_ok (a : Authz) (ep : string) : Prop :=
  has_prefix ep "/" = true /\ Required a (before_byte "?"%char ep) = Anonymous.

Lemma check_endpoints_None a eps :
  check_endpoints a eps = None <-> Forall (fun le => endpoint_ok a le.2) eps.
Proof.
  unfold endpoint_ok. induction eps as [|[l ep] eps IH]; simpl; [by rewrite Forall_nil|].
  rewrite Forall_cons, <-IH. simpl. destruct (has_prefix ep "/"); simpl.
  - case_decide; [tauto|]. split; [done|tauto].
  - split; [done|]. by intros [[? _] _].
Qed.

Lemma elem_of_used_labels a l :
  l ∈ used_labels a <-> l = defaultLabel a \/ exists r, r ∈ rules a /\ Label r = l.
Proof.
  unfold used_labels.
  enough (H : forall acc : gset string,
    l ∈ foldl (fun s r => {[Label r]} ∪ s) acc (rules a)
    <-> l ∈ acc \/ exists r, r ∈ rules a /\ Label r = l) by (rewrite H; set_solver).
  induction (rules a) as [|r rs IH]; intros acc; simpl; [set_solver|].
  rewrite IH. set_solver.
Qed.

(** The policy [New] would return, before the two checks on endpoints. *)
Definition candidate (cfg : Config) : Authz :=
  MkAuthz (sort_rules (compiled <$> Rules cfg))
    (if decide (DefaultLabel cfg = "") then Anonymous else DefaultLabel cfg)
    (AuthEndpoints cfg)
    (if decide (RedirectParam cfg = "") then "rd" else RedirectParam cfg).

Definition valid_rules (rs : list Rule) : Prop :=
  Forall (fun r => has_prefix (Path r) "/" = true) rs /\ Forall (fun r => Label r <> "") rs
  /\ NoDup (Path <$> (compiled <$> rs)).

Lemma New_Ok cfg a :
  New cfg = Ok a <->
    a = candidate cfg /\ valid_rules (Rules cfg)
    /\ (forall l, l ∈ used_labels a -> l <> Anonymous -> Endpoint a l <> "")
    /\ (forall l ep, endpoints a !! l = Some ep -> endpoint_ok a ep).
Proof.
  unfold New, valid_rules. destruct (compile_rules ∅ (Rules cfg)) as [rs|e] eqn:E.
  - apply compile_rules_Ok in E as (-> & H1 & H2 & H3 & _). fold (candidate cfg).
    pose proof (check_labels_None (candidate cfg) (elements (used_labels (candidate cfg)))) as HL.
    pose proof (check_endpoints_None (candidate cfg)
      (map_to_list (endpoints (candidate cfg)))) as HE.
    rewrite Forall_forall in HL. setoid_rewrite elem_of_elements in HL.
    assert (HE' : Forall (fun le => endpoint_ok (candidate cfg) le.2)
        (map_to_list (endpoints (candidate cfg)))
      <-> forall l ep, endpoints (candidate cfg) !! l = Some ep -> endpoint_ok (candidate cfg) ep).
    { rewrite Forall_forall.
      split; [intros H l ep Hl; by apply (H (l, ep)), elem_of_map_to_list|].
      intros H [l ep] Hl%elem_of_map_to_list. by eapply H. }
    rewrite HE' in HE. clear HE'. destruct (check_labels _ _) as [e|].
    { split; [done|]. intros (-> & _ & H & _). by apply HL in H. }
    destruct (check_endpoints _ _) as [e|].
    { split; [done|]. intros (-> & _ & _ & H). by apply HE in H. }
    split; [intros [= <-]|intros [-> _]; done]. split_and!; try done; [by apply HL|by apply HE].
  - split; [done|]. intros (_ & (H1 & H2 & H3) & _).
    enough (compile_rules ∅ (Rules cfg) = Ok (compiled <$> Rules cfg)) by congruence.
    apply compile_rules_Ok. split_and!; try done. apply Forall_forall. set_solver.
Qed.

Lemma candidate_wf cfg :
  valid_rules (Rules cfg) ->
  Forall wf_rule (rules (candidate cfg)) /\ StronglySorted longer (rules (candidate cfg))
  /\ NoDup (Path <$> rules (candidate cfg)).
Proof.
  intros (H1 & _ & H3). simpl. split_and!.
  - rewrite sort_rules_perm. apply Forall_fmap. eapply Forall_impl; [exact H1|].
    intros r Hr. by apply compiled_wf.
  - apply sort_rules_sorted.
  - by rewrite sort_rules_perm.
Qed.

Lemma elem_of_candidate cfg r :
  r ∈ rules (candidate cfg) <-> exists r0, r = compiled r0 /\ r0 ∈ Rules cfg.
Proof. simpl. by rewrite sort_rules_perm, list_elem_of_fmap. Qed.

Lemma covers_compiled r reqPath :
  has_prefix (Path r) "/" = true -> covers (compiled r) reqPath <-> covers r reqPath.
Proof. intros H. unfold covers. by rewrite segs_compiled. Qed.

(** The answer of [Required] does not depend on the order the rules were listed
    in, nor on which longest-first permutation the sort produced. *)
Lemma required_perm a a' reqPath :
  rules a ≡ₚ rules a' -> defaultLabel a = defaultLabel a' ->
  Forall wf_rule (rules a) -> NoDup (Path <$> rules a) ->
  StronglySorted longer (rules a) -> StronglySorted longer (rules a') ->
  Required a reqPath = Required a' reqPath.
Proof.
  intros Hp Hd Hwf Hnd Hs Hs'.
  destruct (required_sorted a reqPath) as [(r & Hr & ->)|[Hn ->]]; [done..| |];
    destruct (required_sorted a' reqPath) as [(r' & Hr' & ->)|[Hn' ->]]; try done;
    try (by rewrite <-Hp).
  - f_equal. apply (longest_match_unique (rules a) reqPath); try done.
    destruct Hr' as (H1 & H2 & H3). split_and!; [by rewrite Hp|done|].
    intros r2 Hr2. apply H3. by rewrite <-Hp.
  - destruct Hr as (H1 & H2 & _). exfalso. apply (Hn' r); [by rewrite <-Hp|done].
  - destruct Hr' as (H1 & H2 & _). exfalso. apply (Hn r'); [by rewrite Hp|done].
Qed.

Lemma candidate_perm cfg cfg' reqPath :
  Rules cfg ≡ₚ Rules cfg' -> DefaultLabel cfg = DefaultLabel cfg' -> valid_rules (Rules cfg) ->
  Required (candidate cfg) reqPath = Required (candidate cfg') reqPath.
Proof.
  intros Hp Hd Hv. destruct (candidate_wf cfg Hv) as (H1 & H2 & H3).
  apply required_perm; try done; simpl.
  - by rewrite !sort_rules_perm, Hp.
  - by rewrite Hd.
  - apply sort_rules_sorted.
Qed.

Lemma used_label_required a reqPath : Required a reqPath ∈ used_labels a.
Proof.
  apply elem_of_used_labels. unfold Required.
  destruct (first_match _ _) as [r|] eqn:E; [right|by left]. exists r. split; [|done].
  revert E. induction (rules a) as [|r0 rs IH]; simpl; [done|].
  case_match; [intros [= ->]; by left|]. intros Hm%IH. by right.
Qed.

(** ** Theorems *)

(** C40: [Required] returns the label of the configured rule with the longest
    run of path segments leading the request path, and the default label when
    no rule covers it; matching is by whole segments of the cleaned path, so
    ["/admin"] governs ["/admin/users"] and never ["/administrator"]. *)
Theorem required_longest_prefix cfg a reqPath :
  New cfg = Ok a ->
  (exists r, longest_match (Rules cfg) reqPath r /\ Required a reqPath = Label r) \/
  ((forall r, r ∈ Rules cfg -> ~ covers r reqPath) /\ Required a reqPath = defaultLabel a).
Proof.
  intros (-> & Hv & _)%New_Ok. destruct (candidate_wf cfg Hv) as (H1 & H2 & _).
  destruct Hv as (Hr & _). rewrite Forall_forall in Hr.
  destruct (required_sorted (candidate cfg) reqPath H1 H2) as [(r & Hm & ->)|[Hn ->]].
  - left. destruct Hm as (Hin & Hc & Hmax). apply elem_of_candidate in Hin as (r0 & -> & Hin).
    exists r0. split; [|done]. split_and!; [done|by apply covers_compiled; auto|].
    intros r' Hin' Hc'. rewrite <-(segs_compiled r'), <-(segs_compiled r0) by auto.
    apply Hmax; [apply elem_of_candidate; eauto|]. apply covers_compiled; auto.
  - right. split; [|done]. intros r Hin Hc. apply (Hn (compiled r)).
    + apply elem_of_candidate; eauto.
    + apply covers_compiled; auto.
Qed.

Definition demo_cfg : Config :=
  MkConfig [MkRule "/auth" "anonymous"; MkRule "/admin" "adm"; MkRule "/admin/public/" "default"]
    "default" (<["default":="/auth/login"]> (<["adm":="/auth/mfa?x=1"]> ∅)) "".

Lemma required_longest_prefix_witness :
  exists a, New demo_cfg = Ok a /\ Required a "admin//x/../users" = "adm"
  /\ ((exists r, longest_match (Rules demo_cfg) "admin/users" r /\ Required a "admin/users" = Label r) \/
      ((forall r, r ∈ Rules demo_cfg -> ~ covers r "admin/users")
        /\ Required a "admin/users" = defaultLabel a)).
Proof.
  eexists. split; [vm_compute; reflexivity|]. split; [vm_compute; reflexivity|].
  apply required_longest_prefix. vm_compute; reflexivity.
Defined.

(** A configuration is accepted or rejected, and answers every request,
    independently of the order its rules are written in. *)
Theorem new_order_independent cfg cfg' a :
  Rules cfg ≡ₚ Rules cfg' -> DefaultLabel cfg = DefaultLabel cfg' ->
  AuthEndpoints cfg = AuthEndpoints cfg' -> New cfg = Ok a ->
  exists a', New cfg' = Ok a' /\ forall reqPath, Required a' reqPath = Required a reqPath.
Proof.
  intros Hp Hd He (-> & Hv & HL & HE)%New_Ok.
  assert (HR : forall p, Required (candidate cfg') p = Required (candidate cfg) p)
    by (intros p; symmetry; by apply candidate_perm).
  exists (candidate cfg'). split; [|done]. apply New_Ok.
  assert (HEp : forall l, Endpoint (candidate cfg') l = Endpoint (candidate cfg) l)
    by (intros l; unfold Endpoint; simpl; by rewrite He).
  split_and!; [done|..].
  - destruct Hv as (H1 & H2 & H3). split_and!.
    + rewrite Forall_forall in *. intros r Hr. apply H1. by rewrite Hp.
    + rewrite Forall_forall in *. intros r Hr. apply H2. by rewrite Hp.
    + eapply NoDup_Permutation_proper; [|exact H3].
      by apply fmap_Permutation, fmap_Permutation.
  - intros l Hl Hne. rewrite HEp. apply HL; [|done].
    apply elem_of_used_labels. apply elem_of_used_labels in Hl as [->|(r & Hr & <-)].
    + left. simpl. by rewrite Hd.
    + right. exists r. split; [|done]. revert Hr. simpl. by rewrite !sort_rules_perm, Hp.
  - intros l ep. simpl. rewrite <-He. intros Hl. destruct (HE l ep Hl) as [H1 H2].
    split; [done|]. by rewrite HR.
Qed.

Lemma new_order_independent_witness :
  exists a a', New demo_cfg = Ok a /\
    New (MkConfig (reverse (Rules demo_cfg)) "default" (AuthEndpoints demo_cfg) "") = Ok a'
    /\ forall reqPath, Required a' reqPath = Required a reqPath.
Proof.
  eexists.
  destruct (new_order_independent demo_cfg
    (MkConfig (reverse (Rules demo_cfg)) "default" (AuthEndpoints demo_cfg) "") (candidate demo_cfg))
    as (a' & H1 & H2).
  - symmetry. apply reverse_Permutation.
  - reflexivity.
  - reflexivity.
  - vm_compute; reflexivity.
  - exists a'. split; [|split; [exact H1|exact H2]]. vm_compute; reflexivity.
Defined.

(** In an accepted policy every request path that needs a label has
    somewhere to send the client, an absolute path whose own path part needs no
    label: a denied client is never bounced in a loop. *)
Theorem no_redirect_loop cfg a reqPath :
  New cfg = Ok a -> Required a reqPath <> Anonymous ->
  let ep := Endpoint a (Required a reqPath) in
  has_prefix ep "/" = true /\ Required a (before_byte "?"%char ep) = Anonymous.
Proof.
  intros (-> & _ & HL & HE)%New_Ok Hne ep.
  specialize (HL _ (used_label_required (candidate cfg) reqPath) Hne).
  unfold Endpoint in *. destruct (endpoints (candidate cfg) !! _) as [e|] eqn:E; [|done].
  by apply (HE _ _ E).
Qed.

Lemma no_redirect_loop_witness :
  exists a, New demo_cfg = Ok a /\ Required a "admin/users" <> Anonymous
  /\ has_prefix (Endpoint a (Required a "admin/users")) "/" = true.
Proof.
  eexists. split; [vm_compute; reflexivity|]. split; [vm_compute; discriminate|].
  eapply (no_redirect_loop demo_cfg _ "admin/users"); [vm_compute; reflexivity|vm_compute; discriminate].
Defined.

End Authz.
