(* ===== verification/StoreApi.v ===== *)
(** * The persistence contract ([internal/store/store.go]) and programs over it

    The rows of the store, the operations of the [Store] interface, and the
    programs that the session manager builds out of those operations, the clock
    and the random source. *)

From stdpp Require Import base gmap strings list.
From Stdlib Require Import ZArith Lia.
From S2P Require Import Prelude.

(** ** Errors

    [ErrNotFound] and [ErrConflict] are the store's sentinels, [ErrLockContended]
    the manager's; [ErrRand] is a failed read of the random source, and
    [ErrBackend] any other failure a store reports (transport, script error). *)

Inductive error :=
| ErrNotFound
| ErrConflict
| ErrLockContended
| ErrRand
| ErrBackend (msg : string).

#[export] Instance error_eq_dec : EqDecision error.
Proof. solve_decision. Defined.

Notation res A := (result error A).

(** ** Rows *)

Record Session := MkSession {
  ID : string;
  Creation : Z;
  LastAccess : Z;
  InactiveTimeout : Z;
  FinalTimeout : Z;
  OwnerID : Z;
  LastRotation : Z;
  Labels : string }.

#[export] Instance Session_eq_dec : EqDecision Session.
Proof. solve_decision. Defined.

Record CookieMutation := MkCookieMutation {
  cm_Name : string;
  cm_Value : string;
  cm_SHA : string;
  cm_Delete : bool }.

Record SessionControls := MkControls {
  c_SetOwner : bool;
  c_OwnerID : Z;
  c_SetLabels : bool;
  c_Labels : string;
  c_LastAccess : Z;
  c_LastRotation : Z;
  c_OldKeyID : string;
  c_NewKeyID : string;
  c_Rotate : bool;
  c_Cookies : list CookieMutation }.

(** Field updates (Go assignments [s.F = v] on a copy of the row). *)
Definition with_LastAccess (v : Z) (s : Session) : Session :=
  MkSession (ID s) (Creation s) v (InactiveTimeout s) (FinalTimeout s) (OwnerID s)
    (LastRotation s) (Labels s).
Definition with_LastRotation (v : Z) (s : Session) : Session :=
  MkSession (ID s) (Creation s) (LastAccess s) (InactiveTimeout s) (FinalTimeout s) (OwnerID s)
    v (Labels s).
Definition with_OwnerID (v : Z) (s : Session) : Session :=
  MkSession (ID s) (Creation s) (LastAccess s) (InactiveTimeout s) (FinalTimeout s) v
    (LastRotation s) (Labels s).
Definition with_Labels (v : string) (s : Session) : Session :=
  MkSession (ID s) (Creation s) (LastAccess s) (InactiveTimeout s) (FinalTimeout s) (OwnerID s)
    (LastRotation s) v.

(** ** The [Store] interface

    One constructor per method; durations are in nanoseconds ([time.Duration]).
    [Lock] returns the token its unlock closure captured, [None] when the lock
    is held; [Unlock] is the call of that closure. *)

Inductive store_op :=
| PutSession (s : Session) (ttl : Z)
| TouchSession (sid kid : string) (lastAccess legacyRotation ttl : Z)
| ApplySessionControls (sid : string) (c : SessionControls) (sessionTTL ownerIndexTTL : Z)
| RotateSessionKey (sid oldKey newKey : string) (lastRotation ttl : Z)
| GetSession (sid : string)
| DeleteSession (sid : string)
| PutKey (kid sid : string) (ttl : Z)
| ReplaceKey (oldKey newKey sid : string) (ttl : Z)
| GetKey (kid : string)
| DeleteKey (kid : string)
| GetCookies (sid : string)
| CookieSHAs (sid : string)
| PutCookie (sid name value sha : string)
| DeleteCookie (sid name : string)
| AddOwnerIndex (owner : Z) (sid : string) (ttl : Z)
| RemoveOwnerIndex (owner : Z) (sid : string)
| OwnerSessions (owner : Z)
| ReassignOwner (s : Session) (sessionTTL ownerIndexTTL : Z)
| DeleteSessionByOwner (owner : Z) (sid : string)
| Lock (sid : string) (ttl : Z)
| Unlock (sid token : string).

Definition store_ret (o : store_op) : Type :=
  match o with
  | GetSession _ => res Session
  | GetKey _ => res string
  | GetCookies _ | CookieSHAs _ => res (gmap string string)
  | OwnerSessions _ => res (list string)
  | DeleteSessionByOwner _ _ => res bool
  | Lock _ _ => res (option string)
  | _ => option error
  end.

(** An implementation of the interface over a state [S]; every method is atomic
    (a mutex in Memory, one command or one script in Redis). *)
Class Store (S : Type) := exec : forall o : store_op, S -> store_ret o * S.

(** A method call that fails with [e]. *)
Definition fail_with (e : error) (o : store_op) : store_ret o :=
  match o with
  | GetSession _ | GetKey _ | GetCookies _ | CookieSHAs _ | OwnerSessions _
  | DeleteSessionByOwner _ _ | Lock _ _ => Err e
  | _ => Some e
  end.

(** ** Programs

    A program is a tree of atomic actions: a store method, a read of the clock
    (nanoseconds since the epoch), or [io.ReadFull] of [n] random bytes. *)

Inductive op :=
| OStore (o : store_op)
| ONow
| ORand (n : nat).

Definition op_ret (o : op) : Type :=
  match o with
  | OStore o => store_ret o
  | ONow => Z
  | ORand _ => res string
  end.

Inductive prog (A : Type) : Type :=
| Ret (a : A)
| Do (o : op) (k : op_ret o -> prog A).
Arguments Ret {A} a.
Arguments Do {A} o k.

Fixpoint bind {A B} (p : prog A) (f : A -> prog B) : prog B :=
  match p with
  | Ret a => f a
  | Do o k => Do o (fun r => bind (k r) f)
  end.

Definition call (o : store_op) : prog (store_ret o) := Do (OStore o) Ret.
Definition now : prog Z := Do ONow Ret.
Definition read_rand (n : nat) : prog (res string) := Do (ORand n) Ret.

Declare Scope prog_scope.
Delimit Scope prog_scope with prog.
Bind Scope prog_scope with prog.
Notation "'let*' x ':=' p 'in' q" := (bind p (fun x => q))
  (at level 100, x pattern, p at level 200, q at level 200, right associativity) : prog_scope.

(** ** Sequential execution *)

Record world (S : Type) := MkWorld { w_store : S; w_clock : Z; w_rng : string }.
Arguments MkWorld {S} w_store w_clock w_rng.
Arguments w_store {S} w.
Arguments w_clock {S} w.
Arguments w_rng {S} w.

(** [io.ReadFull]: the first [n] bytes, or an error that drains the reader. *)
Fixpoint take_bytes (n : nat) (s : string) : option (string * string) :=
  match n, s with
  | 0, _ => Some ("", s)
  | S n', String c s' =>
      match take_bytes n' s' with
      | Some (a, b) => Some (String c a, b)
      | None => None
      end
  | S _, EmptyString => None
  end.

Lemma take_bytes_long n s :
  n <= String.length s ->
  exists b rest, take_bytes n s = Some (b, rest).
Proof.
  revert s; induction n as [|n IH]; intros s H; [by exists "", s|].
  destruct s as [|c s]; simpl in H; [lia|]. destruct (IH s) as (b & rest & E); [lia|].
  exists (String c b), rest. simpl. by rewrite E.
Qed.

Lemma take_bytes_length n s b rest : take_bytes n s = Some (b, rest) -> String.length b = n.
Proof.
  revert s b; induction n as [|n IH]; intros s b; simpl; [by intros [= <- _]|].
  destruct s as [|c s]; [done|]. destruct (take_bytes n s) as [[b' r']|] eqn:E; [|done].
  intros [= <- <-]. simpl. f_equal. eauto.
Qed.

Section Run.
Context {S : Type} `{Store S}.

Definition step (o : op) (w : world S) : op_ret o * world S :=
  match o with
  | OStore o =>
      let '(r, s) := exec o (w_store w) in (r, MkWorld s (w_clock w) (w_rng w))
  | ONow => (w_clock w, w)
  | ORand n =>
      match take_bytes n (w_rng w) with
      | Some (b, rest) => (Ok b, MkWorld (w_store w) (w_clock w) rest)
      | None => (Err ErrRand, MkWorld (w_store w) (w_clock w) "")
      end
  end.

Fixpoint run {A} (p : prog A) (w : world S) : A * world S :=
  match p with
  | Ret a => (a, w)
  | Do o k => let '(r, w') := step o w in run (k r) w'
  end.

(** The store methods a run calls, in order. *)
Fixpoint calls {A} (p : prog A) (w : world S) : list store_op :=
  match p with
  | Ret _ => []
  | Do o k =>
      let '(r, w') := step o w in
      match o with OStore so => so :: calls (k r) w' | _ => calls (k r) w' end
  end.

Lemma run_bind {A B} (p : prog A) (f : A -> prog B) w :
  run (bind p f) w = let '(a, w') := run p w in run (f a) w'.
Proof.
  revert w; induction p as [a|o k IH]; intros w; [done|]. cbn [bind run].
  destruct (step o w) as [r w']. apply IH.
Qed.

Lemma calls_bind {A B} (p : prog A) (f : A -> prog B) w :
  calls (bind p f) w = calls p w ++ let '(a, w') := run p w in calls (f a) w'.
Proof.
  revert w; induction p as [a|o k IH]; intros w; [done|]. cbn [bind run calls].
  destruct (step o w) as [r w']. rewrite IH. by destruct o.
Qed.
End Run.
