(* ===== verification/Memory.v ===== *)
(** * The in-memory store ([internal/store/memory.go])

    Maps guarded by one mutex, so every method is one atomic step on the record
    below.  TTLs are ignored, as in the source. *)

From stdpp Require Import base gmap strings list.
From Stdlib Require Import ZArith Lia.
From S2P Require Import Prelude StoreApi.

Module Memory.

Record Memory := MkMemory {
  sessions : gmap string Session;
  keys : gmap string string;
  cookies : gmap string (gmap string string);
  shas : gmap string (gmap string string);
  owners : gmap Z (gset string);
  locks : gset string }.

Definition NewMemory : Memory := MkMemory ∅ ∅ ∅ ∅ ∅ ∅.

(** Assignments to one field of [*m]. *)
Definition set_sessions v m := MkMemory v (keys m) (cookies m) (shas m) (owners m) (locks m).
Definition set_keys v m := MkMemory (sessions m) v (cookies m) (shas m) (owners m) (locks m).
Definition set_cookies v m := MkMemory (sessions m) (keys m) v (shas m) (owners m) (locks m).
Definition set_shas v m := MkMemory (sessions m) (keys m) (cookies m) v (owners m) (locks m).
Definition set_owners v m := MkMemory (sessions m) (keys m) (cookies m) (shas m) v (locks m).
Definition set_locks v m := MkMemory (sessions m) (keys m) (cookies m) (shas m) (owners m) v.

(** [delete(m[id], name)]: a nil inner map is left alone. *)
Definition del_inner (id name : string) (m : gmap string (gmap string string)) :=
  alter (delete name) id m.
(** [if m[id] == nil { m[id] = {} }; m[id][name] = v] *)
Definition put_inner (id name v : string) (m : gmap string (gmap string string)) :=
  <[id := <[name := v]> (default ∅ (m !! id))]> m.

(** [if set := m.owners[o]; set != nil { delete(set, id) }] *)
Definition owner_del (o : Z) (id : string) (m : gmap Z (gset string)) :=
  alter (fun set => set ∖ {[id]}) o m.
(** [if m.owners[o] == nil { m.owners[o] = {} }; m.owners[o][id] = {}] *)
Definition owner_add (o : Z) (id : string) (m : gmap Z (gset string)) :=
  <[o := {[id]} ∪ default ∅ (m !! o)]> m.
(** [if len(m.owners[o]) == 0 { delete(m.owners, o) }] *)
Definition owner_prune (o : Z) (m : gmap Z (gset string)) :=
  if decide (default ∅ (m !! o) = ∅) then delete o m else m.

(** [for k, sid := range m.keys { if sid == id { delete(m.keys, k) } }] *)
Definition drop_keys (id : string) (ks : gmap string string) : gmap string string :=
  filter (fun kv => kv.2 <> id) ks.

Definition PutSession (s : Session) (m : Memory) : option error * Memory :=
  (None, set_sessions (<[ID s := s]> (sessions m)) m).

Definition TouchSession (id kid : string) (lastAccess legacyRotation : Z) (m : Memory) :
    option error * Memory :=
  match sessions m !! id with
  | None => (Some ErrNotFound, m)
  | Some s =>
      if decide (keys m !! kid = Some id) then
        let s := if (LastAccess s <? lastAccess)%Z then with_LastAccess lastAccess s else s in
        let s := if (LastRotation s =? 0)%Z then with_LastRotation legacyRotation s else s in
        (None, set_sessions (<[id := s]> (sessions m)) m)
      else (Some ErrConflict, m)
  end.

(** The owner branch of [ApplySessionControls]. *)
Definition apply_owner (id : string) (c : SessionControls) (s : Session) (ow : gmap Z (gset string)) :
    Session * gmap Z (gset string) :=
  if c_SetOwner c && bool_decide (c_OwnerID c <> OwnerID s) then
    let ow := if decide (OwnerID s = 0%Z) then ow
              else owner_prune (OwnerID s) (owner_del (OwnerID s) id ow) in
    (with_OwnerID (c_OwnerID c) s, owner_add (c_OwnerID c) id ow)
  else (s, ow).

Definition apply_fields (c : SessionControls) (s : Session) : Session :=
  let s := if c_SetLabels c then with_Labels (c_Labels c) s else s in
  let s := if (LastAccess s <? c_LastAccess c)%Z then with_LastAccess (c_LastAccess c) s else s in
  if (LastRotation s <? c_LastRotation c)%Z then with_LastRotation (c_LastRotation c) s else s.

Definition apply_cookie (id : string) (m : Memory) (c : CookieMutation) : Memory :=
  if cm_Delete c then
    set_shas (del_inner id (cm_Name c) (shas m)) (set_cookies (del_inner id (cm_Name c) (cookies m)) m)
  else
    set_shas (put_inner id (cm_Name c) (cm_SHA c) (shas m))
      (set_cookies (put_inner id (cm_Name c) (cm_Value c) (cookies m)) m).

Definition ApplySessionControls (id : string) (c : SessionControls) (m : Memory) :
    option error * Memory :=
  match sessions m !! id with
  | None => (Some ErrNotFound, m)
  | Some s =>
      if decide (keys m !! c_OldKeyID c <> Some id) then (Some ErrConflict, m)
      else if c_Rotate c && bool_decide (is_Some (keys m !! c_NewKeyID c)) then
        (Some ErrConflict, m)
      else
        let '(s, ow) := apply_owner id c s (owners m) in
        let s := apply_fields c s in
        let m := set_owners ow m in
        let m := if c_Rotate c
                 then set_keys (delete (c_OldKeyID c) (<[c_NewKeyID c := id]> (keys m))) m
                 else m in
        let m := foldl (apply_cookie id) m (c_Cookies c) in
        (None, set_sessions (<[id := s]> (sessions m)) m)
  end.

Definition RotateSessionKey (id oldKeyID newKeyID : string) (lastRotation : Z) (m : Memory) :
    option error * Memory :=
  ApplySessionControls id
    (MkControls false 0 false "" 0 lastRotation oldKeyID newKeyID true []) m.

Definition GetSession (id : string) (m : Memory) : res Session * Memory :=
  (match sessions m !! id with Some s => Ok s | None => Err ErrNotFound end, m).

Definition DeleteSession (id : string) (m : Memory) : option error * Memory :=
  let ow := match sessions m !! id with
            | Some s => if decide (OwnerID s = 0%Z) then owners m
                        else owner_del (OwnerID s) id (owners m)
            | None => owners m
            end in
  (None, MkMemory (delete id (sessions m)) (drop_keys id (keys m)) (delete id (cookies m))
           (delete id (shas m)) ow (locks m)).

Definition PutKey (keyID sessionID : string) (m : Memory) : option error * Memory :=
  match sessions m !! sessionID with
  | None => (Some ErrNotFound, m)
  | Some _ => (None, set_keys (<[keyID := sessionID]> (keys m)) m)
  end.

Definition ReplaceKey (oldKeyID newKeyID sessionID : string) (m : Memory) : option error * Memory :=
  match sessions m !! sessionID with
  | None => (Some ErrNotFound, m)
  | Some _ =>
      if decide (keys m !! oldKeyID <> Some sessionID) then (Some ErrConflict, m)
      else if decide (is_Some (keys m !! newKeyID)) then (Some ErrConflict, m)
      else (None, set_keys (delete oldKeyID (<[newKeyID := sessionID]> (keys m))) m)
  end.

Definition GetKey (keyID : string) (m : Memory) : res string * Memory :=
  (match keys m !! keyID with Some sid => Ok sid | None => Err ErrNotFound end, m).

Definition DeleteKey (keyID : string) (m : Memory) : option error * Memory :=
  (None, set_keys (delete keyID (keys m)) m).

(** [copyMap]: a fresh map with the same entries. *)
Definition copyMap (inner : option (gmap string string)) : gmap string string := default ∅ inner.

Definition GetCookies (sessionID : string) (m : Memory) : res (gmap string string) * Memory :=
  (Ok (copyMap (cookies m !! sessionID)), m).

Definition CookieSHAs (sessionID : string) (m : Memory) : res (gmap string string) * Memory :=
  (Ok (copyMap (shas m !! sessionID)), m).

Definition PutCookie (sessionID name value sha : string) (m : Memory) : option error * Memory :=
  match sessions m !! sessionID with
  | None => (Some ErrNotFound, m)
  | Some _ =>
      let m := match cookies m !! sessionID with
               | None => set_shas (<[sessionID := ∅]> (shas m))
                           (set_cookies (<[sessionID := ∅]> (cookies m)) m)
               | Some _ => m
               end in
      (None, set_shas (put_inner sessionID name sha (shas m))
               (set_cookies (put_inner sessionID name value (cookies m)) m))
  end.

Definition DeleteCookie (sessionID name : string) (m : Memory) : option error * Memory :=
  (None, set_shas (del_inner sessionID name (shas m))
           (set_cookies (del_inner sessionID name (cookies m)) m)).

Definition AddOwnerIndex (ownerID : Z) (sessionID : string) (m : Memory) : option error * Memory :=
  (None, set_owners (owner_add ownerID sessionID (owners m)) m).

Definition RemoveOwnerIndex (ownerID : Z) (sessionID : string) (m : Memory) :
    option error * Memory :=
  (None, set_owners (owner_del ownerID sessionID (owners m)) m).

Definition OwnerSessions (ownerID : Z) (m : Memory) : res (list string) * Memory :=
  (Ok (elements (default ∅ (owners m !! ownerID))), m).

Definition ReassignOwner (s : Session) (m : Memory) : option error * Memory :=
  match sessions m !! ID s with
  | None => (Some ErrNotFound, m)
  | Some previous =>
      let ow := if decide (0 < OwnerID previous /\ OwnerID previous <> OwnerID s)%Z
                then owner_del (OwnerID previous) (ID s) (owners m) else owners m in
      let p := with_OwnerID (OwnerID s) previous in
      let p := if (LastAccess p <? LastAccess s)%Z then with_LastAccess (LastAccess s) p else p in
      let p := if (LastRotation p <? LastRotation s)%Z
               then with_LastRotation (LastRotation s) p else p in
      (None, set_owners (owner_add (OwnerID s) (ID s) ow)
               (set_sessions (<[ID s := p]> (sessions m)) m))
  end.

Definition DeleteSessionByOwner (ownerID : Z) (sessionID : string) (m : Memory) :
    res bool * Memory :=
  let m := set_owners (owner_del ownerID sessionID (owners m)) m in
  match sessions m !! sessionID with
  | Some s =>
      if decide (OwnerID s = ownerID) then
        (Ok true, MkMemory (delete sessionID (sessions m)) (drop_keys sessionID (keys m))
                    (delete sessionID (cookies m)) (delete sessionID (shas m)) (owners m) (locks m))
      else (Ok false, m)
  | None => (Ok false, m)
  end.

Definition Lock (sessionID : string) (m : Memory) : res (option string) * Memory :=
  if decide (sessionID ∈ locks m) then (Ok None, m)
  else (Ok (Some ""), set_locks ({[sessionID]} ∪ locks m) m).

(** The closure [Lock] returns. *)
Definition unlock (sessionID : string) (m : Memory) : option error * Memory :=
  (None, set_locks (locks m ∖ {[sessionID]}) m).

#[export] Instance memory_store : Store Memory := fun o m =>
  match o return store_ret o * Memory with
  | StoreApi.PutSession s _ => PutSession s m
  | StoreApi.TouchSession sid kid la lr _ => TouchSession sid kid la lr m
  | StoreApi.ApplySessionControls sid c _ _ => ApplySessionControls sid c m
  | StoreApi.RotateSessionKey sid ok nk lr _ => RotateSessionKey sid ok nk lr m
  | StoreApi.GetSession sid => GetSession sid m
  | StoreApi.DeleteSession sid => DeleteSession sid m
  | StoreApi.PutKey kid sid _ => PutKey kid sid m
  | StoreApi.ReplaceKey ok nk sid _ => ReplaceKey ok nk sid m
  | StoreApi.GetKey kid => GetKey kid m
  | StoreApi.DeleteKey kid => DeleteKey kid m
  | StoreApi.GetCookies sid => GetCookies sid m
  | StoreApi.CookieSHAs sid => CookieSHAs sid m
  | StoreApi.PutCookie sid n v h => PutCookie sid n v h m
  | StoreApi.DeleteCookie sid n => DeleteCookie sid n m
  | StoreApi.AddOwnerIndex o sid _ => AddOwnerIndex o sid m
  | StoreApi.RemoveOwnerIndex o sid => RemoveOwnerIndex o sid m
  | StoreApi.OwnerSessions o => OwnerSessions o m
  | StoreApi.ReassignOwner s _ _ => ReassignOwner s m
  | StoreApi.DeleteSessionByOwner o sid => DeleteSessionByOwner o sid m
  | StoreApi.Lock sid _ => Lock sid m
  | StoreApi.Unlock sid _ => unlock sid m
  end.

End Memory.
