(* ===== verification/MemoryProps.v ===== *)
(** * Invariant and contract of the in-memory store

    The well-formedness of the four indexes, its preservation, and the effect
    of each method on what callers can observe. *)

From stdpp Require Import base gmap strings list.
From Stdlib Require Import ZArith Lia.
From S2P Require Import Prelude StoreApi Memory.

Module MemoryProps.
Import Memory.

(** The members of an owner's index; a missing set is empty. *)
Definition members (ow : gmap Z (gset string)) (o : Z) : gset string := default ∅ (ow !! o).

(** A cached cookie value, and its hash. *)
Definition cookie (m : Memory) (sid name : string) : option string :=
  default ∅ (cookies m !! sid) !! name.
Definition sha (m : Memory) (sid name : string) : option string :=
  default ∅ (shas m !! sid) !! name.

Record wf (m : Memory) : Prop := {
  wf_id : forall sid s, sessions m !! sid = Some s -> ID s = sid;
  wf_keys : forall k sid, keys m !! k = Some sid -> is_Some (sessions m !! sid);
  wf_cookies : forall sid, is_Some (cookies m !! sid) -> is_Some (sessions m !! sid);
  wf_shas : forall sid, is_Some (shas m !! sid) -> is_Some (sessions m !! sid);
  wf_pair : forall sid name, is_Some (cookie m sid name) <-> is_Some (sha m sid name);
  wf_owners : forall o sid, sid ∈ members (owners m) o <->
    o <> 0%Z /\ exists s, sessions m !! sid = Some s /\ OwnerID s = o }.

(** ** Owner index *)

Lemma members_del o id ow o' :
  members (owner_del o id ow) o' =
    if decide (o = o') then members ow o' ∖ {[id]} else members ow o'.
Proof.
  unfold members, owner_del. rewrite lookup_alter. case_decide; [subst|done].
  destruct (ow !! o'); simpl; set_solver.
Qed.

Lemma members_add o id ow o' :
  members (owner_add o id ow) o' =
    if decide (o = o') then {[id]} ∪ members ow o' else members ow o'.
Proof.
  unfold members, owner_add. rewrite lookup_insert. by case_decide; subst.
Qed.

Lemma members_prune o ow o' : members (owner_prune o ow) o' = members ow o'.
Proof.
  unfold members, owner_prune. case_decide as H; [|done].
  rewrite lookup_delete. by case_decide; subst.
Qed.

(** ** Cookies *)

Lemma lookup_put_inner id name v m sid n :
  default ∅ (put_inner id name v m !! sid) !! n =
    if decide (id = sid /\ name = n) then Some v else default ∅ (m !! sid) !! n.
Proof.
  unfold put_inner. rewrite lookup_insert. destruct (decide (id = sid)) as [->|]; simpl.
  - rewrite lookup_insert. repeat case_decide; naive_solver.
  - rewrite decide_False by tauto. done.
Qed.

Lemma lookup_del_inner id name m sid n :
  default ∅ (del_inner id name m !! sid) !! n =
    if decide (id = sid /\ name = n) then None else default ∅ (m !! sid) !! n.
Proof.
  unfold del_inner. rewrite lookup_alter. destruct (decide (id = sid)) as [->|]; simpl.
  - destruct (m !! sid) as [inner|]; simpl.
    + rewrite lookup_delete. repeat case_decide; naive_solver.
    + rewrite lookup_empty. by case_decide.
  - rewrite decide_False by tauto. done.
Qed.

Lemma is_Some_put_inner id name v m sid :
  is_Some (put_inner id name v m !! sid) <-> sid = id \/ is_Some (m !! sid).
Proof. unfold put_inner. rewrite lookup_insert. case_decide; naive_solver. Qed.

Lemma is_Some_del_inner id name m sid : is_Some (del_inner id name m !! sid) <-> is_Some (m !! sid).
Proof. unfold del_inner. rewrite lookup_alter. case_decide; [subst|done].
  destruct (m !! sid); simpl; split; intros []; eauto; done. Qed.

(** What one mutation leaves for a name, given the value projection [f]. *)
Definition mutate (f : CookieMutation -> string) (name : string) (v : option string)
    (c : CookieMutation) : option string :=
  if decide (cm_Name c = name) then if cm_Delete c then None else Some (f c) else v.

Lemma apply_cookie_frame id cs m :
  let m' := foldl (apply_cookie id) m cs in
  sessions m' = sessions m /\ keys m' = keys m /\ owners m' = owners m /\ locks m' = locks m.
Proof.
  revert m; induction cs as [|c cs IH]; intros m; simpl; [done|].
  destruct (IH (apply_cookie id m c)) as (-> & -> & -> & ->).
  unfold apply_cookie. by case_match.
Qed.

Lemma apply_cookie_lookup id cs m sid name :
  let m' := foldl (apply_cookie id) m cs in
  cookie m' sid name =
    (if decide (id = sid) then foldl (mutate cm_Value name) (cookie m sid name) cs
     else cookie m sid name)
  /\ sha m' sid name =
    (if decide (id = sid) then foldl (mutate cm_SHA name) (sha m sid name) cs
     else sha m sid name).
Proof.
  revert m; induction cs as [|c cs IH]; intros m; cbn [foldl]; [by case_decide|].
  destruct (IH (apply_cookie id m c)) as [-> ->].
  unfold cookie, sha, apply_cookie, mutate.
  destruct (cm_Delete c); simpl; rewrite ?lookup_put_inner, ?lookup_del_inner;
    repeat case_decide; tauto || done.
Qed.

Lemma mutate_is_Some name v h cs :
  (is_Some v <-> is_Some h) ->
  is_Some (foldl (mutate cm_Value name) v cs) <-> is_Some (foldl (mutate cm_SHA name) h cs).
Proof.
  revert v h; induction cs as [|c cs IH]; intros v h H; simpl; [done|].
  apply IH. unfold mutate. by repeat case_match.
Qed.

Lemma apply_cookie_dom id cs m sid :
  let m' := foldl (apply_cookie id) m cs in
  (is_Some (cookies m' !! sid) -> sid = id \/ is_Some (cookies m !! sid))
  /\ (is_Some (shas m' !! sid) -> sid = id \/ is_Some (shas m !! sid)).
Proof.
  revert m; induction cs as [|c cs IH]; intros m; simpl; [tauto|].
  destruct (IH (apply_cookie id m c)) as [H1 H2]. revert H1 H2. unfold apply_cookie.
  case_match; simpl; rewrite ?is_Some_put_inner, ?is_Some_del_inner; tauto.
Qed.

(** ** Keys *)

Lemma lookup_drop_keys id ks k sid : drop_keys id ks !! k = Some sid <-> ks !! k = Some sid /\ sid <> id.
Proof. unfold drop_keys. by rewrite map_lookup_filter_Some. Qed.

(** ** Preservation *)

Lemma wf_empty : wf NewMemory.
Proof.
  split; cbn [sessions keys cookies shas owners NewMemory].
  - intros sid s. by rewrite lookup_empty.
  - intros k sid. by rewrite lookup_empty.
  - intros sid. rewrite lookup_empty. by intros [].
  - intros sid. rewrite lookup_empty. by intros [].
  - done.
  - intros o sid. unfold members. rewrite lookup_empty. split; [intros []%not_elem_of_empty|].
    intros [_ (s & Hs & _)]. by rewrite lookup_empty in Hs.
Qed.

(** An update of a live row that keeps its identity and owner. *)
Lemma wf_update_row m id s s' :
  wf m -> sessions m !! id = Some s -> ID s' = ID s -> OwnerID s' = OwnerID s ->
  wf (set_sessions (<[id := s']> (sessions m)) m).
Proof.
  intros [H1 H2 H3 H4 H5 H6] Hs Hid Ho.
  assert (HS : forall sid, is_Some (sessions m !! sid) -> is_Some (<[id := s']> (sessions m) !! sid)).
  { intros sid. rewrite lookup_insert. case_decide; [eauto|done]. }
  split; simpl; [|intros; apply HS; by eauto..|exact H5|].
  - intros sid s2. rewrite lookup_insert. case_decide; [|apply H1].
    intros [= <-]. rewrite Hid. subst. by apply H1.
  - intros o sid. rewrite H6. split; intros [Hne (s2 & Hs2 & Hos2)]; (split; [done|]).
    + rewrite lookup_insert. case_decide; subst; [|eauto]. exists s'. simplify_eq. eauto.
    + rewrite lookup_insert in Hs2. case_decide; simplify_eq; eauto.
Qed.

Lemma TouchSession_wf m sid kid la lr : wf m -> wf (TouchSession sid kid la lr m).2.
Proof.
  intros H. unfold TouchSession. destruct (sessions m !! sid) as [s|] eqn:E; [|done].
  case_decide; [|done]. simpl. eapply wf_update_row; eauto; by repeat case_match.
Qed.

(** Removing a row together with everything filed under it. *)
Lemma wf_remove m id ow :
  wf m ->
  (forall o sid, sid ∈ members ow o <-> sid ∈ members (owners m) o /\ sid <> id) ->
  wf (MkMemory (delete id (sessions m)) (drop_keys id (keys m)) (delete id (cookies m))
        (delete id (shas m)) ow (locks m)).
Proof.
  intros [H1 H2 H3 H4 H5 H6] How.
  assert (HS : forall sid, is_Some (sessions m !! sid) -> sid <> id ->
    is_Some (delete id (sessions m) !! sid)).
  { intros sid ? ?. by rewrite lookup_delete_ne. }
  split; simpl.
  - intros sid s. rewrite lookup_delete. case_decide; [done|apply H1].
  - intros k sid [Hk Hne]%lookup_drop_keys. apply HS; [by eapply H2|done].
  - intros sid. rewrite lookup_delete. case_decide; [by intros []|]. intros; apply HS; auto.
  - intros sid. rewrite lookup_delete. case_decide; [by intros []|]. intros; apply HS; auto.
  - intros sid name. unfold cookie, sha; simpl. rewrite !lookup_delete.
    case_decide; [by simpl; rewrite !lookup_empty|]. apply H5.
  - intros o sid. rewrite How, H6. split.
    + intros [[Hne (s & Hs & Ho)] Hid]. split; [done|]. exists s. by rewrite lookup_delete_ne.
    + intros [Hne (s & Hs & Ho)]. rewrite lookup_delete in Hs. case_decide; [done|]. eauto 6.
Qed.

Lemma DeleteSession_wf m id : wf m -> wf (DeleteSession id m).2.
Proof.
  intros H. simpl. apply wf_remove; [done|]. intros o sid. pose proof (wf_owners m H) as H6.
  destruct (sessions m !! id) as [s|] eqn:E.
  - case_decide as Hz.
    + split; [|tauto]. intros Hin. split; [done|]. intros ->.
      apply H6 in Hin as [Hne (s' & Hs' & Ho)]. congruence.
    + rewrite members_del. case_decide; [set_solver|].
      split; [|tauto]. intros Hin. split; [done|]. intros ->.
      apply H6 in Hin as [Hne (s' & Hs' & Ho)]. congruence.
  - split; [|tauto]. intros Hin. split; [done|]. intros ->.
    apply H6 in Hin as [Hne (s' & Hs' & Ho)]. congruence.
Qed.

Lemma DeleteSessionByOwner_wf m o id : wf m -> wf (DeleteSessionByOwner o id m).2.
Proof.
  intros H. pose proof (wf_owners m H) as H6. unfold DeleteSessionByOwner; simpl.
  assert (Hskip : (forall s, sessions m !! id = Some s -> OwnerID s <> o) ->
    wf (set_owners (owner_del o id (owners m)) m)).
  { intros Hno. destruct H as [H1 H2 H3 H4 H5 _]. split; simpl; try done.
    intros o' sid. rewrite members_del, <-H6. case_decide as Ho; [subst|done].
    rewrite elem_of_difference, elem_of_singleton. split; [tauto|].
    intros Hin. split; [done|]. intros ->. apply H6 in Hin as [_ (s & Hs & Ho)]. by eapply Hno. }
  destruct (sessions m !! id) as [s|] eqn:E; [|by apply Hskip].
  case_decide as Ho; [|apply Hskip; by intros ? [= <-]]. simpl.
  apply (wf_remove m id); [done|]. intros o' sid. rewrite members_del.
  case_decide; [set_solver|]. split; [|tauto]. intros Hin. split; [done|]. intros ->.
  apply H6 in Hin as [Hne (s' & Hs' & Hos')]. congruence.
Qed.

Lemma PutSession_wf m s :
  wf m -> sessions m !! ID s = None -> OwnerID s = 0%Z -> wf (PutSession s m).2.
Proof.
  intros [H1 H2 H3 H4 H5 H6] Hn Ho.
  assert (HS : forall sid, is_Some (sessions m !! sid) -> is_Some (<[ID s := s]> (sessions m) !! sid)).
  { intros sid. rewrite lookup_insert. case_decide; [eauto|done]. }
  split; simpl; [|intros; apply HS; by eauto..|exact H5|].
  - intros sid s2. rewrite lookup_insert. case_decide; [|apply H1]. by intros [= <-].
  - intros o sid. rewrite H6. split; intros [Hne (s2 & Hs2 & Hos2)]; (split; [done|]).
    + exists s2. rewrite lookup_insert_ne; [done|]. intros <-. congruence.
    + rewrite lookup_insert in Hs2. case_decide; simplify_eq; eauto.
Qed.

Lemma PutKey_wf m k sid : wf m -> wf (PutKey k sid m).2.
Proof.
  intros [H1 H2 H3 H4 H5 H6]. unfold PutKey. destruct (sessions m !! sid) eqn:E; [|done].
  split; simpl; try done. intros k' sid'. rewrite lookup_insert.
  case_decide; [intros [= <-]; by rewrite E|apply H2].
Qed.

(** ** [ApplySessionControls] *)

(** The row the controls leave, as one expression. *)
Definition controlled (c : SessionControls) (s : Session) : Session :=
  MkSession (ID s) (Creation s) (Z.max (LastAccess s) (c_LastAccess c)) (InactiveTimeout s)
    (FinalTimeout s) (if c_SetOwner c then c_OwnerID c else OwnerID s)
    (Z.max (LastRotation s) (c_LastRotation c)) (if c_SetLabels c then c_Labels c else Labels s).

Definition controlled_keys (id : string) (c : SessionControls) (ks : gmap string string) :=
  if c_Rotate c then delete (c_OldKeyID c) (<[c_NewKeyID c := id]> ks) else ks.

(** The guards that reject the transition. *)
Definition cas_conflict (id : string) (c : SessionControls) (m : Memory) : Prop :=
  keys m !! c_OldKeyID c <> Some id \/ (c_Rotate c = true /\ is_Some (keys m !! c_NewKeyID c)).

#[export] Instance cas_conflict_dec id c m : Decision (cas_conflict id c m).
Proof. unfold cas_conflict. apply _. Defined.

Lemma apply_row_controlled id c s ow :
  apply_fields c (apply_owner id c s ow).1 = controlled c s.
Proof.
  unfold apply_owner, apply_fields, controlled, with_OwnerID, with_Labels, with_LastAccess,
    with_LastRotation.
  destruct s as [i cr la it ft o lr lb], c as [so co sl cl cla clr ok nk ro cs]; simpl.
  destruct (decide (co = o)) as [->|Hne];
    rewrite ?bool_decide_eq_false_2, ?bool_decide_eq_true_2 by tauto;
    destruct so, sl; simpl; destruct (Z.ltb_spec la cla); simpl;
    destruct (Z.ltb_spec lr clr); simpl; f_equal; lia.
Qed.

Lemma apply_owner_members id c s ow o sid :
  sid ∈ members (apply_owner id c s ow).2 o <->
    if c_SetOwner c && bool_decide (c_OwnerID c <> OwnerID s) then
      (sid ∈ members ow o /\ ~ (sid = id /\ o = OwnerID s /\ o <> 0%Z)) \/ (sid = id /\ o = c_OwnerID c)
    else sid ∈ members ow o.
Proof.
  unfold apply_owner. destruct (c_SetOwner c && _) eqn:E; [|done]. simpl.
  apply andb_prop in E as [_ E%bool_decide_eq_true]. rewrite members_add.
  destruct (decide (OwnerID s = 0%Z)); rewrite ?members_prune, ?members_del;
    repeat case_decide; subst;
    rewrite ?elem_of_union, ?elem_of_difference, ?elem_of_singleton; intuition congruence.
Qed.

(** The whole transition: rejected with the store untouched, or applied whole. *)
Lemma ApplySessionControls_spec id c m :
  match sessions m !! id with
  | None => ApplySessionControls id c m = (Some ErrNotFound, m)
  | Some s =>
      if decide (cas_conflict id c m) then ApplySessionControls id c m = (Some ErrConflict, m)
      else exists m', ApplySessionControls id c m = (None, m')
        /\ sessions m' = <[id := controlled c s]> (sessions m)
        /\ keys m' = controlled_keys id c (keys m)
        /\ owners m' = (apply_owner id c s (owners m)).2
        /\ locks m' = locks m
        /\ exists m0, cookies m0 = cookies m /\ shas m0 = shas m
           /\ let mc := foldl (apply_cookie id) m0 (c_Cookies c) in
              cookies m' = cookies mc /\ shas m' = shas mc
  end.
Proof.
  unfold ApplySessionControls, cas_conflict. destruct (sessions m !! id) as [s|] eqn:E; [|done].
  destruct (decide (keys m !! c_OldKeyID c <> Some id)) as [H1|H1].
  { rewrite decide_True by tauto. done. }
  destruct (c_Rotate c && bool_decide (is_Some (keys m !! c_NewKeyID c))) eqn:H2.
  { apply andb_prop in H2 as [H2 H3%bool_decide_eq_true]. by rewrite decide_True by tauto. }
  rewrite decide_False.
  2:{ intros [?|[Hr Hk]]; [done|]. rewrite Hr, bool_decide_eq_true_2 in H2 by done. done. }
  pose proof (apply_row_controlled id c s (owners m)) as Hrow.
  destruct (apply_owner id c s (owners m)) as [s1 ow]. simpl in Hrow.
  set (m0 := if c_Rotate c then _ else _).
  destruct (apply_cookie_frame id (c_Cookies c) m0) as (F1 & F2 & F3 & F4).
  eexists. split; [reflexivity|]. simpl. rewrite F1, F2, F3, F4, Hrow.
  split_and!; try (unfold m0, controlled_keys; by destruct (c_Rotate c)).
  exists m0. unfold m0. by destruct (c_Rotate c).
Qed.

Lemma ApplySessionControls_cookies id c m m' sid name :
  (exists m0, cookies m0 = cookies m /\ shas m0 = shas m
     /\ let mc := foldl (apply_cookie id) m0 (c_Cookies c) in
        cookies m' = cookies mc /\ shas m' = shas mc) ->
  cookie m' sid name =
    (if decide (id = sid) then foldl (mutate cm_Value name) (cookie m sid name) (c_Cookies c)
     else cookie m sid name)
  /\ sha m' sid name =
    (if decide (id = sid) then foldl (mutate cm_SHA name) (sha m sid name) (c_Cookies c)
     else sha m sid name).
Proof.
  intros (m0 & HC & HH & HC' & HH'). unfold cookie, sha in *. rewrite HC', HH', <-HC, <-HH.
  apply (apply_cookie_lookup id (c_Cookies c) m0 sid name).
Qed.

Lemma ApplySessionControls_wf m id c :
  wf m -> (c_SetOwner c = true -> c_OwnerID c <> 0%Z) -> wf (ApplySessionControls id c m).2.
Proof.
  intros Hwf Hpos. pose proof (ApplySessionControls_spec id c m) as H.
  destruct (sessions m !! id) as [s|] eqn:E; [|by rewrite H].
  case_decide as HC; [by rewrite H|]. destruct H as (m' & -> & HS & HK & HO & _ & Hck). simpl.
  pose proof (ApplySessionControls_cookies id c m m') as HL.
  destruct Hwf as [H1 H2 H3 H4 H5 H6].
  assert (HSome : forall sid, is_Some (sessions m !! sid) -> is_Some (sessions m' !! sid)).
  { intros sid. rewrite HS, lookup_insert. case_decide; [eauto|done]. }
  split.
  - intros sid s'. rewrite HS, lookup_insert. case_decide; [|apply H1].
    intros [= <-]. subst. exact (H1 _ _ E).
  - intros k sid. rewrite HK. unfold controlled_keys. case_match; [|intros; apply HSome; eauto].
    rewrite lookup_delete. case_decide; [done|]. rewrite lookup_insert.
    case_decide; [intros [= <-]; apply HSome; eauto|intros; apply HSome; eauto].
  - intros sid Hs. destruct Hck as (m0 & HC0 & HH0 & HC1 & HH1). rewrite HC1 in Hs.
    apply apply_cookie_dom in Hs. rewrite HC0 in Hs. apply HSome.
    destruct Hs as [->|Hs]; eauto.
  - intros sid Hs. destruct Hck as (m0 & HC0 & HH0 & HC1 & HH1). rewrite HH1 in Hs.
    apply apply_cookie_dom in Hs. rewrite HH0 in Hs. apply HSome.
    destruct Hs as [->|Hs]; eauto.
  - intros sid name. destruct (HL sid name Hck) as [-> ->]. case_decide; [|apply H5].
    apply mutate_is_Some, H5.
  - intros o sid. rewrite HO, apply_owner_members, HS. specialize (H6 o sid).
    destruct (decide (sid = id)) as [->|Hne].
    + rewrite lookup_insert_eq. rewrite E in H6. unfold controlled. simpl.
      destruct (c_SetOwner c) eqn:ES; simpl; [case_bool_decide as Hb|]; rewrite H6.
      * specialize (Hpos eq_refl). split.
        -- intros [[[Ho (s' & [= <-] & <-)] Hn]|[_ ->]]; [tauto|eauto].
        -- intros [Ho (s' & [= <-] & <-)]; simpl. auto.
      * assert (Heq : c_OwnerID c = OwnerID s) by (destruct (decide (c_OwnerID c = OwnerID s)); tauto).
        rewrite Heq. split; intros [Ho (s' & [= <-] & <-)]; eauto.
      * split; intros [Ho (s' & [= <-] & <-)]; eauto.
    + rewrite lookup_insert_ne by done. case_match; tauto.
Qed.

(** The identifiers an operation may add to the indexes. *)
Definition op_inserts (o : store_op) : gset string :=
  match o with
  | StoreApi.PutSession s _ => {[ID s]}
  | StoreApi.PutKey k _ _ => {[k]}
  | StoreApi.ApplySessionControls _ c _ _ => if c_Rotate c then {[c_NewKeyID c]} else ∅
  | StoreApi.RotateSessionKey _ _ nk _ _ => {[nk]}
  | StoreApi.ReplaceKey _ nk _ _ => {[nk]}
  | _ => ∅
  end.

(** No method adds a key, or changes what a key maps to, except for the
    identifiers it inserts; likewise for session rows. *)
Lemma exec_keys o m k sid :
  keys (exec o m).2 !! k = Some sid -> keys m !! k = Some sid \/ k ∈ op_inserts o.
Proof.
  assert (HA : forall id c, keys (ApplySessionControls id c m).2 !! k = Some sid ->
    keys m !! k = Some sid \/ k ∈ (if c_Rotate c then {[c_NewKeyID c]} else ∅ : gset string)).
  { intros id c. pose proof (ApplySessionControls_spec id c m) as H.
    destruct (sessions m !! id) as [s|]; [|rewrite H; auto].
    case_decide; [rewrite H; auto|]. destruct H as (m' & -> & _ & HK & _). simpl. rewrite HK.
    unfold controlled_keys. destruct (c_Rotate c); [|auto]. rewrite lookup_delete, lookup_insert.
    repeat case_decide; subst; [done|set_solver|auto]. }
  destruct o; unfold exec, memory_store; try (apply HA); try (simpl; auto; fail).
  - unfold TouchSession. repeat case_match; auto.
  - intros H. by apply lookup_drop_keys in H as [? _]; auto.
  - unfold PutKey. case_match; [|auto]. simpl. rewrite lookup_insert. case_decide; set_solver.
  - unfold ReplaceKey. case_match; [|auto]. case_decide; [auto|]. case_decide; [auto|]. simpl.
    rewrite lookup_delete, lookup_insert. repeat case_decide; subst; [done|set_solver|auto].
  - simpl. rewrite lookup_delete. case_decide; [done|auto].
  - unfold PutCookie. repeat case_match; auto.
  - unfold ReassignOwner. repeat case_match; auto.
  - unfold DeleteSessionByOwner. simpl. repeat case_match; auto. simpl.
    intros HK. by apply lookup_drop_keys in HK as [? _]; auto.
  - unfold Lock. case_match; auto.
Qed.

Lemma exec_sessions o m sid :
  is_Some (sessions (exec o m).2 !! sid) -> is_Some (sessions m !! sid) \/ sid ∈ op_inserts o.
Proof.
  assert (HU : forall id s s', sessions m !! id = Some s ->
    is_Some (<[id := s']> (sessions m) !! sid) -> is_Some (sessions m !! sid)).
  { intros id s s' Hs. rewrite lookup_insert. case_decide; subst; eauto. }
  assert (HA : forall id c, is_Some (sessions (ApplySessionControls id c m).2 !! sid) ->
    is_Some (sessions m !! sid)).
  { intros id c. pose proof (ApplySessionControls_spec id c m) as H.
    destruct (sessions m !! id) as [s|] eqn:E; [|by rewrite H].
    case_decide; [by rewrite H|]. destruct H as (m' & -> & HS & _). simpl. rewrite HS. eauto. }
  destruct o; unfold exec, memory_store; try (intros H; left; by eapply HA);
    try (simpl; auto; fail).
  - simpl. rewrite lookup_insert. case_decide; set_solver.
  - unfold TouchSession. destruct (sessions m !! sid0) eqn:E; [|auto]. case_decide; [|auto].
    simpl. eauto.
  - simpl. rewrite lookup_delete. case_decide; [by intros []|auto].
  - unfold PutKey. case_match; auto.
  - unfold ReplaceKey. repeat case_match; auto.
  - unfold PutCookie. repeat case_match; auto.
  - unfold ReassignOwner. destruct (sessions m !! ID s) eqn:E; [|auto]. simpl. eauto.
  - unfold DeleteSessionByOwner. simpl. destruct (sessions m !! sid0) as [s|]; [|auto].
    case_decide; [|auto]. simpl. rewrite lookup_delete. case_decide; [by intros []|auto].
  - unfold Lock. case_match; auto.
Qed.

End MemoryProps.
