(* ===== verification/Faulty.v ===== *)
(** * Stores that fail

    A layer of faults over any implementation of the [Store] interface: a method
    call may be lost before it took effect, or take effect and lose its reply.
    The caller sees an error in both cases and cannot tell them apart, which is
    what a store on the other side of a network gives the session manager. *)

From stdpp Require Import base gmap strings list.
From Stdlib Require Import ZArith.
From S2P Require Import Prelude StoreApi Memory MemoryProps.
Import Memory MemoryProps.

Module Faulty.

Inductive fault :=
| Fine
| LostRequest (e : error)    (** no effect, the caller is told [e] *)
| LostReply (e : error).     (** the call took effect, the caller is told [e] *)

(** A store and the fate of its next calls; the calls after those are fine. *)
Record faulty (S : Type) := MkFaulty { inner : S; faults : list fault }.
Arguments MkFaulty {S} inner faults.
Arguments inner {S} f.
Arguments faults {S} f.

#[export] Instance faulty_store {S} `{Store S} : Store (faulty S) := fun o f =>
  let '(r, s) := exec o (inner f) in
  match faults f with
  | [] => (r, MkFaulty s [])
  | Fine :: fs => (r, MkFaulty s fs)
  | LostRequest e :: fs => (fail_with e o, MkFaulty (inner f) fs)
  | LostReply e :: fs => (fail_with e o, MkFaulty s fs)
  end.

(** A faulty store without faults is the store itself. *)
Definition healthy {S} (s : S) : faulty S := MkFaulty s [].

Section AnyStore.
Context {S : Type} `{Store S}.

Lemma faulty_exec o (f : faulty S) :
  exec o f =
    let '(r, s) := exec o (inner f) in
    match faults f with
    | [] => (r, MkFaulty s [])
    | Fine :: fs => (r, MkFaulty s fs)
    | LostRequest e :: fs => (fail_with e o, MkFaulty (inner f) fs)
    | LostReply e :: fs => (fail_with e o, MkFaulty s fs)
    end.
Proof. reflexivity. Qed.

(** A call is answered by the store underneath, or fails. *)
Lemma exec_cases o (f : faulty S) :
  (exists fs, exec o f = ((exec o (inner f)).1, MkFaulty (exec o (inner f)).2 fs))
  \/ exists e f', exec o f = (fail_with e o, f')
       /\ (inner f' = inner f \/ inner f' = (exec o (inner f)).2).
Proof.
  rewrite faulty_exec. destruct f as [s fs]. cbn [inner faults]. destruct (exec o s) as [r s'].
  destruct fs as [|[|e|e] fs]; [left; eauto|left; eauto|right..]; eexists _, _; split;
    [reflexivity|by left|reflexivity|by right].
Qed.

(** Without faults the program runs as on the store itself. *)
Lemma healthy_run {A} (p : prog A) (s : S) t rng :
  run p (MkWorld (healthy s) t rng) =
    let '(a, w) := run p (MkWorld s t rng) in
    (a, MkWorld (healthy (w_store w)) (w_clock w) (w_rng w)).
Proof.
  revert s t rng; induction p as [a|o k IH]; intros s t rng; [done|]. cbn [run].
  destruct o as [o| |n]; cbn [step w_store w_clock w_rng].
  - rewrite faulty_exec. cbn [healthy inner faults]. destruct (exec o s) as [r s'].
    apply IH.
  - apply IH.
  - destruct (take_bytes n rng) as [[b rest]|]; apply IH.
Qed.
End AnyStore.

(** ** Over the in-memory store *)

(** A deletion that is not reported as failed has deleted. *)
Lemma DeleteSession_reported sid (f : faulty Memory) f' :
  exec (StoreApi.DeleteSession sid) f = (None, f') ->
  sessions (inner f') !! sid = None /\ forall k, keys (inner f') !! k <> Some sid.
Proof.
  destruct (exec_cases (StoreApi.DeleteSession sid) f) as [[fs ->]|(e & g & -> & _)]; [|done].
  intros [= <-]. cbn [inner exec memory_store]. unfold DeleteSession; simpl.
  split; [apply lookup_delete_eq|]. by intros k [_ ?]%lookup_drop_keys.
Qed.

(** Releasing a lock leaves sessions and keys alone, whether it arrives or not. *)
Lemma Unlock_frame sid token (f : faulty Memory) :
  sessions (inner (exec (StoreApi.Unlock sid token) f).2) = sessions (inner f)
  /\ keys (inner (exec (StoreApi.Unlock sid token) f).2) = keys (inner f).
Proof.
  destruct (exec_cases (StoreApi.Unlock sid token) f) as [[fs ->]|(e & g & -> & [Hg|Hg])];
    [done|cbn [snd]; by rewrite Hg..].
Qed.

End Faulty.
