(* ===== verification/Concurrency.v ===== *)
(** * Concurrent requests over one store

    Any number of requests run at once; each is a program whose store calls are
    atomic and interleave arbitrarily with the others'.  A call may also fail,
    before or after taking effect, and the clock may read anything.  The random
    source never repeats an identifier. *)

From stdpp Require Import base gmap strings list relations.
From Stdlib Require Import ZArith Lia.
From S2P Require Import Prelude Crypto StoreApi Memory MemoryProps.
Import Memory MemoryProps.

(** ** Disciplined programs

    [P] is the set of identifiers the program has drawn and not yet published.
    A program publishes an identifier (as a session or as a key) only out of
    [P] and at most once, creates sessions without an owner, and uses no other
    method that could create rows. *)

Definition op_allowed (P : gset string) (o : op) : Prop :=
  match o with
  | OStore so =>
      op_inserts so ⊆ P /\
      match so with
      | StoreApi.PutSession s _ => OwnerID s = 0%Z
      | StoreApi.ApplySessionControls _ c _ _ => c_SetOwner c = true -> (0 < c_OwnerID c)%Z
      | StoreApi.TouchSession _ _ _ _ _ | StoreApi.RotateSessionKey _ _ _ _ _
      | StoreApi.GetSession _ | StoreApi.DeleteSession _ | StoreApi.PutKey _ _ _
      | StoreApi.GetKey _ | StoreApi.GetCookies _ | StoreApi.CookieSHAs _
      | StoreApi.OwnerSessions _ | StoreApi.DeleteSessionByOwner _ _
      | StoreApi.Lock _ _ | StoreApi.Unlock _ _ => True
      | _ => False
      end
  | ONow => True
  | ORand n => n = 32
  end.

(** The unpublished identifiers after the operation. *)
Definition op_after (P : gset string) (o : op) : op_ret o -> gset string :=
  match o with
  | OStore so => fun _ => P ∖ op_inserts so
  | ONow => fun _ => P
  | ORand _ => fun r => match r with Ok b => {[base64_rawurl b]} ∪ P | Err _ => P end
  end.

(** A draw never returns an identifier the program already holds. *)
Definition op_fresh (P : gset string) (o : op) : op_ret o -> Prop :=
  match o with
  | ORand _ => fun r => match r with Ok b => base64_rawurl b ∉ P | Err _ => True end
  | _ => fun _ => True
  end.

Fixpoint safe {A} (P : gset string) (p : prog A) : Prop :=
  match p with
  | Ret _ => True
  | Do o k => op_allowed P o /\ forall r, op_fresh P o r -> safe (op_after P o r) (k r)
  end.

(** ** The system *)

Record config := MkSys { c_mem : Memory; c_pool : list (prog unit); c_used : gset string }.

Inductive sys_step : config -> config -> Prop :=
| step_store m pool used i o k :
    pool !! i = Some (Do (OStore o) k) ->
    sys_step (MkSys m pool used)
      (MkSys (exec o m).2 (<[i := k (exec o m).1]> pool) used)
| step_lost_request m pool used i o k e :
    pool !! i = Some (Do (OStore o) k) ->
    sys_step (MkSys m pool used) (MkSys m (<[i := k (fail_with e o)]> pool) used)
| step_lost_reply m pool used i o k e :
    pool !! i = Some (Do (OStore o) k) ->
    sys_step (MkSys m pool used) (MkSys (exec o m).2 (<[i := k (fail_with e o)]> pool) used)
| step_now m pool used i k t :
    pool !! i = Some (Do ONow k) ->
    sys_step (MkSys m pool used) (MkSys m (<[i := k t]> pool) used)
| step_rand m pool used i n k b :
    pool !! i = Some (Do (ORand n) k) -> base64_rawurl b ∉ used ->
    sys_step (MkSys m pool used)
      (MkSys m (<[i := k (Ok b)]> pool) ({[base64_rawurl b]} ∪ used))
| step_rand_err m pool used i n k e :
    pool !! i = Some (Do (ORand n) k) ->
    sys_step (MkSys m pool used) (MkSys m (<[i := k (Err e)]> pool) used)
| step_spawn m pool used p :
    safe ∅ p -> sys_step (MkSys m pool used) (MkSys m (pool ++ [p]) used).

Definition init : config := MkSys NewMemory [] ∅.
Definition reachable (c : config) : Prop := rtc sys_step init c.

(** ** The invariant *)

Record sys_inv (c : config) (Ps : list (gset string)) : Prop := {
  inv_safe : Forall2 (fun P p => safe P p) Ps (c_pool c);
  inv_used : forall i P, Ps !! i = Some P -> P ⊆ c_used c;
  inv_disj : forall i j P Q, i <> j -> Ps !! i = Some P -> Ps !! j = Some Q -> P ## Q;
  inv_keys : forall i P x, Ps !! i = Some P -> x ∈ P -> keys (c_mem c) !! x = None;
  inv_sessions : forall i P x, Ps !! i = Some P -> x ∈ P -> sessions (c_mem c) !! x = None;
  inv_keys_used : forall k sid, keys (c_mem c) !! k = Some sid -> k ∈ c_used c;
  inv_sessions_used : forall sid, is_Some (sessions (c_mem c) !! sid) -> sid ∈ c_used c;
  inv_wf : wf (c_mem c) }.

(** The identifier is still unpublished in some program. *)
Definition pending (Ps : list (gset string)) (x : string) : Prop :=
  exists i P, Ps !! i = Some P /\ x ∈ P.

Lemma exec_wf P o m :
  wf m -> op_allowed P (OStore o) -> (forall x, x ∈ P -> sessions m !! x = None) -> wf (exec o m).2.
Proof.
  intros Hwf [Hin Hal] HP. destruct o; simpl in Hal; try done; unfold exec, memory_store.
  - apply PutSession_wf; [done| |done]. apply HP. simpl in Hin. set_solver.
  - by apply TouchSession_wf.
  - apply ApplySessionControls_wf; [done|]. intros H%Hal. lia.
  - by apply ApplySessionControls_wf.
  - by apply DeleteSession_wf.
  - by apply PutKey_wf.
  - by apply DeleteSessionByOwner_wf.
  - unfold Lock. case_match; [done|]. destruct Hwf. by split.
  - destruct Hwf. by split.
Qed.

(** A step that leaves the store alone and replaces one program. *)
Lemma inv_local m pool used Ps i p P' p' :
  sys_inv (MkSys m pool used) Ps -> pool !! i = Some p ->
  (forall P, Ps !! i = Some P -> P' P ⊆ P /\ safe (P' P) p') ->
  exists Ps', sys_inv (MkSys m (<[i := p']> pool) used) Ps'
    /\ forall x, pending Ps' x -> pending Ps x.
Proof.
  intros [H1 H2 H3 H4 H5 H6 H7 H8] Hp HP. simpl in *.
  destruct (Forall2_lookup_r _ _ _ _ _ H1 Hp) as (P & HPi & Hs).
  destruct (HP P HPi) as [Hsub Hsafe].
  assert (HL : forall j Q, <[i := P' P]> Ps !! j = Some Q -> exists Q0, Ps !! j = Some Q0 /\ Q ⊆ Q0).
  { intros j Q. destruct (decide (i = j)) as [->|Hne].
    - rewrite list_lookup_insert_eq by (by eapply lookup_lt_Some). intros [= <-]; eauto.
    - rewrite list_lookup_insert_ne by done. eauto. }
  exists (<[i := P' P]> Ps).
  split; [|intros x (j & Q & (Q0 & HQ0 & ?)%HL & Hx); exists j, Q0; auto].
  split; simpl; try done.
  - by apply Forall2_insert.
  - intros j Q (Q0 & HQ0 & ?)%HL. specialize (H2 _ _ HQ0). set_solver.
  - intros j j' Q Q' Hne (Q0 & HQ0 & ?)%HL (Q1 & HQ1 & ?)%HL.
    specialize (H3 _ _ _ _ Hne HQ0 HQ1). set_solver.
  - intros j Q x (Q0 & HQ0 & ?)%HL Hx. eapply H4; eauto.
  - intros j Q x (Q0 & HQ0 & ?)%HL Hx. eapply H5; eauto.
Qed.

(** A step that executes a store operation, whatever the program then sees. *)
Lemma inv_exec m pool used Ps i o k r :
  sys_inv (MkSys m pool used) Ps -> pool !! i = Some (Do (OStore o) k) ->
  exists Ps', sys_inv (MkSys (exec o m).2 (<[i := k r]> pool) used) Ps'
    /\ forall x, pending Ps' x -> pending Ps x.
Proof.
  intros [H1 H2 H3 H4 H5 H6 H7 H8] Hp. simpl in *.
  destruct (Forall2_lookup_r _ _ _ _ _ H1 Hp) as (P & HPi & [Hal Hk]).
  pose proof Hal as [Hins _]. set (P' := P ∖ op_inserts o).
  exists (<[i := P']> Ps).
  assert (HL : forall j Q x, <[i := P']> Ps !! j = Some Q -> x ∈ Q ->
    exists Q0, Ps !! j = Some Q0 /\ x ∈ Q0 /\ x ∉ op_inserts o).
  { intros j Q x. destruct (decide (i = j)) as [->|Hne].
    - rewrite list_lookup_insert_eq by (by eapply lookup_lt_Some).
      intros [= <-] Hx. exists P. set_solver.
    - rewrite list_lookup_insert_ne by done. intros HQ Hx. exists Q. split_and!; [done..|].
      intros Hi. specialize (H3 _ _ _ _ Hne HPi HQ). set_solver. }
  split; [|intros x (j & Q & HQ & Hx); destruct (HL j Q x HQ Hx) as (Q0 & ? & ? & _); by exists j, Q0].
  split; simpl.
  - apply Forall2_insert; [done|]. by apply Hk.
  - intros j Q HQ x Hx. destruct (HL j Q x HQ Hx) as (Q0 & HQ0 & ? & _). by eapply H2.
  - intros j j' Q Q' Hne HQ HQ' x Hx Hx'.
    destruct (HL j Q x HQ Hx) as (Q0 & HQ0 & ? & _), (HL j' Q' x HQ' Hx') as (Q1 & HQ1 & ? & _).
    specialize (H3 _ _ _ _ Hne HQ0 HQ1). set_solver.
  - intros j Q x HQ Hx. destruct (HL j Q x HQ Hx) as (Q0 & HQ0 & Hx0 & Hni).
    destruct (keys (exec o m).2 !! x) as [sid|] eqn:E; [|done].
    apply exec_keys in E as [E|E]; [|done]. rewrite (H4 _ _ _ HQ0 Hx0) in E. done.
  - intros j Q x HQ Hx. destruct (HL j Q x HQ Hx) as (Q0 & HQ0 & Hx0 & Hni).
    destruct (sessions (exec o m).2 !! x) as [s|] eqn:E; [|done].
    destruct (exec_sessions o m x) as [[s' E']|E']; [by rewrite E| |done].
    rewrite (H5 _ _ _ HQ0 Hx0) in E'. done.
  - intros kid sid [E|E]%exec_keys; [by eapply H6|]. apply (H2 _ _ HPi). set_solver.
  - intros sid [E|E]%exec_sessions; [by eapply H7|]. apply (H2 _ _ HPi). set_solver.
  - eapply exec_wf; eauto.
Qed.

(** A fresh identifier drawn by one program. *)
Lemma inv_rand m pool used Ps i n k b :
  sys_inv (MkSys m pool used) Ps -> pool !! i = Some (Do (ORand n) k) ->
  base64_rawurl b ∉ used ->
  exists Ps', sys_inv (MkSys m (<[i := k (Ok b)]> pool) ({[base64_rawurl b]} ∪ used)) Ps'
    /\ forall x, pending Ps' x -> x ∈ used -> pending Ps x.
Proof.
  intros [H1 H2 H3 H4 H5 H6 H7 H8] Hp Hb. simpl in *. set (id := base64_rawurl b) in *.
  destruct (Forall2_lookup_r _ _ _ _ _ H1 Hp) as (P & HPi & [_ Hk]).
  assert (HL : forall j Q x, <[i := {[id]} ∪ P]> Ps !! j = Some Q -> x ∈ Q ->
    (x = id /\ i = j) \/ exists Q0, Ps !! j = Some Q0 /\ x ∈ Q0).
  { intros j Q x. destruct (decide (i = j)) as [->|Hne].
    - rewrite list_lookup_insert_eq by (by eapply lookup_lt_Some).
      intros [= <-] [->%elem_of_singleton|Hx]%elem_of_union; eauto.
    - rewrite list_lookup_insert_ne by done. eauto. }
  exists (<[i := {[id]} ∪ P]> Ps).
  split; [|intros x (j & Q & HQ & Hx) Hu; destruct (HL j Q x HQ Hx) as [[-> _]|(Q0 & ? & ?)];
    [done|by exists j, Q0]].
  split; simpl; try done.
  - apply Forall2_insert; [done|]. apply (Hk (Ok b)). simpl. specialize (H2 _ _ HPi). set_solver.
  - intros j Q HQ x Hx. destruct (HL j Q x HQ Hx) as [[-> _]|(Q0 & HQ0 & ?)]; [set_solver|].
    specialize (H2 _ _ HQ0). set_solver.
  - intros j j' Q Q' Hne HQ HQ' x Hx Hx'.
    destruct (HL j Q x HQ Hx) as [[E1 E2]|(Q0 & HQ0 & ?)],
      (HL j' Q' x HQ' Hx') as [[E3 E4]|(Q1 & HQ1 & ?)].
    + congruence.
    + specialize (H2 _ _ HQ1). set_solver.
    + specialize (H2 _ _ HQ0). set_solver.
    + specialize (H3 _ _ _ _ Hne HQ0 HQ1). set_solver.
  - intros j Q x HQ Hx. destruct (HL j Q x HQ Hx) as [[-> _]|(Q0 & HQ0 & ?)]; [|by eapply H4].
    destruct (keys m !! id) eqn:E; [|done]. by apply H6 in E.
  - intros j Q x HQ Hx. destruct (HL j Q x HQ Hx) as [[-> _]|(Q0 & HQ0 & ?)]; [|by eapply H5].
    destruct (sessions m !! id) eqn:E; [|done]. by destruct (Hb (H7 id (mk_is_Some _ _ E))).
  - intros kid sid E. apply elem_of_union_r. eauto.
  - intros sid E. apply elem_of_union_r. eauto.
Qed.

Lemma inv_spawn m pool used Ps p :
  sys_inv (MkSys m pool used) Ps -> safe ∅ p -> sys_inv (MkSys m (pool ++ [p]) used) (Ps ++ [∅]).
Proof.
  intros [H1 H2 H3 H4 H5 H6 H7 H8] Hp. simpl in *.
  assert (HL : forall j Q x, (Ps ++ [∅]) !! j = Some Q -> x ∈ Q -> Ps !! j = Some Q).
  { intros j Q x [HQ|[_ HQ]]%lookup_app_Some ?; [done|].
    apply list_lookup_singleton_Some in HQ as [_ <-]. set_solver. }
  split; simpl; try done.
  - by apply Forall2_app; [|repeat constructor].
  - intros j Q HQ x Hx. by eapply H2; [eapply HL|].
  - intros j j' Q Q' Hne HQ HQ' x Hx Hx'. by eapply (H3 j j'); eauto.
  - intros; by eapply H4; eauto.
  - intros; by eapply H5; eauto.
Qed.

Lemma inv_step c c' Ps :
  sys_inv c Ps -> sys_step c c' ->
  exists Ps', sys_inv c' Ps' /\ (forall x, pending Ps' x -> x ∈ c_used c -> pending Ps x)
    /\ c_used c ⊆ c_used c'.
Proof.
  intros HI Hs. destruct Hs; simpl.
  - destruct (inv_exec _ _ _ _ _ _ _ (exec o m).1 HI H) as (Ps' & ? & ?); eauto.
  - destruct (inv_local _ _ _ _ _ _ (fun P => P ∖ op_inserts o) (k (fail_with e o)) HI H)
      as (Ps' & ? & ?); [|eauto].
    intros P HP. destruct HI as [H1 _ _ _ _ _ _ _]. simpl in H1.
    destruct (Forall2_lookup_lr _ _ _ _ _ _ H1 HP H) as [_ Hk]. split; [set_solver|by apply Hk].
  - destruct (inv_exec _ _ _ _ _ _ _ (fail_with e o) HI H) as (Ps' & ? & ?); eauto.
  - destruct (inv_local _ _ _ _ _ _ id (k t) HI H) as (Ps' & ? & ?); [|eauto].
    intros P HP. destruct HI as [H1 _ _ _ _ _ _ _]. simpl in H1.
    destruct (Forall2_lookup_lr _ _ _ _ _ _ H1 HP H) as [_ Hk]. split; [done|by apply Hk].
  - destruct (inv_rand _ _ _ _ _ _ _ _ HI H H0) as (Ps' & ? & ?). exists Ps'. set_solver.
  - destruct (inv_local _ _ _ _ _ _ id (k (Err e)) HI H) as (Ps' & ? & ?); [|eauto].
    intros P HP. destruct HI as [H1 _ _ _ _ _ _ _]. simpl in H1.
    destruct (Forall2_lookup_lr _ _ _ _ _ _ H1 HP H) as [_ Hk]. split; [done|by apply (Hk (Err e))].
  - exists (Ps ++ [∅]). split_and!; [by apply inv_spawn| |done].
    intros x (j & Q & HQ & Hx) _. apply lookup_app_Some in HQ as [HQ|[_ HQ]]; [by exists j, Q|].
    apply list_lookup_singleton_Some in HQ as [_ <-]. set_solver.
Qed.

Lemma inv_init : sys_inv init [].
Proof.
  split; simpl; try done; try (intros *; rewrite lookup_empty; try intros []; done).
  apply wf_empty.
Qed.

Lemma inv_steps c c' Ps :
  sys_inv c Ps -> rtc sys_step c c' ->
  exists Ps', sys_inv c' Ps' /\ (forall x, pending Ps' x -> x ∈ c_used c -> pending Ps x)
    /\ c_used c ⊆ c_used c'.
Proof.
  intros HI Hs. revert Ps HI. induction Hs as [c|c1 c2 c3 H12 _ IH]; intros Ps HI; [eauto|].
  destruct (inv_step _ _ _ HI H12) as (Ps2 & HI2 & Hp2 & Hu2).
  destruct (IH Ps2 HI2) as (Ps3 & HI3 & Hp3 & Hu3). exists Ps3. split_and!; [done| |set_solver].
  intros x Hx Hu. apply Hp2; [|done]. apply Hp3; [done|set_solver].
Qed.

Lemma inv_reachable c : reachable c -> exists Ps, sys_inv c Ps.
Proof. intros H. destruct (inv_steps _ _ _ inv_init H) as (Ps & ? & _). eauto. Qed.

(** ** What a step may add *)

Lemma allowed_inserts c Ps i o k x :
  sys_inv c Ps -> c_pool c !! i = Some (Do (OStore o) k) -> x ∈ op_inserts o -> pending Ps x.
Proof.
  intros HI Hp Hx. destruct (Forall2_lookup_r _ _ _ _ _ (inv_safe _ _ HI) Hp) as (P & HP & [[Hs _] _]).
  exists i, P. set_solver.
Qed.

Lemma step_keys c c' Ps k sid :
  sys_inv c Ps -> sys_step c c' -> keys (c_mem c') !! k = Some sid ->
  keys (c_mem c) !! k = Some sid \/ pending Ps k.
Proof.
  intros HI Hs. destruct Hs; simpl; auto;
    (intros [E|E]%exec_keys; [by auto|right; eapply allowed_inserts; eauto]).
Qed.

Lemma step_sessions c c' Ps sid :
  sys_inv c Ps -> sys_step c c' -> is_Some (sessions (c_mem c') !! sid) ->
  is_Some (sessions (c_mem c) !! sid) \/ pending Ps sid.
Proof.
  intros HI Hs. destruct Hs; simpl; auto;
    (intros [E|E]%exec_sessions; [by auto|right; eapply allowed_inserts; eauto]).
Qed.

(** An identifier that was drawn and is pending nowhere never enters an index
    it is not in. *)
Lemma keys_settled c c' Ps k :
  sys_inv c Ps -> k ∈ c_used c -> ~ pending Ps k -> rtc sys_step c c' ->
  forall sid, keys (c_mem c') !! k = Some sid -> keys (c_mem c) !! k = Some sid.
Proof.
  intros HI Hu Hp Hs. revert Ps HI Hu Hp.
  induction Hs as [c|c1 c2 c3 H12 _ IH]; intros Ps HI Hu Hp sid Hk; [done|].
  destruct (inv_step _ _ _ HI H12) as (Ps2 & HI2 & Hp2 & Hu2).
  apply (IH Ps2) in Hk; [|done|set_solver|auto].
  by destruct (step_keys _ _ _ _ _ HI H12 Hk).
Qed.

Lemma sessions_settled c c' Ps sid :
  sys_inv c Ps -> sid ∈ c_used c -> ~ pending Ps sid -> rtc sys_step c c' ->
  is_Some (sessions (c_mem c') !! sid) -> is_Some (sessions (c_mem c) !! sid).
Proof.
  intros HI Hu Hp Hs. revert Ps HI Hu Hp.
  induction Hs as [c|c1 c2 c3 H12 _ IH]; intros Ps HI Hu Hp Hk; [done|].
  destruct (inv_step _ _ _ HI H12) as (Ps2 & HI2 & Hp2 & Hu2).
  apply (IH Ps2) in Hk; [|done|set_solver|auto].
  by destruct (step_sessions _ _ _ _ HI H12 Hk).
Qed.

Lemma live_key_settled c Ps k sid :
  sys_inv c Ps -> keys (c_mem c) !! k = Some sid -> k ∈ c_used c /\ ~ pending Ps k.
Proof.
  intros HI Hk. split; [by eapply inv_keys_used|]. intros (i & P & HP & Hx).
  by rewrite (inv_keys _ _ HI _ _ _ HP Hx) in Hk.
Qed.

Lemma live_session_settled c Ps sid s :
  sys_inv c Ps -> sessions (c_mem c) !! sid = Some s -> sid ∈ c_used c /\ ~ pending Ps sid.
Proof.
  intros HI Hs. split; [eapply inv_sessions_used; eauto|]. intros (i & P & HP & Hx).
  by rewrite (inv_sessions _ _ HI _ _ _ HP Hx) in Hs.
Qed.

(** A live key keeps naming the session it was minted for. *)
Lemma key_stable c c' k sid sid' :
  reachable c -> keys (c_mem c) !! k = Some sid -> rtc sys_step c c' ->
  keys (c_mem c') !! k = Some sid' -> sid' = sid.
Proof.
  intros [Ps HI]%inv_reachable Hk Hs Hk'.
  destruct (live_key_settled _ _ _ _ HI Hk) as [Hu Hp].
  apply (keys_settled _ _ _ _ HI Hu Hp Hs) in Hk'. congruence.
Qed.

Lemma key_dead c0 c1 c2 k sid :
  reachable c0 -> keys (c_mem c0) !! k = Some sid -> rtc sys_step c0 c1 ->
  keys (c_mem c1) !! k = None -> rtc sys_step c1 c2 -> keys (c_mem c2) !! k = None.
Proof.
  intros [Ps HI]%inv_reachable Hk H01 Hn H12.
  destruct (live_key_settled _ _ _ _ HI Hk) as [Hu Hp].
  destruct (inv_steps _ _ _ HI H01) as (Ps1 & HI1 & Hp1 & Hu1).
  destruct (keys (c_mem c2) !! k) as [sid'|] eqn:E; [|done].
  eapply keys_settled in E; [|exact HI1|set_solver|naive_solver|done]. congruence.
Qed.

Lemma session_dead c0 c1 c2 sid s :
  reachable c0 -> sessions (c_mem c0) !! sid = Some s -> rtc sys_step c0 c1 ->
  sessions (c_mem c1) !! sid = None -> rtc sys_step c1 c2 -> sessions (c_mem c2) !! sid = None.
Proof.
  intros [Ps HI]%inv_reachable Hs H01 Hn H12.
  destruct (live_session_settled _ _ _ _ HI Hs) as [Hu Hp].
  destruct (inv_steps _ _ _ HI H01) as (Ps1 & HI1 & Hp1 & Hu1).
  destruct (sessions (c_mem c2) !! sid) as [s'|] eqn:E; [|done].
  assert (HS : is_Some (sessions (c_mem c2) !! sid)) by (by rewrite E).
  eapply sessions_settled in HS; [|exact HI1|set_solver|naive_solver|done].
  rewrite Hn in HS. by destruct HS.
Qed.

(** A session that is gone takes its keys with it, for good. *)
Lemma session_dead_keys c0 c1 c2 sid s k :
  reachable c0 -> sessions (c_mem c0) !! sid = Some s -> rtc sys_step c0 c1 ->
  sessions (c_mem c1) !! sid = None -> rtc sys_step c1 c2 -> keys (c_mem c2) !! k <> Some sid.
Proof.
  intros Hr Hs H01 Hn H12 Hk.
  assert (Hr2 : reachable c2) by (unfold reachable; repeat (etrans; [done|]); done).
  destruct (inv_reachable _ Hr2) as [Ps2 HI2].
  destruct (wf_keys _ (inv_wf _ _ HI2) _ _ Hk) as [s' Hs'].
  by rewrite (session_dead _ _ _ _ _ Hr Hs H01 Hn H12) in Hs'.
Qed.

(** The store effect of a successful rotation. *)
Lemma rotation_retires id c m :
  (ApplySessionControls id c m).1 = None -> c_Rotate c = true ->
  keys m !! c_OldKeyID c = Some id /\ keys (ApplySessionControls id c m).2 !! c_OldKeyID c = None
  /\ keys (ApplySessionControls id c m).2 !! c_NewKeyID c = Some id.
Proof.
  intros Hok Hr. pose proof (ApplySessionControls_spec id c m) as H.
  destruct (sessions m !! id) as [s|]; [|by rewrite H in Hok].
  case_decide as HC; [by rewrite H in Hok|]. destruct H as (m' & -> & _ & HK & _). simpl.
  unfold cas_conflict in HC. rewrite HK. unfold controlled_keys. rewrite Hr in *.
  destruct (decide (keys m !! c_OldKeyID c = Some id)) as [Hold|]; [|tauto].
  rewrite lookup_delete_eq. split_and!; [done..|].
  rewrite lookup_delete_ne, lookup_insert_eq; [done|]. intros Heq.
  apply HC. right. split; [done|]. rewrite <-Heq, Hold. eauto.
Qed.
