(* ===== verification/Manager.v ===== *)
(** * The session manager ([internal/session/manager.go])

    Every method is a program over the store, the clock and the random source.
    A method of [*Live] takes the handle and returns it with its new field
    values; a method returning [error] returns [option error]. *)

From stdpp Require Import base gmap strings list.
From Stdlib Require Import ZArith Lia.
From S2P Require Import Prelude GoStrings Crypto GoTime StoreApi.
Local Open Scope prog_scope.

Module Manager.

Record Config := MkConfig {
  Inactive : Z;
  Final : Z;
  Synchronize : bool;
  RotateOnLogin : bool;
  RotateInterval : Z }.

(** [session.CookieMutation] *)
Record Mutation := MkMutation { mu_Name : string; mu_Value : string; mu_Delete : bool }.

Record Live := MkLive {
  l_KeyID : string;
  l_SessionID : string;
  l_OwnerID : Z;
  l_Cookies : gmap string string;
  l_Labels : list string;
  l_shas : gmap string string;
  l_newKey : string;
  l_rewrite : bool;
  l_rotateDue : bool }.

Definition set_key (k nk : string) (rw : bool) (l : Live) : Live :=
  MkLive k (l_SessionID l) (l_OwnerID l) (l_Cookies l) (l_Labels l) (l_shas l) nk rw (l_rotateDue l).
Definition set_owner (o : Z) (l : Live) : Live :=
  MkLive (l_KeyID l) (l_SessionID l) o (l_Cookies l) (l_Labels l) (l_shas l) (l_newKey l)
    (l_rewrite l) (l_rotateDue l).
Definition set_labels (ls : list string) (l : Live) : Live :=
  MkLive (l_KeyID l) (l_SessionID l) (l_OwnerID l) (l_Cookies l) ls (l_shas l) (l_newKey l)
    (l_rewrite l) (l_rotateDue l).
Definition set_cookies (cs hs : gmap string string) (l : Live) : Live :=
  MkLive (l_KeyID l) (l_SessionID l) (l_OwnerID l) cs (l_Labels l) hs (l_newKey l)
    (l_rewrite l) (l_rotateDue l).

(** [m.newID]: 256 random bits, base64url. *)
Definition newID : prog (res string) :=
  let* r := read_rand 32 in
  match r with
  | Err e => Ret (Err e)
  | Ok buf => Ret (Ok (base64_rawurl buf))
  end.

Definition unix_now : prog Z := let* t := now in Ret (Unix t).

Definition expired (s : Session) (now : Z) : bool :=
  ((InactiveTimeout s <=? wrap64 (now - LastAccess s))
   || (wrap64 (Creation s + FinalTimeout s) <=? now))%Z.

Definition ttl (s : Session) (now : Z) : Z :=
  let inactive := of_seconds (InactiveTimeout s) in
  let remainingFinal := of_seconds (wrap64 (Creation s + FinalTimeout s - now)) in
  if (remainingFinal <? inactive)%Z then remainingFinal else inactive.

Definition Begin (cfg : Config) : prog (res Live) :=
  let* now := unix_now in
  let* rsid := newID in
  match rsid with
  | Err e => Ret (Err e)
  | Ok sid =>
    let* rkey := newID in
    match rkey with
    | Err e => Ret (Err e)
    | Ok key =>
      let sess := MkSession sid now now (Seconds (Inactive cfg)) (Seconds (Final cfg)) 0 now "" in
      let t := ttl sess now in
      let* e1 := call (PutSession sess t) in
      match e1 with
      | Some e => Ret (Err e)
      | None =>
        let* e2 := call (PutKey key sid t) in
        match e2 with
        | Some e => Ret (Err e)
        | None => Ret (Ok (MkLive key sid 0 ∅ [] ∅ key true false))
        end
      end
    end
  end.

(** The rotation decision of [Resolve]: the session row to continue with, and
    whether a periodic rotation is due. *)
Definition rotation_due (cfg : Config) (sess : Session) (now : Z) : Session * bool :=
  if (0 <? RotateInterval cfg)%Z then
    if (LastRotation sess =? 0)%Z then (with_LastRotation now sess, false)
    else (sess, (Seconds (RotateInterval cfg) <=? wrap64 (now - LastRotation sess))%Z)
  else (sess, false).

Definition Resolve (cfg : Config) (keyID : string) : prog (res (option Live)) :=
  let* rk := call (GetKey keyID) in
  match rk with
  | Err ErrNotFound => Ret (Ok None)
  | Err e => Ret (Err e)
  | Ok sid =>
    let* rs := call (GetSession sid) in
    match rs with
    | Err ErrNotFound => Ret (Ok None)
    | Err e => Ret (Err e)
    | Ok sess =>
      let* now := unix_now in
      if expired sess now then
        let* _ := call (DeleteSession sid) in
        Ret (Ok None)
      else
        let '(sess, rotateDue) := rotation_due cfg sess now in
        let sess := with_LastAccess now sess in
        let t := ttl sess now in
        let* e := call (TouchSession sid keyID (LastAccess sess) (LastRotation sess) t) in
        match e with
        | Some e => Ret (Err e)
        | None =>
          let* rc := call (GetCookies sid) in
          match rc with
          | Err e => Ret (Err e)
          | Ok cookies =>
            let* rh := call (CookieSHAs sid) in
            match rh with
            | Err e => Ret (Err e)
            | Ok shas =>
              Ret (Ok (Some (MkLive keyID sid (OwnerID sess) cookies (fields (Labels sess)) shas
                               "" false rotateDue)))
            end
          end
        end
    end
  end.

(** [l.rotateKey] *)
Definition rotateKey (t lastRotation : Z) (l : Live) : prog (option error * Live) :=
  let* rk := newID in
  match rk with
  | Err e => Ret (Some e, l)
  | Ok newKey =>
    let* e := call (RotateSessionKey (l_SessionID l) (l_KeyID l) newKey lastRotation t) in
    match e with
    | Some e => Ret (Some e, l)
    | None => Ret (None, set_key newKey newKey true l)
    end
  end.

Definition MaybeRotate (cfg : Config) (l : Live) : prog (option error * Live) :=
  if negb (l_rotateDue l) || l_rewrite l then Ret (None, l)
  else
    let* now := unix_now in
    let* rs := call (GetSession (l_SessionID l)) in
    match rs with
    | Err e => Ret (Some e, l)
    | Ok sess =>
      if (wrap64 (now - LastRotation sess) <? Seconds (RotateInterval cfg))%Z then Ret (None, l)
      else rotateKey (ttl sess now) now l
    end.

Definition ForceRotate (l : Live) : prog (option error * Live) :=
  if l_rewrite l then Ret (None, l)
  else
    let* now := unix_now in
    let* rs := call (GetSession (l_SessionID l)) in
    match rs with
    | Err e => Ret (Some e, l)
    | Ok sess => rotateKey (ttl sess now) now l
    end.

(** The loop of [normalizeLabels]: trim, drop empty entries, dedupe. *)
Fixpoint normalize_go (seen : gset string) (labels : list string) : list string :=
  match labels with
  | [] => []
  | l :: labels' =>
      let l := trim_space l in
      if decide (l = "" \/ l ∈ seen) then normalize_go seen labels'
      else l :: normalize_go ({[l]} ∪ seen) labels'
  end.

Definition normalizeLabels (labels : list string) : string :=
  join_with " " (sort_strings (normalize_go ∅ labels)).

Definition HasLabel (l : Live) (label : string) : bool := bool_decide (label ∈ l_Labels l).

(** The store mutation for one cookie: writes carry the value's hash. *)
Definition to_store_mutation (c : Mutation) : CookieMutation :=
  MkCookieMutation (mu_Name c) (mu_Value c)
    (if mu_Delete c then "" else base64_rawurl (sha256 (mu_Value c))) (mu_Delete c).

(** The handle's local copy of one applied mutation. *)
Definition apply_local (l : Live) (c : CookieMutation) : Live :=
  if cm_Delete c then
    set_cookies (delete (cm_Name c) (l_Cookies l)) (delete (cm_Name c) (l_shas l)) l
  else
    set_cookies (<[cm_Name c := cm_Value c]> (l_Cookies l)) (<[cm_Name c := cm_SHA c]> (l_shas l)) l.

Definition set_owner_opt (o : option Z) (l : Live) : Live :=
  match o with Some o => set_owner o l | None => l end.
Definition set_labels_opt (ls : option (list string)) (l : Live) : Live :=
  match ls with Some ls => set_labels (fields (normalizeLabels ls)) l | None => l end.

(** The decisions of [applyControls], from the session row read back. *)
Definition owner_changed (ownerID : option Z) (sess : Session) : bool :=
  match ownerID with Some o => bool_decide (o <> OwnerID sess) | None => false end.
Definition labels_changed (labels : option (list string)) (sess : Session) : bool :=
  match labels with Some ls => bool_decide (normalizeLabels ls <> Labels sess) | None => false end.
Definition periodic_due (cfg : Config) (checkPeriodic : bool) (sess : Session) (now : Z) : bool :=
  checkPeriodic && (0 <? RotateInterval cfg)%Z
  && (Seconds (RotateInterval cfg) <=? wrap64 (now - LastRotation sess))%Z.
Definition rotate_wanted (cfg : Config) (l : Live) (ownerID : option Z)
    (labels : option (list string)) (forceRotate checkPeriodic : bool) (sess : Session) (now : Z) : bool :=
  negb (l_rewrite l)
  && (forceRotate || periodic_due cfg checkPeriodic sess now || labels_changed labels sess
      || (owner_changed ownerID sess && RotateOnLogin cfg)).

Definition applyControls (cfg : Config) (ownerID : option Z) (labels : option (list string))
    (forceRotate checkPeriodic : bool) (cookies : list Mutation) (l : Live) :
    prog (option error * Live) :=
  let* now := unix_now in
  let* rs := call (GetSession (l_SessionID l)) in
  match rs with
  | Err e => Ret (Some e, l)
  | Ok sess =>
    let ownerChanged := owner_changed ownerID sess in
    let labelsChanged := labels_changed labels sess in
    let muts := to_store_mutation <$> cookies in
    let rotate := rotate_wanted cfg l ownerID labels forceRotate checkPeriodic sess now in
    if negb ownerChanged && negb labelsChanged && negb rotate && bool_decide (muts = []) then
      Ret (None, set_labels_opt labels (set_owner_opt ownerID l))
    else
      let lastAccess :=
        if ownerChanged || labelsChanged || negb (bool_decide (muts = [])) then now else 0%Z in
      let lastRotation := if rotate then now else 0%Z in
      let* rk := if rotate then newID else Ret (Ok (l_KeyID l)) in
      match rk with
      | Err e => Ret (Some e, l)
      | Ok newKey =>
        let controls := MkControls ownerChanged (default 0%Z ownerID) labelsChanged
          (match labels with Some ls => normalizeLabels ls | None => "" end)
          lastAccess lastRotation (l_KeyID l) newKey rotate muts in
        let sess := with_LastAccess (Z.max (LastAccess sess) lastAccess) sess in
        let t := ttl sess now in
        let* e := call (ApplySessionControls (l_SessionID l) controls t (of_seconds (FinalTimeout sess))) in
        match e with
        | Some e => Ret (Some e, l)
        | None =>
          let l := set_labels_opt labels (set_owner_opt ownerID l) in
          let l := foldl apply_local l muts in
          Ret (None, if rotate then set_key newKey newKey true l else l)
        end
      end
  end.

Definition SetLabels (cfg : Config) (labels : list string) (l : Live) :
    prog (res bool * Live) :=
  let* rs := call (GetSession (l_SessionID l)) in
  match rs with
  | Err e => Ret (Err e, l)
  | Ok sess =>
    let changed := bool_decide (normalizeLabels labels <> Labels sess) in
    let* (e, l) := applyControls cfg None (Some labels) false false [] l in
    match e with
    | Some e => Ret (Err e, l)
    | None => Ret (Ok changed, l)
    end
  end.

Definition ApplyResponseControls (cfg : Config) (ownerID : option Z)
    (labels : option (list string)) (forceRotate : bool) (l : Live) : prog (option error * Live) :=
  applyControls cfg ownerID labels forceRotate true [] l.

Definition ApplyResponse (cfg : Config) (ownerID : option Z) (labels : option (list string))
    (forceRotate : bool) (cookies : list Mutation) (l : Live) : prog (option error * Live) :=
  applyControls cfg ownerID labels forceRotate true cookies l.

Definition NewProxyCookie (l : Live) : string * bool :=
  if l_rewrite l then (l_newKey l, true) else ("", false).

Definition StoreCookie (cfg : Config) (name value : string) (l : Live) : prog (option error * Live) :=
  applyControls cfg None None false false [MkMutation name value false] l.

Definition DeleteCookie (cfg : Config) (name : string) (l : Live) : prog (option error * Live) :=
  applyControls cfg None None false false [MkMutation name "" true] l.

Definition BindOwner (cfg : Config) (ownerID : Z) (l : Live) : prog (res bool * Live) :=
  if (ownerID <=? 0)%Z then Ret (Ok false, l)
  else
    let* rs := call (GetSession (l_SessionID l)) in
    match rs with
    | Err e => Ret (Err e, l)
    | Ok sess =>
      let changed := bool_decide (ownerID <> OwnerID sess) in
      let wasRewrite := l_rewrite l in
      let pendingKey := l_newKey l in
      let l := if changed && RotateOnLogin cfg && l_rewrite l
               then set_key (l_KeyID l) "" false l else l in
      let* (e, l) := applyControls cfg (Some ownerID) None false false [] l in
      match e with
      | Some e => Ret (Err e, set_key (l_KeyID l) pendingKey wasRewrite l)
      | None => Ret (Ok (changed && RotateOnLogin cfg), l)
      end
    end.

Definition Revoke (l : Live) : prog (option error * Live) :=
  let* e := call (DeleteSession (l_SessionID l)) in
  match e with
  | Some e => Ret (Some e, l)
  | None => Ret (None, set_cookies ∅ ∅ (set_key "" "" false l))
  end.

(** The deletion loop of [RevokeOwner]: every session is attempted, the first
    error is returned. *)
Fixpoint revoke_loop (ownerID : Z) (firstErr : option error) (sids : list string) :
    prog (option error) :=
  match sids with
  | [] => Ret firstErr
  | sid :: sids' =>
    let* r := call (DeleteSessionByOwner ownerID sid) in
    let firstErr := match r, firstErr with Err e, None => Some e | _, _ => firstErr end in
    revoke_loop ownerID firstErr sids'
  end.

Definition RevokeOwner (ownerID : Z) : prog (option error) :=
  let* rs := call (OwnerSessions ownerID) in
  match rs with
  | Err e => Ret (Some e)
  | Ok sids => revoke_loop ownerID None sids
  end.

(** [m.WithLock]: [fn] may update state of the caller; [skipped] is that state
    when [fn] does not run. *)
Definition WithLock {A} (cfg : Config) (sessionID : string) (fn : prog (option error * A))
    (skipped : A) : prog (option error * A) :=
  if negb (Synchronize cfg) then fn
  else
    let* r := call (Lock sessionID (5 * Second)) in
    match r with
    | Err e => Ret (Some e, skipped)
    | Ok None => Ret (Some ErrLockContended, skipped)
    | Ok (Some token) =>
      let* r := fn in
      let* _ := call (Unlock sessionID token) in
      Ret r
    end.

End Manager.
