(* ===== verification/ManagerSafety.v ===== *)
(** * The session manager's programs are disciplined

    Every method of the manager publishes only identifiers it has just drawn,
    each at most once; so the theorems about concurrent requests apply to any
    mix of manager calls. *)

From stdpp Require Import base gmap strings list relations.
From Stdlib Require Import ZArith Lia.
From S2P Require Import Prelude GoTime Crypto StoreApi Memory MemoryProps Concurrency Manager.
Import Memory MemoryProps.

(** ** Composition *)

Lemma op_allowed_mono P Q o : P ⊆ Q -> op_allowed P o -> op_allowed Q o.
Proof. destruct o; simpl; [|done..]. intros ? [? ?]. split; [set_solver|done]. Qed.

Lemma op_after_mono P Q o r : P ⊆ Q -> op_after P o r ⊆ op_after Q o r.
Proof. destruct o as [o| |n]; simpl in *; [set_solver|done|]. destruct r; set_solver. Qed.

Lemma safe_mono {A} (p : prog A) P Q : P ⊆ Q -> safe P p -> safe Q p.
Proof.
  revert P Q; induction p as [a|o k IH]; intros P Q HPQ; [done|]. cbn [safe].
  intros [H1 H2]. split; [by eapply op_allowed_mono|].
  intros r Hr. eapply IH; [|apply H2]; [by apply op_after_mono|].
  destruct o; [done..|]. simpl in *. destruct r; set_solver.
Qed.

Lemma safe_bind {A B} (p : prog A) (f : A -> prog B) P :
  safe P p -> (forall a, safe ∅ (f a)) -> safe P (bind p f).
Proof.
  revert P; induction p as [a|o k IH]; intros P Hp Hf; cbn [bind safe] in *.
  - eapply safe_mono; [|apply Hf]. set_solver.
  - destruct Hp as [H1 H2]. split; [done|]. intros r Hr. apply IH; auto.
Qed.

Lemma safe_Do {A} P o (k : op_ret o -> prog A) :
  op_allowed P o -> (forall r, op_fresh P o r -> safe (op_after P o r) (k r)) -> safe P (Do o k).
Proof. by split. Qed.

(** Walk down a manager program: one operation, then every result it may see. *)
Ltac safe_go :=
  repeat match goal with
  | |- safe _ (Ret _) => exact I
  | |- safe _ (bind (Ret _) _) => cbn [bind]
  | |- safe _ (bind (Do _ _) _) => cbn [bind]
  | |- safe _ (bind (call _) _) => unfold call; cbn [bind]
  | |- safe _ (bind (match ?x with _ => _ end) _) => destruct x
  | |- safe _ (Do _ _) => apply safe_Do;
      [simpl; try (split; [set_solver|]); try done|intros ? ?; cbn [op_after op_fresh] in *]
  | |- safe _ (match ?x with _ => _ end) => destruct x
  | |- safe _ (if ?x then _ else _) => destruct x
  | |- safe _ (let _ := _ in _) => cbv zeta
  end.

Section Methods.
Variable cfg : Manager.Config.
Import Manager.

Lemma safe_Begin : safe ∅ (Begin cfg).
Proof. unfold Begin, unix_now, newID, now, read_rand. cbn [bind].  safe_go. Qed.

Lemma safe_Resolve k : safe ∅ (Resolve cfg k).
Proof. unfold Resolve, unix_now, now. cbn [bind]. safe_go. Qed.

Lemma safe_rotateKey t lr l : safe ∅ (rotateKey t lr l).
Proof. unfold rotateKey, newID, read_rand. cbn [bind]. safe_go. Qed.

Lemma safe_MaybeRotate l : safe ∅ (MaybeRotate cfg l).
Proof.
  unfold MaybeRotate, unix_now, now. cbn [bind]. safe_go.
  eapply safe_mono; [|apply safe_rotateKey]. set_solver.
Qed.

Lemma safe_ForceRotate l : safe ∅ (ForceRotate l).
Proof.
  unfold ForceRotate, unix_now, now. cbn [bind]. safe_go.
  eapply safe_mono; [|apply safe_rotateKey]. set_solver.
Qed.

Lemma safe_applyControls owner labels force periodic muts l :
  (forall o, owner = Some o -> (0 < o)%Z) ->
  safe ∅ (applyControls cfg owner labels force periodic muts l).
Proof.
  intros Ho.
  assert (HO : forall sess, owner_changed owner sess = true -> (0 < default 0%Z owner)%Z).
  { intros sess. destruct owner as [o|]; simpl; [|done]. intros _. by apply Ho. }
  unfold applyControls, unix_now, now, newID, read_rand. cbn [bind].
  safe_go; eauto.
Qed.

Lemma safe_SetLabels ls l : safe ∅ (SetLabels cfg ls l).
Proof.
  unfold SetLabels. safe_go.
  apply safe_bind; [|intros [[e|] l']; exact I].
  eapply safe_mono; [|by apply safe_applyControls]. set_solver.
Qed.

Lemma safe_BindOwner o l : safe ∅ (BindOwner cfg o l).
Proof.
  unfold BindOwner. destruct (o <=? 0)%Z eqn:E; [exact I|]. apply Z.leb_gt in E. safe_go.
  all: apply safe_bind; [|intros [[e|] l']; exact I].
  all: eapply safe_mono; [|apply safe_applyControls; by intros ? [= <-]]; set_solver.
Qed.

Lemma safe_Revoke l : safe ∅ (Revoke l).
Proof. unfold Revoke. safe_go. Qed.

Lemma safe_revoke_loop o fe sids : safe ∅ (revoke_loop o fe sids).
Proof.
  revert fe; induction sids as [|sid sids IH]; intros fe; simpl revoke_loop; [exact I|].
  safe_go; (eapply safe_mono; [|apply IH]; set_solver).
Qed.

Lemma safe_RevokeOwner o : safe ∅ (RevokeOwner o).
Proof.
  unfold RevokeOwner. safe_go. eapply safe_mono; [|apply safe_revoke_loop]. set_solver.
Qed.

Lemma safe_WithLock {A} sid (fn : prog (option error * A)) skipped :
  safe ∅ fn -> safe ∅ (WithLock cfg sid fn skipped).
Proof.
  intros Hfn. unfold WithLock. destruct (negb (Synchronize cfg)); [done|]. safe_go.
  apply safe_bind; [eapply safe_mono; [|done]; set_solver|]. intros r. safe_go.
Qed.
End Methods.
