(* ===== verification/ConcurrencyThms.v ===== *)
(** * What concurrent requests can never do

    Consequences of the system invariant for the two security transitions of
    the manager: key rotation (fixation defence) and revocation (logout). *)

From stdpp Require Import base gmap strings list relations.
From Stdlib Require Import ZArith Lia.
From S2P Require Import Prelude GoTime Crypto StoreApi.
From S2P Require Import Memory MemoryProps Concurrency Manager ManagerSafety.
Import Memory MemoryProps.

(** ** Driving one request to completion, for concrete runs *)

(** Thread [i] runs alone for at most [fuel] actions: the clock reads [t], the
    random source yields [bs]. *)
Fixpoint drive (fuel i : nat) (t : Z) (bs : list string) (c : config) : option config :=
  match fuel with
  | 0 => Some c
  | S fuel' =>
      match c_pool c !! i with
      | None => None
      | Some (Ret _) => Some c
      | Some (Do (OStore o) k) =>
          drive fuel' i t bs
            (MkSys (exec o (c_mem c)).2 (<[i := k (exec o (c_mem c)).1]> (c_pool c)) (c_used c))
      | Some (Do ONow k) => drive fuel' i t bs (MkSys (c_mem c) (<[i := k t]> (c_pool c)) (c_used c))
      | Some (Do (ORand n) k) =>
          match bs with
          | [] => None
          | b :: bs' =>
              if decide (base64_rawurl b ∈ c_used c) then None
              else drive fuel' i t bs'
                (MkSys (c_mem c) (<[i := k (Ok b)]> (c_pool c)) ({[base64_rawurl b]} ∪ c_used c))
          end
      end
  end.

Lemma drive_sound fuel i t bs c c' : drive fuel i t bs c = Some c' -> rtc sys_step c c'.
Proof.
  revert bs c; induction fuel as [|fuel IH]; intros bs [m pool used]; simpl; [by intros [= <-]|].
  destruct (pool !! i) as [[a|[o| |n] k]|] eqn:E; [by intros [= <-]|..|done].
  - intros HD%IH. eapply rtc_l; [by apply (step_store m pool used i o k)|done].
  - intros HD%IH. eapply rtc_l; [by apply (step_now m pool used i k t)|done].
  - destruct bs as [|b bs]; [done|]. case_decide; [done|].
    intros HD%IH. eapply rtc_l; [by apply (step_rand m pool used i n k b)|done].
Qed.

(** The next action of thread [i], a store call. *)
Definition store_turn (i : nat) (c : config) : option config :=
  match c_pool c !! i with
  | Some (Do (OStore o) k) =>
      Some (MkSys (exec o (c_mem c)).2 (<[i := k (exec o (c_mem c)).1]> (c_pool c)) (c_used c))
  | _ => None
  end.

Lemma store_turn_sound i c c' : store_turn i c = Some c' -> sys_step c c'.
Proof.
  destruct c as [m pool used]; unfold store_turn; simpl. intros H. case_all.
  by apply step_store.
Qed.

Definition discard {A} (p : prog A) : prog unit := bind p (fun _ => Ret ()).

Lemma safe_discard {A} (p : prog A) : safe ∅ p -> safe ∅ (discard p).
Proof. intros H. apply safe_bind; [done|]. by intros a. Qed.

(** A configuration in which one [Begin] has completed. *)
Definition demo_cfg : Manager.Config := Manager.MkConfig (1800 * Second) (28800 * Second) false true 0.
Definition demo_pool : list (prog unit) := [discard (Manager.Begin demo_cfg)].
Definition rand_a : string := "0123456789abcdef0123456789abcdef".
Definition rand_b : string := "fedcba98765432100123456789abcdef".
Definition rand_c : string := "ABCDEFGHIJKLMNOPQRSTUVWXYZ012345".
Definition demo_sid : string := base64_rawurl rand_a.
Definition demo_key : string := base64_rawurl rand_b.

Definition get_conf (o : option config) : config := default init o.
Definition demo_conf : config :=
  get_conf (drive 20 0 (1000 * Second) [rand_a; rand_b] (MkSys NewMemory demo_pool ∅)).

Lemma spawn_reachable c p :
  reachable c -> safe ∅ p -> reachable (MkSys (c_mem c) (c_pool c ++ [p]) (c_used c)).
Proof. intros Hr Hp. unfold reachable. eapply rtc_r; [done|]. destruct c; by apply step_spawn. Qed.

Lemma demo_reachable : reachable demo_conf.
Proof.
  unfold reachable. etrans.
  - apply (spawn_reachable init (discard (Manager.Begin demo_cfg))); [apply rtc_refl|].
    apply safe_discard, safe_Begin.
  - apply (drive_sound 20 0 (1000 * Second) [rand_a; rand_b]). vm_compute. reflexivity.
Qed.

(** A second request on that session, and the configuration just before its
    store transition ([before]) and just after ([after]). *)
Definition demo_live : Manager.Live := Manager.MkLive demo_key demo_sid 0 ∅ [] ∅ "" false false.
Definition before (n : nat) (p : prog unit) : config :=
  get_conf (drive n 1 (1010 * Second) [rand_c]
    (MkSys (c_mem demo_conf) (c_pool demo_conf ++ [p]) (c_used demo_conf))).
Definition after (n : nat) (p : prog unit) : config := get_conf (store_turn 1 (before n p)).

Lemma before_steps n p :
  safe ∅ p ->
  is_Some (drive n 1 (1010 * Second) [rand_c]
    (MkSys (c_mem demo_conf) (c_pool demo_conf ++ [p]) (c_used demo_conf))) ->
  rtc sys_step demo_conf (before n p).
Proof.
  intros Hp [c Hc]. unfold before. rewrite Hc. simpl. apply drive_sound in Hc.
  eapply rtc_l; [|exact Hc]. destruct demo_conf. by apply step_spawn.
Qed.

Lemma before_reachable n p :
  safe ∅ p ->
  is_Some (drive n 1 (1010 * Second) [rand_c]
    (MkSys (c_mem demo_conf) (c_pool demo_conf ++ [p]) (c_used demo_conf))) ->
  reachable (before n p).
Proof. intros Hp Hc. unfold reachable. etrans; [exact demo_reachable|by apply before_steps]. Qed.

Lemma after_step n p : is_Some (store_turn 1 (before n p)) -> sys_step (before n p) (after n p).
Proof. intros [c Hc]. unfold after. rewrite Hc. by apply store_turn_sound in Hc. Qed.

Definition rotating : prog unit :=
  discard (Manager.ApplyResponse demo_cfg None None true [] demo_live).
Definition rotating_controls : SessionControls :=
  MkControls false 0 false "" 0 1010 demo_key (base64_rawurl rand_c) true [].
Definition resolving : prog unit := discard (Manager.Resolve demo_cfg demo_key).
Definition revoking : prog unit := discard (Manager.Revoke demo_live).

Lemma rotating_safe : safe ∅ rotating.
Proof. apply safe_discard. by apply safe_applyControls. Qed.
Lemma resolving_safe : safe ∅ resolving.
Proof. apply safe_discard, safe_Resolve. Qed.
Lemma revoking_safe : safe ∅ revoking.
Proof. apply safe_discard, safe_Revoke. Qed.

(** ** Resolving a dead key *)

Lemma resolve_missing cfg k m t rng :
  keys m !! k = None ->
  run (Manager.Resolve cfg k) (MkWorld m t rng) = (Ok None, MkWorld m t rng).
Proof.
  intros H. unfold Manager.Resolve, call. cbn [bind run step exec memory_store w_store].
  unfold GetKey. by rewrite H.
Qed.

(** ** Theorems *)

(** C15: under any interleaving of any number of requests, with store calls
    failing before or after they take effect, the indexes of the store stay
    consistent: every key names a live session, every cached cookie belongs to
    a live session and has a hash, and an owner's index lists exactly the live
    sessions bound to that owner. *)
Theorem concurrent_store_invariant c : reachable c -> wf (c_mem c).
Proof. intros [Ps HI]%inv_reachable. apply (inv_wf _ _ HI). Qed.

Lemma concurrent_store_invariant_witness :
  keys (c_mem demo_conf) !! demo_key = Some demo_sid /\ wf (c_mem demo_conf).
Proof.
  split; [vm_compute; reflexivity|]. apply concurrent_store_invariant, demo_reachable.
Defined.

(** C3: fixation defence.  Once a response has rotated a key away, that key
    never resolves to a session again, in any later state of the system and
    whatever the other requests do. *)
Theorem rotated_key_never_resolves c c1 c2 sid ctl cfg t rng :
  reachable c -> sys_step c c1 ->
  c_mem c1 = (ApplySessionControls sid ctl (c_mem c)).2 ->
  (ApplySessionControls sid ctl (c_mem c)).1 = None -> c_Rotate ctl = true ->
  rtc sys_step c1 c2 ->
  run (Manager.Resolve cfg (c_OldKeyID ctl)) (MkWorld (c_mem c2) t rng)
    = (Ok None, MkWorld (c_mem c2) t rng).
Proof.
  intros Hr H01 Hm Hok Hrot H12. destruct (rotation_retires _ _ _ Hok Hrot) as (Hold & Hgone & _).
  apply resolve_missing. eapply (key_dead c c1); eauto using rtc_once. by rewrite Hm.
Qed.

Lemma rotated_key_never_resolves_witness :
  run (Manager.Resolve demo_cfg demo_key) (MkWorld (c_mem (after 3 rotating)) 0 "")
    = (Ok None, MkWorld (c_mem (after 3 rotating)) 0 "")
  /\ keys (c_mem (after 3 rotating)) !! base64_rawurl rand_c = Some demo_sid.
Proof.
  split; [|vm_compute; reflexivity].
  apply (rotated_key_never_resolves (before 3 rotating) (after 3 rotating) (after 3 rotating)
    demo_sid rotating_controls demo_cfg 0 "").
  - apply before_reachable; [apply rotating_safe|]. eexists; vm_compute; reflexivity.
  - apply after_step. eexists; vm_compute; reflexivity.
  - vm_compute; reflexivity.
  - vm_compute; reflexivity.
  - reflexivity.
  - apply rtc_refl.
Defined.

(** C5: logout is final.  Once a session has been deleted, no later state of
    the system, whatever stale requests still do, contains the session, a key
    naming it, or a cookie cached under it. *)
Theorem revoked_session_stays_revoked c c1 c2 sid s :
  reachable c -> sessions (c_mem c) !! sid = Some s -> sys_step c c1 ->
  c_mem c1 = (DeleteSession sid (c_mem c)).2 -> rtc sys_step c1 c2 ->
  (GetSession sid (c_mem c2)).1 = Err ErrNotFound
  /\ (forall k, (GetKey k (c_mem c2)).1 <> Ok sid)
  /\ (GetCookies sid (c_mem c2)).1 = Ok ∅ /\ (CookieSHAs sid (c_mem c2)).1 = Ok ∅
  /\ forall o, sid ∉ members (owners (c_mem c2)) o.
Proof.
  intros Hr Hs H01 Hm H12.
  assert (Hn : sessions (c_mem c1) !! sid = None) by (rewrite Hm; apply lookup_delete_eq).
  assert (Hn2 : sessions (c_mem c2) !! sid = None)
    by (eapply (session_dead c c1); eauto using rtc_once).
  assert (Hr2 : reachable c2).
  { unfold reachable. etrans; [exact Hr|]. etrans; [by apply rtc_once|done]. }
  destruct (inv_reachable _ Hr2) as [Ps HI]. pose proof (inv_wf _ _ HI) as Hwf.
  unfold GetSession, GetKey, GetCookies, CookieSHAs, copyMap; simpl. rewrite Hn2. split_and!.
  - done.
  - intros k Hk. case_match eqn:E; simplify_eq.
    destruct (wf_keys _ Hwf _ _ E) as [? E']. congruence.
  - destruct (cookies (c_mem c2) !! sid) eqn:E; [|done].
    destruct (wf_cookies _ Hwf sid) as [? E']; [eauto|congruence].
  - destruct (shas (c_mem c2) !! sid) eqn:E; [|done].
    destruct (wf_shas _ Hwf sid) as [? E']; [eauto|congruence].
  - intros o Ho. apply (wf_owners _ Hwf) in Ho as (_ & s' & E' & _). congruence.
Qed.

Lemma revoked_session_stays_revoked_witness :
  (GetSession demo_sid (c_mem (after 0 revoking))).1 = Err ErrNotFound
  /\ (GetKey demo_key (c_mem (before 0 revoking))).1 = Ok demo_sid
  /\ (GetKey demo_key (c_mem (after 0 revoking))).1 <> Ok demo_sid.
Proof.
  destruct (revoked_session_stays_revoked (before 0 revoking) (after 0 revoking) (after 0 revoking)
    demo_sid (MkSession demo_sid 1000 1000 1800 28800 0 1000 "")) as (H1 & H2 & _).
  - apply before_reachable; [apply revoking_safe|]. eexists; vm_compute; reflexivity.
  - vm_compute; reflexivity.
  - apply after_step. eexists; vm_compute; reflexivity.
  - vm_compute; reflexivity.
  - apply rtc_refl.
  - split; [exact H1|]. split; [vm_compute; reflexivity|apply H2].
Defined.

(** C16: a client key never comes to name another session: whenever it resolves,
    it resolves to the session it was minted for. *)
Theorem key_binding_stable c c' k sid sid' :
  reachable c -> (GetKey k (c_mem c)).1 = Ok sid -> rtc sys_step c c' ->
  (GetKey k (c_mem c')).1 = Ok sid' -> sid' = sid.
Proof.
  unfold GetKey; simpl. intros Hr H1 Hs H2.
  destruct (keys (c_mem c) !! k) eqn:E1; [|done]. destruct (keys (c_mem c') !! k) eqn:E2; [|done].
  simplify_eq. eapply key_stable; eauto.
Qed.

Lemma key_binding_stable_witness :
  LastAccess <$> sessions (c_mem (before 6 resolving)) !! demo_sid = Some 1010%Z
  /\ demo_sid = demo_sid.
Proof.
  split; [vm_compute; reflexivity|].
  apply (key_binding_stable demo_conf (before 6 resolving) demo_key demo_sid demo_sid).
  - apply demo_reachable.
  - vm_compute; reflexivity.
  - apply before_steps; [apply resolving_safe|]. eexists; vm_compute; reflexivity.
  - vm_compute; reflexivity.
Defined.

(** Every method of the session manager is disciplined: whatever the store
    answers, it publishes only identifiers it has just drawn, each at most
    once, so it may take part in the concurrent system above. *)
Theorem manager_disciplined cfg :
  safe ∅ (Manager.Begin cfg) /\ (forall k, safe ∅ (Manager.Resolve cfg k))
  /\ (forall l, safe ∅ (Manager.MaybeRotate cfg l)) /\ (forall l, safe ∅ (Manager.ForceRotate l))
  /\ (forall ls l, safe ∅ (Manager.SetLabels cfg ls l))
  /\ (forall o l, safe ∅ (Manager.BindOwner cfg o l))
  /\ (forall n v l, safe ∅ (Manager.StoreCookie cfg n v l))
  /\ (forall n l, safe ∅ (Manager.DeleteCookie cfg n l))
  /\ (forall l, safe ∅ (Manager.Revoke l)) /\ (forall o, safe ∅ (Manager.RevokeOwner o))
  /\ (forall o ls f muts l, (forall o', o = Some o' -> (0 < o')%Z) ->
        safe ∅ (Manager.ApplyResponse cfg o ls f muts l)).
Proof.
  split_and!; intros;
    auto using safe_Begin, safe_Resolve, safe_MaybeRotate, safe_ForceRotate, safe_SetLabels,
      safe_BindOwner, safe_Revoke, safe_RevokeOwner;
    by apply safe_applyControls.
Qed.
