(* ===== verification/ManagerThms.v ===== *)
(** * What the session manager guarantees over the in-memory store

    Exact results of [Begin], [Resolve] and [applyControls], and the properties
    the request handler relies on. *)

From stdpp Require Import base gmap strings list.
From Stdlib Require Import ZArith Lia.
From S2P Require Import Prelude GoStrings Crypto GoTime StoreApi Memory MemoryProps Manager.
Import Memory MemoryProps.

(** ** Resolve *)

(** The row [Resolve] leaves behind for a live session. *)
Definition touched (cfg : Manager.Config) (s : Session) (now : Z) : Session :=
  MkSession (ID s) (Creation s) (Z.max (LastAccess s) now) (InactiveTimeout s) (FinalTimeout s)
    (OwnerID s)
    (if (0 <? Manager.RotateInterval cfg)%Z && (LastRotation s =? 0)%Z then now else LastRotation s)
    (Labels s).

(** The handle [Resolve] returns for it. *)
Definition resolved (cfg : Manager.Config) (k sid : string) (s : Session) (now : Z) (m : Memory) :
    Manager.Live :=
  Manager.MkLive k sid (OwnerID s) (copyMap (cookies m !! sid)) (fields (Labels s))
    (copyMap (shas m !! sid)) "" false (Manager.rotation_due cfg s now).2.

Lemma touch_touched cfg s sid k m now :
  sessions m !! sid = Some s -> keys m !! k = Some sid ->
  TouchSession sid k now (LastRotation (Manager.rotation_due cfg s now).1) m
    = (None, set_sessions (<[sid := touched cfg s now]> (sessions m)) m).
Proof.
  intros Hs Hk. unfold TouchSession. rewrite Hs, decide_True by done. do 3 f_equal.
  unfold touched, Manager.rotation_due, with_LastAccess, with_LastRotation.
  destruct s as [? ? la ? ? ? lr ?]; simpl.
  destruct (Z.ltb_spec la now), (Z.eqb_spec lr 0), (Z.ltb_spec 0 (Manager.RotateInterval cfg));
    simpl; try case_match; simpl; f_equal; lia.
Qed.

Lemma Resolve_spec cfg k m t rng :
  run (Manager.Resolve cfg k) (MkWorld m t rng) =
    match keys m !! k with
    | None => (Ok None, MkWorld m t rng)
    | Some sid =>
      match sessions m !! sid with
      | None => (Ok None, MkWorld m t rng)
      | Some s =>
        if Manager.expired s (Unix t) then (Ok None, MkWorld (DeleteSession sid m).2 t rng)
        else (Ok (Some (resolved cfg k sid s (Unix t) m)),
              MkWorld (set_sessions (<[sid := touched cfg s (Unix t)]> (sessions m)) m) t rng)
      end
    end.
Proof.
  unfold Manager.Resolve, Manager.unix_now, call, now.
  cbn [bind run step exec memory_store w_store]. unfold GetKey.
  destruct (keys m !! k) as [sid|] eqn:Hk; [|done].
  cbn [bind run step exec memory_store w_store]. unfold GetSession.
  destruct (sessions m !! sid) as [s|] eqn:Hs; [|done].
  cbn [bind run step w_clock]. destruct (Manager.expired s (Unix t)) eqn:He; [done|].
  pose proof (touch_touched cfg s sid k m (Unix t) Hs Hk) as HT.
  unfold resolved.
  destruct (Manager.rotation_due cfg s (Unix t)) as [s' due] eqn:Hd. simpl in HT.
  cbn [bind run step exec memory_store w_store]. cbn [LastAccess LastRotation with_LastAccess].
  rewrite HT. cbn [bind run step exec memory_store w_store]. unfold GetCookies, CookieSHAs.
  simpl. do 4 f_equal.
  all: unfold Manager.rotation_due in Hd; by case_all.
Qed.

(** ** applyControls *)

Section Apply.
Context (cfg : Manager.Config) (o : option Z) (ls : option (list string)) (force periodic : bool)
  (muts : list Manager.Mutation) (l : Manager.Live).

Local Abbreviation sid := (Manager.l_SessionID l).
Local Abbreviation rotate := (Manager.rotate_wanted cfg l o ls force periodic).

(** The transition asked of the store, given the row read and the key to use. *)
Definition controls_of (s : Session) (now : Z) (newKey : string) : SessionControls :=
  let oc := Manager.owner_changed o s in
  let lc := Manager.labels_changed ls s in
  let ms := Manager.to_store_mutation <$> muts in
  MkControls oc (default 0%Z o) lc
    (match ls with Some ls => Manager.normalizeLabels ls | None => "" end)
    (if oc || lc || negb (bool_decide (ms = [])) then now else 0%Z)
    (if rotate s now then now else 0%Z) (Manager.l_KeyID l) newKey (rotate s now) ms.

(** Nothing to change. *)
Definition noop (s : Session) (now : Z) : bool :=
  negb (Manager.owner_changed o s) && negb (Manager.labels_changed ls s) && negb (rotate s now)
  && bool_decide (Manager.to_store_mutation <$> muts = []).

Definition requested : Manager.Live := Manager.set_labels_opt ls (Manager.set_owner_opt o l).

(** The handle after a transition that succeeded. *)
Definition applied (s : Session) (now : Z) (newKey : string) : Manager.Live :=
  let l' := foldl Manager.apply_local requested (Manager.to_store_mutation <$> muts) in
  if rotate s now then Manager.set_key newKey newKey true l' else l'.

Definition draw_key (rot : bool) (rng : string) : option (string * string) :=
  if rot then (fun '(b, rest) => (base64_rawurl b, rest)) <$> take_bytes 32 rng
  else Some (Manager.l_KeyID l, rng).

Lemma applyControls_run m t rng :
  run (Manager.applyControls cfg o ls force periodic muts l) (MkWorld m t rng) =
    match sessions m !! sid with
    | None => ((Some ErrNotFound, l), MkWorld m t rng)
    | Some s =>
      if noop s (Unix t) then ((None, requested), MkWorld m t rng)
      else
        match draw_key (rotate s (Unix t)) rng with
        | None => ((Some ErrRand, l), MkWorld m t "")
        | Some (newKey, rest) =>
          let '(e, m') := ApplySessionControls sid (controls_of s (Unix t) newKey) m in
          ((e, if e then l else applied s (Unix t) newKey), MkWorld m' t rest)
        end
    end.
Proof.
  unfold Manager.applyControls, Manager.unix_now, call, now.
  cbn [bind run step exec memory_store w_store w_clock]. unfold GetSession.
  destruct (sessions m !! sid) as [s|] eqn:Hs; [|done].
  unfold noop, applied, controls_of, draw_key.
  destruct (negb _ && negb _ && negb _ && bool_decide _) eqn:Hn; [done|].
  destruct (rotate s (Unix t)) eqn:Hr.
  - unfold Manager.newID, read_rand. cbn [bind run step w_rng].
    destruct (take_bytes 32 rng) as [[b rest]|]; [|done].
    cbn [bind run step exec memory_store w_store fmap option_fmap option_map].
    destruct (ApplySessionControls _ _ _) as [[e|] m']; done.
  - cbn [bind run step exec memory_store w_store w_rng w_clock].
    destruct (ApplySessionControls _ _ _) as [[e|] m']; done.
Qed.
End Apply.

(** ** The handle and the store agree *)

Record coherent (l : Manager.Live) (m : Memory) : Prop := {
  co_key : keys m !! Manager.l_KeyID l = Some (Manager.l_SessionID l);
  co_row : exists s, sessions m !! Manager.l_SessionID l = Some s
    /\ Manager.l_OwnerID l = OwnerID s /\ Manager.l_Labels l = fields (Labels s);
  co_cookies : forall n, Manager.l_Cookies l !! n = cookie m (Manager.l_SessionID l) n;
  co_shas : forall n, Manager.l_shas l !! n = sha m (Manager.l_SessionID l) n }.

(** The fields of the handle after local cookie updates. *)
Lemma apply_local_fields ms l :
  let l' := foldl Manager.apply_local l ms in
  Manager.l_KeyID l' = Manager.l_KeyID l /\ Manager.l_SessionID l' = Manager.l_SessionID l
  /\ Manager.l_OwnerID l' = Manager.l_OwnerID l /\ Manager.l_Labels l' = Manager.l_Labels l
  /\ Manager.l_rewrite l' = Manager.l_rewrite l /\ Manager.l_newKey l' = Manager.l_newKey l.
Proof.
  revert l; induction ms as [|c ms IH]; intros l; simpl; [done|].
  destruct (IH (Manager.apply_local l c)) as (-> & -> & -> & -> & -> & ->).
  unfold Manager.apply_local. by destruct (cm_Delete c).
Qed.

Lemma apply_local_lookup ms l n :
  let l' := foldl Manager.apply_local l ms in
  Manager.l_Cookies l' !! n = foldl (mutate cm_Value n) (Manager.l_Cookies l !! n) ms
  /\ Manager.l_shas l' !! n = foldl (mutate cm_SHA n) (Manager.l_shas l !! n) ms.
Proof.
  revert l; induction ms as [|c ms IH]; intros l; simpl; [done|].
  destruct (IH (Manager.apply_local l c)) as [-> ->]. unfold Manager.apply_local, mutate.
  destruct (cm_Delete c); simpl; rewrite ?lookup_delete, ?lookup_insert; by case_decide.
Qed.

Lemma requested_fields o ls l :
  let l' := requested o ls l in
  Manager.l_KeyID l' = Manager.l_KeyID l /\ Manager.l_SessionID l' = Manager.l_SessionID l
  /\ Manager.l_OwnerID l' = default (Manager.l_OwnerID l) o
  /\ Manager.l_Labels l' = match ls with Some ls => fields (Manager.normalizeLabels ls)
                           | None => Manager.l_Labels l end
  /\ Manager.l_rewrite l' = Manager.l_rewrite l /\ Manager.l_newKey l' = Manager.l_newKey l
  /\ Manager.l_Cookies l' = Manager.l_Cookies l /\ Manager.l_shas l' = Manager.l_shas l.
Proof. by destruct o, ls. Qed.

(** The row's owner and labels are the requested ones, whether or not they had
    to be written. *)
Lemma controlled_requested cfg o ls f p muts l s now k :
  let c := controls_of cfg o ls f p muts l s now k in
  OwnerID (controlled c s) = default (OwnerID s) o
  /\ Labels (controlled c s) = match ls with Some ls => Manager.normalizeLabels ls
                               | None => Labels s end.
Proof.
  unfold controls_of, controlled, Manager.owner_changed, Manager.labels_changed; simpl.
  split.
  - destruct o as [o|]; simpl; [|done]. by case_bool_decide.
  - destruct ls as [ls|]; simpl; [|done]. by case_bool_decide.
Qed.

Lemma noop_requested cfg o ls f p muts l s now :
  noop cfg o ls f p muts l s now = true ->
  OwnerID s = default (OwnerID s) o
  /\ Labels s = (match ls with Some ls => Manager.normalizeLabels ls | None => Labels s end)
  /\ muts = [] /\ Manager.rotate_wanted cfg l o ls f p s now = false.
Proof.
  unfold noop, Manager.owner_changed, Manager.labels_changed. rewrite !andb_true_iff, !negb_true_iff.
  intros [[[Ho Hl] Hr] Hm%bool_decide_eq_true]. split_and!; [..|by destruct muts|done].
  - destruct o; [|done]. apply bool_decide_eq_false, dec_stable in Ho. by rewrite Ho.
  - destruct ls; [|done]. by apply bool_decide_eq_false, dec_stable in Hl.
Qed.

(** What a successful transition did. *)
Lemma applyControls_success cfg o ls f p muts l m t rng l' w' :
  run (Manager.applyControls cfg o ls f p muts l) (MkWorld m t rng) = ((None, l'), w') ->
  exists s, sessions m !! Manager.l_SessionID l = Some s /\
  ((noop cfg o ls f p muts l s (Unix t) = true /\ l' = requested o ls l /\ w_store w' = m)
   \/ exists k rest,
      let c := controls_of cfg o ls f p muts l s (Unix t) k in
      draw_key l (c_Rotate c) rng = Some (k, rest)
      /\ l' = applied cfg o ls f p muts l s (Unix t) k
      /\ ~ cas_conflict (Manager.l_SessionID l) c m
      /\ sessions (w_store w') = <[Manager.l_SessionID l := controlled c s]> (sessions m)
      /\ keys (w_store w') = controlled_keys (Manager.l_SessionID l) c (keys m)
      /\ (forall sid n, cookie (w_store w') sid n =
            (if decide (Manager.l_SessionID l = sid)
             then foldl (mutate cm_Value n) (cookie m sid n) (c_Cookies c) else cookie m sid n)
          /\ sha (w_store w') sid n =
            (if decide (Manager.l_SessionID l = sid)
             then foldl (mutate cm_SHA n) (sha m sid n) (c_Cookies c) else sha m sid n))).
Proof.
  rewrite applyControls_run. destruct (sessions m !! _) as [s|] eqn:Hs; [|done].
  destruct (noop _ _ _ _ _ _ _ _ _) eqn:Hn; [intros [= <- <-]; eauto 10|].
  destruct (draw_key _ _ _) as [[k rest]|] eqn:Hd; [|done]. cbn zeta.
  pose proof (ApplySessionControls_spec (Manager.l_SessionID l)
    (controls_of cfg o ls f p muts l s (Unix t) k) m) as HA.
  rewrite Hs in HA. case_decide as Hc; [by rewrite HA|].
  destruct HA as (m' & -> & H1 & H2 & _ & _ & H5). simpl. intros [= <- <-].
  exists s. split; [done|]. right. exists k, rest. split_and!; try done.
  intros sid n. exact (ApplySessionControls_cookies _ _ m m' sid n H5).
Qed.

Lemma applied_fields cfg o ls f p muts l s now k :
  let l' := applied cfg o ls f p muts l s now k in
  let rot := Manager.rotate_wanted cfg l o ls f p s now in
  Manager.l_KeyID l' = (if rot then k else Manager.l_KeyID l)
  /\ Manager.l_SessionID l' = Manager.l_SessionID l
  /\ Manager.l_OwnerID l' = default (Manager.l_OwnerID l) o
  /\ Manager.l_Labels l' = (match ls with Some ls => fields (Manager.normalizeLabels ls)
                            | None => Manager.l_Labels l end)
  /\ (rot = true -> Manager.NewProxyCookie l' = (k, true)).
Proof.
  unfold applied. cbn zeta.
  destruct (apply_local_fields (Manager.to_store_mutation <$> muts) (requested o ls l))
    as (H1 & H2 & H3 & H4 & _).
  destruct (requested_fields o ls l) as (R1 & R2 & R3 & R4 & _).
  destruct (Manager.rotate_wanted _ _ _ _ _ _ _ _); unfold Manager.set_key; simpl;
    rewrite ?H1, ?H2, ?H3, ?H4, ?R1, ?R2, ?R3, ?R4; done.
Qed.

Lemma applied_lookup cfg o ls f p muts l s now k n :
  let l' := applied cfg o ls f p muts l s now k in
  let ms := Manager.to_store_mutation <$> muts in
  Manager.l_Cookies l' !! n = foldl (mutate cm_Value n) (Manager.l_Cookies l !! n) ms
  /\ Manager.l_shas l' !! n = foldl (mutate cm_SHA n) (Manager.l_shas l !! n) ms.
Proof.
  unfold applied. cbn zeta.
  destruct (apply_local_lookup (Manager.to_store_mutation <$> muts) (requested o ls l) n) as [H1 H2].
  destruct (requested_fields o ls l) as (_ & _ & _ & _ & _ & _ & R1 & R2).
  rewrite R1, R2 in *. by destruct (Manager.rotate_wanted _ _ _ _ _ _ _ _).
Qed.

Lemma controlled_keys_lookup sid c m k :
  controlled_keys sid c (keys m) !! k =
    if c_Rotate c then
      if decide (k = c_OldKeyID c) then None
      else if decide (k = c_NewKeyID c) then Some sid else keys m !! k
    else keys m !! k.
Proof.
  unfold controlled_keys. destruct (c_Rotate c); [|done].
  rewrite lookup_delete, lookup_insert. repeat case_decide; by subst.
Qed.

Lemma rotation_moves_key sid c m :
  ~ cas_conflict sid c m -> c_Rotate c = true ->
  c_NewKeyID c <> c_OldKeyID c
  /\ controlled_keys sid c (keys m) !! c_OldKeyID c = None
  /\ controlled_keys sid c (keys m) !! c_NewKeyID c = Some sid.
Proof.
  intros Hc Hr. rewrite !controlled_keys_lookup, Hr.
  assert (Hne : c_NewKeyID c <> c_OldKeyID c).
  { intros E. apply Hc. right. split; [done|]. rewrite E.
    destruct (decide (keys m !! c_OldKeyID c = Some sid)) as [->|]; [eauto|].
    exfalso. apply Hc. by left. }
  by rewrite (decide_False (P := c_NewKeyID c = c_OldKeyID c)), !decide_True.
Qed.

(** ** Concrete sessions for the examples *)

Definition demo_cfg : Manager.Config :=
  Manager.MkConfig (1800 * Second) (28800 * Second) true true (900 * Second).
Definition rng64 : string :=
  "0123456789abcdef0123456789abcdeffedcba98765432100123456789abcdef".
Definition rng32 : string := "ABCDEFGHIJKLMNOPQRSTUVWXYZ012345".
Definition begun : res Manager.Live * world Memory :=
  run (Manager.Begin demo_cfg) (MkWorld NewMemory (1000 * Second) rng64).
Definition demo_mem : Memory := w_store begun.2.
Definition demo_live : Manager.Live :=
  match begun.1 with
  | Ok l => Manager.set_key (Manager.l_KeyID l) "" false l
  | Err _ => Manager.MkLive "" "" 0 ∅ [] ∅ "" false false
  end.
Definition login_muts : list Manager.Mutation :=
  [Manager.MkMutation "SID" "abc" false; Manager.MkMutation "OLD" "" true].
Definition login : (option error * Manager.Live) * world Memory :=
  run (Manager.ApplyResponse demo_cfg (Some 7%Z) (Some ["staff"; "admin"; "staff"]) false login_muts
    demo_live) (MkWorld demo_mem (1100 * Second) rng32).

Lemma demo_coherent : coherent demo_live demo_mem.
Proof.
  split.
  - vm_compute; reflexivity.
  - eexists. split; [vm_compute; reflexivity|]. split; vm_compute; reflexivity.
  - intros n. reflexivity.
  - intros n. reflexivity.
Qed.

(** ** Theorems *)

(** C18: the request's handle never disagrees with the store: when a response
    is committed, the handle's key, owner, labels, cookies and hashes are again
    exactly those of the stored session. *)
Theorem response_keeps_handle_coherent cfg o ls f p muts l m t rng l' w' :
  coherent l m ->
  run (Manager.applyControls cfg o ls f p muts l) (MkWorld m t rng) = ((None, l'), w') ->
  coherent l' (w_store w').
Proof.
  intros [Hk (s0 & Hs0 & Ho & Hl) Hc Hh] H.
  apply applyControls_success in H as (s & Hs & [(Hn & -> & ->)|H]); simplify_eq.
  - destruct (noop_requested _ _ _ _ _ _ _ _ _ Hn) as (Eo & El & _).
    destruct (requested_fields o ls l) as (R1 & R2 & R3 & R4 & _ & _ & R5 & R6).
    split; rewrite ?R1, ?R2, ?R5, ?R6; [done| |done..].
    exists s0. rewrite R3, R4, Ho, Hl. split_and!; [done..|]. destruct ls; by rewrite ?El.
  - destruct H as (k & rest & _ & -> & Hcas & Hss & Hks & HC).
    destruct (applied_fields cfg o ls f p muts l s0 (Unix t) k) as (A1 & A2 & A3 & A4 & _).
    destruct (controlled_requested cfg o ls f p muts l s0 (Unix t) k) as [Co Cl].
    split; rewrite ?A1, ?A2.
    + rewrite Hks. destruct (Manager.rotate_wanted cfg l o ls f p s0 (Unix t)) eqn:Er.
      * by apply (rotation_moves_key _ _ _ Hcas).
      * by rewrite controlled_keys_lookup; simpl; rewrite Er.
    + eexists. rewrite Hss, lookup_insert_eq, A3, A4, Co, Cl, Ho, Hl. by destruct ls.
    + intros n. destruct (HC (Manager.l_SessionID l) n) as [-> _].
      rewrite decide_True by done. rewrite <-Hc. apply applied_lookup.
    + intros n. destruct (HC (Manager.l_SessionID l) n) as [_ ->].
      rewrite decide_True by done. rewrite <-Hh. apply applied_lookup.
Qed.

Lemma response_keeps_handle_coherent_witness :
  Manager.l_OwnerID login.1.2 = 7%Z /\ coherent login.1.2 (w_store login.2).
Proof.
  split; [vm_compute; reflexivity|].
  apply (response_keeps_handle_coherent demo_cfg (Some 7%Z) (Some ["staff"; "admin"; "staff"]) false
    true login_muts demo_live demo_mem (1100 * Second) rng32 login.1.2 login.2 demo_coherent).
  vm_compute; reflexivity.
Defined.



(** C20: a stale handle is powerless.  Once another response has rotated its key
    away, whatever a response carrying the old key asks for leaves the store
    as it was; it is reported as a conflict unless it asked for nothing new. *)
Theorem stale_response_loses cfg o ls f p muts l m t rng s :
  sessions m !! Manager.l_SessionID l = Some s ->
  keys m !! Manager.l_KeyID l <> Some (Manager.l_SessionID l) ->
  32 <= String.length rng ->
  exists w', run (Manager.applyControls cfg o ls f p muts l) (MkWorld m t rng) =
    (if noop cfg o ls f p muts l s (Unix t) then (None, requested o ls l)
     else (Some ErrConflict, l), w') /\ w_store w' = m.
Proof.
  intros Hs Hk Hrng. rewrite applyControls_run, Hs.
  destruct (noop _ _ _ _ _ _ _ _ _); [by eexists|].
  assert (exists k rest, draw_key l (Manager.rotate_wanted cfg l o ls f p s (Unix t)) rng
    = Some (k, rest)) as (k & rest & ->).
  { unfold draw_key. case_match; [|eauto].
    destruct (take_bytes_long 32 rng Hrng) as (b & r & ->). simpl; eauto. }
  match goal with |- context [ApplySessionControls ?i ?c ?m] =>
    pose proof (ApplySessionControls_spec i c m) as HA end.
  rewrite Hs, decide_True in HA by (by left). rewrite HA. by eexists.
Qed.

Lemma stale_response_loses_witness :
  exists w', run (Manager.ApplyResponse demo_cfg (Some 9%Z) None false [] demo_live)
    (MkWorld (w_store login.2) (1200 * Second) rng32) = ((Some ErrConflict, demo_live), w')
  /\ w_store w' = w_store login.2.
Proof.
  apply (stale_response_loses demo_cfg (Some 9%Z) None false true [] demo_live (w_store login.2)
    (1200 * Second) rng32
    (MkSession (Manager.l_SessionID demo_live) 1000 1100 1800 28800 7 1100 "admin staff")).
  - vm_compute; reflexivity.
  - vm_compute; discriminate.
  - vm_compute; lia.
Defined.

(** A response that must not leave the key it came with in place: it changes the
    owner (when the handler rotates on login), changes the labels, asks for a
    rotation, or finds one due. *)
Definition rotation_reason (cfg : Manager.Config) (o : option Z) (ls : option (list string)) (f p : bool)
    (s : Session) (now : Z) : Prop :=
  (exists o', o = Some o' /\ o' <> OwnerID s /\ Manager.RotateOnLogin cfg = true)
  \/ (exists ls', ls = Some ls' /\ Manager.normalizeLabels ls' <> Labels s)
  \/ f = true \/ Manager.periodic_due cfg p s now = true.

Lemma rotate_wanted_reason cfg o ls f p l s now :
  Manager.rotate_wanted cfg l o ls f p s now = true
  <-> Manager.l_rewrite l = false /\ rotation_reason cfg o ls f p s now.
Proof.
  unfold Manager.rotate_wanted, Manager.owner_changed, Manager.labels_changed, rotation_reason.
  rewrite andb_true_iff, !orb_true_iff, andb_true_iff, negb_true_iff.
  destruct o as [o|], ls as [ls|]; rewrite ?bool_decide_eq_true; naive_solver.
Qed.

(** C17: fixation defence.  Take a committed response of a handle that has no
    fresh key waiting for the client already.  If it changed the owner (with
    [rotate_on_login] on), changed the labels, asked for a rotation or was due
    for one, it has retired the key it was sent with: that key names nothing any
    more, a different key names the session, and the handle hands that key to the
    client.  In every other case (an owner change with [rotate_on_login] off, a
    fresh key pending) the keys are exactly what they were. *)
Theorem privilege_change_rotates_key cfg o ls f p muts l m t rng s l' w' :
  sessions m !! Manager.l_SessionID l = Some s ->
  run (Manager.applyControls cfg o ls f p muts l) (MkWorld m t rng) = ((None, l'), w') ->
  (Manager.l_rewrite l = false -> rotation_reason cfg o ls f p s (Unix t) ->
     keys (w_store w') !! Manager.l_KeyID l = None
     /\ Manager.l_KeyID l' <> Manager.l_KeyID l
     /\ Manager.NewProxyCookie l' = (Manager.l_KeyID l', true)
     /\ keys (w_store w') !! Manager.l_KeyID l' = Some (Manager.l_SessionID l))
  /\ (~ (Manager.l_rewrite l = false /\ rotation_reason cfg o ls f p s (Unix t)) ->
     keys (w_store w') = keys m /\ Manager.l_KeyID l' = Manager.l_KeyID l).
Proof.
  intros Hs H. apply applyControls_success in H as (s0 & Hs0 & H). simplify_eq.
  destruct H as [(Hn & -> & ->)|(k & rest & _ & -> & Hcas & _ & Hks & _)].
  { apply noop_requested in Hn as (_ & _ & _ & Hn). split.
    - intros Hrw Hwhy. pose proof (proj2 (rotate_wanted_reason cfg o ls f p l s (Unix t)) (conj Hrw Hwhy)).
      congruence.
    - intros _. split; [done|]. by destruct (requested_fields o ls l) as (-> & _). }
  destruct (applied_fields cfg o ls f p muts l s (Unix t) k) as (A1 & _ & _ & _ & A5). split.
  - intros Hrw Hwhy. pose proof (proj2 (rotate_wanted_reason cfg o ls f p l s (Unix t)) (conj Hrw Hwhy)) as Hrot.
    rewrite Hrot in *. rewrite A1, Hks, A5 by done.
    by destruct (rotation_moves_key _ _ _ Hcas Hrot) as (? & ? & ?).
  - intros Hno. rewrite <-rotate_wanted_reason, not_true_iff_false in Hno.
    rewrite A1, Hno, Hks. split; [|done]. unfold controlled_keys, controls_of. cbn [c_Rotate].
    by rewrite Hno.
Qed.

Lemma privilege_change_rotates_key_witness :
  keys (w_store login.2) !! Manager.l_KeyID demo_live = None
  /\ Manager.l_KeyID login.1.2 <> Manager.l_KeyID demo_live
  /\ Manager.NewProxyCookie login.1.2 = (Manager.l_KeyID login.1.2, true)
  /\ keys (w_store login.2) !! Manager.l_KeyID login.1.2 = Some (Manager.l_SessionID demo_live).
Proof.
  apply (privilege_change_rotates_key demo_cfg (Some 7%Z) (Some ["staff"; "admin"; "staff"]) false
    true login_muts demo_live demo_mem (1100 * Second) rng32
    (MkSession (Manager.l_SessionID demo_live) 1000 1000 1800 28800 0 1000 "")).
  - vm_compute; reflexivity.
  - vm_compute; reflexivity.
  - vm_compute; reflexivity.
  - left. exists 7%Z. split; [reflexivity|]. split; [vm_compute; lia|reflexivity].
Defined.
