(* ===== verification/Lifetimes.v ===== *)
(** * Session lifetimes

    The inactive and final timeouts: what [expired] and [ttl] compute, that a
    session begun can be resolved until then and not after, and that no request
    moves the absolute deadline. *)

From stdpp Require Import base gmap strings list relations.
From Stdlib Require Import ZArith Lia.
From S2P Require Import Prelude GoStrings Crypto GoTime StoreApi.
From S2P Require Import Memory MemoryProps Concurrency Manager ConcurrencyThms ManagerThms.
Import Memory MemoryProps.

(** Times and timeouts below [2^32] seconds (until the year 2106), where no
    [int64] computation of the manager wraps. *)
Definition sane_seconds (z : Z) : Prop := (0 <= z < 2 ^ 32)%Z.
Record sane (s : Session) (now : Z) : Prop := {
  sane_now : sane_seconds now;
  sane_creation : sane_seconds (Creation s);
  sane_access : sane_seconds (LastAccess s);
  sane_inactive : sane_seconds (InactiveTimeout s);
  sane_final : sane_seconds (FinalTimeout s) }.

Lemma expired_spec s now :
  sane s now ->
  Manager.expired s now = true <->
    (LastAccess s + InactiveTimeout s <= now \/ Creation s + FinalTimeout s <= now)%Z.
Proof.
  intros [H1 H2 H3 H4 H5]. unfold sane_seconds, Manager.expired in *.
  rewrite orb_true_iff, !Z.leb_le, !wrap64_id by (unfold int64; lia). lia.
Qed.

Lemma ttl_spec s now :
  sane s now ->
  Manager.ttl s now =
    (Z.min (InactiveTimeout s) (Creation s + FinalTimeout s - now) * Second)%Z.
Proof.
  intros [H1 H2 H3 H4 H5]. unfold sane_seconds, Manager.ttl in *.
  rewrite wrap64_id by (unfold int64; lia). rewrite !of_seconds_id by lia.
  unfold Second. case_match eqn:E; rewrite ?Z.ltb_lt, ?Z.ltb_ge in E; lia.
Qed.

(** ** Begin *)

Lemma Begin_success cfg m t rng l w' :
  run (Manager.Begin cfg) (MkWorld m t rng) = (Ok l, w') ->
  exists sid key rest,
    let s := MkSession sid (Unix t) (Unix t) (Seconds (Manager.Inactive cfg))
               (Seconds (Manager.Final cfg)) 0 (Unix t) "" in
    l = Manager.MkLive key sid 0 ∅ [] ∅ key true false
    /\ w' = MkWorld (set_keys (<[key := sid]> (keys m)) (set_sessions (<[sid := s]> (sessions m)) m))
              t rest.
Proof.
  unfold Manager.Begin, Manager.unix_now, Manager.newID, read_rand, call, now.
  cbn [bind run step w_clock w_rng].
  destruct (take_bytes 32 rng) as [[a r1]|]; [|done]. cbn [bind run step w_rng w_store w_clock].
  destruct (take_bytes 32 r1) as [[b r2]|]; [|done].
  cbn [bind run step w_store w_clock w_rng exec memory_store].
  unfold PutSession. cbn [bind run step w_store w_clock w_rng exec memory_store].
  unfold PutKey. cbn [sessions set_sessions]. cbn [ID]. rewrite lookup_insert_eq.
  cbn [bind run]. intros [= <- <-]. by exists (base64_rawurl a), (base64_rawurl b), r2.
Qed.

(** ** Rows never change their creation time or timeouts *)

Definition same_terms (s s' : Session) : Prop :=
  ID s' = ID s /\ Creation s' = Creation s /\ InactiveTimeout s' = InactiveTimeout s
  /\ FinalTimeout s' = FinalTimeout s.

#[export] Instance same_terms_preorder : PreOrder same_terms.
Proof.
  split; [by intros s|].
  intros s1 s2 s3 (? & ? & ? & ?) (? & ? & ? & ?). split_and!; congruence.
Qed.

(** The row is the one that was there. *)
Ltac keep := intros; simplify_eq/=; reflexivity.

Lemma exec_terms o m sid s s' :
  sid ∉ op_inserts o -> sessions m !! sid = Some s -> sessions (exec o m).2 !! sid = Some s' ->
  same_terms s s'.
Proof.
  intros Hni Hs.
  assert (HU : forall id s0 s1, sessions m !! id = Some s0 -> same_terms s0 s1 ->
    <[id := s1]> (sessions m) !! sid = Some s' -> same_terms s s').
  { intros id s0 s1 H0 Ht. rewrite lookup_insert. case_decide; intros; simplify_eq; [done|keep]. }
  assert (HA : forall id c, sessions (ApplySessionControls id c m).2 !! sid = Some s' ->
    same_terms s s').
  { intros id c. pose proof (ApplySessionControls_spec id c m) as H.
    destruct (sessions m !! id) as [s0|] eqn:E; [|rewrite H; keep].
    case_decide; [rewrite H; keep|]. destruct H as (m' & -> & HS & _). simpl.
    rewrite HS. by eapply HU. }
  assert (HD : forall id, delete id (sessions m) !! sid = Some s' -> same_terms s s').
  { intros id. rewrite lookup_delete. case_decide; keep. }
  destruct o; unfold exec, memory_store; try (by apply HA); try (simpl; keep).
  - simpl in *. rewrite lookup_insert_ne by set_solver. keep.
  - unfold TouchSession. destruct (sessions m !! sid0) as [s0|] eqn:E; [|keep].
    case_decide; [|keep]. simpl. eapply HU; [done|]. repeat case_match; done.
  - apply HD.
  - unfold PutKey. case_match; keep.
  - unfold ReplaceKey. repeat case_match; keep.
  - unfold PutCookie. repeat case_match; keep.
  - unfold ReassignOwner. destruct (sessions m !! ID s0) as [s1|] eqn:E; [|keep].
    simpl. eapply HU; [done|]. repeat case_match; done.
  - unfold DeleteSessionByOwner. simpl. destruct (sessions m !! sid0) as [s0|]; [|keep].
    case_decide; [|keep]. apply HD.
  - unfold Lock. case_match; keep.
Qed.

Lemma step_terms c c' Ps sid s s' :
  sys_inv c Ps -> sys_step c c' -> sessions (c_mem c) !! sid = Some s ->
  sessions (c_mem c') !! sid = Some s' -> same_terms s s'.
Proof.
  intros HI Hst Hs. destruct (live_session_settled _ _ _ _ HI Hs) as [_ Hp].
  destruct Hst; simpl; try (keep);
    (apply exec_terms; [|done]; intros Hin; apply Hp; eapply allowed_inserts; eauto).
Qed.

Lemma terms_stable c c' sid s s' :
  reachable c -> sessions (c_mem c) !! sid = Some s -> rtc sys_step c c' ->
  sessions (c_mem c') !! sid = Some s' -> same_terms s s'.
Proof.
  intros Hr Hs Hst. revert s Hr Hs. induction Hst as [c|c1 c2 c3 H12 H23 IH]; intros s Hr Hs Hs'.
  - keep.
  - assert (Hr2 : reachable c2) by (unfold reachable; by eapply rtc_r).
    destruct (sessions (c_mem c2) !! sid) as [s2|] eqn:E2.
    + destruct (inv_reachable _ Hr) as [Ps HI]. etrans; [by eapply step_terms|by apply IH].
    + rewrite (session_dead c1 c2 c3 sid s) in Hs'; [done|done..|by apply rtc_once|done|done].
Qed.

(** ** Theorems *)

(** C24: the TTL the manager computes for the store never outlives a deadline: it
    is at most the inactive timeout, never reaches past the final deadline, and is
    one of the two exactly.  It is positive precisely while the inactive timeout
    is positive and the final deadline lies ahead, so for every session that
    [Resolve] has found unexpired; the paths that compute it without an expiry
    check ([applyControls], [MaybeRotate], [ForceRotate]) may give the store a TTL
    that is zero or negative once the final deadline has passed.  (Times and
    timeouts below 2^32 seconds.) *)
Theorem ttl_within_deadline s now :
  sane s now ->
  (Manager.ttl s now <= InactiveTimeout s * Second)%Z
  /\ (now * Second + Manager.ttl s now <= (Creation s + FinalTimeout s) * Second)%Z
  /\ (Manager.ttl s now = InactiveTimeout s * Second
      \/ now * Second + Manager.ttl s now = (Creation s + FinalTimeout s) * Second)%Z
  /\ (0 < Manager.ttl s now <-> 0 < InactiveTimeout s /\ now < Creation s + FinalTimeout s)%Z
  /\ (Manager.expired s now = false -> (0 < InactiveTimeout s)%Z -> (0 < Manager.ttl s now)%Z).
Proof.
  intros Hs. rewrite (ttl_spec s now Hs).
  assert (HE : Manager.expired s now = false -> (now < Creation s + FinalTimeout s)%Z).
  { intros He. apply Z.nle_gt. intros Hd.
    enough (Manager.expired s now = true) by congruence. rewrite expired_spec by done. by right. }
  destruct Hs. unfold sane_seconds, Second in *. split_and!; [lia..|]. intros He%HE. lia.
Qed.

Definition demo_row : Session := MkSession "sid" 1000 2000 1800 3000 7 1000 "staff".

Lemma demo_row_sane now : sane_seconds now -> sane demo_row now.
Proof. intros H. split; [done|..]; unfold sane_seconds; simpl; lia. Qed.

Lemma ttl_within_deadline_witness :
  (Manager.ttl demo_row 3000 <= 1800 * Second)%Z
  /\ (3000 * Second + Manager.ttl demo_row 3000 <= (1000 + 3000) * Second)%Z
  /\ (Manager.ttl demo_row 3000 = 1800 * Second
      \/ 3000 * Second + Manager.ttl demo_row 3000 = (1000 + 3000) * Second)%Z
  /\ (0 < Manager.ttl demo_row 3000 <-> 0 < 1800 /\ 3000 < 1000 + 3000)%Z
  /\ (Manager.expired demo_row 3000 = false -> (0 < 1800)%Z -> (0 < Manager.ttl demo_row 3000)%Z).
Proof.
  apply (ttl_within_deadline demo_row 3000). apply demo_row_sane. unfold sane_seconds. lia.
Defined.

(** C22: the key [Begin] returns resolves, at any time before the inactive and
    the final timeout, to the session it was minted for, as an anonymous session
    without labels or cookies. *)
Theorem begin_resolve_roundtrip cfg m t rng l w' t' rng' :
  wf m ->
  run (Manager.Begin cfg) (MkWorld m t rng) = (Ok l, w') ->
  sessions m !! Manager.l_SessionID l = None ->
  sane_seconds (Unix t) -> sane_seconds (Unix t') ->
  sane_seconds (Seconds (Manager.Inactive cfg)) -> sane_seconds (Seconds (Manager.Final cfg)) ->
  (Unix t' < Unix t + Z.min (Seconds (Manager.Inactive cfg)) (Seconds (Manager.Final cfg)))%Z ->
  exists due w'', run (Manager.Resolve cfg (Manager.l_KeyID l)) (MkWorld (w_store w') t' rng') =
    (Ok (Some (Manager.MkLive (Manager.l_KeyID l) (Manager.l_SessionID l) 0 ∅ [] ∅ "" false due)), w'')
  /\ Manager.NewProxyCookie l = (Manager.l_KeyID l, true).
Proof.
  intros Hwf (sid & key & rest & -> & ->)%Begin_success Hn H1 H2 H3 H4 Hlt.
  cbn [Manager.l_KeyID Manager.l_SessionID w_store] in *.
  rewrite Resolve_spec. simpl. rewrite !lookup_insert_eq.
  set (s := MkSession _ _ _ _ _ _ _ _).
  assert (Hs : sane s (Unix t')) by (by split).
  destruct (Manager.expired s (Unix t')) eqn:He.
  - apply (expired_spec _ _ Hs) in He. simpl in He. lia.
  - eexists _, _. split; [|done]. unfold resolved, copyMap. simpl.
    destruct (cookies m !! sid) eqn:EC.
    { destruct (wf_cookies _ Hwf sid) as [? E]; [eauto|congruence]. }
    destruct (shas m !! sid) eqn:EH; [|done].
    destruct (wf_shas _ Hwf sid) as [? E]; [eauto|congruence].
Qed.

Lemma begin_resolve_roundtrip_witness :
  exists l, begun.1 = Ok l /\ exists due w'',
    run (Manager.Resolve ManagerThms.demo_cfg (Manager.l_KeyID l))
      (MkWorld demo_mem (2700 * Second) "") =
    (Ok (Some (Manager.MkLive (Manager.l_KeyID l) (Manager.l_SessionID l) 0 ∅ [] ∅ "" false due)), w'')
    /\ Manager.NewProxyCookie l = (Manager.l_KeyID l, true).
Proof.
  eexists. split; [vm_compute; reflexivity|].
  refine (begin_resolve_roundtrip ManagerThms.demo_cfg NewMemory (1000 * Second) rng64 _ begun.2
    (2700 * Second) "" wf_empty _ _ _ _ _ _ _);
    try (vm_compute; reflexivity); try (vm_compute; split; congruence).
Defined.

(** C23: an expired session never resolves, and finding it expired removes it
    with its keys, cookies, hashes and owner-index entry. *)
Theorem expired_session_is_deleted cfg k m t rng sid s :
  wf m -> keys m !! k = Some sid -> sessions m !! sid = Some s -> sane s (Unix t) ->
  (LastAccess s + InactiveTimeout s <= Unix t \/ Creation s + FinalTimeout s <= Unix t)%Z ->
  exists m', run (Manager.Resolve cfg k) (MkWorld m t rng) = (Ok None, MkWorld m' t rng)
    /\ wf m' /\ sessions m' = delete sid (sessions m)
    /\ (forall k', keys m' !! k' <> Some sid) /\ cookies m' !! sid = None /\ shas m' !! sid = None
    /\ forall o, sid ∉ members (owners m') o.
Proof.
  intros Hwf Hk Hs Hsane He%expired_spec; [|done].
  exists (DeleteSession sid m).2. rewrite Resolve_spec, Hk, Hs, He.
  pose proof (DeleteSession_wf m sid Hwf) as Hwf'.
  split_and!; [done|done|done|..].
  - intros k'. simpl. intros [_ ?]%lookup_drop_keys. done.
  - apply lookup_delete_eq.
  - apply lookup_delete_eq.
  - intros o Ho. apply (wf_owners _ Hwf') in Ho as (_ & s' & Hs' & _). simpl in Hs'.
    by rewrite lookup_delete_eq in Hs'.
Qed.

Lemma expired_session_is_deleted_witness :
  exists m', run (Manager.Resolve ManagerThms.demo_cfg (Manager.l_KeyID ManagerThms.demo_live))
      (MkWorld demo_mem (2800 * Second) "") = (Ok None, MkWorld m' (2800 * Second) "")
    /\ sessions m' !! Manager.l_SessionID ManagerThms.demo_live = None.
Proof.
  destruct (expired_session_is_deleted ManagerThms.demo_cfg
    (Manager.l_KeyID ManagerThms.demo_live) demo_mem (2800 * Second) ""
    (Manager.l_SessionID ManagerThms.demo_live)
    (MkSession (Manager.l_SessionID ManagerThms.demo_live) 1000 1000 1800 28800 0 1000 ""))
    as (m' & H1 & _ & H2 & _).
  - pose proof (PutSession_wf NewMemory (MkSession (Manager.l_SessionID ManagerThms.demo_live)
      1000 1000 1800 28800 0 1000 "") wf_empty eq_refl eq_refl) as H.
    exact (PutKey_wf _ (Manager.l_KeyID ManagerThms.demo_live)
      (Manager.l_SessionID ManagerThms.demo_live) H).
  - vm_compute; reflexivity.
  - vm_compute; reflexivity.
  - split; vm_compute; split; congruence.
  - left. vm_compute. congruence.
  - exists m'. split; [exact H1|]. rewrite H2. vm_compute; reflexivity.
Defined.

(** C21: the final timeout is absolute.  Whatever requests do with a session,
    in any interleaving, once its original creation time plus final timeout has
    passed no key resolves to it. *)
Theorem final_deadline_absolute c c' sid s s' cfg k t rng :
  reachable c -> sessions (c_mem c) !! sid = Some s -> rtc sys_step c c' ->
  keys (c_mem c') !! k = Some sid -> sessions (c_mem c') !! sid = Some s' -> sane s' (Unix t) ->
  (Creation s + FinalTimeout s <= Unix t)%Z ->
  (run (Manager.Resolve cfg k) (MkWorld (c_mem c') t rng)).1 = Ok None.
Proof.
  intros Hr Hs Hst Hk Hs' Hsane Hle.
  destruct (terms_stable _ _ _ _ _ Hr Hs Hst Hs') as (_ & Hc & _ & Hf).
  rewrite Resolve_spec, Hk, Hs'.
  rewrite (proj2 (expired_spec s' (Unix t) Hsane)); [done|]. rewrite Hc, Hf. by right.
Qed.

Lemma final_deadline_absolute_witness :
  (run (Manager.Resolve ConcurrencyThms.demo_cfg demo_key)
    (MkWorld (c_mem (before 6 resolving)) (29800 * Second) "")).1 = Ok None.
Proof.
  apply (final_deadline_absolute demo_conf (before 6 resolving) demo_sid
    (MkSession demo_sid 1000 1000 1800 28800 0 1000 "")
    (MkSession demo_sid 1000 1010 1800 28800 0 1000 "")).
  - apply demo_reachable.
  - vm_compute; reflexivity.
  - apply before_steps; [apply resolving_safe|]. eexists; vm_compute; reflexivity.
  - vm_compute; reflexivity.
  - vm_compute; reflexivity.
  - split; vm_compute; split; congruence.
  - vm_compute; congruence.
Defined.
