(* ===== verification/Labels.v ===== *)
(** * Authorization labels

    From the backend's labels header to the canonical form stored with the
    session, and back to the label set the authorization gate consults. *)

From stdpp Require Import base gmap strings list sorting.
From Stdlib Require Import ZArith Lia.
From S2P Require Import Prelude GoStrings StoreApi Manager.

(** [splitLabels] of the handler: commas and whitespace separate labels. *)
Definition splitLabels (s : string) : list string :=
  fields_func (fun r => (r =? 44)%Z || is_space r) s.

(** ** The normalization loop *)

Lemma normalize_go_elem seen ls x :
  x ∈ Manager.normalize_go seen ls <-> x <> "" /\ x ∉ seen /\ exists l, l ∈ ls /\ trim_space l = x.
Proof.
  revert seen; induction ls as [|l ls IH]; intros seen; simpl.
  - rewrite elem_of_nil. split; [done|]. intros (_ & _ & l & Hl & _). by apply elem_of_nil in Hl.
  - case_decide as Hd; rewrite ?elem_of_cons, IH; setoid_rewrite elem_of_cons.
    + split; [naive_solver|]. intros (Hx & Hs & l' & [->|Hl] & He); [|eauto].
      subst. tauto.
    + rewrite elem_of_union, elem_of_singleton. split.
      * intros [->|(Hx & Hs & l' & Hl & He)]; [|naive_solver]. split_and!; [tauto..|eauto].
      * intros (Hx & Hs & l' & [->|Hl] & He); [by left|].
        destruct (decide (x = trim_space l)); [by left|]. right. naive_solver.
Qed.

Lemma normalize_go_NoDup seen ls : NoDup (Manager.normalize_go seen ls).
Proof.
  revert seen; induction ls as [|l ls IH]; intros seen; simpl; [constructor|].
  case_decide; [done|]. constructor; [|done].
  rewrite normalize_go_elem, elem_of_union, elem_of_singleton. tauto.
Qed.

(** The labels a list of header tokens stands for. *)
Definition stands_for (ls : list string) (x : string) : Prop :=
  x <> "" /\ exists l, l ∈ ls /\ trim_space l = x.

Lemma normalize_go_stands_for ls x : x ∈ Manager.normalize_go ∅ ls <-> stands_for ls x.
Proof. rewrite normalize_go_elem. unfold stands_for. set_solver. Qed.

Lemma stands_for_words ls x : Forall word ls -> stands_for ls x <-> x ∈ ls.
Proof.
  intros Hw. rewrite Forall_forall in Hw. split.
  - intros (_ & l & Hl & <-). by rewrite trim_space_word by auto.
  - intros Hx. split; [by destruct (Hw x Hx)|]. exists x. split; [done|]. by apply trim_space_word, Hw.
Qed.

Lemma splitLabels_words s : Forall word (splitLabels s).
Proof.
  eapply Forall_impl; [apply fields_func_spec|]. simpl. intros w [Hne Hr]. split; [done|].
  eapply Forall_impl; [exact Hr|]. intros [r c]; simpl. intros [_ H]%orb_false_iff. done.
Qed.

(** Normalizing words and splitting the stored form gives the sorted words. *)
Lemma fields_normalize ls :
  Forall word ls ->
  fields (Manager.normalizeLabels ls) = sort_strings (Manager.normalize_go ∅ ls).
Proof.
  intros Hw. apply fields_join. rewrite sort_strings_perm, Forall_forall. intros x Hx.
  apply normalize_go_stands_for, stands_for_words in Hx; [|done]. rewrite Forall_forall in Hw. auto.
Qed.

Lemma normalizeLabels_ext ls ls' :
  (forall x, stands_for ls x <-> stands_for ls' x) ->
  Manager.normalizeLabels ls = Manager.normalizeLabels ls'.
Proof.
  intros H. unfold Manager.normalizeLabels. f_equal. apply sort_strings_canonical.
  apply NoDup_Permutation; [apply normalize_go_NoDup..|]. intros x.
  by rewrite !normalize_go_stands_for.
Qed.

Lemma fields_normalize_elem ls x :
  Forall word ls -> x ∈ fields (Manager.normalizeLabels ls) <-> x ∈ ls.
Proof.
  intros Hw. rewrite fields_normalize, sort_strings_perm by done.
  by rewrite normalize_go_stands_for, stands_for_words.
Qed.

(** ** Theorems *)

(** The stored form of a label set is canonical: label lists that stand for
    the same set, in any order, with duplicates, blanks or empty entries, are
    stored identically, and word lists are stored identically only then. *)
Theorem normalizeLabels_canonical ls ls' :
  ((forall x, stands_for ls x <-> stands_for ls' x) ->
    Manager.normalizeLabels ls = Manager.normalizeLabels ls')
  /\ (Forall word ls -> Forall word ls' ->
      Manager.normalizeLabels ls = Manager.normalizeLabels ls' -> forall x, x ∈ ls <-> x ∈ ls').
Proof.
  split; [apply normalizeLabels_ext|].
  intros Hw Hw' H x. by rewrite <-(fields_normalize_elem ls), H, fields_normalize_elem.
Qed.
