(* ===== verification/Revocation.v ===== *)
(** * Logout, the session lock, and identifiers *)

From stdpp Require Import base gmap strings list.
From Stdlib Require Import ZArith Lia.
From S2P Require Import Prelude Crypto GoTime StoreApi Memory MemoryProps Faulty Manager.
Import Memory MemoryProps Faulty.

(** ** RevokeOwner *)

Section AnyStore.
Context {S : Type} `{Store S}.

Lemma revoke_loop_calls o e sids (w : world S) :
  calls (Manager.revoke_loop o e sids) w = (fun sid => StoreApi.DeleteSessionByOwner o sid) <$> sids.
Proof.
  revert e w; induction sids as [|sid sids IH]; intros e w; simpl; [done|].
  destruct (exec _ _) as [r s']. by rewrite IH.
Qed.

(** The first error of a sequence of replies. *)
Definition first_error {A} (rs : list (res A)) : option error :=
  head (omap (fun r => match r with Err e => Some e | Ok _ => None end) rs).

(** The replies to those calls, in order. *)
Fixpoint replies (o : Z) (sids : list string) (s : S) : list (res bool) :=
  match sids with
  | [] => []
  | sid :: sids' =>
      let '(r, s') := exec (StoreApi.DeleteSessionByOwner o sid) s in r :: replies o sids' s'
  end.

Lemma revoke_loop_result o e sids (w : world S) :
  (run (Manager.revoke_loop o e sids) w).1 =
    match e with Some _ => e | None => first_error (replies o sids (w_store w)) end.
Proof.
  revert e w; induction sids as [|sid sids IH]; intros e w; simpl; [by destruct e|].
  destruct (exec _ _) as [r s']. rewrite IH. simpl. unfold first_error. simpl.
  by destruct e, r.
Qed.
End AnyStore.

(** Deleting one session of the owner: the sessions that remain. *)
Lemma DeleteSessionByOwner_sessions o sid m :
  sessions (DeleteSessionByOwner o sid m).2 =
    (if decide (OwnerID <$> sessions m !! sid = Some o) then delete sid (sessions m) else sessions m)
  /\ is_Ok (DeleteSessionByOwner o sid m).1 = true.
Proof.
  unfold DeleteSessionByOwner; simpl. destruct (sessions m !! sid) as [s|]; simpl;
    repeat case_decide; by simplify_eq/=.
Qed.

Lemma revoke_loop_run o sids m t rng :
  wf m ->
  exists m', run (Manager.revoke_loop o None sids) (MkWorld m t rng) = (None, MkWorld m' t rng)
    /\ wf m'
    /\ forall sid, sessions m' !! sid =
         if decide (sid ∈ sids /\ OwnerID <$> sessions m !! sid = Some o) then None
         else sessions m !! sid.
Proof.
  revert m; induction sids as [|sid sids IH]; intros m Hwf;
    cbn [Manager.revoke_loop call bind run step exec memory_store w_store w_clock w_rng].
  { exists m. split_and!; [done..|]. intros sid. rewrite decide_False; [done|].
    intros [Hn _]. by apply elem_of_nil in Hn. }
  destruct (DeleteSessionByOwner_sessions o sid m) as [Hs Hok].
  pose proof (DeleteSessionByOwner_wf m o sid Hwf) as Hwf1.
  destruct (DeleteSessionByOwner o sid m) as [[b|e] m1]; [|done]. cbn [fst snd] in *.
  destruct (IH m1 Hwf1) as (m' & Hrun & Hwf' & Hs'). exists m'. split_and!; [exact Hrun|exact Hwf'|].
  intros sid'. rewrite Hs', Hs. destruct (decide (sid' = sid)) as [->|Hne].
  - destruct (decide (OwnerID <$> sessions m !! sid = Some o)) as [Ho|Ho].
    + rewrite lookup_delete_eq. rewrite (decide_True (P := _ ∈ sid :: _ /\ _)) by (split; [left|done]).
      by case_decide.
    + by rewrite !decide_False by tauto.
  - replace ((if decide (OwnerID <$> sessions m !! sid = Some o) then delete sid (sessions m)
      else sessions m) !! sid') with (sessions m !! sid')
      by (case_decide; by rewrite ?lookup_delete_ne).
    assert (sid' ∈ sid :: sids <-> sid' ∈ sids) by (rewrite elem_of_cons; tauto).
    repeat case_decide; tauto.
Qed.

(** Nothing is left of a session that is gone. *)
Lemma dead_session_cascade m sid :
  wf m -> sessions m !! sid = None ->
  (forall k, keys m !! k <> Some sid) /\ cookies m !! sid = None /\ shas m !! sid = None.
Proof.
  intros Hwf Hn. split_and!.
  - intros k Hk. destruct (wf_keys _ Hwf _ _ Hk) as [? E]. congruence.
  - destruct (cookies m !! sid) eqn:E; [|done]. destruct (wf_cookies _ Hwf sid) as [? E']; [eauto|congruence].
  - destruct (shas m !! sid) eqn:E; [|done]. destruct (wf_shas _ Hwf sid) as [? E']; [eauto|congruence].
Qed.

(** A session whose row, cookies, hashes and keys are what they were. *)
Definition untouched (sid : string) (m m' : Memory) : Prop :=
  sessions m' !! sid = sessions m !! sid /\ cookies m' !! sid = cookies m !! sid
  /\ shas m' !! sid = shas m !! sid /\ forall k, keys m' !! k = Some sid <-> keys m !! k = Some sid.

Lemma DeleteSessionByOwner_untouched o sid m sid' :
  OwnerID <$> sessions m !! sid' <> Some o -> untouched sid' m (DeleteSessionByOwner o sid m).2.
Proof.
  intros Ho. unfold DeleteSessionByOwner, set_owners; cbn [sessions keys cookies shas owners locks].
  destruct (sessions m !! sid) as [s|] eqn:Es; [|done]. case_decide as Hs; [|done].
  assert (Hne : sid <> sid') by (intros ->; apply Ho; rewrite Es; simpl; congruence).
  split_and!; cbn [snd sessions keys cookies shas]; [by rewrite lookup_delete_ne..|].
  intros k. rewrite lookup_drop_keys. naive_solver.
Qed.

Lemma revoke_loop_untouched o e sids (w : world Memory) sid :
  OwnerID <$> sessions (w_store w) !! sid <> Some o ->
  untouched sid (w_store w) (w_store (run (Manager.revoke_loop o e sids) w).2).
Proof.
  revert e w; induction sids as [|sid' sids IH]; intros e w Ho; [done|].
  cbn [Manager.revoke_loop call bind run step exec memory_store].
  pose proof (DeleteSessionByOwner_untouched o sid' _ sid Ho) as (U1 & U2 & U3 & U4).
  destruct (DeleteSessionByOwner o sid' (w_store w)) as [r m1]. cbn [snd] in *.
  edestruct IH as (V1 & V2 & V3 & V4); [|split_and!; [etrans; [exact V1|done]|etrans; [exact V2|done]
    |etrans; [exact V3|done]|]].
  - cbn [w_store]. by rewrite U1.
  - intros k. rewrite V4. apply U4.
Qed.

(** The whole of [RevokeOwner] on a consistent store. *)
Lemma RevokeOwner_run o m t rng :
  wf m -> o <> 0%Z ->
  exists m', run (Manager.RevokeOwner o) (MkWorld m t rng) = (None, MkWorld m' t rng)
    /\ wf m' /\ (OwnerSessions o m').1 = Ok []
    /\ forall sid, sessions m' !! sid =
         match sessions m !! sid with
         | Some s => if decide (OwnerID s = o) then None else Some s
         | None => None
         end.
Proof.
  intros Hwf Ho. unfold Manager.RevokeOwner, call. cbn [bind run step exec memory_store w_store].
  unfold OwnerSessions at 1.
  destruct (revoke_loop_run o (elements (default ∅ (owners m !! o))) m t rng Hwf)
    as (m' & Hrun & Hwf' & Hs).
  assert (HS : forall sid, sessions m' !! sid = match sessions m !! sid with
         | Some s => if decide (OwnerID s = o) then None else Some s | None => None end).
  { intros sid. rewrite Hs. pose proof (wf_owners _ Hwf o sid) as Hm. unfold members in Hm.
    rewrite <-elem_of_elements in Hm.
    destruct (sessions m !! sid) as [s|]; simpl; [|by case_decide].
    destruct (decide (OwnerID s = o)) as [E|E], (decide (_ /\ _)) as [Hd|Hd]; try done.
    - destruct Hd. split; [apply Hm; eauto|congruence].
    - destruct Hd as [_ ?]; congruence. }
  exists m'. split_and!; [exact Hrun|done| |done].
  unfold OwnerSessions; simpl. f_equal. fold (members (owners m') o).
  apply elements_empty_iff. intros sid. rewrite (wf_owners _ Hwf'), HS.
  split; [|set_solver]. intros (_ & s & H & E). case_all.
Qed.

(** ** RevokeOwner over a failing store *)

Lemma untouched_trans sid m1 m2 m3 : untouched sid m1 m2 -> untouched sid m2 m3 -> untouched sid m1 m3.
Proof. intros (A1 & A2 & A3 & A4) (B1 & B2 & B3 & B4). split_and!; [congruence..|]. intros k. by rewrite B4. Qed.

(** One deletion, which may be lost: it only removes, it spares other owners, and
    if it is reported as done the session is not the owner's any more. *)
Lemma delete_reported o sid (f : faulty Memory) :
  let '(r, f') := exec (StoreApi.DeleteSessionByOwner o sid) f in
  (forall sid', OwnerID <$> sessions (inner f) !! sid' <> Some o -> untouched sid' (inner f) (inner f'))
  /\ (forall sid' s, sessions (inner f') !! sid' = Some s -> sessions (inner f) !! sid' = Some s)
  /\ (is_Ok r = true -> forall s, sessions (inner f') !! sid = Some s -> OwnerID s <> o).
Proof.
  pose proof (fun sid' => DeleteSessionByOwner_untouched o sid (inner f) sid') as HU.
  destruct (DeleteSessionByOwner_sessions o sid (inner f)) as [HS _].
  assert (HD : forall sid' s, sessions (DeleteSessionByOwner o sid (inner f)).2 !! sid' = Some s ->
    sessions (inner f) !! sid' = Some s).
  { intros sid' s. rewrite HS. case_decide; [|done]. by intros [_ ?]%lookup_delete_Some. }
  assert (HK : forall s, sessions (DeleteSessionByOwner o sid (inner f)).2 !! sid = Some s -> OwnerID s <> o).
  { intros s. rewrite HS. case_decide as Hd; [by rewrite lookup_delete_eq|]. intros Es Ho.
    apply Hd. rewrite Es. simpl. congruence. }
  pose proof (exec_cases (StoreApi.DeleteSessionByOwner o sid) f) as HX.
  change (exec (StoreApi.DeleteSessionByOwner o sid) (inner f))
    with (DeleteSessionByOwner o sid (inner f)) in HX.
  destruct HX as [[fs ->]|(e & f' & -> & Hf)].
  - split_and!; [exact HU|exact HD|intros _; exact HK].
  - split_and!; [| |done]; destruct Hf as [->| ->]; done.
Qed.

Lemma revoke_loop_reported o e sids (w : world (faulty Memory)) e' w' :
  run (Manager.revoke_loop o e sids) w = (e', w') ->
  (forall sid, OwnerID <$> sessions (inner (w_store w)) !! sid <> Some o ->
     untouched sid (inner (w_store w)) (inner (w_store w')))
  /\ (forall sid s, sessions (inner (w_store w')) !! sid = Some s ->
        sessions (inner (w_store w)) !! sid = Some s)
  /\ (e' = None -> e = None /\ forall sid s, sid ∈ sids ->
        sessions (inner (w_store w')) !! sid = Some s -> OwnerID s <> o).
Proof.
  revert e w; induction sids as [|sid sids IH]; intros e w; cbn [Manager.revoke_loop].
  { intros [= <- <-]. split_and!; [done..|]. intros ->. split; [done|]. by intros ? ? ?%elem_of_nil. }
  unfold call. cbn [bind run step]. pose proof (delete_reported o sid (w_store w)) as HD.
  destruct (exec _ (w_store w)) as [r f]. destruct HD as (U & D & K).
  intros (U' & D' & K')%IH. cbn [w_store] in *. split_and!.
  - intros sid' Ho. pose proof (U sid' Ho) as HU. eapply untouched_trans; [exact HU|]. apply U'.
    destruct HU as (-> & _). done.
  - intros sid' s Hs. by apply D, D'.
  - intros He. destruct (K' He) as [He' Hk]. destruct r as [b|er]; [|by destruct e].
    split; [by destruct e|]. intros sid' s Hin Hs. apply elem_of_cons in Hin as [->|Hin]; [|by eapply Hk].
    apply (K eq_refl). by apply D'.
Qed.

(** A logout-everywhere over a store that may lose calls: what it reports as done
    is done, and whatever it reports, other owners' sessions are as they were. *)
Lemma RevokeOwner_reported o (f : faulty Memory) t rng e w' :
  wf (inner f) -> o <> 0%Z -> run (Manager.RevokeOwner o) (MkWorld f t rng) = (e, w') ->
  (forall sid s, sessions (inner f) !! sid = Some s -> OwnerID s <> o ->
     untouched sid (inner f) (inner (w_store w')))
  /\ (e = None -> forall sid s, sessions (inner (w_store w')) !! sid = Some s -> OwnerID s <> o).
Proof.
  intros Hwf Ho. unfold Manager.RevokeOwner, call. cbn [bind run step w_store w_clock w_rng].
  destruct (exec_cases (StoreApi.OwnerSessions o) f) as [[fs ->]|(er & f' & -> & Hf)].
  - cbn [exec memory_store bind]. unfold OwnerSessions. cbn [fst snd].
    intros (U & D & K)%revoke_loop_reported. cbn [w_store inner] in *. split.
    + intros sid s Hs Hne. apply U. rewrite Hs. simpl. congruence.
    + intros He sid s Hs Heq. destruct (K He) as [_ Hk]. refine (Hk sid s _ Hs Heq).
      apply elem_of_elements. pose proof (wf_owners _ Hwf o sid) as Hm. unfold members in Hm.
      apply Hm. split; [done|]. exists s. split; [by apply D|done].
  - cbn [bind run fail_with]. intros [= <- <-]. cbn [w_store].
    assert (inner f' = inner f) as -> by (by destruct Hf). done.
Qed.

(** ** WithLock *)

Lemma WithLock_run {A} cfg sid (fn : prog (option error * A)) skipped m t rng :
  run (Manager.WithLock cfg sid fn skipped) (MkWorld m t rng) =
    if Manager.Synchronize cfg then
      if decide (sid ∈ locks m) then ((Some ErrLockContended, skipped), MkWorld m t rng)
      else
        let '(r, w) := run fn (MkWorld (set_locks ({[sid]} ∪ locks m) m) t rng) in
        (r, MkWorld (set_locks (locks (w_store w) ∖ {[sid]}) (w_store w)) (w_clock w) (w_rng w))
    else run fn (MkWorld m t rng).
Proof.
  unfold Manager.WithLock, call. destruct (Manager.Synchronize cfg); [|done].
  cbn [negb bind run step exec memory_store w_store]. unfold Lock.
  destruct (decide (sid ∈ locks m)); [done|]. cbn [bind run]. rewrite run_bind.
  by destruct (run fn _) as [[e a] w].
Qed.

(** ** Theorems *)

(** C25: logout-everywhere.  On a consistent store [RevokeOwner] succeeds and
    leaves nothing of any session of the owner: no row, key, cookie or hash; and
    it touches nothing else: every session of another owner (or of none) keeps its
    row, its cookies, its hashes and exactly its keys.  A later owner lookup finds
    nothing. *)
Theorem revoke_owner_complete o m t rng :
  wf m -> o <> 0%Z ->
  exists m', run (Manager.RevokeOwner o) (MkWorld m t rng) = (None, MkWorld m' t rng)
    /\ wf m' /\ (OwnerSessions o m').1 = Ok []
    /\ (forall sid s, sessions m !! sid = Some s -> OwnerID s = o ->
          sessions m' !! sid = None /\ (forall k, keys m' !! k <> Some sid)
          /\ cookies m' !! sid = None /\ shas m' !! sid = None)
    /\ (forall sid s, sessions m !! sid = Some s -> OwnerID s <> o -> untouched sid m m').
Proof.
  intros Hwf Ho. destruct (RevokeOwner_run o m t rng Hwf Ho) as (m' & Hrun & Hwf' & He & Hs).
  exists m'. split_and!; [done..| |].
  - intros sid s Hsid HO. assert (Hn : sessions m' !! sid = None)
      by (rewrite Hs, Hsid; by rewrite decide_True).
    split; [done|]. by apply dead_session_cascade.
  - intros sid s Hsid HO.
    assert (HU := revoke_loop_untouched o None (elements (default ∅ (owners m !! o)))
      (MkWorld m t rng) sid).
    unfold Manager.RevokeOwner, call in Hrun. cbn [bind run step exec memory_store w_store w_clock w_rng] in Hrun.
    unfold OwnerSessions in Hrun. rewrite Hrun in HU. apply HU. cbn [w_store]. rewrite Hsid. simpl.
    congruence.
Qed.

Definition owned : Memory :=
  (ApplySessionControls "s2" (MkControls true 8 false "" 0 0 "k2" "" false [])
    (ApplySessionControls "s1" (MkControls true 7 false "" 0 0 "k1" "" false [])
      (PutKey "k2" "s2" (PutSession (MkSession "s2" 0 0 10 20 0 0 "")
        (PutKey "k1" "s1" (PutSession (MkSession "s1" 0 0 10 20 0 0 "") NewMemory).2).2).2).2).2).2.

Lemma owned_wf : wf owned.
Proof.
  unfold owned. apply ApplySessionControls_wf; [|done]. apply ApplySessionControls_wf; [|done].
  apply PutKey_wf, PutSession_wf; [|done|done]. apply PutKey_wf, PutSession_wf; [|done|done].
  apply wf_empty.
Qed.

Lemma revoke_owner_complete_witness :
  exists m', run (Manager.RevokeOwner 7) (MkWorld owned 0 "") = (None, MkWorld m' 0 "")
    /\ sessions m' !! "s1" = None /\ (forall k, keys m' !! k <> Some "s1")
    /\ sessions m' !! "s2" = Some (MkSession "s2" 0 0 10 20 8 0 "") /\ keys m' !! "k2" = Some "s2".
Proof.
  destruct (revoke_owner_complete 7 owned 0 "" owned_wf) as (m' & H1 & _ & _ & H2 & H3); [lia|].
  exists m'. split; [exact H1|].
  destruct (H2 "s1" (MkSession "s1" 0 0 10 20 7 0 "")) as (H4 & H5 & _);
    [vm_compute; reflexivity|reflexivity|].
  destruct (H3 "s2" (MkSession "s2" 0 0 10 20 8 0 "")) as (H6 & _ & _ & H7);
    [vm_compute; reflexivity|simpl; lia|].
  split; [exact H4|]. split; [exact H5|]. split; [rewrite H6; vm_compute; reflexivity|].
  apply H7. vm_compute. reflexivity.
Defined.

(** C26: a failing store does not stop a logout-everywhere: over any store, once
    the owner's sessions are known, every one of them is attempted, and the first
    failure is what the caller sees. *)
Theorem revoke_owner_attempts_all {S} `{Store S} o (w : world S) :
  let '(r, s) := exec (StoreApi.OwnerSessions o) (w_store w) in
  calls (Manager.RevokeOwner o) w =
    StoreApi.OwnerSessions o ::
      match r with
      | Ok sids => (fun sid => StoreApi.DeleteSessionByOwner o sid) <$> sids
      | Err _ => []
      end
  /\ (run (Manager.RevokeOwner o) w).1 =
      match r with Ok sids => first_error (replies o sids s) | Err e => Some e end.
Proof.
  unfold Manager.RevokeOwner, call. cbn [bind run calls step].
  destruct (exec _ _) as [[sids|e] s] eqn:E; [|done]. cbn [bind].
  rewrite revoke_loop_calls, revoke_loop_result. done.
Qed.

(** C38: the session lock, in both modes.  With [synchronize_sessions] off the
    body simply runs, with no lock taken.  With it on, when the lock is held the
    body does not run, the caller is told so and nothing changes; otherwise the
    body runs with the lock held, its result and effects are the caller's, and
    the lock is free again afterwards, whatever the body returned. *)
Theorem with_lock_excludes {A} cfg sid (fn : prog (option error * A)) skipped m t rng :
  let '(r, w') := run (Manager.WithLock cfg sid fn skipped) (MkWorld m t rng) in
  if Manager.Synchronize cfg then
    let '(r1, w1) := run fn (MkWorld (set_locks ({[sid]} ∪ locks m) m) t rng) in
    if decide (sid ∈ locks m) then r = (Some ErrLockContended, skipped) /\ w' = MkWorld m t rng
    else r = r1 /\ sid ∉ locks (w_store w')
      /\ w' = MkWorld (set_locks (locks (w_store w1) ∖ {[sid]}) (w_store w1)) (w_clock w1) (w_rng w1)
  else (r, w') = run fn (MkWorld m t rng).
Proof.
  rewrite WithLock_run. destruct (Manager.Synchronize cfg); [|by destruct (run fn _)].
  destruct (decide (sid ∈ locks m)) as [Hl|Hl].
  - by destruct (run fn _) as [r1 w1].
  - destruct (run fn _) as [r1 w1]. split_and!; [done|simpl; set_solver|done].
Qed.

(** Identifiers carry all 256 bits: [newID] returns 43 characters of the
    URL-safe alphabet, and different random draws give different identifiers. *)
Theorem new_id_faithful (m : Memory) t rng rng' id id' w w' :
  run Manager.newID (MkWorld m t rng) = (Ok id, w) ->
  run Manager.newID (MkWorld m t rng') = (Ok id', w') ->
  String.length id = 43 /\ all_bytes b64_alphabet id = true
  /\ (id = id' <-> (fun p => p.1) <$> take_bytes 32 rng = (fun p => p.1) <$> take_bytes 32 rng').
Proof.
  unfold Manager.newID, read_rand. cbn [bind run step w_rng].
  destruct (take_bytes 32 rng) as [[b r]|] eqn:E; [|done].
  destruct (take_bytes 32 rng') as [[b' r']|] eqn:E'; [|done].
  simpl. intros [= <- <-] [= <- <-]. split_and!.
  - pose proof (base64_length b) as HL. rewrite (take_bytes_length _ _ _ _ E) in HL.
    vm_compute (_ / 6)%Z in HL. lia.
  - apply base64_alphabet.
  - split; [by intros ->%base64_inj|by intros [= ->]].
Qed.

Lemma new_id_faithful_witness :
  let rng := "0123456789abcdef0123456789abcdef" in
  String.length (base64_rawurl rng) = 43 /\ all_bytes b64_alphabet (base64_rawurl rng) = true
  /\ (base64_rawurl rng = base64_rawurl rng <->
      (fun p : string * string => p.1) <$> take_bytes 32 rng
      = (fun p : string * string => p.1) <$> take_bytes 32 rng).
Proof.
  refine (new_id_faithful NewMemory 0 _ _ _ _ (MkWorld NewMemory 0 "") (MkWorld NewMemory 0 "") _ _);
    vm_compute; reflexivity.
Defined.
