(* ===== verification/Http.v ===== *)
(** * HTTP headers

    The parts of [net/http] and [net/textproto] the handler uses on header maps,
    and the handler's own helpers on them. *)

From stdpp Require Import base gmap strings list.
From Stdlib Require Import ZArith Lia Ascii.
From S2P Require Import Prelude GoStrings Crypto.

(** ** Bytes of header names *)

Definition is_upper (c : ascii) : bool := ((65 <=? byte_val c) && (byte_val c <=? 90))%Z.
Definition is_lower (c : ascii) : bool := ((97 <=? byte_val c) && (byte_val c <=? 122))%Z.
Definition is_digit (c : ascii) : bool := ((48 <=? byte_val c) && (byte_val c <=? 57))%Z.
Definition to_upper (c : ascii) : ascii := if is_lower c then ascii_of_Z (byte_val c - 32) else c.
Definition to_lower (c : ascii) : ascii := if is_upper c then ascii_of_Z (byte_val c + 32) else c.

(** RFC 9110 token bytes. *)
Definition token_byte (c : ascii) : bool :=
  is_upper c || is_lower c || is_digit c || contains_byte c "!#$%&'*+-.^_`|~".

(** [isToken] *)
Definition is_token (s : string) : bool := negb (bool_decide (s = "")) && all_bytes token_byte s.

(** ** [textproto.CanonicalMIMEHeaderKey] *)

Fixpoint canon_go (upper : bool) (s : string) : string :=
  match s with
  | EmptyString => ""
  | String c s' =>
      String (if upper then to_upper c else to_lower c) (canon_go (bool_decide (c = "-"%char)) s')
  end.
Definition canonical_key (s : string) : string :=
  if all_bytes token_byte s then canon_go true s else s.

(** ** Header maps *)

Notation Header := (gmap string (list string)).

Definition Values (h : Header) (key : string) : list string := default [] (h !! canonical_key key).
Definition Get (h : Header) (key : string) : string := default "" (head (Values h key)).
Definition Add (h : Header) (key v : string) : Header :=
  <[canonical_key key := Values h key ++ [v]]> h.
Definition Set_ (h : Header) (key v : string) : Header := <[canonical_key key := [v]]> h.
Definition Del (h : Header) (key : string) : Header := delete (canonical_key key) h.

(** [clearHeaders]: deletes by canonical name, as [Header.Del] does. *)
Definition clearHeaders (h : Header) : Header := foldl Del h (map_to_list h).*1.

(** [copyHeaders] *)
Definition copyHeaders (dst src : Header) : Header := src ∪ clearHeaders dst.

(** [stagedHeaderBytes] *)
Definition stagedHeaderBytes (h : Header) : Z :=
  foldr Z.add 0%Z
    ((fun nv => foldr Z.add 0%Z
        ((fun v => Z.of_nat (String.length nv.1 + String.length v + 4)) <$> nv.2)) <$> map_to_list h).

(** ** Case-insensitive prefixes

    [unicode.ToLower] on the runes whose lower case is ASCII; every other rune
    is left alone, which a comparison with an ASCII constant cannot observe. *)
Definition lower_rune (r : Z) : Z :=
  (if (65 <=? r) && (r <=? 90) then r + 32
   else if r =? 0x130 then 0x69 else if r =? 0x212A then 0x6B else r)%Z.
Definition lower_runes (s : string) : list Z := (fun rc => lower_rune rc.1) <$> runes s.

Fixpoint drop_bytes (n : nat) (s : string) : string :=
  match n, s with
  | S n', String _ s' => drop_bytes n' s'
  | _, _ => s
  end.

Definition TrailerPrefix : string := "Trailer:".
Definition has_trailer_prefix (key : string) : bool :=
  bool_decide (lower_runes TrailerPrefix `prefix_of` lower_runes key).

(** ** Managed trailers ([stripManagedTrailerDeclarations]) *)

Definition managed_set (names : list string) : gset string := list_to_set (canonical_key <$> names).

(** One declared trailer name: the header map and the names kept so far. *)
Definition strip_declared (managed : gset string) (acc : Header * list string) (name : string) :
    Header * list string :=
  let name := trim_space name in
  if decide (canonical_key name ∈ managed) then (Del acc.1 name, acc.2)
  else if decide (name = "") then acc else (acc.1, acc.2 ++ [name]).

(** The key carries the value of a managed trailer. *)
Definition blocked (managed : gset string) (key : string) : bool :=
  has_trailer_prefix key
  && bool_decide (canonical_key (drop_bytes (String.length TrailerPrefix) key) ∈ managed).

(** One key of the header map. *)
Definition strip_prefixed (managed : gset string) (h : Header) (key : string) : Header :=
  if blocked managed key then Del h key else h.

Definition stripManagedTrailerDeclarations (h : Header) (names : list string) : Header :=
  let managed := managed_set names in
  let '(h, kept) :=
    foldl (strip_declared managed) (h, []) (mjoin (split_byte "," <$> Values h "Trailer")) in
  let h := Del h "Trailer" in
  let h := if decide (kept = []) then h else Set_ h "Trailer" (join_with ", " kept) in
  foldl (strip_prefixed managed) h (map_to_list h).*1.

(** ** Lemmas: canonical names *)

Lemma token_upper c : token_byte (to_upper c) = token_byte c.
Proof. revert c. apply forall_ascii_eq. vm_compute. reflexivity. Qed.
Lemma token_lower c : token_byte (to_lower c) = token_byte c.
Proof. revert c. apply forall_ascii_eq. vm_compute. reflexivity. Qed.
Lemma upper_dash c : bool_decide (to_upper c = "-"%char) = bool_decide (c = "-"%char).
Proof. revert c. apply forall_ascii_eq. vm_compute. reflexivity. Qed.
Lemma lower_dash c : bool_decide (to_lower c = "-"%char) = bool_decide (c = "-"%char).
Proof. revert c. apply forall_ascii_eq. vm_compute. reflexivity. Qed.
Lemma to_upper_idemp c : to_upper (to_upper c) = to_upper c.
Proof. revert c. apply forall_ascii_eq. vm_compute. reflexivity. Qed.
Lemma to_lower_idemp c : to_lower (to_lower c) = to_lower c.
Proof. revert c. apply forall_ascii_eq. vm_compute. reflexivity. Qed.

Lemma canon_go_token u s : all_bytes token_byte (canon_go u s) = all_bytes token_byte s.
Proof.
  revert u; induction s as [|c s IH]; intros u; [done|]. cbn [canon_go all_bytes]. rewrite IH.
  f_equal. destruct u; [apply token_upper|apply token_lower].
Qed.

Lemma canon_go_idemp u s : canon_go u (canon_go u s) = canon_go u s.
Proof.
  revert u; induction s as [|c s IH]; intros u; [done|]. cbn [canon_go].
  destruct u; rewrite ?upper_dash, ?lower_dash, IH; f_equal;
    [apply to_upper_idemp|apply to_lower_idemp].
Qed.

Lemma canonical_idemp s : canonical_key (canonical_key s) = canonical_key s.
Proof.
  unfold canonical_key. destruct (all_bytes token_byte s) eqn:E; [|by rewrite E].
  by rewrite canon_go_token, E, canon_go_idemp.
Qed.
