(* ===== verification/HttpProps.v ===== *)
(** * Facts on header maps and managed trailers *)

From stdpp Require Import base gmap strings list.
From Stdlib Require Import ZArith Lia Ascii.
From S2P Require Import Prelude GoStrings Crypto Http.

(** ** [strings.TrimSpace] *)

Lemma drop_spaces_split rs :
  exists pre, rs = pre ++ drop_spaces rs /\ Forall (fun rc => is_space rc.1 = true) pre.
Proof.
  induction rs as [|[r c] rs (pre & E & H)]; [by exists []|]. simpl.
  destruct (is_space r) eqn:Hr; [|by exists []].
  exists ((r, c) :: pre). split; [simpl; by f_equal|by constructor].
Qed.

Lemma drop_spaces_idemp rs : drop_spaces (drop_spaces rs) = drop_spaces rs.
Proof.
  induction rs as [|[r c] rs IH]; [done|]. simpl. destruct (is_space r) eqn:E; [done|].
  simpl. by rewrite E.
Qed.

Definition trim_runes (rs : list (Z * string)) : list (Z * string) :=
  reverse (drop_spaces (reverse (drop_spaces rs))).

(** The kept runes sit between runs of spaces. *)
Lemma trim_runes_split rs :
  exists pre post, rs = pre ++ trim_runes rs ++ post
    /\ Forall (fun rc => is_space rc.1 = true) pre /\ Forall (fun rc => is_space rc.1 = true) post.
Proof.
  destruct (drop_spaces_split rs) as (pre & E & Hpre).
  destruct (drop_spaces_split (reverse (drop_spaces rs))) as (post & E' & Hpost).
  exists pre, (reverse post). split_and!; [|done|by apply Forall_reverse].
  rewrite E at 1. f_equal. unfold trim_runes. rewrite <-reverse_app, <-E'. by rewrite reverse_involutive.
Qed.

Lemma drop_spaces_head rs : match drop_spaces rs with (r, _) :: _ => is_space r = false | [] => True end.
Proof. induction rs as [|[r c] rs IH]; [done|]. simpl. by destruct (is_space r) eqn:E. Qed.

Lemma drop_spaces_fixed rs :
  match rs with (r, _) :: _ => is_space r = false | [] => True end -> drop_spaces rs = rs.
Proof. destruct rs as [|[r c] rs]; [done|]. simpl. by intros ->. Qed.

(** Trimming what was trimmed keeps it. *)
Lemma trim_runes_idemp rs : trim_runes (trim_runes rs) = trim_runes rs.
Proof.
  unfold trim_runes. set (d := drop_spaces rs).
  assert (Hd : match d with (r, _) :: _ => is_space r = false | [] => True end) by apply drop_spaces_head.
  destruct (drop_spaces_split (reverse d)) as (post & E & _).
  assert (Hhead : drop_spaces (reverse (drop_spaces (reverse d))) = reverse (drop_spaces (reverse d))).
  { apply drop_spaces_fixed.
    assert (HE : d = reverse (drop_spaces (reverse d)) ++ reverse post)
      by (rewrite <-reverse_app, <-E; by rewrite reverse_involutive).
    destruct (reverse (drop_spaces (reverse d))) as [|[r c] l]; [done|].
    rewrite HE in Hd. done. }
  by rewrite Hhead, reverse_involutive, drop_spaces_idemp.
Qed.

Lemma runes_trim_space s : runes (trim_space s) = trim_runes (runes s).
Proof.
  destruct (trim_runes_split (runes s)) as (pre & post & E & _).
  unfold trim_space. fold (trim_runes (runes s)).
  apply (runes_prefix _ post (concat_runes (trim_runes (runes s) ++ post))).
  by apply (runes_suffix pre _ s).
Qed.

Lemma trim_space_idemp s : trim_space (trim_space s) = trim_space s.
Proof.
  unfold trim_space at 1. fold (trim_runes (runes (trim_space s))).
  rewrite runes_trim_space, trim_runes_idemp. by rewrite <-runes_trim_space, concat_runes_runes.
Qed.

Lemma trim_space_lead s : trim_space (String " " s) = trim_space s.
Proof.
  unfold trim_space.
  pose proof (runes_app_space "" s) as H. rewrite !sapp_nil_l in H. by rewrite H.
Qed.

(** Commas are not lost by trimming. *)
Lemma concat_runes_sep_free sep rs rs' rs'' :
  sep_free sep (concat_runes (rs ++ rs' ++ rs'')) -> sep_free sep (concat_runes rs').
Proof. rewrite !concat_runes_app, !sep_free_app. tauto. Qed.

Lemma trim_space_sep_free sep s : sep_free sep s -> sep_free sep (trim_space s).
Proof.
  intros H. destruct (trim_runes_split (runes s)) as (pre & post & E & _).
  unfold trim_space. fold (trim_runes (runes s)).
  apply (concat_runes_sep_free sep pre _ post). by rewrite <-E, concat_runes_runes.
Qed.

(** ** Header maps *)

Lemma lookup_Del h k k' : Del h k !! k' = if decide (canonical_key k = k') then None else h !! k'.
Proof. unfold Del. by rewrite lookup_delete. Qed.

Lemma Values_Del h k k' :
  Values (Del h k) k' = if decide (canonical_key k = canonical_key k') then [] else Values h k'.
Proof. unfold Values. rewrite lookup_Del. by case_decide. Qed.

Lemma Values_Add h k v k' :
  Values (Add h k v) k' =
    if decide (canonical_key k = canonical_key k') then Values h k ++ [v] else Values h k'.
Proof. unfold Values at 1, Add. rewrite lookup_insert. by case_decide. Qed.

Lemma lookup_foldl_Del ks h k :
  foldl Del h ks !! k = if decide (k ∈ canonical_key <$> ks) then None else h !! k.
Proof.
  revert h; induction ks as [|k' ks IH]; intros h; [done|]. cbn [foldl fmap list_fmap].
  rewrite IH, lookup_Del.
  destruct (decide (k ∈ canonical_key <$> ks)) as [H|H].
  - by rewrite decide_True by (by right).
  - destruct (decide (canonical_key k' = k)) as [<-|Hne].
    + by rewrite decide_True by left.
    + rewrite decide_False; [done|]. by intros [->|?]%elem_of_cons.
Qed.

(** Every key of the map is in canonical form, as [net/http] keeps it. *)
Definition canonical (h : Header) : Prop := forall k, is_Some (h !! k) -> canonical_key k = k.

Lemma clearHeaders_canonical h : canonical h -> clearHeaders h = ∅.
Proof.
  intros Hc. apply map_eq. intros k. unfold clearHeaders. rewrite lookup_foldl_Del, lookup_empty.
  case_decide as H; [done|]. destruct (h !! k) as [vs|] eqn:E; [|done].
  destruct H. apply list_elem_of_fmap. exists k. split; [symmetry; apply Hc; by rewrite E|].
  apply list_elem_of_fmap. exists (k, vs). split; [done|by apply elem_of_map_to_list].
Qed.

Lemma canonical_Del h k : canonical h -> canonical (Del h k).
Proof. intros Hc k'. rewrite lookup_Del. case_decide; [by intros []|apply Hc]. Qed.

Lemma canonical_insert h k v : canonical h -> canonical (<[canonical_key k := v]> h).
Proof.
  intros Hc k'. rewrite lookup_insert. case_decide; [subst; intros _; apply canonical_idemp|apply Hc].
Qed.

(** ** Managed trailers *)

Lemma elem_of_managed_set names k :
  k ∈ managed_set names <-> exists n, n ∈ names /\ k = canonical_key n.
Proof.
  unfold managed_set. rewrite elem_of_list_to_set, list_elem_of_fmap. naive_solver.
Qed.

Lemma strip_declared_fold managed names h kept h' kept' :
  foldl (strip_declared managed) (h, kept) names = (h', kept') ->
  (forall k, h' !! k = h !! k \/ (h' !! k = None /\ k ∈ managed))
  /\ (forall n, n ∈ kept' <-> n ∈ kept \/ exists n0, n0 ∈ names /\ n = trim_space n0
        /\ n <> "" /\ canonical_key n ∉ managed).
Proof.
  revert h kept; induction names as [|n0 names IH]; intros h kept; simpl.
  { intros [= <- <-]. split; [auto|]. intros n. split; [auto|].
    intros [?|(n0 & H & _)]; [done|by apply elem_of_nil in H]. }
  unfold strip_declared at 2. case_decide as H1; simpl.
  - intros [HA HB]%IH. split.
    + intros k. destruct (HA k) as [->|?]; [|by right]. rewrite lookup_Del.
      case_decide; [subst; by right|by left].
    + intros n. rewrite HB. setoid_rewrite elem_of_cons. naive_solver.
  - case_decide as H2.
    + intros [HA HB]%IH. split; [done|]. intros n. rewrite HB. setoid_rewrite elem_of_cons.
      naive_solver.
    + intros [HA HB]%IH. split; [done|]. intros n. rewrite HB. setoid_rewrite elem_of_cons.
      rewrite elem_of_app, list_elem_of_singleton. naive_solver.
Qed.

(** A rune below [0x80] is one byte. *)
Lemma decode_rune_ascii s r n :
  decode_rune s = (r, n) -> s <> "" -> (r < 0x80)%Z -> exists a s', s = String a s' /\ byte_val a = r /\ n = 1.
Proof.
  intros H Hs Hr. destruct s as [|a s]; [done|]. unfold decode_rune, cont_byte, RuneError in H.
  pose proof (byte_val_range a).
  repeat (case_match; simplify_eq/=); try (by eauto); try lia;
    repeat match goal with H : (_ && _) = true |- _ => apply andb_prop in H as [? ?] end;
    rewrite ?Z.leb_le, ?Z.ltb_lt, ?Z.ltb_ge, ?Z.eqb_eq, ?Z.eqb_neq, ?orb_false_iff in *; lia.
Qed.

Lemma runes_ascii_byte s r c :
  (r, c) ∈ runes s -> (0 <= r < 0x80)%Z -> contains_byte (ascii_of_Z r) s = true.
Proof.
  induction s as [|s r0 c0 rest E Hc Hd Hr IH] using runes_ind; [intros H; by apply elem_of_nil in H|].
  rewrite Hr. intros [H|H]%elem_of_cons Hlt.
  - simplify_eq. assert (Hs : c0 +:+ rest <> "") by (by destruct c0).
    destruct (decode_rune_ascii _ _ _ Hd Hs) as (a & s' & -> & Ha & _); [lia|].
    simpl. rewrite (ascii_of_Z_byte a) by done. by rewrite bool_decide_eq_true_2.
  - specialize (IH H Hlt). rewrite E. clear -IH. induction c0 as [|a c0 IHc]; [done|].
    rewrite sapp_cons. simpl. rewrite IHc. by rewrite orb_true_r.
Qed.

Lemma contains_not_token c s :
  contains_byte c s = true -> token_byte c = false -> all_bytes token_byte s = false.
Proof.
  intros H Hc. induction s as [|a s IH]; [done|]. simpl in *.
  destruct (decide (a = c)) as [->|Hne]; [by rewrite Hc|].
  rewrite bool_decide_eq_false_2 in H by done. simpl in H. rewrite IH by done. by rewrite andb_false_r.
Qed.

(** A key carrying a prefixed trailer is not a token, so it names itself. *)
Lemma trailer_prefix_canonical key : has_trailer_prefix key = true -> canonical_key key = key.
Proof.
  unfold has_trailer_prefix. rewrite bool_decide_eq_true. intros [rest E].
  assert (H58 : 58%Z ∈ lower_runes key).
  { rewrite E. apply elem_of_app. left. vm_compute. repeat constructor. }
  unfold lower_runes in H58. apply list_elem_of_fmap in H58 as ([r c] & Hr & Hin). simpl in Hr.
  unfold lower_rune in Hr. assert (r = 58%Z) as -> by (repeat case_match; lia).
  apply runes_ascii_byte in Hin; [|lia]. unfold canonical_key.
  by rewrite (contains_not_token _ _ Hin).
Qed.

Lemma blocked_canonical managed key : blocked managed key = true -> canonical_key key = key.
Proof. intros [H _]%andb_prop. by apply trailer_prefix_canonical. Qed.

Lemma strip_prefixed_fold managed ks h k :
  foldl (strip_prefixed managed) h ks !! k =
    if decide (k ∈ ks /\ blocked managed k = true) then None else h !! k.
Proof.
  revert h; induction ks as [|k0 ks IH]; intros h; cbn [foldl].
  { rewrite decide_False; [done|]. intros [H _]. by apply elem_of_nil in H. }
  assert (HE : strip_prefixed managed h k0 !! k =
    if decide (k = k0 /\ blocked managed k = true) then None else h !! k).
  { unfold strip_prefixed. destruct (blocked managed k0) eqn:E.
    - rewrite lookup_Del, (blocked_canonical _ _ E). repeat case_decide; naive_solver.
    - rewrite decide_False; [done|]. intros [-> ?]; congruence. }
  rewrite IH, HE. pose proof (elem_of_cons ks k k0). repeat case_decide; tauto.
Qed.

(** The header map after stripping. *)
Lemma strip_lookup h names k :
  let h' := stripManagedTrailerDeclarations h names in
  k <> "Trailer" ->
  (h' !! k = h !! k \/ (h' !! k = None /\ (k ∈ managed_set names \/ blocked (managed_set names) k = true)))
  /\ (blocked (managed_set names) k = true -> h' !! k = None).
Proof.
  intros h' Hk. unfold h', stripManagedTrailerDeclarations.
  destruct (foldl (strip_declared _) _ _) as [h1 kept] eqn:E.
  apply strip_declared_fold in E as [HA _].
  set (h2 := if decide (kept = []) then _ else _).
  assert (H2 : h2 !! k = h1 !! k).
  { unfold h2. assert (Del h1 "Trailer" !! k = h1 !! k).
    { rewrite lookup_Del, decide_False; [done|]. by vm_compute (canonical_key "Trailer"). }
    case_decide; [done|]. unfold Set_. by rewrite lookup_insert_ne by (by vm_compute (canonical_key "Trailer")). }
  rewrite strip_prefixed_fold, H2. split.
  - case_decide as Hb; [right; split; [done|right; apply Hb]|]. destruct (HA k) as [->|[-> ?]]; auto.
  - intros Hb. case_decide as Hd; [done|].
    destruct (h1 !! k) as [v|] eqn:E1; [|done]. destruct Hd. split; [|done].
    apply list_elem_of_fmap. exists (k, v). split; [done|]. by apply elem_of_map_to_list.
Qed.

(** What the Trailer header still announces. *)
Definition announced (h : Header) : list string :=
  trim_space <$> mjoin (split_byte "," <$> Values h "Trailer").

Lemma join_comma_split kept :
  Forall (fun n => sep_free "," n /\ trim_space n = n) kept -> kept <> [] ->
  trim_space <$> split_byte "," (join_with ", " kept) = kept.
Proof.
  induction kept as [|n [|n' kept] IH]; intros H Hne; [done|..].
  - inversion H as [|?? [Hs Ht] _]; subst. simpl. rewrite split_free by done. simpl. by rewrite Ht.
  - inversion H as [|?? [Hs Ht] Hr]; subst. specialize (IH Hr ltac:(done)).
    cbn [join_with] in *. change (n +:+ ", " +:+ ?x) with (n +:+ String "," (String " " x)).
    rewrite split_app_sep by done. cbn [fmap list_fmap]. rewrite Ht. f_equal.
    remember (match kept with [] => n' | _ :: _ => n' +:+ ", " +:+ join_with ", " kept end) as j eqn:Ej.
    replace (split_byte "," (String " " j)) with
      (match split_byte "," j with [] => [] | w :: ws => String " " w :: ws end).
    2:{ cbn [split_byte]. rewrite decide_False by done. by destruct (split_byte "," j). }
    destruct (split_byte "," j) as [|w ws]; [done|]. cbn [fmap list_fmap] in *.
    by rewrite trim_space_lead.
Qed.

Lemma strip_announced h names n :
  n ∈ announced (stripManagedTrailerDeclarations h names) ->
  canonical_key n ∉ managed_set names /\ n ∈ announced h.
Proof.
  unfold announced, stripManagedTrailerDeclarations.
  destruct (foldl (strip_declared _) _ _) as [h1 kept] eqn:E.
  apply strip_declared_fold in E as [_ HB].
  set (h2 := if decide (kept = []) then _ else _).
  assert (HT : forall ks, Values (foldl (strip_prefixed (managed_set names)) h2 ks) "Trailer"
    = Values h2 "Trailer").
  { intros ks. unfold Values. rewrite strip_prefixed_fold.
    rewrite decide_False; [done|]. intros [_ Hb]. apply andb_prop in Hb as [Hb _]. by vm_compute in Hb. }
  rewrite HT. unfold h2. case_decide as Hk.
  { rewrite Values_Del, decide_True by done. simpl. intros Hn. by apply elem_of_nil in Hn. }
  unfold Values at 1, Set_. rewrite lookup_insert_eq. simpl. rewrite app_nil_r.
  rewrite join_comma_split; [|..|done].
  - intros [Hn|(n0 & H0 & -> & _ & Hm)]%HB; [by apply elem_of_nil in Hn|]. split; [done|].
    apply list_elem_of_fmap. eauto.
  - apply Forall_forall. intros x [Hn|(n0 & H0 & -> & _)]%HB; [by apply elem_of_nil in Hn|].
    split; [|apply trim_space_idemp]. apply trim_space_sep_free.
    apply list_elem_of_join in H0 as (l & H0 & Hl). apply list_elem_of_fmap in Hl as (d & -> & _).
    pose proof (split_sep_free "," d) as Hf. rewrite Forall_forall in Hf. auto.
Qed.
