(* ===== verification/GoStrconv.v ===== *)
(** * Numbers and booleans in strings ([strconv]) *)

From stdpp Require Import base gmap strings list.
From Stdlib Require Import ZArith Lia Ascii.
From S2P Require Import Prelude GoStrings Crypto Http.

(** [strconv.ParseBool], [None] being an error. *)
Definition ParseBool (s : string) : option bool :=
  if decide (s ∈ ["1"; "t"; "T"; "TRUE"; "true"; "True"]) then Some true
  else if decide (s ∈ ["0"; "f"; "F"; "FALSE"; "false"; "False"]) then Some false
  else None.

(** A nonempty string of decimal digits, most significant first. *)
Fixpoint digits_go (acc : Z) (s : string) : option Z :=
  match s with
  | EmptyString => Some acc
  | String c s' => if is_digit c then digits_go (acc * 10 + (byte_val c - 48))%Z s' else None
  end.
Definition digits (s : string) : option Z := if decide (s = "") then None else digits_go 0 s.

(** [strconv.ParseInt(s, 10, 64)], [None] being an error (syntax or range). *)
Definition ParseInt (s : string) : option Z :=
  match s with
  | String "-" ds => n ← digits ds; if (n <=? 2 ^ 63)%Z then Some (- n)%Z else None
  | String "+" ds => n ← digits ds; if (n <? 2 ^ 63)%Z then Some n else None
  | ds => n ← digits ds; if (n <? 2 ^ 63)%Z then Some n else None
  end.

(** The value [strconv.ParseInt] returns whatever its error: 0 for a syntax
    error, the nearest [int64] for a number out of range. *)
Definition parse_value (s : string) : Z :=
  match s with
  | String "-" ds => Z.max (- 2 ^ 63) (- default 0%Z (digits ds))
  | String "+" ds => Z.min (2 ^ 63 - 1) (default 0%Z (digits ds))
  | ds => Z.min (2 ^ 63 - 1) (default 0%Z (digits ds))
  end.

Lemma parse_value_ParseInt s n : ParseInt s = Some n -> parse_value s = n.
Proof.
  assert (Hpos : forall ds, (m ← digits ds; if (m <? 2 ^ 63)%Z then Some m else None) = Some n ->
    Z.min (2 ^ 63 - 1) (default 0%Z (digits ds)) = n).
  { intros ds. destruct (digits ds) as [m|]; cbn; [|done].
    destruct (Z.ltb_spec m (2 ^ 63)); [|done]. intros [= ->]. lia. }
  assert (Hneg : forall ds, (m ← digits ds; if (m <=? 2 ^ 63)%Z then Some (- m)%Z else None) = Some n ->
    Z.max (- 2 ^ 63) (- default 0%Z (digits ds)) = n).
  { intros ds. destruct (digits ds) as [m|]; cbn; [|done].
    destruct (Z.leb_spec m (2 ^ 63)); [|done]. intros [= <-]. lia. }
  unfold ParseInt, parse_value. destruct s as [|[[] [] [] [] [] [] [] []] s]; auto.
Qed.

(** [strconv.FormatInt(n, 10)] *)
Fixpoint format_go (fuel : nat) (n : Z) (acc : string) : string :=
  let acc := String (ascii_of_Z (48 + n mod 10)) acc in
  match fuel with
  | S fuel' => if (n <? 10)%Z then acc else format_go fuel' (n / 10) acc
  | 0 => acc
  end.
(** An [int64] has at most 19 digits. *)
Definition format_digits (n : Z) : string := format_go 18 n "".
Definition FormatInt (n : Z) : string :=
  if (n <? 0)%Z then String "-" (format_digits (- n)) else format_digits n.

Lemma digit_byte d : (0 <= d < 10)%Z -> byte_val (ascii_of_Z (48 + d)) = (48 + d)%Z.
Proof.
  intros H. unfold byte_val, ascii_of_Z. rewrite N_ascii_embedding by lia. lia.
Qed.

Lemma digits_go_format fuel n acc a :
  (0 <= n < 10 ^ (Z.of_nat fuel + 1))%Z ->
  exists k, (0 <= k)%Z /\ digits_go a (format_go fuel n acc) = digits_go (a * 10 ^ k + n)%Z acc.
Proof.
  revert n acc. induction fuel as [|fuel IH]; intros n acc Hn.
  - exists 1%Z. split; [lia|]. cbn [format_go digits_go].
    assert (n mod 10 = n)%Z as Hm by (apply Z.mod_small; lia). unfold is_digit.
    rewrite Hm, digit_byte by lia.
    rewrite !(proj2 (Z.leb_le _ _)) by lia. simpl. f_equal. lia.
  - cbn [format_go]. pose proof (Z.mod_pos_bound n 10 ltac:(lia)) as Hm.
    assert (Hstep : forall a, digits_go a (String (ascii_of_Z (48 + n mod 10)) acc)
      = digits_go (a * 10 + n mod 10)%Z acc).
    { intros a'. cbn [digits_go]. unfold is_digit. rewrite digit_byte by lia.
      rewrite !(proj2 (Z.leb_le _ _)) by lia. simpl. f_equal. lia. }
    destruct (Z.ltb_spec n 10).
    + exists 1%Z. split; [lia|]. rewrite Hstep, Z.mod_small by lia. done.
    + destruct (IH (n / 10)%Z (String (ascii_of_Z (48 + n mod 10)) acc)) as (k & Hk & E).
      { split; [apply Z.div_pos; lia|]. apply Z.div_lt_upper_bound; [lia|].
        rewrite <-Z.pow_succ_r by lia. replace (Z.succ (Z.of_nat fuel + 1)) with (Z.of_nat (S fuel) + 1)%Z by lia.
        lia. }
      exists (k + 1)%Z. split; [lia|]. rewrite E, Hstep. f_equal.
      rewrite Z.pow_add_r by lia. pose proof (Z.div_mod n 10 ltac:(lia)). lia.
Qed.

Lemma format_go_nonempty fuel n acc : exists c s, format_go fuel n acc = String c s.
Proof.
  revert n acc; induction fuel as [|fuel IH]; intros n acc; cbn [format_go]; [eauto|].
  destruct (n <? 10)%Z; eauto.
Qed.

(** The first byte of a formatted natural number is a digit. *)
Lemma format_go_digit fuel n acc :
  exists c s, format_go fuel n acc = String c s /\ is_digit c = true.
Proof.
  revert n acc; induction fuel as [|fuel IH]; intros n acc; cbn [format_go];
    pose proof (Z.mod_pos_bound n 10 ltac:(lia)).
  all: assert (Hd : is_digit (ascii_of_Z (48 + n mod 10)) = true)
    by (unfold is_digit; rewrite digit_byte by lia; rewrite !(proj2 (Z.leb_le _ _)) by lia; done).
  - eauto.
  - destruct (n <? 10)%Z; eauto.
Qed.

Lemma digits_format n : (0 <= n < 10 ^ 19)%Z -> digits (format_digits n) = Some n.
Proof.
  intros Hn. unfold digits, format_digits.
  destruct (digits_go_format 18 n "" 0) as (k & _ & E); [lia|].
  destruct (format_go_nonempty 18 n "") as (c & s & Ec). rewrite decide_False by (by rewrite Ec).
  by rewrite E.
Qed.

(** Formatting an [int64] and parsing it back. *)
Lemma ParseInt_FormatInt n : int64 n -> ParseInt (FormatInt n) = Some n.
Proof.
  unfold int64, FormatInt. intros Hn. destruct (Z.ltb_spec n 0).
  - cbn [ParseInt]. rewrite digits_format by lia. simpl. rewrite (proj2 (Z.leb_le _ _)) by lia.
    f_equal. lia.
  - assert (HP : ParseInt (format_digits n) = (m ← digits (format_digits n); if (m <? 2 ^ 63)%Z then Some m else None)).
    { destruct (format_go_digit 18 n "") as (c & s & Ec & Hc). unfold format_digits. rewrite Ec.
      unfold is_digit in Hc. destruct c as [[] [] [] [] [] [] [] []]; try done. }
    rewrite HP, digits_format by lia. simpl. by rewrite (proj2 (Z.ltb_lt _ _)) by lia.
Qed.
