(* ===== verification/GoDuration.v ===== *)
(** * Durations and numbers typed by a user ([time.ParseDuration], [fmt.Sscanf])

    The parts of Go's library the configuration parser leans on.  Errors are
    [None]; their messages are not modelled. *)

From stdpp Require Import base strings list.
From Stdlib Require Import ZArith Lia Ascii.
From S2P Require Import Prelude GoStrings GoTime Crypto Http GoStrconv.
Local Open Scope Z_scope.

(** ** [time.ParseDuration] *)

(** [leadingInt]: the leading digits as a [uint64] of at most [2^63]. *)
Fixpoint leadingInt (x : Z) (s : string) : option (Z * string) :=
  match s with
  | String c s' =>
      if is_digit c then
        if 2 ^ 63 / 10 <? x then None
        else let x := x * 10 + (byte_val c - 48) in
             if 2 ^ 63 <? x then None else leadingInt x s'
      else Some (x, s)
  | EmptyString => Some (x, s)
  end.

(** [leadingFraction]: the digits that fit, the scale, and the rest.  The scale
    is a [float64]: a power of ten rounded to 53 bits at each step. *)
Fixpoint leadingFraction (x scale : Z) (overflow : bool) (s : string) : Z * Z * string :=
  match s with
  | String c s' =>
      if is_digit c then
        if overflow || ((2 ^ 63 - 1) / 10 <? x) then leadingFraction x scale true s'
        else let y := x * 10 + (byte_val c - 48) in
             if 2 ^ 63 <? y then leadingFraction x scale true s'
             else leadingFraction y (round53 (scale * 10)) false s'
      else (x, scale, s)
  | EmptyString => (x, scale, s)
  end.

(** The bytes of a unit, up to the next digit or period. *)
Fixpoint take_unit (s : string) : string * string :=
  match s with
  | String c s' =>
      if is_digit c || bool_decide (c = "."%char) then ("", s)
      else let '(u, rest) := take_unit s' in (String c u, rest)
  | EmptyString => ("", s)
  end.

Definition unitMap (u : string) : option Z :=
  if decide (u = "ns") then Some 1
  else if decide (u = "us" \/ u = "µs" \/ u = "μs") then Some 1000
  else if decide (u = "ms") then Some Millisecond
  else if decide (u = "s") then Some Second
  else if decide (u = "m") then Some (60 * Second)
  else if decide (u = "h") then Some (3600 * Second)
  else None.

(** [a / b] as a [float64] [m / 2^k], for positive [a] and [b]. *)
Definition float_div (a b : Z) : Z * Z :=
  let k := 53 + Z.log2 b - Z.log2 a in
  let k := if Z.log2 (a * 2 ^ k / b) =? 53 then k - 1 else k in
  (rne_div (a * 2 ^ k) b, k).
(** [uint64(float64(f) * (float64(unit) / scale))].  No result below [2^-1022]
    reaches 1, so that exponents need no bound. *)
Definition fraction (f unit scale : Z) : Z :=
  let '(m, k) := float_div unit scale in round53 (round53 f * m) / 2 ^ k.

(** One pass of the loop: a number, its unit, and the rest. *)
Definition duration_item (s : string) : option (Z * string) :=
  match s with
  | EmptyString => None
  | String c _ =>
      if negb (bool_decide (c = "."%char) || is_digit c) then None
      else
        '(v, s1) ← leadingInt 0 s;
        let pre := negb (bool_decide (s1 = s)) in
        let '(f, scale, s2, post) :=
          match s1 with
          | String "." s1' =>
              let '(f, scale, s2) := leadingFraction 0 1 false s1' in
              (f, scale, s2, negb (bool_decide (s2 = s1')))
          | _ => (0, 1, s1, false)
          end in
        if negb pre && negb post then None
        else
          let '(u, rest) := take_unit s2 in
          unit ← unitMap u;
          if 2 ^ 63 / unit <? v then None
          else
            let v := v * unit + (if 0 <? f then fraction f unit scale else 0) in
            if 2 ^ 63 <? v then None else Some (v, rest)
  end.

(** [d += v] on [uint64] wraps: twice [2^63] is 0. *)
Fixpoint duration_items (fuel : nat) (d : Z) (s : string) : option Z :=
  if decide (s = "") then Some d
  else match fuel with
       | 0%nat => None
       | S fuel' =>
           '(v, rest) ← duration_item s;
           let d := (d + v) mod 2 ^ 64 in
           if 2 ^ 63 <? d then None else duration_items fuel' d rest
       end.

Definition ParseDuration (orig : string) : option Z :=
  let '(neg, s) := match orig with
                   | String "-" s => (true, s)
                   | String "+" s => (false, s)
                   | s => (false, s)
                   end in
  if decide (s = "0") then Some 0
  else if decide (s = "") then None
  else
    d ← duration_items (String.length s) 0 s;
    if (neg : bool) then Some (wrap64 (- d))
    else if 2 ^ 63 - 1 <? d then None else Some d.

(** ** [fmt.Sscanf(s, "%d", &n)] *)

(** [SkipSpace]: a newline is an error. *)
Fixpoint skip_space (rs : list (Z * string)) : option (list (Z * string)) :=
  match rs with
  | (r, c) :: rs' =>
      if r =? 10 then None else if is_space r then skip_space rs' else Some rs
  | [] => Some []
  end.

Fixpoint scan_digits (rs : list (Z * string)) : string :=
  match rs with
  | (r, c) :: rs' => if (48 <=? r) && (r <=? 57) then c +:+ scan_digits rs' else ""
  | [] => ""
  end.

(** Input after the digits is ignored. *)
Definition Sscanf_d (s : string) : option Z :=
  rs ← skip_space (runes s);
  let '(sign, rs) := match rs with
                     | (r, c) :: rs' => if (r =? 43) || (r =? 45) then (c, rs') else ("", rs)
                     | [] => ("", [])
                     end in
  ParseInt (sign +:+ scan_digits rs).

(** ** Lemmas *)

Lemma leadingInt_rest x s y s' : leadingInt x s = Some (y, s') -> (String.length s' <= String.length s)%nat.
Proof.
  revert x; induction s as [|c s IH]; intros x; cbn [leadingInt String.length]; [by intros [= _ <-]|].
  destruct (is_digit c); [|intros [= _ <-]; simpl; lia].
  destruct (2 ^ 63 / 10 <? x); [done|]. cbv zeta. destruct (2 ^ 63 <? _); [done|].
  intros E%IH. lia.
Qed.

Lemma leadingFraction_rest x sc o s : (String.length (leadingFraction x sc o s).2 <= String.length s)%nat.
Proof.
  revert x sc o; induction s as [|c s IH]; intros x sc o; cbn [leadingFraction String.length]; [done|].
  destruct (is_digit c); [|simpl; lia]. cbv zeta.
  destruct (o || _); [|destruct (2 ^ 63 <? _)]; (etransitivity; [apply IH|lia]).
Qed.

Lemma take_unit_rest s :
  String.length s = (String.length (take_unit s).1 + String.length (take_unit s).2)%nat.
Proof.
  induction s as [|c s IH]; cbn [take_unit]; [done|]. destruct (is_digit c || _); [done|].
  destruct (take_unit s). simpl in *. lia.
Qed.

(** Every pass of the loop consumes a unit, so that the fuel is enough. *)
Lemma duration_item_rest s v rest :
  duration_item s = Some (v, rest) -> (String.length rest < String.length s)%nat.
Proof.
  unfold duration_item. destruct s as [|c s0]; [done|]. set (s := String c s0).
  destruct (negb _); [done|]. destruct (leadingInt 0 s) as [[x s1]|] eqn:E1; [|done].
  apply leadingInt_rest in E1. cbn [mbind option_bind].
  set (q := match s1 with String "." _ => _ | _ => _ end).
  assert (Hq : (String.length q.1.2 <= String.length s1)%nat).
  { unfold q. destruct s1 as [|[[] [] [] [] [] [] [] []] s1]; simpl; try lia.
    pose proof (leadingFraction_rest 0 1 false s1).
    destruct (leadingFraction 0 1 false s1) as [[f sc] s2]. simpl in *. lia. }
  destruct q as [[[f sc] s2] post]. simpl in Hq. destruct (negb _ && _); [done|].
  pose proof (take_unit_rest s2) as Ht. destruct (take_unit s2) as [u r] eqn:Eu.
  assert (Hu : unitMap u <> None -> u <> "") by (intros H ->; by apply H).
  cbv beta iota zeta.
  destruct (unitMap u) as [unit|] eqn:Em; cbn [mbind option_bind]; [|done].
  destruct (2 ^ 63 / unit <? x); [done|]. cbv zeta. destruct (2 ^ 63 <? _); [done|].
  intros [= _ <-]. destruct u; [by destruct Hu|]. simpl in Ht. lia.
Qed.

Lemma duration_items_fuel n d s :
  (String.length s <= n)%nat -> duration_items n d s = duration_items (String.length s) d s.
Proof.
  remember (String.length s) as l eqn:El. revert n d s El.
  induction (lt_wf l) as [l _ IH]. intros n d s El Hn. subst l.
  destruct n as [|n].
  { destruct s; [done|simpl in Hn; lia]. }
  destruct s as [|c s0] eqn:Es; [done|]. rewrite <-Es in *.
  assert (String.length s = S (String.length s0)) as Hl by by rewrite Es. rewrite Hl.
  cbn [duration_items]. rewrite !decide_False by (by rewrite Es).
  destruct (duration_item s) as [[v rest]|] eqn:Ei; [|done]. cbn [mbind option_bind].
  apply duration_item_rest in Ei. destruct (2 ^ 63 <? _); [done|].
  rewrite (IH (String.length rest) ltac:(lia) n) by (try done; lia).
  by rewrite (IH (String.length rest) ltac:(lia) (String.length s0)) by (try done; lia).
Qed.

(** Digits are read back. *)
Lemma digits_go_le x s n : 0 <= x -> digits_go x s = Some n -> x <= n.
Proof.
  revert x; induction s as [|c s IH]; intros x Hx; cbn [digits_go]; [intros [= ->]; lia|].
  destruct (is_digit c) eqn:Hc; [|done]. unfold is_digit in Hc.
  apply andb_true_iff in Hc as [H1%Z.leb_le H2%Z.leb_le].
  intros E%IH; lia.
Qed.

Definition ends_digits (t : string) : bool :=
  match t with String c _ => negb (is_digit c) | EmptyString => true end.

Lemma leadingInt_digits x s t n :
  0 <= x -> n <= 2 ^ 63 -> digits_go x s = Some n -> ends_digits t = true ->
  leadingInt x (s +:+ t) = Some (n, t).
Proof.
  intros Hx Hn E Ht. revert x Hx E. induction s as [|c s IH]; intros x Hx; cbn [digits_go].
  - intros [= ->]. destruct t as [|c t]; [done|]. cbn [ends_digits] in Ht.
    change (EmptyString +:+ String c t) with (String c t). cbn [leadingInt]. by destruct (is_digit c).
  - change (String c s +:+ t) with (String c (s +:+ t)). cbn [leadingInt].
    destruct (is_digit c) eqn:Hc; [|done]. intros E. unfold is_digit in Hc.
    apply andb_true_iff in Hc as [H1%Z.leb_le H2%Z.leb_le].
    pose proof (digits_go_le (x * 10 + (byte_val c - 48)) _ _ ltac:(lia) E) as Hle.
    assert (2 ^ 63 / 10 <? x = false) as -> by (apply Z.ltb_ge, Z.div_le_lower_bound; lia).
    assert (2 ^ 63 <? x * 10 + (byte_val c - 48) = false) as -> by (apply Z.ltb_ge; lia).
    apply IH; [lia|done].
Qed.

Lemma format_digits_spec n :
  0 <= n < 10 ^ 19 ->
  exists c s, format_digits n = String c s /\ is_digit c = true /\ digits_go 0 (format_digits n) = Some n.
Proof.
  intros Hn. pose proof (digits_format n Hn) as E. unfold digits in E.
  destruct (format_go_digit 18 n "") as (c & s & Ec & Hc). exists c, s.
  unfold format_digits in *. rewrite Ec in E |- *. by rewrite decide_False in E.
Qed.

Lemma duration_items_ns n :
  0 <= n <= 2 ^ 63 -> duration_items (String.length (format_digits n +:+ "ns")) 0 (format_digits n +:+ "ns") = Some n.
Proof.
  intros Hn. destruct (format_digits_spec n) as (c & s & Ec & Hc & Ed); [lia|].
  rewrite Ec. change (String c s +:+ "ns") with (String c (s +:+ "ns")).
  cbn [String.length duration_items]. rewrite decide_False by done.
  change (String c (s +:+ "ns")) with (String c s +:+ "ns"). rewrite <-Ec.
  assert (duration_item (format_digits n +:+ "ns") = Some (n, "")) as ->.
  { rewrite Ec. unfold duration_item. change (String c s +:+ "ns") with (String c (s +:+ "ns")) at 1.
    cbv iota beta. rewrite Hc, orb_true_r. cbn [negb]. rewrite <-Ec.
    rewrite (leadingInt_digits 0 _ "ns" n) by (done || lia). cbn [mbind option_bind].
    rewrite Ec. rewrite (bool_decide_eq_false_2 ("ns" = _)).
    2: { change (String c s +:+ "ns") with (String c (s +:+ "ns")). intros [= <- _]. by vm_compute in Hc. }
    change (take_unit "ns") with ("ns", ""). cbn [negb andb]. cbv iota beta.
    change (unitMap "ns") with (Some 1). cbn [mbind option_bind]. rewrite Z.div_1_r.
    change (0 <? 0) with false. cbv iota zeta.
    rewrite !(proj2 (Z.ltb_ge _ _)) by lia. do 2 f_equal. lia. }
  cbn [mbind option_bind]. rewrite Z.add_0_l, Z.mod_small by lia. rewrite (proj2 (Z.ltb_ge _ _)) by lia.
  by destruct (String.length (s +:+ "ns")).
Qed.

Lemma ParseDuration_ns n : int64 n -> ParseDuration (FormatInt n +:+ "ns") = Some n.
Proof.
  unfold int64, FormatInt. intros Hn.
  assert (Hne : forall m, 0 <= m < 10 ^ 19 -> format_digits m +:+ "ns" <> "0" /\ format_digits m +:+ "ns" <> "").
  { intros m Hm. destruct (format_digits_spec m Hm) as (c & s & -> & _). split; [|done].
    destruct s; cbn; intros [= ]. }
  destruct (Z.ltb_spec n 0).
  - unfold ParseDuration. change (String "-" (format_digits (- n)) +:+ "ns") with (String "-" (format_digits (- n) +:+ "ns")).
    cbv iota beta. rewrite !decide_False by (apply Hne; lia).
    rewrite duration_items_ns by lia. cbn [mbind option_bind]. f_equal. rewrite Z.opp_involutive.
    apply wrap64_id. unfold int64. lia.
  - assert (HP : ParseDuration (format_digits n +:+ "ns")
        = (d ← duration_items (String.length (format_digits n +:+ "ns")) 0 (format_digits n +:+ "ns");
           if 2 ^ 63 - 1 <? d then None else Some d)).
    { destruct (Hne n) as [H0 H1]; [lia|].
      destruct (format_digits_spec n) as (c & s & Ec & Hc & _); [lia|]. rewrite Ec in *.
      change (String c s +:+ "ns") with (String c (s +:+ "ns")) in *. revert H0 H1. generalize (s +:+ "ns").
      intros t H0 H1. unfold is_digit in Hc. unfold ParseDuration.
      destruct c as [[] [] [] [] [] [] [] []]; try done; cbv iota beta;
        by rewrite !decide_False by done. }
    rewrite HP, duration_items_ns by lia. cbn [mbind option_bind].
    by rewrite (proj2 (Z.ltb_ge _ _)) by lia.
Qed.

(** A number printed in decimal is scanned back. *)
Lemma is_digit_range c : is_digit c = true -> 48 <= byte_val c <= 57.
Proof. unfold is_digit. intros [H1%Z.leb_le H2%Z.leb_le]%andb_true_iff. lia. Qed.

Lemma scan_digits_go x s n : digits_go x s = Some n -> scan_digits (runes s) = s.
Proof.
  revert x; induction s as [|c s IH]; intros x; cbn [digits_go]; [done|].
  destruct (is_digit c) eqn:Hc; [|done]. intros E. pose proof (is_digit_range c Hc).
  rewrite runes_ascii_cons by lia. cbn [scan_digits]. rewrite !(proj2 (Z.leb_le _ _)) by lia.
  cbn [andb]. by rewrite (IH _ E).
Qed.

Lemma Sscanf_d_FormatInt n : int64 n -> Sscanf_d (FormatInt n) = Some n.
Proof.
  intros Hn. pose proof (ParseInt_FormatInt n Hn) as HP. unfold int64 in Hn.
  revert HP. unfold FormatInt. destruct (Z.ltb_spec n 0).
  - destruct (format_digits_spec (- n)) as (c & s & _ & _ & Ed); [lia|].
    unfold Sscanf_d. rewrite runes_ascii_cons by done.
    change (byte_val "-") with 45. cbn [skip_space]. change (45 =? 10) with false.
    change (is_space 45) with false. cbn [mbind option_bind]. change ((45 =? 43) || (45 =? 45)) with true.
    cbv iota beta. by rewrite (scan_digits_go _ _ _ Ed).
  - destruct (format_digits_spec n) as (c & s & Ec & Hc & Ed); [lia|].
    pose proof (scan_digits_go _ _ _ Ed) as Hs. unfold Sscanf_d.
    pose proof (is_digit_range c Hc). rewrite Ec in Hs |- *. rewrite runes_ascii_cons in Hs |- * by lia.
    cbn [skip_space]. rewrite (proj2 (Z.eqb_neq _ 10)) by lia.
    assert (is_space (byte_val c) = false) as ->.
    { unfold is_digit in Hc. by destruct c as [[] [] [] [] [] [] [] []]. }
    cbn [mbind option_bind]. rewrite !(proj2 (Z.eqb_neq _ _)) by lia. cbn [orb]. cbv iota beta.
    by rewrite Hs.
Qed.
