(* ===== verification/Cookies.v ===== *)
(** * Cookies

    Cookie parsing and printing as [net/http] does them, and the handler's
    functions on cookies: the rewriting of the upstream [Cookie] header, the
    proxy cookie, and the recognition of deletions. *)

From stdpp Require Import base gmap strings list.
From Stdlib Require Import ZArith Lia Ascii.
From S2P Require Import Prelude GoStrings Crypto Http GoStrconv Filter.

(** ** [net/http] *)

Definition dquote : ascii := ascii_of_Z 34.
Definition backslash : ascii := ascii_of_Z 92.

(** [textproto.TrimString]: ASCII space, tab, newline, carriage return. *)
Definition ascii_space (c : ascii) : bool :=
  ((byte_val c =? 32) || (byte_val c =? 9) || (byte_val c =? 10) || (byte_val c =? 13))%Z.
Fixpoint trim_left (s : string) : string :=
  match s with
  | String c s' => if ascii_space c then trim_left s' else s
  | EmptyString => ""
  end.
Fixpoint trim_right (s : string) : string :=
  match s with
  | String c s' =>
      let r := trim_right s' in
      if ascii_space c && bool_decide (r = "") then "" else String c r
  | EmptyString => ""
  end.
Definition TrimString (s : string) : string := trim_right (trim_left s).

Definition validCookieValueByte (c : ascii) : bool :=
  ((0x20 <=? byte_val c) && (byte_val c <? 0x7f))%Z
  && negb (bool_decide (c = dquote)) && negb (bool_decide (c = ";"%char))
  && negb (bool_decide (c = backslash)).

(** The string without its surrounding double quotes, when it has both. *)
Fixpoint strip_last_quote (s : string) : option string :=
  match s with
  | EmptyString => None
  | String c EmptyString => if decide (c = dquote) then Some "" else None
  | String c s' => String c <$> strip_last_quote s'
  end.
Definition unquote (s : string) : string :=
  match s with
  | String c s' => if decide (c = dquote) then default s (strip_last_quote s') else s
  | EmptyString => ""
  end.

(** [parseCookieValue(raw, true)] *)
Definition parseCookieValue (raw : string) : option string :=
  let raw := unquote raw in
  if all_bytes validCookieValueByte raw then Some raw else None.

Record Cookie := MkCookie { Name : string; Value : string }.

(** One part of a [Cookie] header line; [filter] is [""] for every name. *)
Definition parse_part (filter part : string) : list Cookie :=
  let part := TrimString part in
  if decide (part = "") then []
  else
    let '(name, val, _) := cut "=" part in
    let name := TrimString name in
    if negb (is_token name) then []
    else if decide (filter <> "" /\ filter <> name) then []
    else match parseCookieValue val with Some v => [MkCookie name v] | None => [] end.

(** [cookieNumWithinMax], with its default limit. *)
Definition cookie_count (lines : list string) : nat :=
  foldr Nat.add 0 ((fun line => length (split_byte ";" line)) <$> lines).
Definition cookie_max : nat := 3000.

(** [readCookies] *)
Definition readCookies (h : Header) (filter : string) : list Cookie :=
  let lines := default [] (h !! "Cookie") in
  if cookie_max <? cookie_count lines then []
  else mjoin ((fun line => mjoin (parse_part filter <$> split_byte ";" (TrimString line))) <$> lines).

(** [r.Cookie(name)], for a nonempty name. *)
Definition RequestCookie (h : Header) (name : string) : option Cookie :=
  if decide (name = "") then None else head (readCookies h name).

(** ** [http.ParseSetCookie]

    The fields the handler reads: name, value, and expiry.  [date] is
    [time.Parse] on the two cookie date layouts, which depends on the local
    time zone; [None] is a date that does not parse, [Some t] the instant in
    nanoseconds (the zero time counts as [None]). *)
Section SetCookie.
Context (date : string -> option Z).

Record SetCookie := MkSetCookie { sc_Name : string; sc_Value : string; sc_Expires : option Z }.

(** ASCII lower case; a name with other bytes matches no attribute. *)
Fixpoint ascii_lower (s : string) : string :=
  match s with String c s' => String (to_lower c) (ascii_lower s') | EmptyString => "" end.

(** The expiry after one attribute. *)
Definition parse_attr (expires : option Z) (part : string) : option Z :=
  let part := TrimString part in
  if decide (part = "") then expires
  else
    let '(attr, val, _) := cut "=" part in
    if negb (all_bytes validCookieValueByte val) then expires
    else if decide (ascii_lower attr = "expires") then date val else expires.

Definition ParseSetCookie (line : string) : option SetCookie :=
  match split_byte ";" (TrimString line) with
  | [] => None
  | part0 :: attrs =>
      let part0 := TrimString part0 in
      let '(name, value, found) := cut "=" part0 in
      if negb found then None
      else
        let name := TrimString name in
        if negb (is_token name) then None
        else match parseCookieValue value with
             | None => None
             | Some v => Some (MkSetCookie name v (foldl parse_attr None attrs))
             end
  end.
End SetCookie.

(** ** [Cookie.String] *)

Fixpoint keep_bytes (P : ascii -> bool) (s : string) : string :=
  match s with
  | EmptyString => ""
  | String c s' => if P c then String c (keep_bytes P s') else keep_bytes P s'
  end.
Definition sanitizeCookieValue (v : string) : string :=
  let v := keep_bytes validCookieValueByte v in
  if contains_byte " " v || contains_byte "," v then String dquote (v +:+ String dquote "") else v.
Definition validCookiePathByte (c : ascii) : bool :=
  ((0x20 <=? byte_val c) && (byte_val c <? 0x7f))%Z && negb (bool_decide (c = ";"%char)).

Inductive SameSiteMode := SameSiteStrictMode | SameSiteNoneMode | SameSiteLaxMode.

(** The attributes the handler sets, in the order [Cookie.String] prints them;
    [expired] stands for [Expires: time.Unix(1,0)] with [MaxAge: -1]. *)
Definition cookie_string (name value path : string) (expired secure : bool) (ss : SameSiteMode) :
    string :=
  if negb (is_token name) then ""
  else
    name +:+ "=" +:+ sanitizeCookieValue value
    +:+ (if decide (path = "") then "" else "; Path=" +:+ keep_bytes validCookiePathByte path)
    +:+ (if expired then "; Expires=Thu, 01 Jan 1970 00:00:01 GMT; Max-Age=0" else "")
    +:+ "; HttpOnly" +:+ (if secure then "; Secure" else "")
    +:+ match ss with
        | SameSiteNoneMode => "; SameSite=None"
        | SameSiteLaxMode => "; SameSite=Lax"
        | SameSiteStrictMode => "; SameSite=Strict"
        end.

(** ** The handler's cookie functions *)

Record CookieConfig := MkCookieConfig {
  cc_Name : string; cc_Path : string; cc_SameSite : string; cc_Insecure : bool }.

Definition proxyCookiePath (c : CookieConfig) : string :=
  if decide (cc_Path c = "") then "/" else cc_Path c.

(** The switch on [strings.ToLower(h.Cookie.SameSite)]. *)
Definition same_site (c : CookieConfig) : SameSiteMode :=
  let s := lower_runes (cc_SameSite c) in
  if decide (s = lower_runes "strict") then SameSiteStrictMode
  else if decide (s = lower_runes "none") then SameSiteNoneMode
  else SameSiteLaxMode.

Definition buildProxyCookie (c : CookieConfig) (value : string) : string :=
  cookie_string (cc_Name c) value (proxyCookiePath c) false (negb (cc_Insecure c)) (same_site c).
Definition buildExpiredProxyCookie (c : CookieConfig) : string :=
  cookie_string (cc_Name c) "" (proxyCookiePath c) true (negb (cc_Insecure c)) (same_site c).

(** The client cookies kept for the backend. *)
Definition keeps_client_cookie (name : string) (f : Filter.Filter) (c : Cookie) : bool :=
  negb (bool_decide (Name c = name)) && negb (bool_decide (Filter.Decide f (Name c) = Filter.Store)).

(** [prepareUpstreamCookies]; [cached] is the session's cookie map in the order
    the range visits it. *)
Definition prepareUpstreamCookies (name : string) (f : Filter.Filter) (h : Header)
    (cached : list (string * string)) : Header :=
  let kept :=
    ((fun c => Name c +:+ "=" +:+ Value c)
       <$> filter (fun c => Is_true (keeps_client_cookie name f c)) (readCookies h ""))
    ++ ((fun nv => nv.1 +:+ "=" +:+ nv.2) <$> cached) in
  if decide (kept = []) then Del h "Cookie" else Set_ h "Cookie" (join_with "; " kept).

(** [strings.EqualFold] with an ASCII constant: the runes that fold to ASCII. *)
Definition fold_rune (r : Z) : Z :=
  (if (65 <=? r) && (r <=? 90) then r + 32
   else if r =? 0x17F then 0x73 else if r =? 0x212A then 0x6B else r)%Z.
Definition fold_runes (s : string) : list Z := (fun rc => fold_rune rc.1) <$> runes s.
Definition EqualFold (s t : string) : bool := bool_decide (fold_runes s = fold_runes t).

(** One attribute of [maxAgeDeletes]: the decision so far. *)
Definition max_age_part (acc : option bool) (part : string) : option bool :=
  let '(name, value, found) := cut "=" part in
  if negb found || negb (EqualFold (trim_space name) "Max-Age") then acc
  else
    let value := trim_space value in
    let negative := has_prefix value "-" in
    let digits := if negative then drop_bytes 1 value else value in
    if decide (digits = "") then acc
    else if negb (forallb (fun rc => (48 <=? rc.1) && (rc.1 <=? 57))%Z (runes digits)) then acc
    else Some (negative || forallb (fun rc => rc.1 =? 48)%Z (runes digits)).

(** [maxAgeDeletes]: [None] when no attribute is valid. *)
Definition maxAgeDeletes (raw : string) : option bool :=
  foldl max_age_part None (tail (split_byte ";" raw)).

(** [cookieDeletesNow]; [expires] is the parsed expiry, if any. *)
Definition cookieDeletesNow (raw : string) (expires : option Z) (now : Z) : bool :=
  match maxAgeDeletes raw with
  | Some deletes => deletes
  | None => match expires with Some t => (t <=? now)%Z | None => false end
  end.
