(* ===== verification/CookieThms.v ===== *)
(** * What the cookie rewriting guarantees *)

From stdpp Require Import base gmap strings list.
From Stdlib Require Import ZArith Lia Ascii.
From S2P Require Import Prelude GoStrings Crypto Http HttpProps GoStrconv Filter Cookies.

(** ** Trimming ASCII spaces *)

Lemma trim_right_idemp s : trim_right (trim_right s) = trim_right s.
Proof.
  induction s as [|c s IH]; [done|]. cbn [trim_right].
  destruct (ascii_space c && bool_decide (trim_right s = "")) eqn:E; [done|].
  cbn [trim_right]. by rewrite IH, E.
Qed.

Lemma trim_left_right s : trim_left (trim_right s) = trim_right (trim_left s).
Proof.
  induction s as [|c s IH]; [done|]. cbn [trim_right trim_left].
  destruct (ascii_space c) eqn:Ec; cbn [andb].
  - case_bool_decide as Hr.
    + rewrite <-IH, Hr. done.
    + cbn [trim_left]. by rewrite Ec.
  - cbn [trim_left trim_right]. by rewrite Ec.
Qed.

Lemma TrimString_trim_right s : TrimString (trim_right s) = TrimString s.
Proof. unfold TrimString. by rewrite trim_left_right, trim_right_idemp. Qed.

Lemma TrimString_space s : TrimString (String " " s) = TrimString s.
Proof. done. Qed.

(** Strings without spaces. *)
Lemma trim_right_nonspace s : all_bytes (fun c => negb (ascii_space c)) s = true -> trim_right s = s.
Proof.
  induction s as [|c s IH]; [done|]. cbn [all_bytes trim_right].
  intros [Hc%negb_true_iff Hs]%andb_prop. by rewrite Hc, IH.
Qed.

Lemma trim_left_nonspace c s : ascii_space c = false -> trim_left (String c s) = String c s.
Proof. cbn [trim_left]. by intros ->. Qed.

Lemma trim_right_app s c t :
  ascii_space c = false -> trim_right (s +:+ String c t) = s +:+ String c (trim_right t).
Proof.
  intros Hc. induction s as [|a s IH]; rewrite ?sapp_nil_l, ?sapp_cons; cbn [trim_right].
  - by rewrite Hc.
  - rewrite IH. rewrite bool_decide_eq_false_2; [by rewrite andb_false_r|].
    by destruct s; rewrite ?sapp_nil_l, ?sapp_cons.
Qed.

Lemma all_bytes_impl (P Q : ascii -> bool) s :
  (forall c, P c = true -> Q c = true) -> all_bytes P s = true -> all_bytes Q s = true.
Proof.
  intros H. induction s as [|c s IH]; [done|]. cbn [all_bytes]. intros [? ?]%andb_prop.
  by rewrite H, IH.
Qed.

Lemma implb_ascii (P Q : ascii -> bool) :
  forallb (fun z => bool_decide (implb (P (ascii_of_Z z)) (Q (ascii_of_Z z)) = true)) (below 256) = true ->
  forall c, P c = true -> Q c = true.
Proof.
  intros H c HP. pose proof (forall_ascii_eq (fun c => implb (P c) (Q c)) (fun _ => true) H c) as E.
  simpl in E. by rewrite HP in E.
Qed.

Lemma token_nonspace c : token_byte c = true -> negb (ascii_space c) = true.
Proof. revert c. apply implb_ascii. vm_compute. reflexivity. Qed.
Lemma token_not_eq c : token_byte c = true -> negb (bool_decide (c = "="%char)) = true.
Proof. revert c. apply implb_ascii. vm_compute. reflexivity. Qed.
Lemma token_not_semi c : token_byte c = true -> negb (bool_decide (c = ";"%char)) = true.
Proof. revert c. apply implb_ascii. vm_compute. reflexivity. Qed.
Lemma value_not_semi c : validCookieValueByte c = true -> negb (bool_decide (c = ";"%char)) = true.
Proof. revert c. apply implb_ascii. vm_compute. reflexivity. Qed.

Lemma all_bytes_sep_free sep s :
  all_bytes (fun c => negb (bool_decide (c = sep))) s = true -> sep_free sep s.
Proof.
  induction s as [|c s IH]; [done|]. cbn [all_bytes]. intros [Hc%negb_true_iff Hs]%andb_prop.
  apply sep_free_cons. split; [by apply bool_decide_eq_false in Hc|auto].
Qed.

Lemma is_token_spec s : is_token s = true -> exists c s', s = String c s' /\ all_bytes token_byte s = true.
Proof.
  unfold is_token. intros [Hne%negb_true_iff Ht]%andb_prop.
  destruct s as [|c s]; [done|]. eauto.
Qed.

Lemma token_TrimString s : is_token s = true -> TrimString s = s.
Proof.
  intros (c & s' & -> & Ht)%is_token_spec. unfold TrimString.
  assert (HN : all_bytes (fun c => negb (ascii_space c)) (String c s') = true)
    by (by eapply all_bytes_impl; [apply token_nonspace|]).
  rewrite trim_left_nonspace; [by apply trim_right_nonspace|].
  cbn [all_bytes] in HN. by apply andb_prop in HN as [?%negb_true_iff _].
Qed.

Lemma trim_right_valid P s : all_bytes P s = true -> all_bytes P (trim_right s) = true.
Proof.
  induction s as [|c s IH]; [done|]. cbn [all_bytes trim_right]. intros [Hc Hs]%andb_prop.
  destruct (_ && _); [done|]. cbn [all_bytes]. by rewrite Hc, IH.
Qed.

Lemma valid_unquote s : all_bytes validCookieValueByte s = true -> unquote s = s.
Proof.
  destruct s as [|c s]; [done|]. cbn [all_bytes unquote]. intros [Hc _]%andb_prop.
  case_decide; [|done]. subst. by vm_compute in Hc.
Qed.

Lemma cut_app sep a b : sep_free sep a -> cut sep (a +:+ String sep b) = (a, b, true).
Proof.
  induction a as [|c a IH]; rewrite ?sapp_nil_l, ?sapp_cons; cbn [cut].
  - by rewrite decide_True.
  - intros [Hc Ha]%sep_free_cons. rewrite decide_False by done. by rewrite IH.
Qed.

(** ** Parsing one printed cookie *)

(** Names and values that survive the header syntax. *)
Definition cookie_ok (n v : string) : Prop :=
  is_token n = true /\ all_bytes validCookieValueByte v = true.

Lemma cookie_ok_semi n v : cookie_ok n v -> sep_free ";" (n +:+ "=" +:+ v).
Proof.
  intros [(c & s' & -> & Hn)%is_token_spec Hv]. rewrite !sep_free_app. split_and!.
  - apply all_bytes_sep_free. by eapply all_bytes_impl; [apply token_not_semi|].
  - done.
  - apply all_bytes_sep_free. by eapply all_bytes_impl; [apply value_not_semi|].
Qed.

Lemma parse_printed n v : cookie_ok n v -> parse_part "" (n +:+ "=" +:+ v) = [MkCookie n (trim_right v)].
Proof.
  intros [Hn Hv]. pose proof (is_token_spec _ Hn) as (c & s' & En & Ht).
  assert (HT : TrimString (n +:+ "=" +:+ v) = n +:+ String "=" (trim_right v)).
  { unfold TrimString. rewrite En at 1. rewrite sapp_cons, trim_left_nonspace, <-sapp_cons, <-En.
    - change ("=" +:+ v) with (String "=" v). by apply trim_right_app.
    - rewrite En in Ht. cbn [all_bytes] in Ht. apply andb_prop in Ht as [Hc _].
      by apply token_nonspace, negb_true_iff in Hc. }
  unfold parse_part. rewrite HT, decide_False by (by rewrite En).
  rewrite cut_app by (apply all_bytes_sep_free; by eapply all_bytes_impl; [apply token_not_eq|]).
  rewrite token_TrimString, Hn by done. cbn [negb].
  rewrite decide_False by naive_solver. unfold parseCookieValue.
  pose proof (trim_right_valid _ _ Hv) as Hv'. by rewrite valid_unquote, Hv'.
Qed.

Lemma parse_part_trim f p : parse_part f (trim_right p) = parse_part f p.
Proof. unfold parse_part. by rewrite TrimString_trim_right. Qed.
Lemma parse_part_space f p : parse_part f (String " " p) = parse_part f p.
Proof. done. Qed.

(** ** Parsing a printed header line *)

Definition parse_parts (ps : list string) : list Cookie := mjoin (parse_part "" <$> ps).

Lemma trim_right_empty_split sep s :
  ascii_space sep = false -> trim_right s = "" -> split_byte sep s = [s].
Proof.
  intros Hsep. induction s as [|c s IH]; [done|]. cbn [trim_right split_byte].
  destruct (ascii_space c) eqn:Ec; cbn [andb]; [|done]. case_bool_decide as Hr; [|done]. intros _.
  rewrite decide_False by congruence. by rewrite IH.
Qed.

(** Trailing spaces of the line do not change what it says. *)
Lemma parse_parts_trim s :
  parse_parts (split_byte ";" (trim_right s)) = parse_parts (split_byte ";" s).
Proof.
  assert (H : forall s, exists init lst, split_byte ";" s = init ++ [lst]
    /\ split_byte ";" (trim_right s) = init ++ [trim_right lst]).
  { clear. induction s as [|c s (init & lst & E1 & E2)]; [by exists [], ""|].
    cbn [split_byte trim_right].
    destruct (ascii_space c && bool_decide (trim_right s = "")) eqn:E.
    - apply andb_prop in E as [Ec Hr%bool_decide_eq_true].
      rewrite (trim_right_empty_split ";" s) by done.
      rewrite decide_False by (intros ->; by vm_compute in Ec). exists [], (String c s).
      split; [done|]. cbn [trim_right]. by rewrite Ec, bool_decide_eq_true_2.
    - cbn [split_byte]. rewrite E1, E2. destruct (decide (c = ";"%char)); [by exists ("" :: init), lst|].
      destruct init as [|w init].
      + exists [], (String c lst). split; [done|]. cbn [trim_right app]. do 2 f_equal.
        destruct (ascii_space c) eqn:Ec; [|done]. cbn [andb] in *.
        apply bool_decide_eq_false in E. rewrite bool_decide_eq_false_2; [done|].
        intros Hl. apply E.
        assert (Hs : s = lst).
        { rewrite <-(join_split ";" s), E1. done. }
        by rewrite Hs.
      + by exists (String c w :: init), lst. }
  destruct (H s) as (init & lst & -> & ->). unfold parse_parts.
  rewrite !fmap_app, !join_app. simpl. by rewrite parse_part_trim.
Qed.

Lemma parse_parts_lead s :
  parse_parts (split_byte ";" (String " " s)) = parse_parts (split_byte ";" s).
Proof.
  cbn [split_byte]. rewrite decide_False by done.
  destruct (split_byte ";" s) as [|w ws]; done.
Qed.

Definition print_cookie (c : Cookie) : string := Name c +:+ "=" +:+ Value c.

(** What the backend reads from the printed cookies: names unchanged, values up
    to trailing spaces. *)
Definition seen_upstream (c : Cookie) : Cookie := MkCookie (Name c) (trim_right (Value c)).

Lemma parse_joined cs :
  Forall (fun c => cookie_ok (Name c) (Value c)) cs ->
  parse_parts (split_byte ";" (join_with "; " (print_cookie <$> cs))) = seen_upstream <$> cs
  /\ (cs <> [] -> length (split_byte ";" (join_with "; " (print_cookie <$> cs))) = length cs).
Proof.
  induction cs as [|c [|c' cs] IH]; intros H; [done|..]; inversion H as [|?? Hc Hcs]; subst.
  - cbn [fmap list_fmap join_with]. unfold print_cookie.
    rewrite split_free by (by apply cookie_ok_semi). unfold parse_parts. simpl.
    by rewrite parse_printed.
  - destruct (IH Hcs) as [IH1 IH2]. clear IH.
    change (print_cookie <$> c :: c' :: cs) with (print_cookie c :: (print_cookie <$> c' :: cs)).
    assert (HJ : join_with "; " (print_cookie c :: (print_cookie <$> c' :: cs))
      = print_cookie c +:+ String ";" (String " " (join_with "; " (print_cookie <$> c' :: cs)))) by done.
    rewrite HJ, split_app_sep by (by apply cookie_ok_semi). split.
    + unfold parse_parts. cbn [fmap list_fmap mjoin list_join].
      change (parse_part "" (print_cookie c) ++ parse_parts (split_byte ";"
        (String " " (join_with "; " (print_cookie <$> c' :: cs)))) = seen_upstream <$> c :: c' :: cs).
      rewrite parse_parts_lead, IH1. unfold print_cookie at 1. by rewrite parse_printed.
    + intros _. specialize (IH2 ltac:(done)). cbn [length] in *. f_equal.
      cbn [split_byte]. rewrite decide_False by done. rewrite <-IH2.
      by destruct (split_byte ";" (join_with "; " (print_cookie <$> c' :: cs))) eqn:E;
        [apply split_nonempty in E|].
Qed.

(** Cookies read from a header are well-formed. *)
Lemma parse_part_ok f p : Forall (fun c => cookie_ok (Name c) (Value c)) (parse_part f p).
Proof.
  unfold parse_part. case_decide; [constructor|].
  destruct (cut "=" (TrimString p)) as [[name val] found].
  destruct (is_token (TrimString name)) eqn:Hn; [|constructor]. cbn [negb].
  case_decide; [constructor|]. unfold parseCookieValue.
  destruct (all_bytes validCookieValueByte (unquote val)) eqn:Hv; [|constructor].
  repeat constructor; done.
Qed.

Lemma readCookies_ok h f : Forall (fun c => cookie_ok (Name c) (Value c)) (readCookies h f).
Proof.
  unfold readCookies. case_match; [constructor|]. apply Forall_join, Forall_fmap, Forall_forall.
  intros line _. simpl. apply Forall_join, Forall_fmap, Forall_forall. intros p _. apply parse_part_ok.
Qed.

Lemma TrimString_join c cs :
  Forall (fun c => cookie_ok (Name c) (Value c)) (c :: cs) ->
  TrimString (join_with "; " (print_cookie <$> c :: cs))
    = trim_right (join_with "; " (print_cookie <$> c :: cs)).
Proof.
  intros H. inversion H as [|?? [(a & n & En & Ht)%is_token_spec _] _]; subst.
  unfold TrimString. f_equal.
  assert (exists t, join_with "; " (print_cookie <$> c :: cs) = String a t) as [t ->].
  { destruct cs; cbn [fmap list_fmap join_with]; unfold print_cookie at 1; rewrite En;
      rewrite !sapp_cons; eauto. }
  apply trim_left_nonspace. rewrite En in Ht. cbn [all_bytes] in Ht. apply andb_prop in Ht as [Ha _].
  by apply token_nonspace, negb_true_iff in Ha.
Qed.

(** What is read back from the rewritten header. *)
Lemma upstream_cookies_read name f h cached :
  Forall (fun nv => cookie_ok nv.1 nv.2) cached ->
  let kept := filter (fun c => Is_true (keeps_client_cookie name f c)) (readCookies h "")
              ++ ((fun nv => MkCookie nv.1 nv.2) <$> cached) in
  readCookies (prepareUpstreamCookies name f h cached) "" =
    if cookie_max <? length kept then [] else seen_upstream <$> kept.
Proof.
  intros Hc kept.
  assert (Hok : Forall (fun c => cookie_ok (Name c) (Value c)) kept).
  { apply Forall_app. split; [|by apply Forall_fmap].
    apply Forall_forall. intros c [_ Hc0]%list_elem_of_filter.
    pose proof (readCookies_ok h "") as Hr. rewrite Forall_forall in Hr. auto. }
  assert (HP : prepareUpstreamCookies name f h cached =
    if decide (kept = []) then Del h "Cookie" else Set_ h "Cookie" (join_with "; " (print_cookie <$> kept))).
  { unfold prepareUpstreamCookies. fold kept.
    assert (E : ((fun c => Name c +:+ "=" +:+ Value c)
       <$> filter (fun c => Is_true (keeps_client_cookie name f c)) (readCookies h ""))
      ++ ((fun nv => nv.1 +:+ "=" +:+ nv.2) <$> cached) = print_cookie <$> kept).
    { unfold kept. rewrite fmap_app, <-list_fmap_compose. done. }
    rewrite E. by destruct kept. }
  rewrite HP. clear HP. destruct kept as [|c cs]; cbn [decide].
  - rewrite decide_True by done. unfold readCookies, Del. by rewrite lookup_delete_eq.
  - rewrite decide_False by done. unfold readCookies, Set_.
    change (canonical_key "Cookie") with "Cookie". rewrite lookup_insert_eq. cbn [default].
    destruct (parse_joined _ Hok) as [HJ HL]. pose proof (TrimString_join _ _ Hok) as HT.
    specialize (HL ltac:(done)).
    remember (join_with "; " (print_cookie <$> c :: cs)) as j eqn:Ej. clear Ej.
    unfold cookie_count. cbn [fmap list_fmap mjoin list_join foldr from_option id].
    rewrite HL, Nat.add_0_r. case_match; [done|].
    rewrite app_nil_r, HT. fold (parse_parts (split_byte ";" (trim_right j))).
    by rewrite parse_parts_trim, HJ.
Qed.

(** ** Theorems *)

(** C7: the backend sees exactly the client's own cookies, less the proxy key
    and every name the proxy manages, followed by the cookies cached in the
    session; nothing else can be smuggled into the rewritten header.  (The
    parser's cap of 3000 cookies applies to the rewritten header too.) *)
Theorem upstream_cookies_exact name f h cached :
  Forall (fun nv => cookie_ok nv.1 nv.2) cached ->
  let kept := filter (fun c => Is_true (keeps_client_cookie name f c)) (readCookies h "")
              ++ ((fun nv => MkCookie nv.1 nv.2) <$> cached) in
  readCookies (prepareUpstreamCookies name f h cached) "" =
    if cookie_max <? length kept then [] else seen_upstream <$> kept.
Proof. apply upstream_cookies_read. Qed.

Definition demo_header : Header :=
  {["Cookie" := ["theme=dark; KEY=k123; SID=forged"; "lang=en"]]}.

Lemma upstream_cookies_exact_witness :
  readCookies (prepareUpstreamCookies "KEY" (Filter.New [] ["SID"]) demo_header [("SID", "real")]) ""
    = [MkCookie "theme" "dark"; MkCookie "lang" "en"; MkCookie "SID" "real"].
Proof.
  rewrite (upstream_cookies_exact "KEY" (Filter.New [] ["SID"]) demo_header [("SID", "real")]).
  - vm_compute. reflexivity.
  - repeat constructor; vm_compute; reflexivity.
Defined.

(** C8: the proxy key never reaches the backend, and a managed cookie reaches it
    only with the value the session holds. *)
Theorem upstream_cookies_sanitised name f h cached c :
  Forall (fun nv => cookie_ok nv.1 nv.2) cached ->
  c ∈ readCookies (prepareUpstreamCookies name f h cached) "" ->
  Name c = name \/ Filter.Decide f (Name c) = Filter.Store ->
  exists v, (Name c, v) ∈ cached /\ Value c = trim_right v.
Proof.
  intros Hc. rewrite upstream_cookies_read by done.
  case_match; [intros Hn; by apply elem_of_nil in Hn|].
  rewrite list_elem_of_fmap. intros (c0 & -> & Hin) Hm. cbn [Name seen_upstream] in *.
  apply elem_of_app in Hin as [[Hk _]%list_elem_of_filter|Hin].
  - unfold keeps_client_cookie in Hk. apply Is_true_true in Hk.
    apply andb_prop in Hk as [H1%negb_true_iff%bool_decide_eq_false
                              H2%negb_true_iff%bool_decide_eq_false].
    tauto.
  - apply list_elem_of_fmap in Hin as ([n v] & -> & Hin). exists v. done.
Qed.

Lemma upstream_cookies_sanitised_witness :
  exists v, ("SID", v) ∈ [("SID", "real")] /\ "real" = trim_right v.
Proof.
  apply (upstream_cookies_sanitised "KEY" (Filter.New [] ["SID"]) demo_header [("SID", "real")]
    (MkCookie "SID" "real")).
  - repeat constructor; vm_compute; reflexivity.
  - vm_compute. repeat constructor.
  - right. vm_compute. reflexivity.
Defined.

(** ** The proxy cookie *)

(** The attribute part of a printed cookie. *)
Lemma split_semi_app a b : sep_free ";" a -> split_byte ";" (a +:+ "; " +:+ b) = a :: split_byte ";" (String " " b).
Proof. intros Ha. change ("; " +:+ b) with (String ";" (String " " b)). by apply split_app_sep. Qed.

Lemma b64_value c : b64_alphabet c = true -> validCookieValueByte c = true.
Proof. revert c. apply implb_ascii. vm_compute. reflexivity. Qed.
Lemma b64_plain c : b64_alphabet c = true ->
  negb (bool_decide (c = " "%char)) && negb (bool_decide (c = ","%char)) = true.
Proof. revert c. apply implb_ascii. vm_compute. reflexivity. Qed.

Lemma keep_bytes_id P s : all_bytes P s = true -> keep_bytes P s = s.
Proof.
  induction s as [|c s IH]; [done|]. cbn [all_bytes keep_bytes]. intros [-> ?]%andb_prop.
  by rewrite IH.
Qed.

Lemma contains_byte_false c s :
  all_bytes (fun x => negb (bool_decide (x = c))) s = true -> contains_byte c s = false.
Proof. apply all_bytes_sep_free. Qed.

(** Identifiers are printed as they are. *)
Lemma sanitize_b64 v : all_bytes b64_alphabet v = true -> sanitizeCookieValue v = v.
Proof.
  intros Hv. unfold sanitizeCookieValue.
  rewrite keep_bytes_id by (by eapply all_bytes_impl; [apply b64_value|]).
  rewrite !contains_byte_false; [done|..].
  - eapply all_bytes_impl; [|exact Hv]. intros c H%b64_plain. by apply andb_prop in H as [_ ?].
  - eapply all_bytes_impl; [|exact Hv]. intros c H%b64_plain. by apply andb_prop in H as [? _].
Qed.

Lemma keep_bytes_sep_free P sep s : P sep = false -> sep_free sep (keep_bytes P s).
Proof.
  intros Hs. induction s as [|c s IH]; [done|]. cbn [keep_bytes]. destruct (P c) eqn:E; [|done].
  apply sep_free_cons. split; [congruence|done].
Qed.

(** The attributes after the value and path are constants of the configuration. *)
Definition cookie_tail (expired secure : bool) (ss : SameSiteMode) : string :=
  (if expired then "; Expires=Thu, 01 Jan 1970 00:00:01 GMT; Max-Age=0" else "")
  +:+ "; HttpOnly" +:+ (if secure then "; Secure" else "")
  +:+ match ss with
      | SameSiteNoneMode => "; SameSite=None"
      | SameSiteLaxMode => "; SameSite=Lax"
      | SameSiteStrictMode => "; SameSite=Strict"
      end.

Definition path_attr (c : CookieConfig) : string :=
  "Path=" +:+ keep_bytes validCookiePathByte (proxyCookiePath c).

Lemma proxyCookiePath_nonempty c : proxyCookiePath c <> "".
Proof. unfold proxyCookiePath. by case_decide. Qed.

Lemma cookie_string_shape c v expired :
  is_token (cc_Name c) = true ->
  cookie_string (cc_Name c) v (proxyCookiePath c) expired (negb (cc_Insecure c)) (same_site c) =
    (cc_Name c +:+ "=" +:+ sanitizeCookieValue v) +:+ "; " +:+ path_attr c
    +:+ cookie_tail expired (negb (cc_Insecure c)) (same_site c).
Proof.
  intros Hn. unfold cookie_string, path_attr, cookie_tail. rewrite Hn. cbn [negb].
  rewrite decide_False by apply proxyCookiePath_nonempty.
  rewrite !sapp_assoc. do 2 f_equal.
Qed.

Lemma path_attr_semi c : sep_free ";" (path_attr c).
Proof.
  unfold path_attr. rewrite sep_free_app. split; [done|]. by apply keep_bytes_sep_free.
Qed.

Lemma split_tail s expired secure ss :
  exists ps, cookie_tail expired secure ss = String ";" (join_with ";" ps) /\ ps <> []
    /\ Forall (sep_free ";") ps
    /\ (expired = true -> foldl max_age_part None (s :: ps) = Some true
        \/ max_age_part None s <> None).
Proof.
  destruct expired, secure, ss;
    match goal with |- exists ps, ?t = _ /\ _ =>
      let ps := eval vm_compute in (tail (split_byte ";" t)) in exists ps end;
    (split; [|split; [|split]]; [vm_compute; reflexivity|done|
      repeat (apply Forall_cons_2; [vm_compute; reflexivity|]); apply Forall_nil_2|try done]);
    intros _; (destruct (max_age_part None s) eqn:E; [by right|left];
    cbn [foldl]; rewrite E; vm_compute; reflexivity).
Qed.

Lemma trim_right_tail s expired secure ss :
  trim_right (s +:+ cookie_tail expired secure ss) = s +:+ cookie_tail expired secure ss.
Proof.
  destruct expired, secure, ss;
    match goal with |- context [cookie_tail ?e ?sec ?m] =>
      let t := eval vm_compute in (cookie_tail e sec m) in
      change (cookie_tail e sec m) with t end;
    (rewrite trim_right_app by reflexivity); reflexivity.
Qed.

Lemma TrimString_proxy c v expired :
  is_token (cc_Name c) = true ->
  TrimString (cookie_string (cc_Name c) v (proxyCookiePath c) expired (negb (cc_Insecure c)) (same_site c))
  = cookie_string (cc_Name c) v (proxyCookiePath c) expired (negb (cc_Insecure c)) (same_site c).
Proof.
  intros Hn. rewrite cookie_string_shape by done. unfold TrimString.
  pose proof (is_token_spec _ Hn) as (a & n & En & Ht). rewrite En at 1.
  rewrite !sapp_cons, trim_left_nonspace, <-!sapp_cons, <-En.
  - rewrite <-(sapp_assoc (_ +:+ _)), <-(sapp_assoc (_ +:+ "; ")). apply trim_right_tail.
  - rewrite En in Ht. cbn [all_bytes] in Ht. apply andb_prop in Ht as [Ha _].
    by apply token_nonspace, negb_true_iff in Ha.
Qed.

(** The parts of the printed proxy cookie. *)
Lemma split_proxy c v expired :
  is_token (cc_Name c) = true -> all_bytes b64_alphabet v = true ->
  exists ps,
    split_byte ";"
      (cookie_string (cc_Name c) v (proxyCookiePath c) expired (negb (cc_Insecure c)) (same_site c))
    = (cc_Name c +:+ "=" +:+ v) :: String " " (path_attr c) :: ps
    /\ (expired = true -> foldl max_age_part None (String " " (path_attr c) :: ps) = Some true).
Proof.
  intros Hn Hv.
  assert (Hp : max_age_part None (String " " (path_attr c)) = None).
  { unfold max_age_part, path_attr.
    change (String " " ("Path=" +:+ ?x)) with (" Path" +:+ String "=" x).
    rewrite cut_app by done. vm_compute (EqualFold _ _). done. }
  destruct (split_tail (String " " (path_attr c)) expired (negb (cc_Insecure c)) (same_site c))
    as (ps & Hps & Hne & Hf & Hexp).
  exists ps. split; [|intros He; by destruct (Hexp He)].
  rewrite cookie_string_shape, sanitize_b64 by done.
  rewrite split_semi_app.
  2:{ apply cookie_ok_semi. split; [done|]. by eapply all_bytes_impl; [apply b64_value|]. }
  f_equal. rewrite Hps.
  change (String " " (path_attr c +:+ ?x)) with (String " " (path_attr c) +:+ x).
  rewrite split_app_sep, split_join by (done || by apply sep_free_cons; split; [|apply path_attr_semi]).
  done.
Qed.

(** C35: the proxy cookie carries the key to the client intact: parsing the
    emitted [Set-Cookie] gives back the configured name and the key, and a
    client that returns the pair presents exactly that key. *)
Theorem proxy_cookie_roundtrip date c key :
  is_token (cc_Name c) = true -> all_bytes b64_alphabet key = true ->
  (exists e, ParseSetCookie date (buildProxyCookie c key) = Some (MkSetCookie (cc_Name c) key e))
  /\ RequestCookie {["Cookie" := [cc_Name c +:+ "=" +:+ key]]} (cc_Name c)
     = Some (MkCookie (cc_Name c) key).
Proof.
  intros Hn Hk.
  assert (Hok : cookie_ok (cc_Name c) key)
    by (split; [done|]; by eapply all_bytes_impl; [apply b64_value|]).
  assert (Hkt : trim_right key = key).
  { apply trim_right_nonspace. eapply all_bytes_impl; [|exact Hk]. clear.
    apply implb_ascii. vm_compute. reflexivity. }
  pose proof (is_token_spec _ Hn) as (a & n & En & Ht).
  assert (HT : TrimString (cc_Name c +:+ "=" +:+ key) = cc_Name c +:+ String "=" key).
  { unfold TrimString. rewrite En at 1. rewrite sapp_cons, trim_left_nonspace, <-sapp_cons, <-En.
    - change ("=" +:+ key) with (String "=" key). rewrite trim_right_app by done. by rewrite Hkt.
    - rewrite En in Ht. cbn [all_bytes] in Ht. apply andb_prop in Ht as [Ha _].
      by apply token_nonspace, negb_true_iff in Ha. }
  assert (HE : sep_free "=" (cc_Name c))
    by (apply all_bytes_sep_free; by eapply all_bytes_impl; [apply token_not_eq|]).
  assert (HV : parseCookieValue key = Some key).
  { unfold parseCookieValue. destruct Hok as [_ Hv]. by rewrite valid_unquote, Hv. }
  split.
  - destruct (split_proxy c key false Hn Hk) as (ps & Hs & _).
    unfold ParseSetCookie, buildProxyCookie. rewrite TrimString_proxy, Hs by done.
    rewrite HT, cut_app by done. cbn [negb]. rewrite token_TrimString, Hn, HV by done. eauto.
  - unfold RequestCookie. rewrite decide_False by (by rewrite En).
    unfold readCookies. rewrite lookup_singleton_eq. cbn [from_option id default].
    unfold cookie_count. cbn [fmap list_fmap mjoin list_join foldr].
    rewrite HT. change (cc_Name c +:+ String "=" key) with (cc_Name c +:+ "=" +:+ key).
    rewrite split_free by (by apply cookie_ok_semi). cbn [length Nat.add Nat.ltb Nat.leb fmap list_fmap].
    change (cookie_max <? 1) with false. cbn [mjoin list_join fmap list_fmap].
    unfold parse_part. rewrite HT, decide_False by (by rewrite En). rewrite cut_app by done.
    rewrite token_TrimString, Hn by done. cbn [negb]. rewrite decide_False by naive_solver.
    by rewrite HV.
Qed.

Definition demo_cookie : CookieConfig := MkCookieConfig "__gosestor" "" "Strict" false.

Lemma proxy_cookie_roundtrip_witness :
  buildProxyCookie demo_cookie "a-_9" = "__gosestor=a-_9; Path=/; HttpOnly; Secure; SameSite=Strict"
  /\ exists e, ParseSetCookie (fun _ => None) (buildProxyCookie demo_cookie "a-_9")
       = Some (MkSetCookie "__gosestor" "a-_9" e).
Proof.
  split; [vm_compute; reflexivity|].
  apply (proxy_cookie_roundtrip (fun _ => None) demo_cookie "a-_9"); vm_compute; reflexivity.
Defined.

(** The cookie emitted on logout deletes: every client following RFC 6265
    (here, the proxy's own rule) removes the key now, whatever the clock. *)
Theorem expired_cookie_deletes c expires now :
  is_token (cc_Name c) = true ->
  cookieDeletesNow (buildExpiredProxyCookie c) expires now = true.
Proof.
  intros Hn. destruct (split_proxy c "" true Hn eq_refl) as (ps & Hs & He).
  unfold cookieDeletesNow, maxAgeDeletes, buildExpiredProxyCookie. rewrite Hs. cbn [tail].
  by rewrite He.
Qed.

Lemma expired_cookie_deletes_witness :
  cookieDeletesNow (buildExpiredProxyCookie demo_cookie) None 0 = true.
Proof. apply (expired_cookie_deletes demo_cookie None 0). vm_compute. reflexivity. Defined.
