(* ===== verification/Staging.v ===== *)
(** * Staged response bodies ([session_store.go], [stagedBody])

    A backend response is buffered, first in memory and then in a spool file,
    under a per-response limit and a budget shared by all responses.  What the
    operating system does with the spool file is an argument of each call. *)

From stdpp Require Import base gmap strings list.
From Stdlib Require Import ZArith Lia.
From S2P Require Import Prelude GoStrings.

Module Staging.

Definition stagedResponseMemoryLimit : Z := 2 ^ 20.
Definition stagedResponseMaxBytes : Z := 64 * 2 ^ 20.
Definition stagedResponseAggregateBytes : Z := 256 * 2 ^ 20.
Definition stagedResponseMaxInformational : nat := 16.
Definition stagedResponseMaxMetadataBytes : Z := 2 ^ 20.

Inductive serr :=
| errStagedResponseTooLarge
| errStagedResponseBudgetExhausted
| errHijackWithStagedBody
| errTooManyInformationalResponses
| errStagedMetadataTooLarge
| ErrUnexpectedEOF
| ErrShortWrite
| ErrBodyNotAllowed
| ErrNotSupported
| ErrOs (msg : string).

#[export] Instance serr_eq_dec : EqDecision serr.
Proof. solve_decision. Defined.

(** ** The shared budget *)

Record stagedResponseBudget := MkBudget { limit : Z; used : Z }.

Definition reserve (n : Z) (b : stagedResponseBudget) : bool * stagedResponseBudget :=
  if (wrap64 (limit b - used b) <? n)%Z then (false, b)
  else (true, MkBudget (limit b) (wrap64 (used b + n))).

Definition release (n : Z) (b : stagedResponseBudget) : stagedResponseBudget :=
  MkBudget (limit b) (wrap64 (used b - n)).

Definition globalStagedResponseBudget : stagedResponseBudget :=
  MkBudget stagedResponseAggregateBytes 0.

(** ** The body *)

(** A spool file: its bytes and the file offset. *)
Record file := MkFile { f_data : string; f_pos : nat }.

Record stagedBody := MkBody {
  memory : string;
  spool : option file;
  size : Z;
  reserved : Z;
  unlinked : bool;
  validated : bool }.

Definition emptyBody : stagedBody := MkBody "" None 0 0 false false.

Definition len (s : string) : Z := Z.of_nat (String.length s).

Fixpoint take_str (n : nat) (s : string) : string :=
  match n, s with
  | S n', String c s' => String c (take_str n' s')
  | _, _ => ""
  end.
Fixpoint drop_str (n : nat) (s : string) : string :=
  match n, s with
  | S n', String _ s' => drop_str n' s'
  | _, _ => s
  end.

(** [f.Write(p)]: [out] is [None] when it succeeds, [Some (k, e)] when it
    writes [k] bytes and fails with [e]. *)
Definition file_write (out : option (nat * string)) (p : string) (f : file) :
    nat * option serr * file :=
  let n := match out with None => String.length p | Some (k, _) => min k (String.length p) end in
  let p := take_str n p in
  (n, (fun ke => ErrOs ke.2) <$> out,
   MkFile (take_str (f_pos f) (f_data f) +:+ p +:+ drop_str (f_pos f + n) (f_data f)) (f_pos f + n)).

(** The operating system's part in one [Write]. *)
Record write_io := MkWriteIo {
  io_create : option string;          (** [os.CreateTemp] fails *)
  io_removed : bool;                  (** [os.Remove] succeeds *)
  io_spool : option (nat * string);   (** writing the memory to the spool file *)
  io_write : option (nat * string) }. (** writing the new bytes *)

Definition releaseReserved (n : Z) (b : stagedBody) (g : stagedResponseBudget) :
    stagedBody * stagedResponseBudget :=
  if (n =? 0)%Z then (b, g)
  else (MkBody (memory b) (spool b) (size b) (wrap64 (reserved b - n)) (unlinked b) (validated b),
        release n g).

(** [Reset], and [Close] apart from the error it returns. *)
Definition Reset (b : stagedBody) (g : stagedResponseBudget) : stagedBody * stagedResponseBudget :=
  releaseReserved (reserved b) (MkBody "" None 0 (reserved b) (if spool b then false else unlinked b) false) g.

Definition Close := Reset.

(** The last step of [Write]: append to the spool file. *)
Definition write_spool (io : write_io) (p : string) (f : file) (b : stagedBody)
    (g : stagedResponseBudget) : nat * option serr * stagedBody * stagedResponseBudget :=
  let '(n, err, f) := file_write (io_write io) p f in
  let b := MkBody (memory b) (Some f) (wrap64 (size b + Z.of_nat n)) (reserved b) (unlinked b)
             (validated b) in
  let '(b, g) := releaseReserved (len p - Z.of_nat n) b g in
  (n, err, b, g).

Definition Write (io : write_io) (p : string) (b : stagedBody) (g : stagedResponseBudget) :
    nat * option serr * stagedBody * stagedResponseBudget :=
  if (wrap64 (stagedResponseMaxBytes - size b) <? len p)%Z then
    (0, Some errStagedResponseTooLarge, b, g)
  else
    let '(ok, g) := reserve (len p) g in
    if negb ok then (0, Some errStagedResponseBudgetExhausted, b, g)
    else
      let b := MkBody (memory b) (spool b) (size b) (wrap64 (reserved b + len p)) (unlinked b) false in
      match spool b with
      | Some f => write_spool io p f b g
      | None =>
          if (len (memory b) + len p <=? stagedResponseMemoryLimit)%Z then
            (String.length p, None,
             MkBody (memory b +:+ p) None (wrap64 (size b + len p)) (reserved b) (unlinked b) false, g)
          else
            match io_create io with
            | Some e =>
                let '(b, g) := releaseReserved (len p) b g in (0, Some (ErrOs e), b, g)
            | None =>
                let '(_, err, f) := file_write (io_spool io) (memory b) (MkFile "" 0) in
                match err with
                | Some e =>
                    let '(b, g) :=
                      Close (MkBody (memory b) (Some f) (size b) (reserved b) (io_removed io) false) g in
                    (0, Some e, b, g)
                | None =>
                    write_spool io p f
                      (MkBody "" (Some f) (size b) (reserved b) (io_removed io) false) g
                end
            end
      end.

(** The operating system's part in reading the spool file back: seeking, and
    reading the bytes. *)
Record read_io := MkReadIo {
  io_seek1 : option string; io_read : option string; io_seek2 : option string }.

Definition Validate (io : read_io) (b : stagedBody) : option serr * stagedBody :=
  match spool b with
  | None => (None, b)
  | Some f =>
      if validated b then (None, b)
      else
        let at_ pos := MkBody (memory b) (Some (MkFile (f_data f) pos)) (size b) (reserved b)
                         (unlinked b) (validated b) in
        match io_seek1 io with
        | Some e => (Some (ErrOs e), b)
        | None =>
            match io_read io with
            | Some e => (Some (ErrOs e), at_ 0)
            | None =>
                let b := at_ (String.length (f_data f)) in
                if negb (len (f_data f) =? size b)%Z then (Some ErrUnexpectedEOF, b)
                else
                  match io_seek2 io with
                  | Some e => (Some (ErrOs e), b)
                  | None => (None, MkBody (memory b) (Some (MkFile (f_data f) 0)) (size b)
                                     (reserved b) (unlinked b) true)
                  end
            end
        end
  end.

(** What the client's writer does with the bytes: accept them all, or accept
    [k] and fail, or accept [k] and not even report it. *)
Inductive writer_out := WAll | WFail (k : nat) (e : string) | WShort (k : nat).
Definition sent (out : writer_out) (p : string) : string :=
  match out with WAll => p | WFail k _ | WShort k => take_str k p end.
Definition sent_err (out : writer_out) (p : string) : option serr :=
  match out with
  | WAll => None
  | WFail _ e => Some (ErrOs e)
  | WShort k => if String.length p <=? k then None else Some ErrShortWrite
  end.

(** [FlushTo]: the bytes the client receives and the error. *)
Definition FlushTo (io : read_io) (out : writer_out) (b : stagedBody) :
    string * option serr * stagedBody :=
  match spool b with
  | None => (sent out (memory b), sent_err out (memory b), b)
  | Some _ =>
      let '(e, b) := Validate io b in
      match e, spool b with
      | Some e, _ => ("", Some e, b)
      | None, Some f =>
          let p := drop_str (f_pos f) (f_data f) in
          (sent out p, sent_err out p,
           MkBody (memory b) (Some (MkFile (f_data f) (String.length (f_data f)))) (size b) (reserved b)
             (unlinked b) (validated b))
      | None, None => ("", None, b)
      end
  end.

Definition Len (b : stagedBody) : Z := size b.

(** [interceptor.reserveMetadataBytes]: [meta] is the interceptor's count. *)
Definition reserveMetadataBytes (n meta : Z) (b : stagedBody) (g : stagedResponseBudget) :
    option serr * Z * stagedBody * stagedResponseBudget :=
  if (wrap64 (stagedResponseMaxMetadataBytes - meta) <? n)%Z then
    (Some errStagedMetadataTooLarge, meta, b, g)
  else
    let '(ok, g) := reserve n g in
    if negb ok then (Some errStagedResponseBudgetExhausted, meta, b, g)
    else (None, wrap64 (meta + n),
          MkBody (memory b) (spool b) (size b) (wrap64 (reserved b + n)) (unlinked b) (validated b), g).

End Staging.
