(* ===== verification/StagingThms.v ===== *)
(** * The staging limits hold and the staged bytes are the backend's *)

From stdpp Require Import base gmap strings list relations.
From Stdlib Require Import ZArith Lia.
From S2P Require Import Prelude GoStrings Staging.
Import Staging.

Lemma take_str_all s : take_str (String.length s) s = s.
Proof. induction s as [|c s IH]; [done|]. simpl. by rewrite IH. Qed.
Lemma drop_str_all s n : String.length s <= n -> drop_str n s = "".
Proof. revert n; induction s as [|c s IH]; intros [|n] H; simpl in *; try done; try lia. apply IH; lia. Qed.
Lemma take_str_length n s : n <= String.length s -> String.length (take_str n s) = n.
Proof. revert s; induction n as [|n IH]; intros [|c s] H; simpl in *; try done; try lia. rewrite IH; lia. Qed.

(** The bytes a body holds. *)
Definition contents (b : stagedBody) : string :=
  match spool b with None => memory b | Some f => f_data f end.

Record wf_body (b : stagedBody) : Prop := {
  wb_size : size b = len (contents b);
  wb_max : (size b <= stagedResponseMaxBytes)%Z;
  wb_reserved : (size b <= reserved b)%Z;
  wb_memory : spool b = None -> (len (memory b) <= stagedResponseMemoryLimit)%Z;
  wb_pos : forall f, spool b = Some f -> f_pos f = (if validated b then 0 else String.length (f_data f)) }.

Definition wf_budget (g : stagedResponseBudget) : Prop :=
  (0 <= used g <= limit g /\ limit g <= 2 ^ 40)%Z.

Lemma reserve_spec n g g' ok :
  wf_budget g -> (0 <= n < 2 ^ 62)%Z -> reserve n g = (ok, g') ->
  wf_budget g' /\ limit g' = limit g /\ used g' = (if ok then used g + n else used g)%Z.
Proof.
  intros [H1 H2] Hn. unfold reserve, wf_budget. rewrite !wrap64_id by (unfold int64; lia).
  case_match eqn:E; rewrite ?Z.ltb_lt, ?Z.ltb_ge in E; intros [= <- <-]; simpl; lia.
Qed.

Lemma releaseReserved_spec n b g b' g' :
  wf_budget g -> (0 <= n <= reserved b)%Z -> (reserved b <= used g)%Z ->
  releaseReserved n b g = (b', g') ->
  b' = MkBody (memory b) (spool b) (size b) (reserved b - n) (unlinked b) (validated b)
  /\ g' = MkBudget (limit g) (used g - n).
Proof.
  intros [H1 H2] Hn Hu. unfold releaseReserved, release. case_match eqn:E.
  - apply Z.eqb_eq in E as ->. intros [= <- <-]. rewrite !Z.sub_0_r. by destruct b, g.
  - intros [= <- <-]. rewrite !wrap64_id by (unfold int64; lia). done.
Qed.

(** A write to the spool file at its end appends. *)
Lemma file_write_append out p f n err f' :
  f_pos f = String.length (f_data f) -> file_write out p f = (n, err, f') ->
  f' = MkFile (f_data f +:+ take_str n p) (String.length (f_data f +:+ take_str n p))
  /\ n <= String.length p /\ (err = None -> n = String.length p).
Proof.
  intros Hpos. unfold file_write. set (k := match out with None => _ | Some _ => _ end).
  intros [= <- <- <-].
  assert (Hk : k <= String.length p) by (unfold k; destruct out as [[? ?]|]; lia).
  rewrite Hpos, take_str_all, drop_str_all, sapp_nil_r by lia.
  rewrite sapp_length, take_str_length by done. split_and!; [done|done|].
  unfold k. destruct out as [[? ?]|]; done.
Qed.

Lemma sapp_len a b : len (a +:+ b) = (len a + len b)%Z.
Proof. unfold len. rewrite sapp_length. lia. Qed.

Lemma len_nonneg s : (0 <= len s)%Z.
Proof. unfold len. lia. Qed.

(** ** One operation *)

(** The budget changes by exactly what the body's reservation changes. *)
Definition accounted (b b' : stagedBody) (g g' : stagedResponseBudget) : Prop :=
  limit g' = limit g /\ (used g' - reserved b' = used g - reserved b)%Z /\ wf_budget g'.

Lemma write_spool_spec io p f b g n err b' g' :
  f_pos f = String.length (f_data f) -> wf_budget g ->
  size b = len (f_data f) -> (size b + len p <= stagedResponseMaxBytes)%Z ->
  (size b + len p <= reserved b <= used g)%Z -> validated b = false ->
  write_spool io p f b g = (n, err, b', g') ->
  wf_body b' /\ accounted b b' g g' /\ validated b' = false
  /\ contents b' = f_data f +:+ take_str n p /\ n <= String.length p
  /\ (err = None -> n = String.length p).
Proof.
  intros Hpos Hg Hsz Hmax Hres Hval. unfold write_spool.
  destruct (file_write (io_write io) p f) as [[n0 e0] f0] eqn:EF.
  destruct (file_write_append _ _ _ _ _ _ Hpos EF) as (-> & Hn & He).
  destruct (releaseReserved _ _ _) as [b1 g1] eqn:ER. intros [= <- <- <- <-].
  pose proof (len_nonneg (f_data f)). pose proof (len_nonneg p).
  assert (Hlp : len p = Z.of_nat (String.length p)) by done.
  assert (Hs' : wrap64 (size b + Z.of_nat n0) = (size b + Z.of_nat n0)%Z).
  { apply wrap64_id. unfold int64, stagedResponseMaxBytes in *. lia. }
  rewrite Hs' in ER.
  apply releaseReserved_spec in ER as [-> ->]; [|done|simpl; lia|simpl; lia].
  destruct Hg as [Hg1 Hg2]. cbn [memory spool size reserved unlinked validated] in *.
  assert (Htl : len (take_str n0 p) = Z.of_nat n0) by (unfold len; by rewrite take_str_length).
  split_and!; try done.
  - split; cbn [memory spool size reserved unlinked validated contents].
    + unfold contents; cbn [spool f_data]. by rewrite sapp_len, Htl, Hsz.
    + lia.
    + lia.
    + done.
    + intros f' [= <-]. by rewrite Hval.
  - split_and!; simpl; [done|lia|split; simpl; lia].
Qed.

Lemma Write_spec io p b g n err b' g' :
  wf_body b -> wf_budget g -> (reserved b <= used g)%Z -> validated b = false -> (len p < 2 ^ 62)%Z ->
  Write io p b g = (n, err, b', g') ->
  wf_body b' /\ accounted b b' g g' /\ validated b' = false
  /\ (contents b' = contents b +:+ take_str n p \/ (contents b' = "" /\ err <> None))
  /\ (err = None -> contents b' = contents b +:+ p).
Proof.
  intros Hwf Hg Hres Hval Hp. pose proof Hwf as [Hsz Hmax Hr Hmem Hpos].
  pose proof (len_nonneg p). pose proof (len_nonneg (contents b)). pose proof Hg as [Hg1 Hg2].
  assert (Hsame : accounted b b g g) by (split_and!; done || lia || split; lia).
  unfold Write. destruct (wrap64 (stagedResponseMaxBytes - size b) <? len p)%Z eqn:E1.
  { intros [= <- <- <- <-]. split_and!; try done. left. by rewrite sapp_nil_r. }
  rewrite wrap64_id in E1 by (unfold int64, stagedResponseMaxBytes in *; lia). apply Z.ltb_ge in E1.
  destruct (reserve (len p) g) as [ok g1] eqn:ER.
  destruct (reserve_spec (len p) g g1 ok Hg (conj H Hp) ER) as (Hg' & HL & HU).
  destruct ok; cbn [negb].
  2:{ intros [= <- <- <- <-]. assert (g1 = g) as -> by (destruct g1, g; simpl in *; congruence).
      split_and!; try done. left. by rewrite sapp_nil_r. }
  assert (Hr1 : wrap64 (reserved b + len p) = (reserved b + len p)%Z).
  { apply wrap64_id. unfold int64. pose proof Hg' as [? ?]. lia. }
  cbn [memory spool size reserved unlinked validated]. rewrite Hr1.
  destruct (spool b) as [f|] eqn:Esp.
  { specialize (Hpos f eq_refl). rewrite Hval in Hpos. unfold contents in Hsz. rewrite Esp in Hsz.
    intros HW. eapply write_spool_spec in HW;
      [|exact Hpos|exact Hg'|exact Hsz|simpl; lia|simpl; lia|done].
    destruct HW as (W1 & (A1 & A2 & A3) & W3 & W4 & W5 & W6). simpl in A2.
    assert (HC : contents b = f_data f) by (unfold contents; by rewrite Esp).
    rewrite HC. split_and!; try done; [split_and!; [congruence|lia|done]|by left|].
    intros He. rewrite W4, (W6 He). by rewrite take_str_all. }
  assert (HC : contents b = memory b) by (unfold contents; by rewrite Esp).
  rewrite HC in *. destruct (len (memory b) + len p <=? stagedResponseMemoryLimit)%Z eqn:E2.
  { intros [= <- <- <- <-]. apply Z.leb_le in E2.
    rewrite wrap64_id by (unfold int64, stagedResponseMaxBytes in *; lia).
    split_and!; try done.
    - split; simpl; try done; [unfold contents; simpl; rewrite sapp_len; lia|lia|lia|].
      intros _. by rewrite sapp_len.
    - split; [done|]. simpl. split; [lia|done].
    - left. unfold contents. simpl. by rewrite take_str_all. }
  destruct (io_create io) as [e|].
  { destruct (releaseReserved _ _ _) as [b1 g2] eqn:ERR. intros [= <- <- <- <-].
    apply releaseReserved_spec in ERR as [-> ->]; [|done|simpl; lia|simpl; lia].
    simpl. replace (reserved b + len p - len p)%Z with (reserved b) by lia.
    split; [|split; [|split; [done|split; [|done]]]].
    - split; simpl; try done.
    - split; [done|]. simpl. split; [lia|split; simpl; lia].
    - left. unfold contents; simpl. by rewrite sapp_nil_r. }
  destruct (file_write (io_spool io) (memory b) (MkFile "" 0)) as [[k e] f] eqn:EF.
  destruct (file_write_append (io_spool io) (memory b) (MkFile "" 0) k e f eq_refl EF) as (Hf & Hk & He). cbn [f_data] in Hf.
  rewrite sapp_nil_l in Hf.
  destruct e as [e|].
  { unfold Close, Reset. cbn [memory spool size reserved unlinked validated].
    destruct (releaseReserved _ _ _) as [b1 g2] eqn:ERR. intros [= <- <- <- <-].
    apply releaseReserved_spec in ERR as [-> ->]; [|done|simpl; lia|simpl; lia].
    simpl. split; [|split; [|split; [done|split; [|done]]]].
    - split; simpl; try done; unfold stagedResponseMaxBytes, stagedResponseMemoryLimit, len; simpl; lia.
    - split; [done|]. simpl. split; [lia|split; simpl; lia].
    - by right. }
  rewrite (He eq_refl), take_str_all in Hf. subst f.
  intros HW. eapply write_spool_spec in HW;
    [|done|exact Hg'|exact Hsz|simpl; lia|simpl; lia|done].
  destruct HW as (W1 & (A1 & A2 & A3) & W3 & W4 & W5 & W6). simpl in A2, W4.
  split_and!; try done; [split_and!; [congruence|lia|done]|by left|].
  intros He'. rewrite W4, (W6 He'). by rewrite take_str_all.
Qed.

Lemma Reset_spec b g b' g' :
  wf_body b -> wf_budget g -> (reserved b <= used g)%Z -> Reset b g = (b', g') ->
  wf_body b' /\ accounted b b' g g' /\ reserved b' = 0%Z /\ contents b' = "".
Proof.
  intros Hwf Hg Hres. unfold Reset. intros HR. pose proof Hwf as [Hsz Hmax Hr _ _].
  pose proof Hg as [Hg1 Hg2]. pose proof (len_nonneg (contents b)).
  apply releaseReserved_spec in HR as [-> ->]; [|done|simpl; lia|simpl; lia]. simpl.
  split; [|split; [|split; [lia|done]]].
  - split; simpl; try done; unfold stagedResponseMaxBytes, stagedResponseMemoryLimit, len; simpl; lia.
  - split; [done|]. simpl. split; [lia|split; simpl; lia].
Qed.

Lemma reserveMetadataBytes_spec n meta b g e meta' b' g' :
  wf_body b -> wf_budget g -> (reserved b <= used g)%Z -> (0 <= n < 2 ^ 62)%Z ->
  (0 <= meta <= stagedResponseMaxMetadataBytes)%Z ->
  reserveMetadataBytes n meta b g = (e, meta', b', g') ->
  wf_body b' /\ accounted b b' g g' /\ contents b' = contents b /\ validated b' = validated b
  /\ (0 <= meta' <= stagedResponseMaxMetadataBytes)%Z.
Proof.
  intros Hwf Hg Hres Hn Hm. pose proof Hg as [Hg1 Hg2].
  assert (Hsame : accounted b b g g) by (split; [done|split; [lia|done]]).
  unfold reserveMetadataBytes. rewrite wrap64_id by (unfold int64, stagedResponseMaxMetadataBytes in *; lia).
  destruct (_ <? n)%Z eqn:E; [by intros [= <- <- <- <-]|]. apply Z.ltb_ge in E.
  destruct (reserve n g) as [ok g1] eqn:ER.
  destruct (reserve_spec n g g1 ok Hg Hn ER) as (Hg' & HL & HU). pose proof Hg' as [? ?].
  destruct ok; cbn [negb]; intros [= <- <- <- <-].
  - pose proof Hwf as [Hsz Hmax Hr Hmem Hpos]. pose proof (len_nonneg (contents b)).
    rewrite !wrap64_id by (unfold int64, stagedResponseMaxMetadataBytes in *; lia).
    split; [|split; [|split; [done|split; [done|lia]]]].
    + split; simpl; try done. lia.
    + split; [done|]. simpl. split; [lia|done].
  - assert (g1 = g) as -> by (destruct g1, g; simpl in *; congruence). done.
Qed.

(** ** All responses in flight *)

(** The staged responses, each with its metadata count, and the budget. *)
Definition staging := (list (stagedBody * Z) * stagedResponseBudget)%type.

Inductive staging_step : staging -> staging -> Prop :=
| st_open bs g : staging_step (bs, g) (bs ++ [(emptyBody, 0%Z)], g)
| st_write bs g i b meta io p n err b' g' :
    bs !! i = Some (b, meta) -> validated b = false -> (len p < 2 ^ 62)%Z ->
    Write io p b g = (n, err, b', g') -> staging_step (bs, g) (<[i := (b', meta)]> bs, g')
| st_metadata bs g i b meta n e meta' b' g' :
    bs !! i = Some (b, meta) -> (0 <= n < 2 ^ 62)%Z ->
    reserveMetadataBytes n meta b g = (e, meta', b', g') ->
    staging_step (bs, g) (<[i := (b', meta')]> bs, g')
| st_reset bs g i b meta b' g' :
    bs !! i = Some (b, meta) -> Reset b g = (b', g') ->
    staging_step (bs, g) (<[i := (b', 0%Z)]> bs, g').

Definition total_reserved (bs : list (stagedBody * Z)) : Z :=
  foldr (fun bm acc => reserved bm.1 + acc)%Z 0%Z bs.

Record staging_inv (st : staging) : Prop := {
  si_bodies : forall b meta, (b, meta) ∈ st.1 ->
    wf_body b /\ (0 <= meta <= stagedResponseMaxMetadataBytes)%Z;
  si_used : used st.2 = total_reserved st.1;
  si_budget : wf_budget st.2 }.

Lemma total_reserved_app bs bs' : total_reserved (bs ++ bs') = (total_reserved bs + total_reserved bs')%Z.
Proof. induction bs as [|[b m] bs IH]; simpl; [done|]. rewrite IH. lia. Qed.

Lemma total_reserved_insert bs i b meta b' meta' :
  bs !! i = Some (b, meta) ->
  total_reserved (<[i := (b', meta')]> bs) = (total_reserved bs - reserved b + reserved b')%Z.
Proof.
  intros Hi. rewrite (insert_take_drop _ i) by (by eapply lookup_lt_Some).
  rewrite <-(take_drop_middle bs i (b, meta) Hi) at 3.
  rewrite !total_reserved_app. simpl. lia.
Qed.

Lemma wf_body_reserved b : wf_body b -> (0 <= reserved b)%Z.
Proof. intros [Hs _ Hr _ _]. pose proof (len_nonneg (contents b)). lia. Qed.

Lemma total_reserved_bound bs b meta :
  (forall b meta, (b, meta) ∈ bs -> wf_body b) -> (b, meta) ∈ bs -> (reserved b <= total_reserved bs)%Z.
Proof.
  intros Hwf. assert (Hpos : forall bs', (forall b meta, (b, meta) ∈ bs' -> wf_body b) ->
    (0 <= total_reserved bs')%Z).
  { clear. induction bs' as [|[b m] bs' IH]; intros H; simpl; [lia|].
    pose proof (wf_body_reserved b (H b m (list_elem_of_here _ _))).
    assert (0 <= total_reserved bs')%Z by (apply IH; intros; eapply H; by right). lia. }
  induction bs as [|[b0 m0] bs IH]; intros Hin; [by apply elem_of_nil in Hin|]. simpl.
  pose proof (wf_body_reserved b0 (Hwf b0 m0 (list_elem_of_here _ _))).
  assert (HR : forall b meta, (b, meta) ∈ bs -> wf_body b) by (intros; eapply Hwf; by right).
  pose proof (Hpos bs HR). apply elem_of_cons in Hin as [[= -> ->]|Hin]; [lia|].
  specialize (IH HR Hin). lia.
Qed.

Lemma staging_update bs g i b meta b' meta' g' :
  staging_inv (bs, g) -> bs !! i = Some (b, meta) ->
  wf_body b' -> (0 <= meta' <= stagedResponseMaxMetadataBytes)%Z -> accounted b b' g g' ->
  staging_inv (<[i := (b', meta')]> bs, g').
Proof.
  intros [H1 H2 H3] Hi Hb Hm (HL & HU & HG). simpl in *. split; simpl; [|rewrite (total_reserved_insert _ _ b meta) by done; lia|done].
  intros b0 m0 Hin. apply list_elem_of_lookup in Hin as [j Hj].
  destruct (decide (i = j)) as [->|Hne].
  - rewrite list_lookup_insert_eq in Hj by (by eapply lookup_lt_Some). by simplify_eq.
  - rewrite list_lookup_insert_ne in Hj by done. apply H1. by eapply list_elem_of_lookup_2.
Qed.

Lemma staging_step_inv st st' : staging_inv st -> staging_step st st' -> staging_inv st'.
Proof.
  intros HI Hs. destruct Hs as [bs g|bs g i b meta io p n err b' g' Hi Hv Hp HW
    |bs g i b meta n e meta' b' g' Hi Hn HM|bs g i b meta b' g' Hi HR].
  { destruct HI as [H1 H2 H3]. simpl in *. split; simpl; [|rewrite total_reserved_app; simpl; lia|done].
    intros b m [?|Hin]%elem_of_app; [by apply H1|]. apply list_elem_of_singleton in Hin. simplify_eq.
    split; [split|]; simpl; try done;
      unfold stagedResponseMaxBytes, stagedResponseMemoryLimit, stagedResponseMaxMetadataBytes, len;
      simpl; lia. }
  all: pose proof HI as [H1 H2 H3]; simpl in *;
    destruct (H1 b meta) as [Hwf Hm]; [by eapply list_elem_of_lookup_2|];
    assert (Hle : (reserved b <= used g)%Z)
      by (rewrite H2; eapply total_reserved_bound;
          [intros; by eapply H1|by eapply list_elem_of_lookup_2]);
    eapply staging_update; try done.
  - by eapply Write_spec in HW as (? & _).
  - by eapply Write_spec in HW as (_ & ? & _).
  - by eapply reserveMetadataBytes_spec in HM as (? & _).
  - by eapply reserveMetadataBytes_spec in HM as (_ & _ & _ & _ & ?).
  - by eapply reserveMetadataBytes_spec in HM as (_ & ? & _).
  - by eapply Reset_spec in HR as (? & _).
  - by eapply Reset_spec in HR as (_ & ? & _).
Qed.

Lemma staging_reachable_inv st :
  rtc staging_step ([], globalStagedResponseBudget) st -> staging_inv st.
Proof.
  intros Hr. assert (H0 : staging_inv ([], globalStagedResponseBudget)).
  { split; simpl; [|done|]; [intros b m Hin; by apply elem_of_nil in Hin|].
    vm_compute. split; [split|]; congruence. }
  revert H0. induction Hr as [|x y z Hxy _ IH]; [done|]. intros H0. apply IH. by eapply staging_step_inv.
Qed.

(** ** Theorems *)

(** C29: the staging limits hold for every schedule of responses and whatever
    the disk does: the shared budget equals what the responses in flight have
    reserved and never exceeds 256 MiB, no staged body exceeds 64 MiB or its own
    reservation, memory-staged bodies stay within 1 MiB, metadata within 1 MiB. *)
Theorem staging_within_limits bs g :
  rtc staging_step ([], globalStagedResponseBudget) (bs, g) ->
  used g = total_reserved bs /\ (0 <= used g <= stagedResponseAggregateBytes)%Z
  /\ forall b meta, (b, meta) ∈ bs ->
       (len (contents b) <= reserved b)%Z /\ (len (contents b) <= stagedResponseMaxBytes)%Z
       /\ (spool b = None -> (len (memory b) <= stagedResponseMemoryLimit)%Z)
       /\ (0 <= meta <= stagedResponseMaxMetadataBytes)%Z.
Proof.
  intros Hr. assert (HL : limit g = stagedResponseAggregateBytes).
  { assert (HS : forall st st', rtc staging_step st st' -> staging_inv st -> limit st'.2 = limit st.2).
    { clear. intros st st' Hr. induction Hr as [|x y z Hxy _ IH]; [done|]. intros HI.
      rewrite IH by (by eapply staging_step_inv). destruct HI as [H1 H2 H3].
      destruct Hxy as [| bs g i b meta io p n err b' g' Hi Hv Hp HW
        |bs g i b meta n e meta' b' g' Hi Hn HM|bs g i b meta b' g' Hi HR]; [done|..];
        simpl in *; destruct (H1 b meta) as [Hwf Hm]; try (by eapply list_elem_of_lookup_2);
        assert (Hle : (reserved b <= used g)%Z)
          by (rewrite H2; eapply total_reserved_bound;
              [intros; by eapply H1|by eapply list_elem_of_lookup_2]).
      - by eapply Write_spec in HW as (_ & (? & _) & _).
      - by eapply reserveMetadataBytes_spec in HM as (_ & (? & _) & _).
      - by eapply Reset_spec in HR as (_ & (? & _) & _). }
    apply HS in Hr; [done|]. apply staging_reachable_inv, rtc_refl. }
  apply staging_reachable_inv in Hr as [H1 H2 [H3 H4]]. simpl in *.
  split_and!; [done|lia|lia|]. intros b meta Hin. destruct (H1 _ _ Hin) as [[Hs Hm Hr Hmem _] Hme].
  split_and!; [lia|lia|done|lia|lia].
Qed.

Definition io_fine : write_io := MkWriteIo None true None None.

Lemma staging_within_limits_witness :
  exists bs g, used g = total_reserved bs /\ used g = 5%Z.
Proof.
  destruct (Write io_fine "hello" emptyBody globalStagedResponseBudget) as [[[n e] b] g] eqn:E.
  exists [(b, 0%Z)], g. split.
  - apply (staging_within_limits [(b, 0%Z)] g).
    eapply rtc_l; [apply (st_open [] globalStagedResponseBudget)|].
    eapply rtc_l; [|apply rtc_refl].
    apply (st_write [(emptyBody, 0%Z)] globalStagedResponseBudget 0 emptyBody 0%Z io_fine "hello" n e b g);
      [reflexivity|reflexivity|vm_compute; reflexivity|exact E].
  - revert E. vm_compute. intros [= <- <- <- <-]. reflexivity.
Defined.

(** Successive writes, stopping at the first error. *)
Fixpoint write_all (ws : list (write_io * string)) (b : stagedBody) (g : stagedResponseBudget) :
    option (stagedBody * stagedResponseBudget) :=
  match ws with
  | [] => Some (b, g)
  | (io, p) :: ws' =>
      let '(_, err, b, g) := Write io p b g in
      match err with None => write_all ws' b g | Some _ => None end
  end.

Lemma write_all_spec ws b g b' g' :
  wf_body b -> wf_budget g -> (reserved b <= used g)%Z -> validated b = false ->
  Forall (fun w => (len w.2 < 2 ^ 62)%Z) ws ->
  write_all ws b g = Some (b', g') ->
  wf_body b' /\ validated b' = false /\ contents b' = contents b +:+ foldr String.app "" ws.*2.
Proof.
  intros Hwf Hg Hres Hv Hws. revert b g Hwf Hg Hres Hv.
  induction Hws as [|[io p] ws Hp _ IH]; intros b g Hwf Hg Hres Hv; simpl.
  { intros [= <- <-]. split_and!; [done..|]. by rewrite sapp_nil_r. }
  destruct (Write io p b g) as [[[n err] b1] g1] eqn:EW. destruct err; [done|].
  destruct (Write_spec _ _ _ _ _ _ _ _ Hwf Hg Hres Hv Hp EW) as (W1 & (A1 & A2 & A3) & W3 & _ & W5).
  intros HA. destruct (IH b1 g1 W1 A3 ltac:(lia) W3 HA) as (I1 & I2 & I3).
  split_and!; [done..|]. rewrite I3, (W5 eq_refl), sapp_assoc. done.
Qed.

(** C30: what reaches the client is what the backend wrote.  When every write
    of a response was accepted, whether it stayed in memory or was spooled, the
    body validates and the flush sends exactly the concatenation of the writes. *)
Theorem staged_bytes_faithful ws g b g' :
  wf_budget g -> Forall (fun w => (len w.2 < 2 ^ 62)%Z) ws ->
  write_all ws emptyBody g = Some (b, g') ->
  let io := MkReadIo None None None in
  let '(e, b1) := Validate io b in
  e = None /\ exists b2, FlushTo io WAll b1 = (foldr String.app "" ws.*2, None, b2).
Proof.
  intros Hg Hws HA.
  assert (He : wf_body emptyBody)
    by (split; simpl; try done; unfold stagedResponseMaxBytes, stagedResponseMemoryLimit, len; simpl; lia).
  assert (Hu : (reserved emptyBody <= used g)%Z) by (destruct Hg; simpl; lia).
  destruct (write_all_spec _ _ _ _ _ He Hg Hu eq_refl Hws HA) as (Hwf & Hv & HC).
  change (contents emptyBody) with "" in HC. rewrite sapp_nil_l in HC.
  destruct Hwf as [Hs _ _ _ Hpos]. unfold Validate. unfold contents in *.
  destruct (spool b) as [f|] eqn:Esp; cbn [io_seek1 io_read io_seek2].
  - rewrite Hv. cbn [size]. rewrite Hs, Z.eqb_refl. cbn [negb]. split; [done|].
    eexists. unfold FlushTo, Validate. cbn [spool validated memory size f_pos f_data drop_str].
    by rewrite HC.
  - split; [done|]. unfold FlushTo. rewrite Esp. eexists. by rewrite HC.
Qed.

Lemma staged_bytes_faithful_witness :
  exists b g', write_all [(io_fine, "hello, "); (io_fine, "world")] emptyBody globalStagedResponseBudget
      = Some (b, g')
    /\ exists b2, FlushTo (MkReadIo None None None) WAll (Validate (MkReadIo None None None) b).2
         = ("hello, world", None, b2).
Proof.
  eexists _, _. split; [vm_compute; reflexivity|].
  match goal with |- exists b2, FlushTo _ _ (Validate _ ?b).2 = _ => pose (b0 := b) end.
  pose proof (staged_bytes_faithful [(io_fine, "hello, "); (io_fine, "world")]
    globalStagedResponseBudget b0 (MkBudget stagedResponseAggregateBytes 12)) as H.
  destruct H as [_ H]; [vm_compute; split; [split|]; congruence|repeat constructor
    |vm_compute; reflexivity|exact H].
Defined.
