(* ===== verification/Handler.v ===== *)
(** * The request handler ([session_store.go])

    The interceptor that stages a backend response, the response pipeline that
    turns the backend's control headers and cookies into one store transition,
    and [ServeHTTP] around both. *)

From stdpp Require Import base gmap strings list.
From Stdlib Require Import ZArith Lia.
From S2P Require Import Prelude GoStrings Crypto GoTime GoStrconv Http Cookies Filter Authz.
From S2P Require Import StoreApi Manager Labels Staging.
Import Staging.
Local Open Scope prog_scope.

Module Handler.

(** The provisioned handler; [authz] is [None] when the feature is off. *)
Record Handler := MkHandler {
  Cookie : CookieConfig;
  filter : Filter.Filter;
  manager : Manager.Config;
  IdentityHeader : string;
  rotateHeaderName : string;
  rotateEnabled : bool;
  revokeHeaderName : string;
  revokeEnabled : bool;
  labelsHeaderName : string;
  authz : option Authz.Authz;
  OnStoreError : string }.

(** ** The interceptor *)

Record interceptor := MkIc {
  live : option Manager.Live;
  once : bool;                       (** [once.Do] has run *)
  failed : bool;
  wroteHeader : bool;
  status : Z;
  body : stagedBody;
  responseHeader : Header;
  informational : list (Z * Header);
  hijacked : bool;
  storeErr : option error;
  revokeRequested : bool;
  hadProxyCookie : bool;
  resolveErr : option error;
  writeErr : option serr;
  metadataBytes : Z;
  finalMetadataReserved : bool;
  terminal : bool }.

(** Assignments to one field. *)
Definition set_live v i := MkIc v (once i) (failed i) (wroteHeader i) (status i) (body i) (responseHeader i) (informational i) (hijacked i) (storeErr i) (revokeRequested i) (hadProxyCookie i) (resolveErr i) (writeErr i) (metadataBytes i) (finalMetadataReserved i) (terminal i).
Definition set_once i := MkIc (live i) true (failed i) (wroteHeader i) (status i) (body i) (responseHeader i) (informational i) (hijacked i) (storeErr i) (revokeRequested i) (hadProxyCookie i) (resolveErr i) (writeErr i) (metadataBytes i) (finalMetadataReserved i) (terminal i).
Definition set_failed e i := MkIc (live i) (once i) true (wroteHeader i) (status i) (body i) (responseHeader i) (informational i) (hijacked i) (Some e) (revokeRequested i) (hadProxyCookie i) (resolveErr i) (writeErr i) (metadataBytes i) (finalMetadataReserved i) (terminal i).
Definition set_status s i := MkIc (live i) (once i) (failed i) true s (body i) (responseHeader i) (informational i) (hijacked i) (storeErr i) (revokeRequested i) (hadProxyCookie i) (resolveErr i) (writeErr i) (metadataBytes i) (finalMetadataReserved i) (terminal i).
Definition set_body b i := MkIc (live i) (once i) (failed i) (wroteHeader i) (status i) b (responseHeader i) (informational i) (hijacked i) (storeErr i) (revokeRequested i) (hadProxyCookie i) (resolveErr i) (writeErr i) (metadataBytes i) (finalMetadataReserved i) (terminal i).
Definition set_header h i := MkIc (live i) (once i) (failed i) (wroteHeader i) (status i) (body i) h (informational i) (hijacked i) (storeErr i) (revokeRequested i) (hadProxyCookie i) (resolveErr i) (writeErr i) (metadataBytes i) (finalMetadataReserved i) (terminal i).
Definition set_info l i := MkIc (live i) (once i) (failed i) (wroteHeader i) (status i) (body i) (responseHeader i) l (hijacked i) (storeErr i) (revokeRequested i) (hadProxyCookie i) (resolveErr i) (writeErr i) (metadataBytes i) (finalMetadataReserved i) (terminal i).
Definition set_hijacked i := MkIc (live i) (once i) (failed i) (wroteHeader i) (status i) (body i) (responseHeader i) (informational i) true (storeErr i) (revokeRequested i) (hadProxyCookie i) (resolveErr i) (writeErr i) (metadataBytes i) (finalMetadataReserved i) (terminal i).
Definition set_revoke r i := MkIc (live i) (once i) (failed i) (wroteHeader i) (status i) (body i) (responseHeader i) (informational i) (hijacked i) (storeErr i) r (hadProxyCookie i) (resolveErr i) (writeErr i) (metadataBytes i) (finalMetadataReserved i) (terminal i).
Definition set_writeErr e i := MkIc (live i) (once i) (failed i) (wroteHeader i) (status i) (body i) (responseHeader i) (informational i) (hijacked i) (storeErr i) (revokeRequested i) (hadProxyCookie i) (resolveErr i) (Some e) (metadataBytes i) (finalMetadataReserved i) (terminal i).
Definition set_metadata n i := MkIc (live i) (once i) (failed i) (wroteHeader i) (status i) (body i) (responseHeader i) (informational i) (hijacked i) (storeErr i) (revokeRequested i) (hadProxyCookie i) (resolveErr i) (writeErr i) n (finalMetadataReserved i) (terminal i).
Definition set_final i := MkIc (live i) (once i) (failed i) (wroteHeader i) (status i) (body i) (responseHeader i) (informational i) (hijacked i) (storeErr i) (revokeRequested i) (hadProxyCookie i) (resolveErr i) (writeErr i) (metadataBytes i) true (terminal i).
Definition set_terminal i := MkIc (live i) (once i) (failed i) (wroteHeader i) (status i) (body i) (responseHeader i) (informational i) (hijacked i) (storeErr i) (revokeRequested i) (hadProxyCookie i) (resolveErr i) (writeErr i) (metadataBytes i) (finalMetadataReserved i) true.

(** The headers that belong to the proxy: the backend's controls. *)
Definition controlHeaders (h : Handler) : list string :=
  [IdentityHeader h; rotateHeaderName h; revokeHeaderName h; labelsHeaderName h].
Definition managedNames (h : Handler) : list string := "Set-Cookie" :: controlHeaders h.

(** [hdr.Del] of Set-Cookie and of every control header. *)
Definition delManaged (h : Handler) (hdr : Header) : Header := foldl Del hdr (managedNames h).

(** [discardBackendMetadata] *)
Definition discardBackendMetadata (h : Handler) (i : interceptor) : interceptor :=
  if once i then i
  else set_once (set_header
    (stripManagedTrailerDeclarations (delManaged h (responseHeader i)) (managedNames h)) i).

(** [scrubManagedResponseHeader] *)
Definition scrubManagedResponseHeader (h : Handler) (hdr : Header) : Header :=
  delManaged h (stripManagedTrailerDeclarations hdr (managedNames h)).

(** ** The response pipeline *)

(** [strconv.ParseBool] over every value of the revoke header. *)
Definition revoke_wanted (h : Handler) (acc : bool) (raw : list string) : bool :=
  if revokeEnabled h then
    foldl (fun acc v => match ParseBool v with Some want => acc || want | None => acc end) acc raw
  else acc.

(** (5) The owner the identity header names, if it is a positive integer. *)
Definition owner_control (raw : string) : option Z :=
  if decide (raw = "") then None
  else match ParseInt raw with
       | Some ownerID => if (0 <? ownerID)%Z then Some ownerID else None
       | None => None
       end.

(** (5b) The rotation request. *)
Definition rotate_requested (h : Handler) (raw : string) : bool :=
  if rotateEnabled h && negb (bool_decide (raw = "")) then
    match ParseBool raw with Some want => want | None => false end
  else false.

(** (5c) The granted labels, without the reserved one. *)
Definition labels_control (raw : list string) : option (list string) :=
  match raw with
  | [] => None
  | _ => Some (base.filter (fun l => l <> Authz.Anonymous) (splitLabels (join_with "," raw)))
  end.

(** [ensureLive] *)
Definition ensureLive (h : Handler) (l : option Manager.Live) : prog (res Manager.Live) :=
  match l with
  | Some l => Ret (Ok l)
  | None => Manager.Begin (manager h)
  end.

Section Pipeline.
(** [time.Parse] on cookie dates. *)
Context (date : string -> option Z) (h : Handler).

(** (6) The loop over the captured Set-Cookie headers: the handle, the response
    header and the mutations so far. *)
Fixpoint cookie_loop (setCookies : list string) (l : option Manager.Live) (hdr : Header)
    (muts : list Manager.Mutation) :
    prog (option error * option Manager.Live * Header * list Manager.Mutation) :=
  match setCookies with
  | [] => Ret (None, l, hdr, muts)
  | sc :: rest =>
    match ParseSetCookie date sc with
    | None => cookie_loop rest l hdr muts
    | Some cookie =>
      match Filter.Decide (filter h) (sc_Name cookie) with
      | Filter.Forward => cookie_loop rest l (Add hdr "Set-Cookie" sc) muts
      | Filter.Drop => cookie_loop rest l hdr muts
      | Filter.Store =>
        let* t := now in
        if cookieDeletesNow sc (sc_Expires cookie) t then
          cookie_loop rest l hdr
            (match l with
             | Some _ => muts ++ [Manager.MkMutation (sc_Name cookie) "" true]
             | None => muts
             end)
        else
          let* r := ensureLive h l in
          match r with
          | Err e => Ret (Some e, l, hdr, muts)
          | Ok l =>
            cookie_loop rest (Some l) hdr
              (muts ++ [Manager.MkMutation (sc_Name cookie) (sc_Value cookie) false])
          end
      end
    end
  end.

(** (6b) and (7): commit, then emit the proxy cookie. *)
Definition commit_response (owner : option Z) (labels : option (list string)) (rotate : bool)
    (muts : list Manager.Mutation) (l : option Manager.Live) (hdr : Header) :
    prog (option error * option Manager.Live * Header) :=
  let wanted := match owner, labels with
                | Some _, _ => true
                | None, Some ls => negb (bool_decide (ls = []))
                | None, None => false
                end in
  let* r := match l with
            | None => if wanted then let* r := ensureLive h None in
                        Ret (match r with Ok l => Ok (Some l) | Err e => Err e end)
                      else Ret (Ok None)
            | Some l => Ret (Ok (Some l))
            end in
  match r with
  | Err e => Ret (Some e, l, hdr)
  | Ok None => Ret (None, None, hdr)
  | Ok (Some l) =>
    let* (e, l) := Manager.ApplyResponse (manager h) owner labels rotate muts l in
    match e with
    | Some e => Ret (Some e, Some l, hdr)
    | None =>
      let '(val, changed) := Manager.NewProxyCookie l in
      Ret (None, Some l,
           if changed then Add hdr "Set-Cookie" (buildProxyCookie (Cookie h) val) else hdr)
    end
  end.

(** The revocation branch of [processLocked]. *)
Definition process_revoke (hdr : Header) (i : interceptor) : prog (option error * interceptor) :=
  let hdr := Del (Del (Del hdr (IdentityHeader h)) (rotateHeaderName h)) (labelsHeaderName h) in
  let* (e, l) := match live i with
                 | Some l => let* (e, l) := Manager.Revoke l in
                             Ret (e, match e with Some _ => Some l | None => None end)
                 | None => Ret (None, None)
                 end in
  match e with
  | Some e => Ret (Some e, set_live l (set_header hdr i))
  | None =>
    Ret (None, set_live l (set_header
      (if hadProxyCookie i then Add hdr "Set-Cookie" (buildExpiredProxyCookie (Cookie h)) else hdr) i))
  end.

Definition processLocked (i : interceptor) : prog (option error * interceptor) :=
  let hdr := responseHeader i in
  let setCookies := Values hdr "Set-Cookie" in
  let hdr := Del hdr "Set-Cookie" in
  if revokeRequested i then process_revoke hdr i
  else
    let ownerControl := owner_control (Get hdr (IdentityHeader h)) in
    let hdr := Del hdr (IdentityHeader h) in
    let rotateRequested := rotate_requested h (Get hdr (rotateHeaderName h)) in
    let hdr := Del hdr (rotateHeaderName h) in
    let labelsControl := labels_control (Values hdr (labelsHeaderName h)) in
    let hdr := Del hdr (labelsHeaderName h) in
    let* (e, l, hdr, muts) := cookie_loop setCookies (live i) hdr [] in
    match e with
    | Some e => Ret (Some e, set_live l (set_header hdr i))
    | None =>
      let* (e, l, hdr) := commit_response ownerControl labelsControl rotateRequested muts l hdr in
      Ret (e, set_live l (set_header hdr i))
    end.

Definition process (i : interceptor) : prog (option error * interceptor) :=
  let hdr := stripManagedTrailerDeclarations (responseHeader i) (managedNames h) in
  let rawRevoke := Values hdr (revokeHeaderName h) in
  let hdr := Del hdr (revokeHeaderName h) in
  let i := set_revoke (revoke_wanted h (revokeRequested i) rawRevoke) (set_header hdr i) in
  match revokeRequested i, resolveErr i with
  | true, Some e => Ret (Some e, i)
  | _, _ =>
    match live i with
    | Some l => Manager.WithLock (manager h) (Manager.l_SessionID l) (processLocked i) i
    | None => processLocked i
    end
  end.

Definition ensureProcessed (i : interceptor) : prog interceptor :=
  if once i then Ret i
  else
    let* (e, i) := process i in
    let i := set_once i in
    match e with
    | None => Ret i
    | Some e =>
      let i := set_header (delManaged h (responseHeader i)) i in
      Ret (if bool_decide (OnStoreError h = "fail_closed") || revokeRequested i
           then set_failed e i else i)
    end.
End Pipeline.
End Handler.
