(* ===== verification/HandlerProps.v ===== *)
(** * What the response pipeline leaves in the response

    Facts that hold whatever the store, the clock and the random source
    answer. *)

From stdpp Require Import base gmap strings list.
From Stdlib Require Import ZArith Lia.
From S2P Require Import Prelude GoStrings Crypto Http HttpProps Cookies Filter Authz.
From S2P Require Import StoreApi Manager Labels Staging Handler.
Import Staging Handler.

(** ** Results that hold for every reply *)

Fixpoint always {A} (P : A -> Prop) (p : prog A) : Prop :=
  match p with
  | Ret a => P a
  | Do o k => forall r, always P (k r)
  end.

Lemma always_bind {A B} (Q : A -> Prop) (P : B -> Prop) p (f : A -> prog B) :
  always Q p -> (forall a, Q a -> always P (f a)) -> always P (bind p f).
Proof. intros Hp Hf. induction p as [a|o k IH]; simpl in *; [auto|]. intros r. auto. Qed.

Lemma always_mono {A} (P Q : A -> Prop) p : always P p -> (forall a, P a -> Q a) -> always Q p.
Proof. intros Hp Hi. induction p as [a|o k IH]; simpl in *; auto. Qed.

Lemma always_True {A} (p : prog A) : always (fun _ => True) p.
Proof. induction p; simpl; auto. Qed.

Lemma always_run {A S} `{Store S} (P : A -> Prop) p (w : world S) : always P p -> P (run p w).1.
Proof.
  revert w; induction p as [a|o k IH]; intros w Hp; [done|]. cbn [run].
  destruct (step o w) as [r w']. by apply IH.
Qed.

(** ** Header maps *)

Lemma Values_foldl_Del ks hdr k :
  Values (foldl Del hdr ks) k =
    if decide (canonical_key k ∈ canonical_key <$> ks) then [] else Values hdr k.
Proof. unfold Values. rewrite lookup_foldl_Del. by case_decide. Qed.

Lemma delManaged_none h hdr n : n ∈ managedNames h -> Values (delManaged h hdr) n = [].
Proof.
  intros Hn. unfold delManaged. rewrite Values_foldl_Del, decide_True; [done|].
  by apply list_elem_of_fmap_2.
Qed.

(** The control headers are none of the headers the proxy itself writes, and not
    the trailer declaration. *)
Definition reserved_headers : list string := 
  ["Set-Cookie"; "Cookie"; "Location"; "X-Auth-Endpoint"; "Trailer"].
Definition sane_names (h : Handler) : Prop :=
  Forall (fun n => canonical_key n ∉ reserved_headers) (controlHeaders h).

Lemma sane_name h n k :
  sane_names h -> n ∈ controlHeaders h -> k ∈ reserved_headers -> canonical_key n <> k.
Proof.
  unfold sane_names. rewrite Forall_forall. intros Hs Hn Hk E. apply (Hs n Hn). by rewrite E.
Qed.

(** ** Managed headers in a response *)

(** None of the control headers is present. *)
Definition no_controls (h : Handler) (hdr : Header) : Prop :=
  forall n, n ∈ controlHeaders h -> Values hdr n = [].

(** No control header or cookie is announced or sent as a trailer. *)
Definition no_trailers (h : Handler) (hdr : Header) : Prop :=
  (forall n, n ∈ announced hdr -> canonical_key n ∉ managed_set (managedNames h))
  /\ forall k, blocked (managed_set (managedNames h)) k = true -> hdr !! k = None.

Lemma no_controls_Add h hdr v :
  sane_names h -> no_controls h hdr -> no_controls h (Add hdr "Set-Cookie" v).
Proof.
  intros Hs Hn n Hin. rewrite Values_Add, decide_False; [auto|].
  change (canonical_key "Set-Cookie") with "Set-Cookie".
  intros E. symmetry in E. revert E. apply (sane_name h); [done..|by left].
Qed.

Lemma Set_Cookie_not_blocked m : blocked m "Set-Cookie" = false.
Proof. unfold blocked. by vm_compute (has_trailer_prefix "Set-Cookie"). Qed.

Lemma no_trailers_Add h hdr v : no_trailers h hdr -> no_trailers h (Add hdr "Set-Cookie" v).
Proof.
  intros [H1 H2]. split.
  - intros n. unfold announced. rewrite Values_Add, decide_False by done. apply H1.
  - intros k Hk. unfold Add. change (canonical_key "Set-Cookie") with "Set-Cookie".
    rewrite lookup_insert_ne; [auto|]. intros <-. by rewrite Set_Cookie_not_blocked in Hk.
Qed.

Lemma no_trailers_Del h hdr k : no_trailers h hdr -> no_trailers h (Del hdr k).
Proof.
  intros [H1 H2]. split.
  - intros n. unfold announced. rewrite Values_Del. case_decide; [|apply H1].
    simpl. intros Hn. by apply elem_of_nil in Hn.
  - intros k' Hk'. rewrite lookup_Del. case_decide; auto.
Qed.

Lemma no_trailers_foldl_Del h hdr ks : no_trailers h hdr -> no_trailers h (foldl Del hdr ks).
Proof. revert hdr; induction ks as [|k ks IH]; intros hdr H; [done|]. simpl. by apply IH, no_trailers_Del. Qed.

Lemma blocked_not_trailer m : blocked m "Trailer" = false.
Proof. unfold blocked. by vm_compute (has_trailer_prefix "Trailer"). Qed.

Lemma no_trailers_strip h hdr :
  no_trailers h (stripManagedTrailerDeclarations hdr (managedNames h)).
Proof.
  split.
  - intros n Hn. by apply strip_announced in Hn as [? _].
  - intros k Hk. destruct (decide (k = "Trailer")) as [->|Hne]; [by rewrite blocked_not_trailer in Hk|].
    by apply strip_lookup.
Qed.

(** A Set-Cookie value the proxy may send: one of the backend's own that the
    filter forwards, or the proxy cookie. *)
Definition sendable (date : string -> option Z) (h : Handler) (original : list string) (sc : string) : Prop :=
  (sc ∈ original /\ exists c, ParseSetCookie date sc = Some c
     /\ Filter.Decide (filter h) (sc_Name c) = Filter.Forward)
  \/ (exists v, sc = buildProxyCookie (Cookie h) v) \/ sc = buildExpiredProxyCookie (Cookie h).

Definition clean_response (date : string -> option Z) (h : Handler) (original : list string)
    (hdr : Header) : Prop :=
  no_controls h hdr /\ no_trailers h hdr
  /\ Forall (sendable date h original) (Values hdr "Set-Cookie").

Lemma clean_Add date h original hdr v :
  sane_names h -> clean_response date h original hdr -> sendable date h original v ->
  clean_response date h original (Add hdr "Set-Cookie" v).
Proof.
  intros Hs (H1 & H2 & H3) Hv. split_and!; [by apply no_controls_Add|by apply no_trailers_Add|].
  rewrite Values_Add, decide_True by done. apply Forall_app. split; [done|]. by apply Forall_singleton.
Qed.

Lemma no_controls_Del h hdr k : no_controls h hdr -> no_controls h (Del hdr k).
Proof. intros H n Hn. rewrite Values_Del. case_decide; [done|auto]. Qed.

(** Deleting the other three control headers leaves none. *)
Lemma del_controls h hdr :
  Values hdr (revokeHeaderName h) = [] ->
  no_controls h (Del (Del (Del hdr (IdentityHeader h)) (rotateHeaderName h)) (labelsHeaderName h)).
Proof.
  intros Hr n Hn. unfold controlHeaders in Hn. rewrite !elem_of_cons in Hn. rewrite !Values_Del.
  destruct Hn as [->|[->|[->|[->|Hn%elem_of_nil]]]]; repeat case_decide; done.
Qed.

(** ** The pipeline *)

Section Pipeline.
Context (date : string -> option Z) (h : Handler) (original : list string).
Hypothesis names_sane : sane_names h.

Lemma cookie_loop_clean scs l hdr muts :
  (forall sc, sc ∈ scs -> sc ∈ original) -> clean_response date h original hdr ->
  always (fun r => clean_response date h original r.1.2) (cookie_loop date h scs l hdr muts).
Proof.
  revert l hdr muts; induction scs as [|sc scs IH]; intros l hdr muts Hin Hc; [done|].
  assert (Hin' : forall x, x ∈ scs -> x ∈ original) by (intros; apply Hin; by right).
  cbn [cookie_loop]. destruct (ParseSetCookie date sc) as [c|] eqn:Ec; [|by apply IH].
  destruct (Filter.Decide (filter h) (sc_Name c)) eqn:Ed; [by apply IH|..].
  - apply IH; [done|]. apply clean_Add; [done..|]. left. split; [apply Hin; by left|eauto].
  - unfold now. cbn [bind always]. intros t. destruct (cookieDeletesNow _ _ _); [by apply IH|].
    eapply always_bind; [apply always_True|]. intros [l'|e] _; [by apply IH|done].
Qed.

Lemma commit_response_clean owner labels rot muts l hdr :
  clean_response date h original hdr ->
  always (fun r => clean_response date h original r.2) (commit_response h owner labels rot muts l hdr).
Proof.
  intros Hc. unfold commit_response. eapply always_bind; [apply always_True|].
  intros [[l'|]|e] _; [|done|done].
  eapply always_bind; [apply always_True|]. intros [[e|] l''] _; [done|].
  destruct (Manager.NewProxyCookie l'') as [val []]; [|done].
  cbn [always snd]. apply clean_Add; [done..|]. right. left. eauto.
Qed.

Lemma process_revoke_clean hdr i :
  no_trailers h hdr -> Values hdr (revokeHeaderName h) = [] -> Values hdr "Set-Cookie" = [] ->
  always (fun r => clean_response date h original (responseHeader r.2)) (process_revoke h hdr i).
Proof.
  intros Ht Hr Hs. unfold process_revoke.
  set (hdr' := Del (Del (Del hdr _) _) _).
  assert (Hc : clean_response date h original hdr').
  { split_and!.
    - by apply del_controls.
    - unfold hdr'. by repeat apply no_trailers_Del.
    - unfold hdr'. rewrite !Values_Del, Hs. by repeat case_decide. }
  eapply always_bind; [apply always_True|]. intros [[e|] l] _; [done|].
  cbn [always snd]. unfold set_live, set_header. cbn [responseHeader].
  destruct (hadProxyCookie i); [|done]. apply clean_Add; [done..|]. by right; right.
Qed.

Lemma processLocked_clean i :
  no_trailers h (responseHeader i) -> Values (responseHeader i) (revokeHeaderName h) = [] ->
  (forall sc, sc ∈ Values (responseHeader i) "Set-Cookie" -> sc ∈ original) ->
  always (fun r => clean_response date h original (responseHeader r.2)) (processLocked date h i).
Proof.
  intros Ht Hr Ho. unfold processLocked. cbn zeta.
  set (hdr0 := Del (responseHeader i) "Set-Cookie").
  assert (Hs0 : Values hdr0 "Set-Cookie" = []) by (unfold hdr0; by rewrite Values_Del, decide_True).
  assert (Hr0 : Values hdr0 (revokeHeaderName h) = [])
    by (unfold hdr0; rewrite Values_Del; by case_decide).
  assert (Ht0 : no_trailers h hdr0) by (by apply no_trailers_Del).
  destruct (revokeRequested i); [by apply process_revoke_clean|].
  set (hdr' := Del (Del (Del hdr0 _) _) _).
  assert (Hc : clean_response date h original hdr').
  { split_and!.
    - by apply del_controls.
    - unfold hdr'. by repeat apply no_trailers_Del.
    - unfold hdr'. rewrite !Values_Del, Hs0. by repeat case_decide. }
  eapply always_bind; [by apply cookie_loop_clean|].
  intros [[[[e|] l] hdr2] muts] Hc2; [done|]. cbn [fst snd] in Hc2.
  eapply always_bind; [by apply commit_response_clean|].
  intros [[e l2] hdr3] Hc3. done.
Qed.

Lemma WithLock_always {A} (P : option error * A -> Prop) cfg sid fn skipped :
  always P fn -> (forall e, P (Some e, skipped)) -> always P (Manager.WithLock cfg sid fn skipped).
Proof.
  intros Hf Hs. unfold Manager.WithLock. destruct (negb _); [done|].
  unfold call. cbn [bind always]. intros [[token|]|e]; cbn [always]; [|auto|auto].
  eapply always_bind; [exact Hf|]. intros r Hr. cbn [bind always]. auto.
Qed.

(** Whatever happens, the processed response is clean, and carries no cookie at
    all when an error was met. *)
Lemma process_clean i :
  (forall sc, sc ∈ Values (stripManagedTrailerDeclarations (responseHeader i) (managedNames h)) "Set-Cookie"
     -> sc ∈ original) ->
  always (fun r => r.1 = None -> clean_response date h original (responseHeader r.2)) (process date h i)
  /\ always (fun r => no_trailers h (responseHeader r.2)) (process date h i).
Proof.
  intros Ho. unfold process. cbn zeta.
  set (hdr := Del _ (revokeHeaderName h)).
  set (i' := set_revoke _ _).
  assert (Ht : no_trailers h hdr) by apply no_trailers_Del, no_trailers_strip.
  assert (Hr : Values hdr (revokeHeaderName h) = []) by (unfold hdr; by rewrite Values_Del, decide_True).
  assert (HL : always (fun r => clean_response date h original (responseHeader r.2)) (processLocked date h i')).
  { apply processLocked_clean; [done..|]. unfold i', set_revoke, set_header. cbn [responseHeader].
    unfold hdr. rewrite Values_Del. case_decide; [intros sc Hn; by apply elem_of_nil in Hn|done]. }
  assert (Hi : no_trailers h (responseHeader i')) by done.
  split.
  - destruct (revokeRequested i'), (resolveErr i'); try done;
      (destruct (live i'); [apply WithLock_always; [|done]|]);
      (eapply always_mono; [exact HL|done]).
  - destruct (revokeRequested i'), (resolveErr i'); try done;
      (destruct (live i'); [apply WithLock_always; [|done]|]);
      (eapply always_mono; [exact HL|]; intros r (_ & ? & _); done).
Qed.
End Pipeline.
