(* ===== verification/Serve.v ===== *)
(** * Serving a request ([session_store.go], [ServeHTTP])

    The downstream handler is the sequence of calls it makes on the interceptor
    and the error it returns; the client's writer is a header map and the list
    of what was put on the wire. *)

From stdpp Require Import base gmap strings list.
From Stdlib Require Import ZArith Lia Ascii.
From S2P Require Import Prelude GoStrings Crypto GoTime Http Cookies Filter Authz.
From S2P Require Import StoreApi Manager Staging Handler.
Import Staging Handler.
Local Open Scope prog_scope.

Module Serve.

(** ** The client's writer *)

Inductive event :=
| EvHeader (status : Z) (hdr : Header)   (** [WriteHeader] with the header map of that moment *)
| EvBody (bytes : string)
| EvFlush
| EvHijack.

Record writer := MkWriter { w_header : Header; w_events : list event }.

Definition emit (e : event) (w : writer) : writer := MkWriter (w_header w) (w_events w ++ [e]).
Definition with_header (hdr : Header) (w : writer) : writer := MkWriter hdr (w_events w).
Definition WriteStatus (s : Z) (w : writer) : writer := emit (EvHeader s (w_header w)) w.

(** ** Metadata reservations *)

(** [generatedMetadataAllowance]: room for the proxy cookie. *)
Definition generatedMetadataAllowance (h : Handler) : Z :=
  let issued := len (buildProxyCookie (Cookie h) (join_with "" (replicate 43 "x"))) in
  let expired := len (buildExpiredProxyCookie (Cookie h)) in
  (len "Set-Cookie" + Z.max issued expired + 4)%Z.

Definition reserveBytes (n : Z) (i : interceptor) (g : stagedResponseBudget) :
    option serr * interceptor * stagedResponseBudget :=
  let '(e, meta, b, g) := reserveMetadataBytes n (metadataBytes i) (body i) g in
  (e, set_metadata meta (set_body b i), g).

Definition reserveFinalMetadata (h : Handler) (i : interceptor) (g : stagedResponseBudget) :
    option serr * interceptor * stagedResponseBudget :=
  if finalMetadataReserved i then (None, i, g)
  else
    let '(e, i, g) :=
      reserveBytes (stagedHeaderBytes (responseHeader i) + generatedMetadataAllowance h) i g in
    match e with
    | Some e => (Some e, i, g)
    | None => (None, set_final i, g)
    end.

Definition note_writeErr (e : serr) (i : interceptor) : interceptor :=
  match writeErr i with None => set_writeErr e i | Some _ => i end.

(** ** The interceptor's methods; [None] is a panic *)

Definition WriteHeader (s : Z) (i : interceptor) (g : stagedResponseBudget) :
    option (interceptor * stagedResponseBudget) :=
  if wroteHeader i then Some (i, g)
  else if ((s <? 100) || (999 <? s))%Z then None
  else if ((100 <=? s) && (s <? 200) && negb (s =? 101))%Z then
    if stagedResponseMaxInformational <=? length (informational i) then
      Some (note_writeErr errTooManyInformationalResponses i, g)
    else
      let '(e, i, g) := reserveBytes (stagedHeaderBytes (responseHeader i)) i g in
      match e with
      | Some e => Some (note_writeErr e i, g)
      | None => Some (set_info (informational i ++ [(s, responseHeader i)]) i, g)
      end
  else Some (set_status s i, g).

(** The statuses that carry no body. *)
Definition bodyless (s : Z) : bool :=
  ((s =? 204) || (s =? 304) || ((100 <=? s) && (s <? 200)))%Z.

Definition Write (io : write_io) (p : string) (i : interceptor) (w : writer)
    (g : stagedResponseBudget) : option (interceptor * writer * stagedResponseBudget) :=
  if terminal i then Some (i, emit (EvBody p) w, g)
  else
    match (if wroteHeader i then Some (i, g) else WriteHeader 200 i g) with
    | None => None
    | Some (i, g) =>
        if bodyless (status i) then Some (i, w, g)
        else
          let '(_, err, b, g) := Staging.Write io p (body i) g in
          let i := set_body b i in
          Some (match err with Some e => note_writeErr e i | None => i end, w, g)
    end.

(** [commitInformational] *)
Definition commitInformational (h : Handler) (i : interceptor) (w : writer) : writer :=
  foldl (fun w sh =>
    WriteStatus sh.1 (with_header (copyHeaders (w_header w) (scrubManagedResponseHeader h sh.2)) w))
    w (informational i).

Definition releaseTerminalStaging (i : interceptor) (g : stagedResponseBudget) :
    interceptor * stagedResponseBudget :=
  let '(b, g) := Reset (body i) g in
  (set_metadata 0 (set_header (clearHeaders (responseHeader i)) (set_info [] (set_body b i))), g).

(** The irreversible part shared by [FlushError] and [Hijack]; [always] is
    whether a status line is written even if the backend wrote none. *)
Definition commitTerminal (h : Handler) (always : bool) (i : interceptor) (w : writer)
    (g : stagedResponseBudget) : interceptor * writer * stagedResponseBudget :=
  let i := set_terminal (discardBackendMetadata h i) in
  let w := commitInformational h i w in
  let w := with_header (copyHeaders (w_header w) (responseHeader i)) w in
  let w := if always || wroteHeader i then WriteStatus (status i) w else w in
  let '(i, g) := releaseTerminalStaging i g in
  (i, w, g).

(** [FlushError] for an extended CONNECT; [out] is the underlying flush. *)
Definition FlushError (h : Handler) (extended : bool) (out : option string) (i : interceptor)
    (w : writer) (g : stagedResponseBudget) : option (interceptor * writer * stagedResponseBudget) :=
  if negb extended then Some (i, w, g)
  else if terminal i then Some (i, emit EvFlush w, g)
  else
    match writeErr i with
    | Some _ => Some (i, w, g)
    | None =>
        let '(e, i, g) := reserveFinalMetadata h i g in
        match e with
        | Some e => Some (set_writeErr e i, w, g)
        | None =>
            if negb (Len (body i) =? 0)%Z then Some (i, w, g)
            else
              match (if wroteHeader i then Some (i, g) else WriteHeader 200 i g) with
              | None => None
              | Some (i, g) =>
                  let '(i, w, g) := commitTerminal h true i w g in
                  Some (match out with None => set_hijacked i | Some _ => i end, emit EvFlush w, g)
              end
        end
    end.

(** [Hijack]; [supported] is whether the client's writer can be hijacked. *)
Definition Hijack (h : Handler) (supported : bool) (out : option string) (i : interceptor)
    (w : writer) (g : stagedResponseBudget) : interceptor * writer * stagedResponseBudget :=
  if negb supported then (i, w, g)
  else
    match writeErr i with
    | Some _ => (i, w, g)
    | None =>
        let '(e, i, g) := reserveFinalMetadata h i g in
        match e with
        | Some e => (set_writeErr e i, w, g)
        | None =>
            if negb (Len (body i) =? 0)%Z then (i, w, g)
            else
              let '(i, w, g) := commitTerminal h false i w g in
              match out with
              | None => (set_hijacked i, emit EvHijack w, g)
              | Some _ => (i, w, g)
              end
        end
    end.

(** ** The downstream handler *)

Inductive action :=
| AHeader (f : Header -> Header)          (** any update of the response header map *)
| AWriteHeader (s : Z)
| AWrite (io : write_io) (p : string)
| AFlush (out : option string)
| AHijack (supported : bool) (out : option string).

Definition act (h : Handler) (extended : bool) (a : action) (i : interceptor) (w : writer)
    (g : stagedResponseBudget) : option (interceptor * writer * stagedResponseBudget) :=
  match a with
  | AHeader f => Some (set_header (f (responseHeader i)) i, w, g)
  | AWriteHeader s => (fun ig => (ig.1, w, ig.2)) <$> WriteHeader s i g
  | AWrite io p => Write io p i w g
  | AFlush out => FlushError h extended out i w g
  | AHijack supported out => Some (Hijack h supported out i w g)
  end.

(** The whole run; the flag is whether it panicked (a panicking call changes
    nothing). *)
Fixpoint downstream (h : Handler) (extended : bool) (acts : list action) (i : interceptor)
    (w : writer) (g : stagedResponseBudget) :
    bool * interceptor * writer * stagedResponseBudget :=
  match acts with
  | [] => (false, i, w, g)
  | a :: acts' =>
      match act h extended a i w g with
      | None => (true, i, w, g)
      | Some (i, w, g) => downstream h extended acts' i w g
      end
  end.

(** ** The request *)

(** A request body.  [NetBody] is the connection's: net/http fills the request's
    trailer map while it is read.  [ScrubbingBody] is [trailerScrubbingBody],
    which holds the same map and the names to keep out of it. *)
Inductive body_reader :=
| NetBody
| ScrubbingBody (inner : body_reader) (names : list string).

(** The connection's part in one [Read] or [Close]: the bytes, the error, and
    what it does to the trailer map. *)
Record net_read := MkNetRead { nr_bytes : string; nr_err : option string; nr_arrive : Header -> Header }.

(** [scrub] *)
Definition scrub (names : list string) (trailer : Header) : Header := foldl Del trailer names.

(** [Read]; [Close] is the same with no bytes.  A nil trailer map stays nil. *)
Fixpoint body_Read (b : body_reader) (io : net_read) (trailer : option Header) :
    string * option string * option Header :=
  match b with
  | NetBody => (nr_bytes io, nr_err io, nr_arrive io <$> trailer)
  | ScrubbingBody inner names =>
      let '(bytes, err, trailer) := body_Read inner io trailer in
      (bytes, err, scrub names <$> trailer)
  end.

Record request := MkRequest {
  r_header : Header;
  r_trailer : option Header;
  r_body : option body_reader;
  r_path : string;
  r_query : string;
  r_extended : bool }.   (** an extended-CONNECT upgrade *)

(** (0) Client-supplied control headers and trailers are removed, also those
    that arrive with the body. *)
Definition stripControls (h : Handler) (r : request) : request :=
  let managedHeaders := controlHeaders h in
  let trailer := (fun t => foldl Del t managedHeaders) <$> r_trailer r in
  let body := match r_body r, trailer with
              | Some b, Some _ => Some (ScrubbingBody b managedHeaders)
              | b, _ => b
              end in
  MkRequest (foldl Del (r_header r) managedHeaders) trailer body (r_path r) (r_query r) (r_extended r).

(** A handler reads and closes the body of its request: what it was given, and
    the request's trailer map afterwards. *)
Fixpoint read_body (r : request) (ios : list net_read) : list (string * option string) * option Header :=
  match r_body r, ios with
  | Some b, io :: ios' =>
      let '(bytes, err, trailer) := body_Read b io (r_trailer r) in
      let '(got, trailer) :=
        read_body (MkRequest (r_header r) trailer (Some b) (r_path r) (r_query r) (r_extended r)) ios' in
      ((bytes, err) :: got, trailer)
  | _, _ => ([], r_trailer r)
  end.

(** [url.QueryEscape] *)
Definition unreserved (c : ascii) : bool :=
  is_upper c || is_lower c || is_digit c || contains_byte c "-_.~".
Definition hex_upper (z : Z) : ascii := ascii_of_Z (if (z <? 10)%Z then 48 + z else 55 + z)%Z.
Fixpoint QueryEscape (s : string) : string :=
  match s with
  | EmptyString => ""
  | String c s' =>
      if unreserved c then String c (QueryEscape s')
      else if decide (c = " "%char) then String "+" (QueryEscape s')
      else String "%" (String (hex_upper (byte_val c / 16)%Z)
             (String (hex_upper (byte_val c mod 16)%Z) (QueryEscape s')))
  end.

(** [strings.Contains] *)
Fixpoint contains (s sub : string) : bool :=
  has_prefix s sub || match s with EmptyString => false | String _ s' => contains s' sub end.

Definition denyAuthz (h : Handler) (a : Authz.Authz) (r : request) (required : string) (w : writer) :
    writer :=
  let endpoint := Authz.Endpoint a required in
  if contains (Get (r_header r) "Accept") "text/html" then
    let rd := if decide (r_query r = "") then r_path r else r_path r +:+ "?" +:+ r_query r in
    let sep := if contains endpoint "?" then "&" else "?" in
    WriteStatus 302 (with_header (Set_ (w_header w) "Location"
      (endpoint +:+ sep +:+ Authz.GetRedirectParam a +:+ "=" +:+ QueryEscape rd)) w)
  else
    WriteStatus 401 (with_header (Set_ (w_header w) "X-Auth-Endpoint" endpoint) w).

(** ** ServeHTTP *)

(** What the method returns: an error for Caddy to render, or nothing. *)
Inductive outcome :=
| RNil
| RStoreError (e : error)    (** [caddyhttp.Error(502, err)] *)
| RNext (e : string)         (** the downstream handler's error *)
| RFlush (e : serr)
| RPanic.

(** The response and what the backend was given, if it was called. *)
Record served := MkServed {
  s_outcome : outcome;
  s_writer : writer;
  s_budget : stagedResponseBudget;
  s_backend : option request }.

(** The operating system's part in reading the staged body back, and the
    client's part in the final write. *)
Record client_io := MkClientIo { io_validate : read_io; io_flush : read_io; io_client : writer_out }.

Section ServeHTTP.
Context (date : string -> option Z) (h : Handler).

Definition withStatus (w : writer) : writer := WriteStatus 502 (with_header (clearHeaders (w_header w)) w).

(** After the downstream handler returned: decide, commit, flush. *)
Definition finish (cio : client_io) (next_err : option string) (i : interceptor) (w : writer)
    (g : stagedResponseBudget) (up : request) : prog served :=
  let close i g := (Close (body i) g).2 in
  let drop i g := let '(b, g) := Reset (body i) g in (set_body b i, g) in
  let bad_gateway i g := let '(i, g) := drop i g in
    Ret (MkServed RNil (withStatus w) (close i g) (Some up)) in
  match writeErr i, next_err with
  | Some _, _ => bad_gateway (discardBackendMetadata h i) g
  | None, Some e =>
      let '(i, g) := drop (discardBackendMetadata h i) g in
      Ret (MkServed (RNext e) (with_header (clearHeaders (w_header w)) w) (close i g) (Some up))
  | None, None =>
      let '(e, i, g) := reserveFinalMetadata h i g in
      match e with
      | Some _ => bad_gateway (discardBackendMetadata h i) g
      | None =>
          if terminal i then Ret (MkServed RNil w (close i g) (Some up))
          else
            let '(e, b) := Validate (io_validate cio) (body i) in
            let i := set_body b i in
            match e with
            | Some _ => bad_gateway (discardBackendMetadata h i) g
            | None =>
                let* i := ensureProcessed date h i in
                if failed i then bad_gateway i g
                else
                  let w := commitInformational h i w in
                  let w := with_header (copyHeaders (w_header w) (responseHeader i)) w in
                  if negb (wroteHeader i) then Ret (MkServed RNil w (close i g) (Some up))
                  else
                    let w := WriteStatus (if (status i =? 0)%Z then 200 else status i)%Z w in
                    if (0 <? Len (body i))%Z then
                      let '(bytes, e, b) := FlushTo (io_flush cio) (io_client cio) (body i) in
                      let w := emit (EvBody bytes) w in
                      Ret (MkServed (match e with Some e => RFlush e | None => RNil end) w
                             (Close b g).2 (Some up))
                    else Ret (MkServed RNil w (close i g) (Some up))
            end
      end
  end.

(** The interceptor of a request. *)
Definition newInterceptor (l : option Manager.Live) (had : bool) (rerr : option error) (w : writer) :
    interceptor :=
  MkIc l false false false 0 emptyBody (w_header w) [] false None false had rerr None 0 false false.

(** (1b) The label the path requires and the session does not have. *)
Definition missing_label (l : option Manager.Live) (path : string) : option (Authz.Authz * string) :=
  a ← authz h;
  let required := Authz.Required a path in
  if decide (required = Authz.Anonymous) then None
  else match l with
       | Some l => if Manager.HasLabel l required then None else Some (a, required)
       | None => Some (a, required)
       end.

(** (1-4) The session the proxy cookie names. *)
Definition resolve_cookie (r : request) : prog (bool * option error * option Manager.Live) :=
  match RequestCookie (r_header r) (cc_Name (Cookie h)) with
  | None => Ret (false, None, None)
  | Some c =>
      let* rl := Manager.Resolve (manager h) (Value c) in
      Ret (match rl with Err e => (true, Some e, None) | Ok l => (true, None, l) end)
  end.

(** The request handed to the backend. *)
Definition upstream (l : option Manager.Live) (r : request) : request :=
  let cached := match l with Some l => map_to_list (Manager.l_Cookies l) | None => [] end in
  MkRequest (prepareUpstreamCookies (cc_Name (Cookie h)) (filter h) (r_header r) cached)
    (r_trailer r) (r_body r) (r_path r) (r_query r) (r_extended r).

(** [next] is the downstream handler, as a function of the request it is given:
    its calls and the error it returns. *)
Definition ServeHTTP (next : request -> list action * option string) (cio : client_io) (w : writer)
    (g : stagedResponseBudget) (r : request) : prog served :=
  let r := stripControls h r in
  let* (had, rerr, l) := resolve_cookie r in
  match rerr, bool_decide (OnStoreError h = "fail_closed") with
  | Some e, true => Ret (MkServed (RStoreError e) w g None)
  | _, _ =>
      match missing_label l (r_path r) with
      | Some (a, required) => Ret (MkServed RNil (denyAuthz h a r required w) g None)
      | None =>
          let up := upstream l r in
          let '(acts, next_err) := next up in
          let '(panicked, i, w, g) :=
            downstream h (r_extended r) acts (newInterceptor l had rerr w) w g in
          if panicked then Ret (MkServed RPanic w (Close (body i) g).2 (Some up))
          else finish cio next_err i w g up
      end
  end.
End ServeHTTP.
End Serve.
