(* ===== verification/HandlerThms.v ===== *)
(** * The response pipeline is safe

    No backend secret survives it, logout fails closed also over a store that
    loses calls, it may run concurrently with any other request, and the labels it
    grants survive storage. *)

From stdpp Require Import base gmap strings list sorting.
From Stdlib Require Import ZArith Lia.
From S2P Require Import Prelude GoStrings Crypto GoTime GoStrconv Http HttpProps Cookies Filter.
From S2P Require Import Authz StoreApi Memory MemoryProps Faulty Concurrency Manager ManagerSafety.
From S2P Require Import ManagerThms Labels Revocation Staging Handler HandlerProps.
Import Memory MemoryProps Faulty Staging Handler.

Lemma strip_Set_Cookie hdr names sc :
  sc ∈ Values (stripManagedTrailerDeclarations hdr names) "Set-Cookie" -> sc ∈ Values hdr "Set-Cookie".
Proof.
  unfold Values. change (canonical_key "Set-Cookie") with "Set-Cookie".
  destruct (strip_lookup hdr names "Set-Cookie") as [[->|[-> _]] _]; [done|done|].
  simpl. intros H. by apply elem_of_nil in H.
Qed.

(** Whatever the store does, the processed response carries none of the backend's
    control headers, announces and sends none of them (nor any cookie) as a
    trailer, and its only cookies are backend cookies the filter forwards and the
    proxy's own. *)
Lemma ensureProcessed_clean date h i :
  sane_names h -> once i = false ->
  always (fun i' => clean_response date h (Values (responseHeader i) "Set-Cookie") (responseHeader i'))
    (ensureProcessed date h i).
Proof.
  intros Hs Ho. unfold ensureProcessed. rewrite Ho.
  destruct (process_clean date h (Values (responseHeader i) "Set-Cookie") Hs i) as [HA HB];
    [intros sc; apply strip_Set_Cookie|].
  eapply (always_bind (fun r => (r.1 = None -> clean_response date h
    (Values (responseHeader i) "Set-Cookie") (responseHeader r.2)) /\ no_trailers h (responseHeader r.2))).
  { clear -HA HB. induction (process date h i) as [r|o k IH]; simpl in *; [done|].
    intros r. by apply IH. }
  intros [[e|] i'] [H1 H2]; cbn [fst snd] in *; [|by apply H1].
  assert (Hc : clean_response date h (Values (responseHeader i) "Set-Cookie")
    (delManaged h (responseHeader i'))).
  { split_and!.
    - intros n Hn. apply delManaged_none. by right.
    - by apply no_trailers_foldl_Del.
    - rewrite delManaged_none by left. constructor. }
  destruct (_ || _); exact Hc.
Qed.

(** ** Logout *)

(** The backend asks for a revocation. *)
Definition revoke_asked (h : Handler) (i : interceptor) : bool :=
  revoke_wanted h false
    (Values (stripManagedTrailerDeclarations (responseHeader i) (managedNames h)) (revokeHeaderName h)).

(** What a completed logout leaves. *)
Definition logged_out (h : Handler) (i i' : interceptor) : Prop :=
  live i' = None
  /\ Values (responseHeader i') "Set-Cookie" =
       if hadProxyCookie i then [buildExpiredProxyCookie (Cookie h)] else [].

Lemma process_revoke_result h hdr i :
  Values hdr "Set-Cookie" = [] ->
  always (fun r => r.1 = None -> logged_out h i r.2) (process_revoke h hdr i).
Proof.
  intros Hs. unfold process_revoke.
  eapply (always_bind (fun r => r.1 = None -> r.2 = None)).
  { destruct (live i) as [l|]; [|done]. eapply always_bind; [apply always_True|].
    intros [[e|] l'] _; done. }
  intros [[e|] l] Hl; cbn [fst snd] in Hl; [done|]. rewrite Hl by done. cbn [always fst snd].
  intros _. split; [done|]. unfold set_live, set_header. cbn [responseHeader].
  destruct (hadProxyCookie i); rewrite ?Values_Add, ?decide_True, !Values_Del, Hs by done;
    by repeat case_decide.
Qed.

Lemma process_revoke_asked date h i :
  revoke_asked h i = true -> revokeRequested i = false ->
  always (fun r => (r.1 = None -> logged_out h i r.2) /\ revokeRequested r.2 = true) (process date h i).
Proof.
  intros Ha Hr. unfold process. cbn zeta. rewrite Hr. unfold revoke_asked in Ha. rewrite Ha.
  set (i' := set_revoke true _).
  assert (HL : always (fun r => (r.1 = None -> logged_out h i r.2) /\ revokeRequested r.2 = true)
    (processLocked date h i')).
  { unfold processLocked. cbn [revokeRequested i' set_revoke].
    set (hdr := Del (responseHeader i') "Set-Cookie").
    assert (Hs : Values hdr "Set-Cookie" = []) by (unfold hdr; by rewrite Values_Del, decide_True).
    pose proof (process_revoke_result h hdr i' Hs) as HP.
    assert (HR : always (fun r => revokeRequested r.2 = true) (process_revoke h hdr i')).
    { unfold process_revoke. eapply always_bind; [apply always_True|]. by intros [[e|] l] _. }
    clear -HP HR. induction (process_revoke h hdr i') as [r|o k IH]; simpl in *; [done|].
    intros r. by apply IH. }
  cbn [revokeRequested i' set_revoke resolveErr].
  destruct (resolveErr _); [done|]. destruct (live _); [|exact HL].
  apply WithLock_always; [exact HL|done].
Qed.

(** Nothing of a session is left to log in with. *)
Definition deleted (sid : string) (m : Memory) : Prop :=
  sessions m !! sid = None /\ forall k, keys m !! k <> Some sid.

(** The revocation branch reports success only after the store has. *)
Lemma process_revoke_deletes h hdr i l (w : world (faulty Memory)) r w' :
  live i = Some l -> run (process_revoke h hdr i) w = ((None, r), w') ->
  deleted (Manager.l_SessionID l) (inner (w_store w')).
Proof.
  intros Hl. unfold process_revoke. rewrite Hl. unfold Manager.Revoke, call. cbn [bind run step].
  destruct (exec _ (w_store w)) as [[e|] f] eqn:E; cbn [bind run]; [done|].
  intros [= _ <-]. cbn [w_store]. by apply DeleteSession_reported in E.
Qed.

(** A locked body that reports success has run, and the lock's own calls do not
    bring the session back. *)
Lemma WithLock_deletes {A} cfg sid sid' (fn : prog (option error * A)) skipped
    (w : world (faulty Memory)) a w' :
  (forall w1 a1 w2, run fn w1 = ((None, a1), w2) -> deleted sid' (inner (w_store w2))) ->
  run (Manager.WithLock cfg sid fn skipped) w = ((None, a), w') ->
  deleted sid' (inner (w_store w')).
Proof.
  intros Hfn. unfold Manager.WithLock, call. destruct (negb _); [by apply Hfn|].
  cbn [bind run step]. destruct (exec _ (w_store w)) as [[[token|]|e] f]; cbn [bind run]; [|done..].
  rewrite run_bind. destruct (run fn _) as [[e1 a1] w2] eqn:E. cbn [bind run step].
  pose proof (Unlock_frame sid token (w_store w2)) as [H1 H2].
  destruct (exec _ (w_store w2)) as [r f2]. cbn [bind run snd] in *.
  intros [= -> -> <-]. cbn [w_store]. apply Hfn in E. unfold deleted. by rewrite H1, H2.
Qed.

(** ** The pipeline is disciplined *)

Lemma owner_control_positive raw o : owner_control raw = Some o -> (0 < o)%Z.
Proof.
  unfold owner_control. case_decide; [done|]. destruct (ParseInt raw) as [n|]; [|done].
  destruct (Z.ltb_spec 0 n); [by intros [= <-]|done].
Qed.

Lemma safe_cookie_loop date h scs l hdr muts : safe ∅ (cookie_loop date h scs l hdr muts).
Proof.
  revert l hdr muts; induction scs as [|sc scs IH]; intros l hdr muts; [exact I|].
  cbn [cookie_loop]. destruct (ParseSetCookie date sc) as [c|]; [|apply IH].
  destruct (Filter.Decide (filter h) (sc_Name c)); [apply IH|apply IH|].
  unfold now. cbn [bind]. apply safe_Do; [done|]. intros t _. cbn [op_after].
  destruct (cookieDeletesNow _ _ _); [apply IH|].
  apply safe_bind; [destruct l; [exact I|apply safe_Begin]|]. intros [l'|e]; [apply IH|exact I].
Qed.

Lemma safe_commit_response h owner labels rot muts l hdr :
  (forall o, owner = Some o -> (0 < o)%Z) -> safe ∅ (commit_response h owner labels rot muts l hdr).
Proof.
  intros Ho. unfold commit_response. apply safe_bind.
  - destruct l; [exact I|]. destruct (match owner with Some _ => _ | None => _ end); [|exact I].
    apply safe_bind; [apply safe_Begin|]. by intros [?|?].
  - intros [[l'|]|e]; [|exact I|exact I]. apply safe_bind; [by apply safe_applyControls|].
    intros [[e|] l'']; [exact I|]. by destruct (Manager.NewProxyCookie l'').
Qed.

Lemma safe_processLocked date h i : safe ∅ (processLocked date h i).
Proof.
  unfold processLocked. cbn zeta. destruct (revokeRequested i).
  - unfold process_revoke. apply safe_bind.
    + destruct (live i); [|exact I]. apply safe_bind; [apply safe_Revoke|]. by intros [[e|] l'].
    + by intros [[e|] l].
  - apply safe_bind; [apply safe_cookie_loop|]. intros [[[[e|] l] hdr] muts]; [exact I|].
    apply safe_bind; [|by intros [[e l'] hdr']]. apply safe_commit_response.
    intros o. apply owner_control_positive.
Qed.

Lemma safe_ensureProcessed date h i : safe ∅ (ensureProcessed date h i).
Proof.
  unfold ensureProcessed. destruct (once i); [exact I|]. apply safe_bind.
  - unfold process. cbn zeta. set (i' := set_revoke _ _).
    destruct (revokeRequested i'), (resolveErr i'); try exact I;
      (destruct (live i'); [apply safe_WithLock|]; apply safe_processLocked).
  - intros [[e|] i']; [|exact I]. by destruct (_ || _).
Qed.

(** ** Concrete interceptors *)

Definition demo_handler : Handler :=
  MkHandler (MkCookieConfig "KEY" "" "" false) (Filter.New ["theme"] ["SID"]) ManagerThms.demo_cfg
    "X-User-Id" "X-Session-Rotate" true "X-Session-Revoke" true "X-Session-Labels" None "fail_open".

Definition demo_ic (hdr : Header) (l : option Manager.Live) : interceptor :=
  MkIc l false false true 200 emptyBody hdr [] false None false true None None 0 false false.

Definition logout_hdr : Header := {["Set-Cookie" := ["SID=s2"]; "X-Session-Revoke" := ["true"]]}.

Lemma demo_sane_names : sane_names demo_handler.
Proof.
  repeat (apply Forall_cons_2; [apply (bool_decide_unpack _); by vm_compute|]). apply Forall_nil_2.
Qed.

(** ** Theorems *)

(** C6: logout fails closed.  When the backend asks for a revocation, then
    whatever the store does and whatever [on_store_error] says, either the
    response is replaced by a failure, or the handler has let go of the session
    and the client is told to drop its key and given no other cookie. *)
Theorem revoke_fails_closed date h i :
  revoke_asked h i = true -> once i = false -> revokeRequested i = false ->
  always (fun i' => failed i' = true \/ logged_out h i i') (ensureProcessed date h i).
Proof.
  intros Ha Ho Hr. unfold ensureProcessed. rewrite Ho.
  eapply always_bind; [by apply process_revoke_asked|].
  intros [[e|] i'] [H1 H2]; cbn [fst snd] in *; [|right; by apply H1].
  cbn [always]. unfold set_once, set_header. cbn [revokeRequested]. rewrite H2, orb_true_r. by left.
Qed.

Lemma revoke_fails_closed_witness :
  let i := demo_ic logout_hdr (Some ManagerThms.demo_live) in
  let i' := (run (ensureProcessed (fun _ => None) demo_handler i)
               (MkWorld demo_mem (1100 * Second) "")).1 in
  failed i' = true \/ logged_out demo_handler i i'.
Proof.
  pose proof (revoke_fails_closed (fun _ => None) demo_handler
    (demo_ic logout_hdr (Some ManagerThms.demo_live)) eq_refl eq_refl eq_refl) as H.
  apply (always_run _ _ (MkWorld demo_mem (1100 * Second) "")) in H. exact H.
Defined.

(** C4: a logout that is not reported as failed has deleted the session, over a
    store any of whose calls may be lost before or after taking effect: the row
    is gone, and so are all keys naming it.  In particular the error of a
    deletion that did not happen is never swallowed. *)
Theorem logout_deletes_session date h i l (w : world (faulty Memory)) i' w' :
  revoke_asked h i = true -> once i = false -> revokeRequested i = false -> live i = Some l ->
  run (ensureProcessed date h i) w = (i', w') -> failed i' = false ->
  sessions (inner (w_store w')) !! Manager.l_SessionID l = None
  /\ forall k, keys (inner (w_store w')) !! k <> Some (Manager.l_SessionID l).
Proof.
  intros Ha Ho Hr Hl. unfold ensureProcessed. rewrite Ho, run_bind.
  destruct (run (process date h i) w) as [[[e|] i1] w1] eqn:E.
  { pose proof (always_run _ _ w (process_revoke_asked date h i Ha Hr)) as [_ Hq].
    rewrite E in Hq. cbn [fst snd] in Hq. cbn [run]. intros [= <- <-].
    unfold set_once, set_header. cbn [revokeRequested]. by rewrite Hq, orb_true_r. }
  cbn [run]. intros [= <- <-] _. revert E.
  unfold process. cbn zeta. rewrite Hr. unfold revoke_asked in Ha. rewrite Ha.
  cbn [revokeRequested set_revoke resolveErr set_header live]. rewrite Hl.
  destruct (resolveErr i); [done|]. apply WithLock_deletes. intros w2 a2 w3.
  unfold processLocked. cbn [revokeRequested set_revoke]. by apply process_revoke_deletes.
Qed.

(** A logout over a store with the given faults. *)
Definition logout_over (fs : list fault) : interceptor * world (faulty Memory) :=
  run (ensureProcessed (fun _ => None) demo_handler (demo_ic logout_hdr (Some ManagerThms.demo_live)))
    (MkWorld (MkFaulty demo_mem fs) (1100 * Second) "").

Lemma logout_deletes_session_witness :
  sessions (inner (w_store (logout_over []).2)) !! Manager.l_SessionID ManagerThms.demo_live = None
  /\ is_Some (sessions demo_mem !! Manager.l_SessionID ManagerThms.demo_live)
  /\ failed (logout_over [Fine; LostRequest (ErrBackend "down")]).1 = true.
Proof.
  split; [|split; [eexists; vm_compute; reflexivity|vm_compute; reflexivity]].
  eapply (logout_deletes_session (fun _ => None) demo_handler
    (demo_ic logout_hdr (Some ManagerThms.demo_live)) ManagerThms.demo_live
    (MkWorld (MkFaulty demo_mem []) (1100 * Second) ""));
    [reflexivity|reflexivity|reflexivity|reflexivity
    |apply surjective_pairing|vm_compute; reflexivity].
Defined.

(** ** Labels *)

Lemma labels_control_elem raw ls x :
  labels_control raw = Some ls -> x ∈ ls <-> x ∈ splitLabels (join_with "," raw) /\ x <> Authz.Anonymous.
Proof.
  unfold labels_control. destruct raw as [|v raw]; [done|]. intros [= <-].
  rewrite list_elem_of_filter. tauto.
Qed.

Lemma labels_control_words raw ls : labels_control raw = Some ls -> Forall word ls.
Proof.
  intros H. apply Forall_forall. intros x Hx. apply (labels_control_elem _ _ _ H) in Hx as [Hx _].
  by eapply Forall_forall in Hx; [|apply splitLabels_words].
Qed.

(** C39: labels survive storage.  A response without a labels header asks for no
    change; otherwise reading back what its values store gives exactly the labels
    they list, sorted and without duplicates, except that the reserved label
    [anonymous] is never granted; and storing those again changes nothing (so an
    unchanged header never rotates a key). *)
Theorem stored_labels_roundtrip raw :
  match labels_control raw with
  | None => raw = []
  | Some ls =>
      let stored := Manager.normalizeLabels ls in
      StronglySorted String.le (fields stored) /\ NoDup (fields stored)
      /\ (forall x, x ∈ fields stored <-> x ∈ splitLabels (join_with "," raw) /\ x <> Authz.Anonymous)
      /\ Authz.Anonymous ∉ fields stored
      /\ Manager.normalizeLabels (fields stored) = stored
  end.
Proof.
  destruct (labels_control raw) as [ls|] eqn:E; [|by destruct raw].
  pose proof (labels_control_words _ _ E) as Hw. cbn zeta. split_and!.
  - rewrite fields_normalize by done. apply sort_strings_sorted.
  - rewrite fields_normalize, sort_strings_perm by done. apply normalize_go_NoDup.
  - intros x. rewrite fields_normalize_elem by done. by apply labels_control_elem.
  - rewrite fields_normalize_elem, (labels_control_elem _ _ _ E) by done. tauto.
  - apply normalizeLabels_ext. intros x. rewrite !stands_for_words by (done || apply fields_words).
    by apply fields_normalize_elem.
Qed.
