(* ===== verification/ServeThms.v ===== *)
(** * What a served request puts on the wire and hands to the backend *)

From stdpp Require Import base gmap strings list.
From Stdlib Require Import ZArith Lia.
From S2P Require Import Prelude GoStrings Crypto GoTime GoStrconv Http HttpProps Cookies Filter.
From S2P Require Import Authz StoreApi Memory MemoryProps Faulty Concurrency Manager ManagerSafety.
From S2P Require Import ManagerThms Labels Staging Handler HandlerProps Serve HandlerThms.
Import Memory MemoryProps Faulty Staging Handler Serve.

(** ** Header maps on the wire *)

(** A Set-Cookie value for the client: a forwarded backend cookie or the proxy's. *)
Definition presentable (date : string -> option Z) (h : Handler) (sc : string) : Prop :=
  (exists c, ParseSetCookie date sc = Some c /\ Filter.Decide (filter h) (sc_Name c) = Filter.Forward)
  \/ (exists v, sc = buildProxyCookie (Cookie h) v) \/ sc = buildExpiredProxyCookie (Cookie h).

Definition wire_ok (date : string -> option Z) (h : Handler) (hdr : Header) : Prop :=
  no_controls h hdr /\ no_trailers h hdr /\ Forall (presentable date h) (Values hdr "Set-Cookie").

Lemma clean_wire date h original hdr : clean_response date h original hdr -> wire_ok date h hdr.
Proof.
  intros (H1 & H2 & H3). split_and!; [done..|]. eapply Forall_impl; [exact H3|].
  intros sc [[_ ?]|?]; [by left|by right].
Qed.

Lemma clearHeaders_lookup hdr k : canonical_key k = k -> clearHeaders hdr !! k = None.
Proof.
  intros Hk. unfold clearHeaders. rewrite lookup_foldl_Del. case_decide as H; [done|].
  destruct (hdr !! k) as [v|] eqn:E; [|done]. destruct H. rewrite <-Hk.
  apply list_elem_of_fmap_2, list_elem_of_fmap. exists (k, v). split; [done|].
  by apply elem_of_map_to_list.
Qed.

Lemma copyHeaders_lookup dst src k : canonical_key k = k -> copyHeaders dst src !! k = src !! k.
Proof.
  intros Hk. unfold copyHeaders. rewrite lookup_union, clearHeaders_lookup by done.
  by destruct (src !! k).
Qed.

Lemma wire_ok_ext date h hdr hdr' :
  (forall k, canonical_key k = k -> hdr' !! k = hdr !! k) -> wire_ok date h hdr -> wire_ok date h hdr'.
Proof.
  intros He (H1 & [H2 H3] & H4).
  assert (HV : forall n, Values hdr' n = Values hdr n)
    by (intros n; unfold Values; rewrite He; [done|apply canonical_idemp]).
  split; [|split; [split|]].
  - intros n Hn. rewrite HV. auto.
  - intros n. unfold announced. rewrite HV. apply H2.
  - intros k Hk. rewrite He; [auto|by eapply blocked_canonical].
  - by rewrite HV.
Qed.

Lemma copyHeaders_wire date h dst src : wire_ok date h src -> wire_ok date h (copyHeaders dst src).
Proof. apply wire_ok_ext. intros k Hk. by apply copyHeaders_lookup. Qed.

Lemma empty_wire date h : wire_ok date h ∅.
Proof.
  split; [|split; [split|]].
  - intros n _. unfold Values. by rewrite lookup_empty.
  - intros n Hn. by apply elem_of_nil in Hn.
  - intros k _. by rewrite lookup_empty.
  - constructor.
Qed.

Lemma clearHeaders_wire date h hdr : wire_ok date h (clearHeaders hdr).
Proof.
  eapply wire_ok_ext; [|apply empty_wire]. intros k Hk. by rewrite clearHeaders_lookup, lookup_empty.
Qed.

Lemma scrub_wire date h hdr : wire_ok date h (scrubManagedResponseHeader h hdr).
Proof.
  unfold scrubManagedResponseHeader. split; [|split].
  - intros n Hn. apply delManaged_none. by right.
  - apply no_trailers_foldl_Del, no_trailers_strip.
  - rewrite delManaged_none by left. constructor.
Qed.

Lemma strip_keeps_empty hdr names k :
  canonical_key k <> "Trailer" -> Values hdr k = [] ->
  Values (stripManagedTrailerDeclarations hdr names) k = [].
Proof.
  unfold Values. intros Hk H. destruct (strip_lookup hdr names (canonical_key k)) as [[->|[-> _]] _]; done.
Qed.

Lemma discard_wire date h i :
  sane_names h -> once i = false -> wire_ok date h (responseHeader (discardBackendMetadata h i)).
Proof.
  intros Ht Ho. unfold discardBackendMetadata. rewrite Ho. cbn [responseHeader set_once set_header].
  split; [|split].
  - intros n Hn. apply strip_keeps_empty; [by apply (sane_name h); [..|repeat constructor]|]. apply delManaged_none. by right.
  - apply no_trailers_strip.
  - rewrite strip_keeps_empty; [constructor|done|]. apply delManaged_none. by left.
Qed.

(** ** The downstream handler *)

Definition event_ok (date : string -> option Z) (h : Handler) (e : event) : Prop :=
  match e with EvHeader _ hdr => wire_ok date h hdr | _ => True end.
Definition events_ok (date : string -> option Z) (h : Handler) (w : writer) : Prop :=
  Forall (event_ok date h) (w_events w).

(** The downstream handler hijacks at most once, and not after an upgrade
    flush. *)
Fixpoint single_takeover (taken : bool) (acts : list action) : Prop :=
  match acts with
  | [] => True
  | AHijack _ _ :: acts' => taken = false /\ single_takeover true acts'
  | AFlush _ :: acts' => single_takeover true acts'
  | _ :: acts' => single_takeover taken acts'
  end.

(** Once the backend's metadata has been discarded, the response is terminal. *)
Definition ic_inv (taken : bool) (i : interceptor) : Prop :=
  (once i = true -> terminal i = true) /\ (taken = false -> once i = false) /\ failed i = false.

Lemma events_ok_emit date h e w : events_ok date h w -> event_ok date h e -> events_ok date h (emit e w).
Proof. intros H He. unfold events_ok, emit; simpl. apply Forall_app. split; [done|by apply Forall_singleton]. Qed.

Lemma events_ok_status date h s hdr w :
  events_ok date h w -> wire_ok date h hdr -> events_ok date h (WriteStatus s (with_header hdr w)).
Proof. intros H Hh. by apply events_ok_emit. Qed.

Lemma commitInformational_ok date h i w : events_ok date h w -> events_ok date h (commitInformational h i w).
Proof.
  unfold commitInformational. generalize (informational i) as infos. intros infos. revert w.
  induction infos as [|sh infos IH]; intros w H; [done|]. simpl. apply IH.
  apply events_ok_status; [done|]. apply copyHeaders_wire, scrub_wire.
Qed.

Lemma commitTerminal_ok date h always i w g i' w' g' :
  sane_names h -> once i = false -> failed i = false -> events_ok date h w ->
  commitTerminal h always i w g = (i', w', g') -> events_ok date h w' /\ ic_inv true i'.
Proof.
  intros Hs Ho Hf Hw. unfold commitTerminal, releaseTerminalStaging.
  set (i1 := set_terminal (discardBackendMetadata h i)).
  destruct (Reset (body i1) g) as [b g1].
  intros [= <- <- <-]. split.
  - assert (H1 : events_ok date h (with_header
      (copyHeaders (w_header (commitInformational h i1 w)) (responseHeader i1)) (commitInformational h i1 w)))
      by (by apply commitInformational_ok).
    destruct (always || _); [|exact H1]. apply events_ok_emit; [exact H1|].
    apply copyHeaders_wire. unfold i1. cbn [set_terminal responseHeader]. by apply discard_wire.
  - unfold i1, discardBackendMetadata. rewrite Ho. split_and!; [done|done|]. simpl. done.
Qed.

(** Bookkeeping that leaves the discard state alone. *)
Lemma reserveFinal_keeps h i g e i' g' :
  reserveFinalMetadata h i g = (e, i', g') ->
  once i' = once i /\ terminal i' = terminal i /\ failed i' = failed i.
Proof.
  unfold reserveFinalMetadata, reserveBytes. destruct (finalMetadataReserved i); [by intros [= <- <- <-]|].
  destruct (reserveMetadataBytes _ _ _ _) as [[[[e0|] m] b] g0]; by intros [= <- <- <-].
Qed.

Lemma note_writeErr_keeps e i :
  once (note_writeErr e i) = once i /\ terminal (note_writeErr e i) = terminal i
  /\ failed (note_writeErr e i) = failed i.
Proof. unfold note_writeErr. by destruct (writeErr i). Qed.

Lemma WriteHeader_keeps s i g i' g' :
  WriteHeader s i g = Some (i', g') ->
  once i' = once i /\ terminal i' = terminal i /\ failed i' = failed i.
Proof.
  unfold WriteHeader. destruct (wroteHeader i); [by intros [= <- <-]|].
  destruct (_ || _)%Z; [done|]. destruct (_ && _ && _)%Z; [|by intros [= <- <-]].
  destruct (_ <=? _); [intros [= <- <-]; apply note_writeErr_keeps|].
  unfold reserveBytes. destruct (reserveMetadataBytes _ _ _ _) as [[[[e0|] m] b] g0].
  - intros [= <- <-]. destruct (note_writeErr_keeps e0 (set_metadata m (set_body b i))) as (-> & -> & ->).
    done.
  - by intros [= <- <-].
Qed.

Lemma ic_inv_keeps taken i i' :
  ic_inv taken i -> once i' = once i /\ terminal i' = terminal i /\ failed i' = failed i -> ic_inv taken i'.
Proof. unfold ic_inv. by intros H (-> & -> & ->). Qed.

(** Whether the handler has taken over the connection after an action. *)
Definition takes (taken : bool) (a : action) : bool :=
  match a with AHijack _ _ | AFlush _ => true | _ => taken end.

Lemma ic_inv_weaken taken i : ic_inv taken i -> ic_inv true i.
Proof. intros (H1 & _ & H3). done. Qed.

Lemma FlushError_ok date h ext out taken i w g i' w' g' :
  sane_names h -> ic_inv taken i -> events_ok date h w ->
  FlushError h ext out i w g = Some (i', w', g') -> ic_inv true i' /\ events_ok date h w'.
Proof.
  intros Hs Hi Hw. pose proof (ic_inv_weaken _ _ Hi) as Hi'. unfold FlushError.
  destruct (negb ext); [by intros [= <- <- <-]|].
  destruct (terminal i) eqn:Et; [intros [= <- <- <-]; split; [done|by apply events_ok_emit]|].
  destruct (writeErr i); [by intros [= <- <- <-]|].
  destruct (reserveFinalMetadata h i g) as [[e i1] g1] eqn:ER.
  pose proof (reserveFinal_keeps _ _ _ _ _ _ ER) as K1. pose proof (ic_inv_keeps _ _ _ Hi' K1) as Hi1.
  destruct e; [by intros [= <- <- <-]|].
  destruct (negb (Len (body i1) =? 0)%Z); [by intros [= <- <- <-]|].
  destruct (if wroteHeader i1 then Some (i1, g1) else WriteHeader 200 i1 g1) as [[i2 g2]|] eqn:EW; [|done].
  assert (K2 : once i2 = once i1 /\ terminal i2 = terminal i1 /\ failed i2 = failed i1).
  { destruct (wroteHeader i1); [by simplify_eq|by eapply WriteHeader_keeps]. }
  destruct (commitTerminal h true i2 w g2) as [[i3 w3] g3] eqn:EC.
  apply (commitTerminal_ok date) in EC as [HC HI]; [|done| | |done].
  - intros [= <- <- <-]. split; [|by apply events_ok_emit]. destruct out; done.
  - destruct K1 as (K1 & K1' & _), K2 as (-> & _ & _), Hi as (H1 & _ & _).
    rewrite K1. destruct (once i); [by rewrite Et in H1; specialize (H1 eq_refl)|done].
  - destruct K1 as (_ & _ & K1), K2 as (_ & _ & ->), Hi as (_ & _ & H3). congruence.
Qed.

Lemma Hijack_ok date h sup out i w g i' w' g' :
  sane_names h -> ic_inv false i -> events_ok date h w ->
  Hijack h sup out i w g = (i', w', g') -> ic_inv true i' /\ events_ok date h w'.
Proof.
  intros Hs Hi Hw. pose proof (ic_inv_weaken _ _ Hi) as Hi'. unfold Hijack.
  destruct (negb sup); [by intros [= <- <- <-]|].
  destruct (writeErr i); [by intros [= <- <- <-]|].
  destruct (reserveFinalMetadata h i g) as [[e i1] g1] eqn:ER.
  pose proof (reserveFinal_keeps _ _ _ _ _ _ ER) as K1. pose proof (ic_inv_keeps _ _ _ Hi' K1) as Hi1.
  destruct e; [by intros [= <- <- <-]|].
  destruct (negb (Len (body i1) =? 0)%Z); [by intros [= <- <- <-]|].
  destruct (commitTerminal h false i1 w g1) as [[i3 w3] g3] eqn:EC.
  destruct K1 as (K1 & _ & K3), Hi as (_ & H2 & H3).
  apply (commitTerminal_ok date) in EC as [HC HI]; [|done|rewrite K1; auto|congruence|done].
  destruct out; intros [= <- <- <-]; (split; [done|]); [done|by apply events_ok_emit].
Qed.

Lemma act_ok date h ext taken a i w g i' w' g' :
  sane_names h -> ic_inv taken i -> events_ok date h w ->
  (match a with AHijack _ _ => taken = false | _ => True end) ->
  act h ext a i w g = Some (i', w', g') -> ic_inv (takes taken a) i' /\ events_ok date h w'.
Proof.
  intros Hs Hi Hw Ha. destruct a as [f|s|io p|out|sup out]; cbn [act takes].
  - by intros [= <- <- <-].
  - destruct (WriteHeader s i g) as [[i1 g1]|] eqn:EW; [|done]. intros [= <- <- <-].
    split; [|done]. eapply ic_inv_keeps; [done|by eapply WriteHeader_keeps].
  - unfold Write. destruct (terminal i) eqn:Et.
    { intros [= <- <- <-]. split; [done|by apply events_ok_emit]. }
    destruct (if wroteHeader i then Some (i, g) else WriteHeader 200 i g) as [[i2 g2]|] eqn:EW; [|done].
    assert (K2 : once i2 = once i /\ terminal i2 = terminal i /\ failed i2 = failed i).
    { destruct (wroteHeader i); [by simplify_eq|by eapply WriteHeader_keeps]. }
    pose proof (ic_inv_keeps _ _ _ Hi K2) as Hi2.
    destruct (bodyless (status i2)); [by intros [= <- <- <-]|].
    destruct (Staging.Write io p (body i2) g2) as [[[n [e|]] b] g3]; intros [= <- <- <-]; [|done].
    split; [|done]. eapply ic_inv_keeps; [exact Hi2|].
    destruct (note_writeErr_keeps e (set_body b i2)) as (-> & -> & ->). done.
  - by eapply FlushError_ok.
  - subst taken. intros [= H]. by eapply Hijack_ok.
Qed.

Lemma downstream_ok date h ext taken acts i w g p i' w' g' :
  sane_names h -> ic_inv taken i -> events_ok date h w -> single_takeover taken acts ->
  downstream h ext acts i w g = (p, i', w', g') ->
  (exists taken', ic_inv taken' i') /\ events_ok date h w'.
Proof.
  intros Hs. revert taken i w g. induction acts as [|a acts IH]; intros taken i w g Hi Hw Ht; simpl.
  { intros [= <- <- <- <-]. eauto. }
  destruct (act h ext a i w g) as [[[i1 w1] g1]|] eqn:EA; [|intros [= <- <- <- <-]; eauto].
  assert (HA : match a with AHijack _ _ => taken = false | _ => True end) by (by destruct a; [..|destruct Ht]).
  destruct (act_ok date _ _ _ _ _ _ _ _ _ _ Hs Hi Hw HA EA) as [Hi1 Hw1].
  apply (IH (takes taken a)); [done..|]. destruct a; [done..|by destruct Ht].
Qed.

Lemma finish_ok date h cio nerr i w g up taken :
  sane_names h -> ic_inv taken i -> events_ok date h w ->
  always (fun s => events_ok date h (s_writer s)) (finish date h cio nerr i w g up).
Proof.
  intros Hs Hi Hw. unfold finish. cbn zeta.
  assert (Hbad : forall j k, always (fun s => events_ok date h (s_writer s))
    (let '(i, g) := (let '(b, g) := Reset (body j) k in (set_body b j, g)) in
     Ret (MkServed RNil (withStatus w) (Close (body i) g).2 (Some up)))).
  { intros j k. destruct (Reset (body j) k) as [b g1]. cbn [always s_writer]. unfold withStatus.
    apply events_ok_status; [done|apply clearHeaders_wire]. }
  destruct (writeErr i); [by apply Hbad|]. destruct nerr as [e|].
  { destruct (Reset _ _) as [b g1]. cbn [always s_writer]. done. }
  destruct (reserveFinalMetadata h i g) as [[e i1] g1] eqn:ER. destruct e; [by apply Hbad|].
  pose proof (reserveFinal_keeps _ _ _ _ _ _ ER) as (K1 & K2 & K3).
  destruct (terminal i1) eqn:Et; [done|].
  destruct (Validate (io_validate cio) (body i1)) as [[e|] b]; [by apply Hbad|].
  assert (Ho : once (set_body b i1) = false).
  { change (once i1 = false). destruct Hi as (H1 & _). rewrite K1. destruct (once i); [|done].
    specialize (H1 eq_refl). congruence. }
  eapply always_bind; [by apply ensureProcessed_clean|].
  intros i2 Hc%clean_wire. destruct (failed i2); [by apply Hbad|].
  set (w1 := with_header _ (commitInformational h i2 w)).
  assert (Hw1 : events_ok date h w1) by (by apply commitInformational_ok).
  destruct (negb (wroteHeader i2)); [done|].
  assert (Hw2 : forall s, events_ok date h (WriteStatus s w1)).
  { intros s. apply events_ok_emit; [done|]. by apply copyHeaders_wire. }
  destruct (0 <? Len (body i2))%Z; [|apply Hw2].
  destruct (FlushTo _ _ (body i2)) as [[bytes e] b']. cbn [always s_writer].
  apply events_ok_emit; [apply Hw2|done].
Qed.

Lemma Set_wire date h hdr k v :
  sane_names h -> k ∈ ["Location"; "X-Auth-Endpoint"] -> wire_ok date h hdr -> wire_ok date h (Set_ hdr k v).
Proof.
  intros Hs Hk (H1 & [H2 H3] & H4).
  assert (Hck : canonical_key k = k /\ k ∈ reserved_headers /\ k <> "Set-Cookie" /\ k <> "Trailer"
    /\ has_trailer_prefix k = false).
  { rewrite !elem_of_cons in Hk. destruct Hk as [->|[->|Hk%elem_of_nil]]; [..|done];
      (split_and!; [done|repeat constructor|done|done|by vm_compute]). }
  destruct Hck as (Hck & Hr & Hn1 & Hn2 & Hp).
  assert (HV : forall n, canonical_key n <> k -> Values (Set_ hdr k v) n = Values hdr n).
  { intros n Hn. unfold Values, Set_. rewrite Hck, lookup_insert_ne; [done|congruence]. }
  split; [|split; [split|]].
  - intros n Hn. rewrite HV; [auto|]. by apply (sane_name h).
  - intros n. unfold announced. rewrite HV by done. apply H2.
  - intros k' Hb. unfold Set_. rewrite Hck, lookup_insert_ne; [auto|]. intros <-.
    unfold blocked in Hb. by rewrite Hp in Hb.
  - by rewrite HV by done.
Qed.

(** ** The gate *)

Lemma resolve_cookie_run {S} `{Store S} h r (w : world S) :
  run (resolve_cookie h r) w =
    match RequestCookie (r_header r) (cc_Name (Cookie h)) with
    | None => ((false, None, None), w)
    | Some c =>
        let '(rl, w') := run (Manager.Resolve (manager h) (Value c)) w in
        (match rl with Err e => (true, Some e, None) | Ok l => (true, None, l) end, w')
    end.
Proof.
  unfold resolve_cookie. destruct (RequestCookie _ _) as [c|]; [|done].
  rewrite run_bind. by destruct (run (Manager.Resolve _ _) _) as [rl w'].
Qed.

(** The two reads [Resolve] rests on: their answers are the store's. *)
Lemma GetKey_reported k (f f' : faulty Memory) sid :
  exec (StoreApi.GetKey k) f = (Ok sid, f') -> keys (inner f) !! k = Some sid /\ inner f' = inner f.
Proof.
  destruct (exec_cases (StoreApi.GetKey k) f) as [[fs ->]|(e & g & -> & _)]; [|done].
  cbn [exec memory_store]. unfold GetKey; simpl. destruct (keys _ !! k); [|done]. by intros [= <- <-].
Qed.

Lemma GetSession_reported sid (f f' : faulty Memory) s :
  exec (StoreApi.GetSession sid) f = (Ok s, f') -> sessions (inner f) !! sid = Some s.
Proof.
  destruct (exec_cases (StoreApi.GetSession sid) f) as [[fs ->]|(e & g & -> & _)]; [|done].
  cbn [exec memory_store]. unfold GetSession; simpl. destruct (sessions _ !! sid); [|done]. by intros [= <- <-].
Qed.

(** Run the next store call of the program in the goal, whatever it answers. *)
Ltac next_call :=
  cbn [bind run step w_store w_clock];
  match goal with |- context [@exec ?S ?H ?o ?f] =>
    let r := fresh "r" in let f' := fresh "f" in
    destruct (@exec S H o f) as [r f']; destruct r; cbn [bind run] end.

(** A handle is given out only for a stored, unexpired session, whatever calls
    were lost on the way. *)
Lemma Resolve_reported cfg k (w : world (faulty Memory)) l w' :
  run (Manager.Resolve cfg k) w = (Ok (Some l), w') ->
  exists sid s, keys (inner (w_store w)) !! k = Some sid /\ sessions (inner (w_store w)) !! sid = Some s
    /\ Manager.expired s (Unix (w_clock w)) = false /\ Manager.l_Labels l = fields (Labels s).
Proof.
  unfold Manager.Resolve, Manager.unix_now, now, call. cbn [bind run step].
  destruct (exec _ (w_store w)) as [[sid|e] f1] eqn:E1; [|by destruct e].
  apply GetKey_reported in E1 as [E1 Hi]. cbn [bind run step w_store].
  destruct (exec (StoreApi.GetSession sid) f1) as [[s|e] f2] eqn:E2; [|by destruct e].
  cbn [bind run step w_clock w_store] in *. apply GetSession_reported in E2. rewrite Hi in E2.
  destruct (Manager.expired s _) eqn:Ee; [by next_call|].
  destruct (Manager.rotation_due cfg s _) as [s' due] eqn:Ed.
  next_call; [done|]. do 2 (next_call; [|done]).
  intros [= <- <-]. exists sid, s. split_and!; [done..|]. cbn [Manager.l_Labels with_LastAccess Labels].
  unfold Manager.rotation_due in Ed. repeat case_match; by simplify_eq.
Qed.

Lemma finish_backend date h cio nerr i w g up :
  always (fun s => s_backend s = Some up) (finish date h cio nerr i w g up).
Proof.
  unfold finish. cbn zeta.
  assert (Hbad : forall j k, always (fun s => s_backend s = Some up)
    (let '(i, g) := (let '(b, g) := Reset (body j) k in (set_body b j, g)) in
     Ret (MkServed RNil (withStatus w) (Close (body i) g).2 (Some up)))).
  { intros j k. by destruct (Reset (body j) k). }
  destruct (writeErr i); [by apply Hbad|]. destruct nerr as [e|]; [by destruct (Reset _ _)|].
  destruct (reserveFinalMetadata h i g) as [[[e|] i1] g1]; [by apply Hbad|].
  destruct (terminal i1); [done|].
  destruct (Validate (io_validate cio) (body i1)) as [[e|] b]; [by apply Hbad|].
  eapply always_bind; [apply always_True|]. intros i2 _.
  destruct (failed i2); [by apply Hbad|]. destruct (negb (wroteHeader i2)); [done|].
  destruct (0 <? Len (body i2))%Z; [|done]. by destruct (FlushTo _ _ (body i2)) as [[bytes e] b'].
Qed.

(** A run that reached the backend passed the gate. *)
Lemma served_backend {S} `{Store S} date h next cio w g r up (w0 : world S) :
  s_backend (run (ServeHTTP date h next cio w g r) w0).1 = Some up ->
  let l := (run (resolve_cookie h (stripControls h r)) w0).1.2 in
  missing_label h l (r_path r) = None /\ up = upstream h l (stripControls h r).
Proof.
  unfold ServeHTTP. rewrite run_bind.
  destruct (run (resolve_cookie h (stripControls h r)) w0) as [[[had rerr] l] w1].
  change (r_path (stripControls h r)) with (r_path r). cbn [fst snd].
  set (rest := match missing_label h l (r_path r) with Some _ => _ | None => _ end).
  assert (HB : forall w2, s_backend (run rest w2).1 = Some up ->
    missing_label h l (r_path r) = None /\ up = upstream h l (stripControls h r)).
  { intros w2. unfold rest. destruct (missing_label h l (r_path r)) as [[a req]|]; [done|].
    destruct (next _) as [acts nerr].
    destruct (downstream _ _ _ _ _ _) as [[[p i] w3] g3].
    destruct p; [by intros [= <-]|].
    rewrite (always_run _ _ w2 (finish_backend date h cio nerr i w3 g3 _)). by intros [= <-]. }
  destruct rerr as [e|]; [destruct (bool_decide _)|]; [done|apply HB|apply HB].
Qed.

(** ** Theorems *)


Definition sso_backend (r : request) : list action * option string :=
  ([AHeader (fun hdr => Add hdr "Link" "</style.css>"); AWriteHeader 103;
    AHeader (fun hdr => Add (Add hdr "x-user-id" "7") "Set-Cookie" "SID=secret");
    AWrite (MkWriteIo None true None None) "hello"], None).
Definition easy_io : client_io := MkClientIo (MkReadIo None None None) (MkReadIo None None None) WAll.
Definition fresh_writer : writer := MkWriter ∅ [].
Definition demo_request (path key : string) : request :=
  MkRequest {["Cookie" := ["KEY=" +:+ key]]} None None path "" false.


(** The single takeover is needed: a second [Hijack], after a first one that
    failed, finds the metadata already discarded once and sends what the backend
    has set since then. *)
Definition double_hijack_backend (r : request) : list action * option string :=
  ([AHijack true (Some "busy"); AHeader (fun hdr => Set_ hdr "X-User-Id" "7"); AWriteHeader 200;
    AHijack true None], None).

Lemma second_hijack_leaks :
  exists hdr, EvHeader 200 hdr ∈ w_events (s_writer
      (run (ServeHTTP (fun _ => None) demo_handler double_hijack_backend easy_io fresh_writer
        globalStagedResponseBudget (demo_request "/" "none")) (MkWorld NewMemory 0 "")).1)
    /\ Values hdr (IdentityHeader demo_handler) = ["7"].
Proof. eexists. split; [vm_compute; left|vm_compute; reflexivity]. Qed.

(** C2: authorization fails closed.  Over a store any of whose calls may be lost
    before or after taking effect, a request for a path that requires a label
    reaches the backend only if the proxy key it presents names a stored session
    that has not expired and holds that label; otherwise, also when the store
    failed and [on_store_error] is [fail_open], the backend is not called. *)
Theorem authz_gate date h a next cio w g r up (w0 : world (faulty Memory)) :
  authz h = Some a -> Authz.Required a (r_path r) <> Authz.Anonymous ->
  s_backend (run (ServeHTTP date h next cio w g r) w0).1 = Some up ->
  exists c l sid s,
    RequestCookie (r_header (stripControls h r)) (cc_Name (Cookie h)) = Some c
    /\ (run (Manager.Resolve (manager h) (Value c)) w0).1 = Ok (Some l)
    /\ keys (inner (w_store w0)) !! Value c = Some sid /\ sessions (inner (w_store w0)) !! sid = Some s
    /\ Manager.expired s (Unix (w_clock w0)) = false
    /\ Authz.Required a (r_path r) ∈ fields (Labels s).
Proof.
  intros Ha Hreq HB. apply served_backend in HB as [Hm _].
  unfold missing_label in Hm. rewrite Ha in Hm. simpl in Hm. rewrite decide_False in Hm by done.
  rewrite resolve_cookie_run in Hm.
  destruct (RequestCookie _ _) as [c|] eqn:Ec; [|done].
  destruct (run (Manager.Resolve _ _) w0) as [[[l|]|e] w1] eqn:ER; [|done..]. simpl in Hm.
  destruct (Resolve_reported _ _ _ _ _ ER) as (sid & s & H1 & H2 & H3 & H4).
  exists c, l, sid, s. split_and!; [done|by rewrite ER|done..|].
  unfold Manager.HasLabel in Hm. rewrite H4 in Hm. by case_bool_decide.
Qed.

Definition demo_policy : Authz.Authz :=
  Authz.MkAuthz [Authz.MkRule "/admin" "staff"] Authz.Anonymous {["staff" := "/login"]} "rd".
Definition gated_handler : Handler :=
  MkHandler (MkCookieConfig "KEY" "" "" false) (Filter.New ["theme"] ["SID"]) ManagerThms.demo_cfg
    "X-User-Id" "X-Session-Rotate" true "X-Session-Revoke" true "X-Session-Labels" (Some demo_policy)
    "fail_open".
Definition admin_request : request :=
  MkRequest {["Cookie" := ["KEY=" +:+ Manager.l_KeyID login.1.2]; "X-Session-Labels" := ["root"]]}
    (Some {["X-User-Id" := []]}) (Some NetBody) "/admin/users" "" false.
Definition admin_served (fs : list fault) : served :=
  (run (ServeHTTP (fun _ => None) gated_handler sso_backend easy_io fresh_writer
    globalStagedResponseBudget admin_request)
    (MkWorld (MkFaulty (w_store login.2) fs) (1200 * Second) "")).1.

(** A last read that brings a forged and an honest trailer. *)
Definition late_trailer : list net_read :=
  [MkNetRead "data" None id;
   MkNetRead "" (Some "EOF") (fun t => Set_ (Set_ t "x-session-labels" "root") "Etag" "v1")].

Lemma authz_gate_witness :
  (exists c l sid s, RequestCookie (r_header (stripControls gated_handler admin_request)) "KEY" = Some c
    /\ (run (Manager.Resolve (manager gated_handler) (Value c))
          (MkWorld (MkFaulty (w_store login.2) []) (1200 * Second) "")).1 = Ok (Some l)
    /\ keys (w_store login.2) !! Value c = Some sid /\ sessions (w_store login.2) !! sid = Some s
    /\ Manager.expired s (Unix (1200 * Second)) = false /\ "staff" ∈ fields (Labels s))
  /\ s_backend (admin_served [Fine; LostReply (ErrBackend "down")]) = None.
Proof.
  split; [|vm_compute; reflexivity].
  destruct (s_backend (admin_served [])) as [up|] eqn:E; [|vm_compute in E; discriminate E].
  apply (authz_gate (fun _ => None) gated_handler demo_policy sso_backend easy_io fresh_writer
    globalStagedResponseBudget admin_request up
    (MkWorld (MkFaulty (w_store login.2) []) (1200 * Second) "")).
  - reflexivity.
  - vm_compute. congruence.
  - exact E.
Defined.

(** What reading a body gives is what the connection gives; a nil trailer map
    stays nil. *)
Lemma body_Read_passes b io t :
  (body_Read b io t).1 = (nr_bytes io, nr_err io) /\ ((body_Read b io t).2 = None <-> t = None).
Proof.
  induction b as [|b [IH1 IH2] names]; cbn [body_Read]; [by destruct t|].
  destruct (body_Read b io t) as [[bytes err] t']. cbn [fst snd] in *. split; [done|].
  rewrite <-IH2. by destruct t'.
Qed.

(** A body that keeps the given names out of its request's trailers. *)
Definition scrubs (names : list string) (r : request) : Prop :=
  (forall tr n, r_trailer r = Some tr -> n ∈ names -> Values tr n = [])
  /\ forall b, r_body r = Some b -> r_trailer r <> None -> exists b', b = ScrubbingBody b' names.

Lemma scrub_none names tr n : n ∈ names -> Values (scrub names tr) n = [].
Proof.
  intros Hn. unfold scrub. rewrite Values_foldl_Del, decide_True; [done|]. by apply list_elem_of_fmap_2.
Qed.

Lemma read_body_scrubs names r ios :
  scrubs names r ->
  forall tr n, (read_body r ios).2 = Some tr -> n ∈ names -> Values tr n = [].
Proof.
  revert r; induction ios as [|io ios IH]; intros r Hr; cbn [read_body];
    (destruct (r_body r) as [b|] eqn:Eb; [|apply Hr]); [apply Hr|].
  pose proof (body_Read_passes b io (r_trailer r)) as [_ HN].
  destruct (body_Read b io (r_trailer r)) as [[bytes err] t1] eqn:ER. cbn [snd] in HN.
  specialize (IH (MkRequest (r_header r) t1 (Some b) (r_path r) (r_query r) (r_extended r))).
  destruct (read_body _ ios) as [got t2]. cbn [fst snd r_trailer r_body] in *.
  apply IH. destruct Hr as [H1 H2]. split.
  - intros tr n Ht Hn. cbn [r_trailer] in Ht. subst t1.
    destruct (H2 b Eb) as [b' ->]; [rewrite <-HN; congruence|]. cbn [body_Read] in ER.
    destruct (body_Read b' io (r_trailer r)) as [[? ?] [t4|]]; simplify_eq/=. by apply scrub_none.
  - cbn [r_body r_trailer]. intros b1 [= <-] Ht. apply (H2 b Eb). by rewrite <-HN.
Qed.

Lemma read_body_bytes r ios :
  (read_body r ios).1 =
    match r_body r with Some _ => (fun io => (nr_bytes io, nr_err io)) <$> ios | None => [] end.
Proof.
  revert r; induction ios as [|io ios IH]; intros r; cbn [read_body];
    (destruct (r_body r) as [b|] eqn:Eb; [|done]); [done|].
  pose proof (body_Read_passes b io (r_trailer r)) as [HP _].
  destruct (body_Read b io (r_trailer r)) as [[bytes err] t1]. cbn [fst snd] in HP.
  specialize (IH (MkRequest (r_header r) t1 (Some b) (r_path r) (r_query r) (r_extended r))).
  destruct (read_body _ ios) as [got t2]. cbn [fst r_body] in *. by simplify_eq/=.
Qed.

Lemma stripControls_scrubs h r : scrubs (controlHeaders h) (stripControls h r).
Proof.
  split; unfold stripControls; cbn [r_trailer r_body].
  - intros tr n. destruct (r_trailer r) as [t|]; [|done].
    simpl. intros [= <-]. apply (scrub_none (controlHeaders h) t n).
  - intros b. destruct (r_body r) as [b0|], (r_trailer r) as [t|]; simpl; [|done..].
    intros [= <-] _. eauto.
Qed.

(** C13: the backend's request is clean: it carries none of the control headers
    or trailers a client might have forged, neither at once nor after any
    sequence of reads (or the close) of its body, during which the connection may
    fill the declared trailer map with anything; and the backend reads from that
    body exactly what the connection gives. *)
Theorem backend_request_sanitised {S} `{Store S} date h next cio w g r up (w0 : world S) n ios :
  sane_names h -> n ∈ controlHeaders h ->
  s_backend (run (ServeHTTP date h next cio w g r) w0).1 = Some up ->
  Values (r_header up) n = [] /\ (forall tr, r_trailer up = Some tr -> Values tr n = [])
  /\ (forall tr, (read_body up ios).2 = Some tr -> Values tr n = [])
  /\ (read_body up ios).1 = (read_body r ios).1.
Proof.
  intros Hs Hn HB. apply served_backend in HB as [_ ->].
  assert (Hup : scrubs (controlHeaders h)
    (upstream h (run (resolve_cookie h (stripControls h r)) w0).1.2 (stripControls h r)))
    by apply stripControls_scrubs.
  split_and!; [|by intros tr ?; eapply Hup|by intros tr ?; eapply (read_body_scrubs _ _ ios Hup)|].
  - assert (HD : Values (foldl Del (r_header r) (controlHeaders h)) n = []) by (by apply scrub_none).
    unfold upstream, prepareUpstreamCookies. cbn [r_header stripControls]. case_decide.
    + rewrite Values_Del, HD. by case_decide.
    + unfold Values, Set_. change (canonical_key "Cookie") with "Cookie".
      rewrite lookup_insert_ne; [apply HD|]. intros E. symmetry in E. revert E.
      apply (sane_name h); [done..|by right; left].
  - rewrite !read_body_bytes. unfold upstream, stripControls. cbn [r_body r_trailer].
    by destruct (r_body r), (r_trailer r).
Qed.

Lemma backend_request_sanitised_witness :
  exists up, s_backend (admin_served []) = Some up
    /\ Values (r_header up) "X-Session-Labels" = []
    /\ (forall tr, (read_body up late_trailer).2 = Some tr -> Values tr "X-Session-Labels" = [])
    /\ (exists tr, (read_body up late_trailer).2 = Some tr /\ Values tr "Etag" = ["v1"])
    /\ readCookies (r_header up) "" = [MkCookie "SID" "abc"].
Proof.
  destruct (s_backend (admin_served [])) as [up|] eqn:E; [|vm_compute in E; discriminate E].
  exists up. split; [reflexivity|].
  pose proof (backend_request_sanitised (fun _ => None) gated_handler sso_backend easy_io
      fresh_writer globalStagedResponseBudget admin_request up
      (MkWorld (MkFaulty (w_store login.2) []) (1200 * Second) "") "X-Session-Labels" late_trailer
      demo_sane_names) as H.
  destruct H as (H1 & _ & H3 & _); [apply (bool_decide_unpack _); vm_compute; exact I|exact E|].
  split; [exact H1|]. split; [exact H3|]. vm_compute in E. injection E as <-.
  split; [eexists; split; vm_compute; reflexivity|vm_compute; reflexivity].
Defined.

(** C14: a whole request is disciplined: whatever the backend and the store
    answer, serving it publishes only identifiers it has just drawn, so any
    number of requests may run concurrently under the guarantees above. *)
Theorem serve_disciplined date h next cio w g r : safe ∅ (ServeHTTP date h next cio w g r).
Proof.
  unfold ServeHTTP. apply safe_bind.
  { unfold resolve_cookie. destruct (RequestCookie _ _); [|exact I].
    apply safe_bind; [apply safe_Resolve|]. by intros [l|e]. }
  intros [[had rerr] l].
  set (rest := match missing_label h l _ with Some _ => _ | None => _ end).
  assert (HB : safe ∅ rest).
  { unfold rest. destruct (missing_label _ _ _) as [[a req]|]; [exact I|].
    destruct (next _) as [acts nerr]. destruct (downstream _ _ _ _ _ _) as [[[p i] w1] g1].
    destruct p; [exact I|]. unfold finish. cbn zeta.
    destruct (writeErr i); [by destruct (Reset _ _)|]. destruct nerr; [by destruct (Reset _ _)|].
    destruct (reserveFinalMetadata h i g1) as [[[e|] i1] g2]; [by destruct (Reset _ _)|].
    destruct (terminal i1); [exact I|].
    destruct (Validate _ _) as [[e|] b]; [by destruct (Reset _ _)|].
    apply safe_bind; [apply safe_ensureProcessed|]. intros i2.
    destruct (failed i2); [by destruct (Reset _ _)|]. destruct (negb _); [exact I|].
    destruct (_ <? _)%Z; [|exact I]. by destruct (FlushTo _ _ _) as [[bytes e] b']. }
  destruct rerr as [e|]; [destruct (bool_decide _)|]; [exact I|exact HB|exact HB].
Qed.
