(* ===== verification/Admin.v ===== *)
(** * The admin endpoint ([admin.go])

    The registry of provisioned managers and [POST /gosestor/revoke/{owner}].
    Each manager is represented by the state of its store. *)

From stdpp Require Import base gmap strings list.
From Stdlib Require Import ZArith Lia.
From S2P Require Import Prelude GoStrings GoStrconv StoreApi Memory MemoryProps Faulty Manager Revocation.
Import Memory MemoryProps Faulty.

Module Admin.

(** [strings.Trim(s, "/")] *)
Fixpoint trim_slash_left (s : string) : string :=
  match s with
  | String c s' => if decide (c = slash) then trim_slash_left s' else s
  | EmptyString => ""
  end.
Fixpoint trim_slash_right (s : string) : string :=
  match s with
  | EmptyString => ""
  | String c s' =>
      let r := trim_slash_right s' in
      if decide (c = slash /\ r = "") then "" else String c r
  end.
Definition TrimSlash (s : string) : string := trim_slash_right (trim_slash_left s).

(** The status of the reply. *)
Definition NoContent : Z := 204.
Definition BadRequest : Z := 400.
Definition MethodNotAllowed : Z := 405.
Definition BadGateway : Z := 502.
Definition ServiceUnavailable : Z := 503.

Section Registry.
Context {S : Type} `{Store S}.

(** [revokers], keyed by handler. *)
Notation registry := (gmap nat S).

Definition registerRevoker (h : nat) (m : S) (r : registry) : registry := <[h := m]> r.
Definition unregisterRevoker (h : nat) (r : registry) : registry := delete h r.
Definition allRevokers (r : registry) : list S := (map_to_list r).*2.

(** [m.RevokeOwner] on every manager: the new store states and whether one of
    them failed. *)
Definition revoke_one (ownerID : Z) (s : S) : option error * S :=
  let '(e, w) := run (Manager.RevokeOwner ownerID) (MkWorld s 0 "") in (e, w_store w).
Definition revoke_all (ownerID : Z) (r : registry) : bool * registry :=
  (bool_decide (map_Forall (fun _ s => (revoke_one ownerID s).1 = None) r),
   (fun s => (revoke_one ownerID s).2) <$> r).

(** The owner id in the path, if it is a positive integer. *)
Definition owner_of_path (path : string) : option Z :=
  n ← ParseInt (TrimSlash (trim_prefix path "/gosestor/revoke/"));
  if (0 <? n)%Z then Some n else None.

Definition handleRevoke (method path : string) (r : registry) : Z * registry :=
  if decide (method <> "POST") then (MethodNotAllowed, r)
  else
    match owner_of_path path with
    | None => (BadRequest, r)
    | Some ownerID =>
        if decide (allRevokers r = []) then (ServiceUnavailable, r)
        else
          let '(ok, r) := revoke_all ownerID r in
          (if ok then NoContent else BadGateway, r)
    end.
End Registry.

Lemma allRevokers_nonempty {S} (r : gmap nat S) : r <> ∅ -> allRevokers r <> [].
Proof. intros Hne H. apply Hne. apply fmap_nil_inv in H. by apply map_to_list_empty_iff. Qed.

Lemma owner_of_path_pos path o : owner_of_path path = Some o -> o <> 0%Z.
Proof.
  unfold owner_of_path. destruct (ParseInt _) as [n|]; simpl; [|done].
  destruct (Z.ltb_spec 0 n); intros; simplify_eq. lia.
Qed.

(** C27: logout-everywhere through the admin API: for a positive owner id, on
    consistent stores, the endpoint answers 204 and leaves no session of that
    owner in any provisioned store, and every other session as it was. *)
Theorem admin_revoke_everywhere path o (r : gmap nat Memory) :
  owner_of_path path = Some o -> r <> ∅ -> map_Forall (fun _ m => wf m) r ->
  exists r', handleRevoke "POST" path r = (NoContent, r')
    /\ forall h, match r !! h, r' !! h with
         | Some m, Some m' => forall sid, sessions m' !! sid =
             match sessions m !! sid with
             | Some s => if decide (OwnerID s = o) then None else Some s
             | None => None
             end
         | None, None => True
         | _, _ => False
         end.
Proof.
  intros Ho Hne Hwf. unfold handleRevoke. rewrite decide_False by (intros H; by apply H).
  rewrite Ho, decide_False by (by apply allRevokers_nonempty).
  pose proof (owner_of_path_pos _ _ Ho) as Hpos.
  assert (HR : forall h m, r !! h = Some m -> exists m', revoke_one o m = (None, m')
    /\ forall sid, sessions m' !! sid = match sessions m !! sid with
         | Some s => if decide (OwnerID s = o) then None else Some s | None => None end).
  { intros h m Hm. destruct (RevokeOwner_run o m 0 "" (Hwf _ _ Hm) Hpos) as (m' & Hrun & _ & _ & Hs).
    exists m'. unfold revoke_one. by rewrite Hrun. }
  cbn [revoke_all]. rewrite bool_decide_eq_true_2.
  2:{ intros h m Hm. destruct (HR h m Hm) as (m' & -> & _). done. }
  eexists. split; [reflexivity|]. intros h. rewrite lookup_fmap.
  destruct (r !! h) as [m|] eqn:Em; simpl; [|done].
  destruct (HR h m Em) as (m' & -> & Hs). done.
Qed.

Lemma admin_revoke_everywhere_witness :
  exists r', handleRevoke "POST" "/gosestor/revoke/7/" {[1 := owned]} = (NoContent, r').
Proof.
  destruct (admin_revoke_everywhere "/gosestor/revoke/7/" 7 {[1 := owned]}) as (r' & H & _).
  - vm_compute. reflexivity.
  - apply map_non_empty_singleton.
  - intros h m. rewrite lookup_singleton_Some. intros [_ <-]. apply owned_wf.
  - exists r'. exact H.
Defined.

(** C36: the endpoint never claims a logout that did not happen.  Over stores any of
    whose calls may be lost before or after taking effect, it answers 204 or 502;
    204 only if no provisioned store holds a session of that owner any more, and
    502 as soon as one of them reported a failure; and in either case every store
    was tried and the sessions of other owners kept their rows, cookies and keys. *)
Theorem admin_reports_failures path o (r : gmap nat (faulty Memory)) code r' :
  owner_of_path path = Some o -> r <> ∅ -> map_Forall (fun _ f => wf (inner f)) r ->
  handleRevoke "POST" path r = (code, r') ->
  (code = if bool_decide (map_Forall (fun _ f => (revoke_one o f).1 = None) r)
          then NoContent else BadGateway)
  /\ forall h, match r !! h, r' !! h with
       | Some f, Some f' =>
           f' = (revoke_one o f).2
           /\ (forall sid s, sessions (inner f) !! sid = Some s -> OwnerID s <> o ->
                 untouched sid (inner f) (inner f'))
           /\ (code = NoContent -> forall sid s, sessions (inner f') !! sid = Some s -> OwnerID s <> o)
       | None, None => True
       | _, _ => False
       end.
Proof.
  intros Ho Hne Hwf. unfold handleRevoke. rewrite decide_False by (intros H; by apply H).
  rewrite Ho, decide_False by (by apply allRevokers_nonempty).
  unfold revoke_all. intros [= <- <-]. split; [done|]. intros h. rewrite lookup_fmap.
  destruct (r !! h) as [f|] eqn:Ef; cbn [fmap option_fmap option_map]; [|done].
  pose proof (Hwf h f Ef) as Hw. split; [done|].
  destruct (run (Manager.RevokeOwner o) (MkWorld f 0 "")) as [e w'] eqn:E.
  pose proof (RevokeOwner_reported o f 0 "" e w' Hw (owner_of_path_pos _ _ Ho) E) as [H1 H2].
  assert (revoke_one o f = (e, w_store w')) as HR by (unfold revoke_one; by rewrite E).
  rewrite HR. split; [exact H1|]. intros Hcode. apply H2.
  case_bool_decide as Hall; [|done]. specialize (Hall h f Ef). cbn beta in Hall. by rewrite HR in Hall.
Qed.

Lemma admin_reports_failures_witness :
  let down := MkFaulty owned [Fine; LostRequest (ErrBackend "down")] in
  (handleRevoke "POST" "/gosestor/revoke/7/" {[1 := healthy owned; 2 := down]}).1 = BadGateway
  /\ forall f', (handleRevoke "POST" "/gosestor/revoke/7/" {[1 := healthy owned]}).2 !! 1 = Some f' ->
       forall sid s, sessions (inner f') !! sid = Some s -> OwnerID s <> 7%Z.
Proof.
  intros down. split; [vm_compute; reflexivity|]. intros f' Hf'.
  destruct (handleRevoke "POST" "/gosestor/revoke/7/" {[1 := healthy owned]}) as [code r'] eqn:E.
  destruct (admin_reports_failures "/gosestor/revoke/7/" 7 {[1 := healthy owned]} code r') as [Hc Hr].
  - vm_compute. reflexivity.
  - apply map_non_empty_singleton.
  - intros h m. rewrite lookup_singleton_Some. intros [_ <-]. apply owned_wf.
  - exact E.
  - cbn [snd] in Hf'. specialize (Hr 1). rewrite Hf', lookup_singleton_eq in Hr. destruct Hr as (_ & _ & Hr).
    apply Hr. replace code with (code, r').1 by reflexivity. rewrite <-E. vm_compute. reflexivity.
Defined.
End Admin.
