(* ===== verification/Lifecycle.v ===== *)
(** * Handlers coming and going ([session_store.go] [Provision] and [Cleanup], [admin.go])

    Caddy provisions the handlers of a new configuration while the old ones still
    serve, and cleans the old ones up afterwards, concurrently with the admin
    endpoint.  The registry is guarded by a lock, so that its operations are
    steps; between them the endpoint walks over a copy of it. *)

From stdpp Require Import base gmap list.
From Stdlib Require Import Lia.
From S2P Require Import Prelude StoreApi Admin.

Module Lifecycle.

(** A handler's Redis client. *)
Inductive client := Open | Closed.

(** The clients of the handlers provisioned so far, the registry (with each
    handler's manager represented by the handler itself), the handlers whose
    [Cleanup] has yet to close the client, and the handlers each running request
    of the endpoint has still to visit. *)
Record state := MkState {
  clients : gmap nat client;
  revokers : gmap nat nat;
  closing : gset nat;
  visiting : list (list nat) }.

Definition init : state := MkState ∅ ∅ ∅ [].

Inductive event :=
| EvProvision (h : nat)
| EvProvisionFails (h : nat)      (** a policy that does not compile: the client is made, the handler not registered *)
| EvUnregister (h : nat)          (** the first half of [Cleanup] *)
| EvClose (h : nat)               (** the second half *)
| EvRevoke (managers : list nat)  (** [allRevokers()] of a new request *)
| EvVisit (h : nat) (c : client). (** [m.RevokeOwner] over [h]'s client *)

Inductive step : state -> event -> state -> Prop :=
| step_provision h s :
    clients s !! h = None ->
    step s (EvProvision h)
      (MkState (<[h := Open]> (clients s)) (Admin.registerRevoker h h (revokers s)) (closing s) (visiting s))
| step_provision_fails h s :
    clients s !! h = None ->
    step s (EvProvisionFails h)
      (MkState (<[h := Open]> (clients s)) (revokers s) (closing s) (visiting s))
| step_unregister h s :
    clients s !! h = Some Open -> h ∉ closing s ->
    step s (EvUnregister h)
      (MkState (clients s) (Admin.unregisterRevoker h (revokers s)) ({[h]} ∪ closing s) (visiting s))
| step_close h s :
    h ∈ closing s ->
    step s (EvClose h)
      (MkState (<[h := Closed]> (clients s)) (revokers s) (closing s ∖ {[h]}) (visiting s))
| step_revoke s :
    step s (EvRevoke (Admin.allRevokers (revokers s)))
      (MkState (clients s) (revokers s) (closing s) (Admin.allRevokers (revokers s) :: visiting s))
| step_visit s before h todo after c :
    visiting s = before ++ (h :: todo) :: after -> clients s !! h = Some c ->
    step s (EvVisit h c) (MkState (clients s) (revokers s) (closing s) (before ++ todo :: after)).

Inductive steps : state -> list event -> state -> Prop :=
| steps_nil s : steps s [] s
| steps_cons s e s' es s'' : step s e s' -> steps s' es s'' -> steps s (e :: es) s''.

(** Registered handlers are named by themselves, have an open client, and are not
    being closed; whoever is being closed was provisioned. *)
Record inv (s : state) : Prop := {
  inv_open h m : revokers s !! h = Some m -> m = h /\ clients s !! h = Some Open /\ h ∉ closing s;
  inv_closing h : h ∈ closing s -> clients s !! h = Some Open;
  inv_visiting l h : l ∈ visiting s -> h ∈ l -> is_Some (clients s !! h) }.

Lemma lifecycle_init : inv init.
Proof. split; cbn; intros; set_solver. Qed.

Lemma elem_of_allRevokers (r : gmap nat nat) h :
  h ∈ Admin.allRevokers r <-> exists k, r !! k = Some h.
Proof.
  unfold Admin.allRevokers. rewrite list_elem_of_fmap. split.
  - intros ([k m] & -> & E%elem_of_map_to_list). eauto.
  - intros [k E]. exists (k, h). split; [done|]. by apply elem_of_map_to_list.
Qed.

Lemma lifecycle_step s e s' : inv s -> step s e s' -> inv s'.
Proof.
  intros HI Hst. destruct Hst as [h s|h s|h s|h s|s|s before h todo after c]; destruct HI as [Ho Hc Hv]; split;
    cbn [clients revokers closing visiting]; unfold Admin.registerRevoker, Admin.unregisterRevoker.
  - intros k m. rewrite !lookup_insert. case_decide; intros E.
    + simplify_eq. split_and!; [done|done|]. intros Hk%Hc. congruence.
    + by apply Ho.
  - intros k Hk. pose proof (Hc k Hk). rewrite lookup_insert_ne; congruence.
  - intros l k Hl Hk. destruct (Hv l k Hl Hk) as [c E]. rewrite lookup_insert_ne; [eauto|congruence].
  - intros k m E. destruct (Ho k m E) as (? & ? & ?). rewrite lookup_insert_ne by congruence. done.
  - intros k Hk. pose proof (Hc k Hk). rewrite lookup_insert_ne; congruence.
  - intros l k Hl Hk. destruct (Hv l k Hl Hk) as [c E]. rewrite lookup_insert_ne; [eauto|congruence].
  - intros k m [Hne E]%lookup_delete_Some. destruct (Ho k m E) as (? & ? & ?). split_and!; [done..|set_solver].
  - intros k [->%elem_of_singleton|Hk]%elem_of_union; [|by apply Hc].
    done.
  - apply Hv.
  - intros k m E. destruct (Ho k m E) as (? & ? & ?). split_and!; [done| |set_solver].
    rewrite lookup_insert_ne by (intros ->; done). done.
  - intros k [Hk Hne]%elem_of_difference. rewrite lookup_insert_ne by set_solver. by apply Hc.
  - intros l k Hl Hk. rewrite lookup_insert_is_Some'. right. by eapply Hv.
  - apply Ho.
  - apply Hc.
  - intros l k [->|Hl]%elem_of_cons Hk; [|by eapply Hv].
    apply elem_of_allRevokers in Hk as [k' E]. destruct (Ho _ _ E) as (-> & -> & _). eauto.
  - apply Ho.
  - apply Hc.
  - intros l k Hl Hk. apply elem_of_app in Hl as [Hl|[->|Hl]%elem_of_cons].
    + eapply Hv; [|done]. match goal with H : visiting _ = _ |- _ => rewrite H end. set_solver.
    + eapply (Hv (h :: todo)); [|set_solver]. match goal with H : visiting _ = _ |- _ => rewrite H end. set_solver.
    + eapply Hv; [|done]. match goal with H : visiting _ = _ |- _ => rewrite H end. set_solver.
Qed.

Lemma lifecycle_steps s es s' : inv s -> steps s es s' -> inv s'.
Proof. intros HI Hs. induction Hs as [|s e s' es s'' H _ IH]; [done|]. eauto using lifecycle_step. Qed.

Lemma closed_final s es s' h :
  clients s !! h = Some Closed -> steps s es s' -> clients s' !! h = Some Closed.
Proof.
  intros E Hs. induction Hs as [|s e s' es s'' H _ IH]; [done|]. apply IH.
  destruct H as [k s|k s|k s|k s|s|s before k todo after c]; cbn [clients]; try done.
  - rewrite lookup_insert_ne; congruence.
  - rewrite lookup_insert_ne; congruence.
  - rewrite lookup_insert. by case_decide.
Qed.

Lemma snapshot_open s ms s' h :
  inv s -> step s (EvRevoke ms) s' -> h ∈ ms -> clients s !! h = Some Open.
Proof.
  intros HI Hst Hh. inversion Hst; subst. apply elem_of_allRevokers in Hh as [k E].
  by destruct (inv_open s HI _ _ E) as (-> & ? & _).
Qed.

(** C28: the admin endpoint and configuration reloads: under any interleaving of
    provisioning, both halves of [Cleanup] and running revocations, a revocation
    starts with open clients only, and once a handler's [Cleanup] has closed its
    client no revocation that starts later includes the handler. *)
Theorem revocation_starts_open es s :
  steps init es s ->
  (forall ms s' h, step s (EvRevoke ms) s' -> h ∈ ms -> clients s !! h = Some Open)
  /\ forall h es' s', clients s !! h = Some Closed -> steps s es' s' ->
       forall ms, EvRevoke ms ∈ es' -> h ∉ ms.
Proof.
  intros Hs. pose proof (lifecycle_steps _ _ _ lifecycle_init Hs) as HI. clear Hs.
  split; [intros; by eapply snapshot_open|].
  intros h es' s' E Hs. induction Hs as [|s e s' es' s'' H Hs IH]; intros ms Hin Hh.
  - by apply elem_of_nil in Hin.
  - apply elem_of_cons in Hin as [<-|Hin].
    + pose proof (snapshot_open _ _ _ _ HI H Hh). congruence.
    + eapply IH; eauto using lifecycle_step. apply (closed_final s [e] s'); [done|].
      econstructor; [done|constructor].
Qed.

Lemma step_revoke_eq s ms :
  Admin.allRevokers (revokers s) = ms ->
  step s (EvRevoke ms) (MkState (clients s) (revokers s) (closing s) (ms :: visiting s)).
Proof. intros <-. apply step_revoke. Qed.

(** A reload: the old handler 1 is replaced by 2 while a request runs. *)
Definition reload : list event :=
  [EvProvision 1; EvRevoke [1]; EvProvision 2; EvUnregister 1; EvClose 1].

Lemma reload_steps : exists s, steps init reload s
  /\ clients s !! 1 = Some Closed /\ visiting s = [[1]] /\ revokers s = {[2 := 2]}.
Proof.
  eexists. split.
  - eapply steps_cons; [by apply step_provision|].
    eapply steps_cons; [apply step_revoke_eq; vm_compute; reflexivity|].
    eapply steps_cons; [by apply step_provision|].
    eapply steps_cons; [by apply step_unregister|].
    eapply steps_cons; [by apply step_close, elem_of_union_l, elem_of_singleton|]. constructor.
  - vm_compute. done.
Qed.

(** A revocation that has taken its copy of the registry can reach a client that
    [Cleanup] has closed in the meantime. *)
Theorem revocation_can_meet_closed_client :
  exists es s, steps init es s /\ EvVisit 1 Closed ∈ es.
Proof.
  destruct reload_steps as (s & Hs & Hc & Hv & _).
  exists (reload ++ [EvVisit 1 Closed]). eexists. split; [|set_solver].
  assert (Happ : forall a es b es' c, steps a es b -> steps b es' c -> steps a (es ++ es') c).
  { intros a es b es' c H. induction H; [done|]. intros. econstructor; eauto. }
  eapply Happ; [exact Hs|]. econstructor; [|constructor].
  apply (step_visit s [] 1 [] [] Closed); [by rewrite Hv|done].
Qed.

Lemma revocation_starts_open_witness :
  exists s, steps init reload s /\ forall es' s' ms, steps s es' s' -> EvRevoke ms ∈ es' -> 1 ∉ ms.
Proof.
  destruct reload_steps as (s & Hs & Hc & _). exists s. split; [exact Hs|].
  intros es' s' ms Hs' Hin. exact (proj2 (revocation_starts_open reload s Hs) 1 es' s' Hc Hs' ms Hin).
Defined.
End Lifecycle.
