(* ===== verification/Config.v ===== *)
(** * Handler configuration ([session_store.go], [Provision] and [Validate])

    The user-facing configuration, what provisioning makes of it, and the checks
    that reject a dangerous one. *)

From stdpp Require Import base gmap strings list.
From Stdlib Require Import ZArith Lia Ascii.
From S2P Require Import Prelude GoStrings Crypto GoTime Http HttpProps Cookies Filter Authz.
From S2P Require Import Manager Handler CookieThms.

Module Config.

Definition defaultRotateHeader : string := "X-Session-Rotate".
Definition defaultRevokeHeader : string := "X-Session-Revoke".
Definition defaultLabelsHeader : string := "X-Session-Labels".

(** [RedisConfig], [AuthzConfig] and the exported fields of [Handler]. *)
Record RedisConfig := MkRedisConfig { Address : string; Password : string; DB : Z; KeyPrefix : string }.
Record HandlerConfig := MkHandlerConfig {
  Redis : RedisConfig;
  CCookie : CookieConfig;
  Forward : list string;
  CStore : list string;
  InactiveTimeout : Z;
  FinalTimeout : Z;
  CIdentityHeader : string;
  CRotateOnLogin : option bool;
  CRotateInterval : Z;
  RotateHeader : string;
  RevokeHeader : string;
  LabelsHeader : string;
  CAuthz : option Authz.Config;
  CSynchronize : bool;
  COnStoreError : string }.

(** [strings.EqualFold(name, "off")] *)
Definition is_off (name : string) : bool := EqualFold name "off".

(** [resolveRotateHeader] and [resolveRevokeHeader]: the effective name and
    whether the trigger is on. *)
Definition resolve_header (configured dflt : string) : string * bool :=
  if is_off configured then (dflt, false)
  else if decide (configured = "") then (dflt, true)
  else (configured, true).

Definition resolveRotateHeader (c : HandlerConfig) : string * bool :=
  resolve_header (RotateHeader c) defaultRotateHeader.
Definition resolveRevokeHeader (c : HandlerConfig) : string * bool :=
  resolve_header (RevokeHeader c) defaultRevokeHeader.

(** [buildAuthz], shared by [Provision] and [Validate]. *)
Definition buildAuthz (ac : Authz.Config) : result Authz.Error Authz.Authz :=
  Authz.New (Authz.MkConfig (Authz.Rules ac) (Authz.DefaultLabel ac) (Authz.AuthEndpoints ac)
    (Authz.RedirectParam ac)).

Definition labels_header (c : HandlerConfig) : string :=
  if decide (LabelsHeader c = "") then defaultLabelsHeader else LabelsHeader c.

(** The part of [Provision] that depends on the configuration; [None] is a
    policy that does not compile. *)
Definition Provision (c : HandlerConfig) : result Authz.Error Handler.Handler :=
  let inactive := if (InactiveTimeout c =? 0)%Z then (1800 * Second)%Z else InactiveTimeout c in
  let final := if (FinalTimeout c =? 0)%Z then (28800 * Second)%Z else FinalTimeout c in
  let path := if decide (cc_Path (CCookie c) = "") then "/" else cc_Path (CCookie c) in
  let cookie := MkCookieConfig (cc_Name (CCookie c)) path (cc_SameSite (CCookie c))
                  (cc_Insecure (CCookie c)) in
  let '(rotate, rotateOn) := resolveRotateHeader c in
  let '(revoke, revokeOn) := resolveRevokeHeader c in
  let handler a := Handler.MkHandler cookie (Filter.New (Forward c) (CStore c))
    (Manager.MkConfig inactive final (CSynchronize c) (default true (CRotateOnLogin c))
       (CRotateInterval c))
    (CIdentityHeader c) rotate rotateOn revoke revokeOn (labels_header c) a (COnStoreError c) in
  match CAuthz c with
  | None => Ok (handler None)
  | Some ac =>
      match buildAuthz ac with
      | Ok a => Ok (handler (Some a))
      | Err e => Err e
      end
  end.

Inductive verror :=
| NoRedisAddress
| BadOnStoreError
| InsecureSameSiteNone
| NegativeDuration
| HeaderCollision (a b : string)
| BadAuthz (e : Authz.Error).

Section Validate.
(** The representative of a rune's case-folding orbit ([unicode.SimpleFold]). *)
Context (simple_fold : Z -> Z).

Definition EqualFoldU (s t : string) : bool :=
  bool_decide ((fun rc => simple_fold rc.1) <$> runes s = (fun rc => simple_fold rc.1) <$> runes t).

(** The first pair of names that collide, in the order of the nested loops. *)
Fixpoint collision (names : list string) : option verror :=
  match names with
  | [] => None
  | a :: rest =>
      match base.filter (fun b => EqualFoldU a b = true) rest with
      | b :: _ => Some (HeaderCollision a b)
      | [] => collision rest
      end
  end.

(** The effective names [Validate] compares. *)
Definition effective_headers (c : HandlerConfig) : list string :=
  [CIdentityHeader c;
   (if decide (RotateHeader c = "" \/ is_off (RotateHeader c) = true)
    then defaultRotateHeader else RotateHeader c);
   (if decide (RevokeHeader c = "" \/ is_off (RevokeHeader c) = true)
    then defaultRevokeHeader else RevokeHeader c);
   labels_header c].

Definition Validate (c : HandlerConfig) : option verror :=
  if decide (Address (Redis c) = "") then Some NoRedisAddress
  else if decide (COnStoreError c <> "fail_closed" /\ COnStoreError c <> "fail_open") then
    Some BadOnStoreError
  else if EqualFold (cc_SameSite (CCookie c)) "none" && cc_Insecure (CCookie c) then
    Some InsecureSameSiteNone
  else if ((InactiveTimeout c <? 0) || (FinalTimeout c <? 0) || (CRotateInterval c <? 0))%Z then
    Some NegativeDuration
  else
    match collision (effective_headers c) with
    | Some e => Some e
    | None =>
        match CAuthz c with
        | None => None
        | Some ac => match buildAuthz ac with Ok _ => None | Err e => Some (BadAuthz e) end
        end
    end.
End Validate.

(** ** Lemmas *)

Lemma resolve_header_name n d :
  (resolve_header n d).1 = if decide (n = "" \/ is_off n = true) then d else n.
Proof.
  unfold resolve_header. destruct (is_off n) eqn:E.
  - by rewrite decide_True by (by right).
  - destruct (decide (n = "")) as [Hn|Hn].
    + by rewrite decide_True by (by left).
    + rewrite decide_False; [done|]. by intros [?|?].
Qed.

Lemma provision_headers c h :
  Provision c = Ok h -> Handler.controlHeaders h = effective_headers c.
Proof.
  unfold Provision, effective_headers, resolveRotateHeader, resolveRevokeHeader.
  rewrite <-!resolve_header_name.
  destruct (resolve_header (RotateHeader c) _) as [rot rotOn].
  destruct (resolve_header (RevokeHeader c) _) as [rev revOn].
  intros H. by case_all.
Qed.

Lemma collision_None f names :
  collision f names = None ->
  forall i j a b, i < j -> names !! i = Some a -> names !! j = Some b -> EqualFoldU f a b = false.
Proof.
  induction names as [|x names IH]; [done|]. simpl.
  destruct (base.filter (fun b => EqualFoldU f x b = true) names) as [|y ys] eqn:E; [|done].
  intros HC [|i] [|j] a b Hij Ha Hb; try lia; simpl in *.
  - simplify_eq. destruct (EqualFoldU f a b) eqn:Ef; [|done].
    assert (Hin : b ∈ base.filter (fun b => EqualFoldU f a b = true) names)
      by (apply list_elem_of_filter; split; [done|by eapply list_elem_of_lookup_2]).
    rewrite E in Hin. by apply elem_of_nil in Hin.
  - eapply (IH HC i j); eauto; lia.
Qed.

(** ** Case folding *)

Definition ascii_fold (r : Z) : Z := (if (65 <=? r) && (r <=? 90) then r + 32 else r)%Z.

Lemma token_ascii c : token_byte c = true -> (byte_val c < 0x80)%Z.
Proof.
  intros H. apply Z.ltb_lt. revert c H. apply implb_ascii. vm_compute. reflexivity.
Qed.

Lemma fold_case c : ascii_fold (byte_val (to_upper c)) = ascii_fold (byte_val c)
  /\ ascii_fold (byte_val (to_lower c)) = ascii_fold (byte_val c).
Proof. split; revert c; apply forall_ascii_eq; vm_compute; reflexivity. Qed.

Section Fold.
Context (simple_fold : Z -> Z).
Hypothesis fold_ascii : forall r, (0 <= r < 0x80)%Z -> simple_fold r = ascii_fold r.

Lemma fold_canon u s :
  all_bytes token_byte s = true ->
  (fun rc => simple_fold rc.1) <$> runes (canon_go u s) = (fun rc => simple_fold rc.1) <$> runes s.
Proof.
  revert u; induction s as [|c s IH]; intros u; [done|]. cbn [all_bytes]. intros [Hc Hs]%andb_prop.
  cbn [canon_go].
  assert (Hc' : token_byte (if u then to_upper c else to_lower c) = true)
    by (destruct u; by rewrite ?token_upper, ?token_lower).
  rewrite !runes_ascii_cons by (by apply token_ascii). cbn [fmap list_fmap fst]. f_equal; [|by apply IH].
  pose proof (byte_val_range c). pose proof (byte_val_range (if u then to_upper c else to_lower c)).
  pose proof (token_ascii _ Hc). pose proof (token_ascii _ Hc').
  rewrite !fold_ascii by lia. destruct u; apply fold_case.
Qed.

(** Names with the same canonical form fold to the same name. *)
Lemma canonical_fold a b : canonical_key a = canonical_key b -> EqualFoldU simple_fold a b = true.
Proof.
  unfold canonical_key, EqualFoldU. intros H. apply bool_decide_eq_true.
  destruct (all_bytes token_byte a) eqn:Ea, (all_bytes token_byte b) eqn:Eb.
  - by rewrite <-(fold_canon true a), <-(fold_canon true b), H.
  - rewrite <-H, canon_go_token, Ea in Eb. done.
  - rewrite H, canon_go_token, Eb in Ea. done.
  - by rewrite H.
Qed.
End Fold.

Lemma none_lower_fold s :
  lower_runes s = lower_runes "none" -> EqualFold s "none" = true.
Proof.
  intros H. apply bool_decide_eq_true. unfold lower_runes, fold_runes in *.
  assert (HR : forall r, lower_rune r ∈ [110; 111; 101]%Z -> fold_rune r = lower_rune r).
  { intros r. unfold lower_rune, fold_rune. rewrite !elem_of_cons, elem_of_nil.
    repeat case_match; lia. }
  replace ((fun rc => fold_rune rc.1) <$> runes s) with ((fun rc => lower_rune rc.1) <$> runes s);
    [rewrite H; by vm_compute|].
  assert (HA : Forall (fun rc => lower_rune rc.1 ∈ [110; 111; 101]%Z) (runes s)).
  { apply Forall_forall. intros rc Hrc.
    assert (Hin : lower_rune rc.1 ∈ (fun rc => lower_rune rc.1) <$> runes s)
      by (apply list_elem_of_fmap; eauto).
    rewrite H in Hin. change (lower_rune rc.1 ∈ [110; 111; 110; 101]%Z) in Hin.
    revert Hin. rewrite !elem_of_cons, elem_of_nil. tauto. }
  clear H. induction HA as [|rc rs Hr _ IH]; [done|]. cbn [fmap list_fmap].
  f_equal; [symmetry; by apply HR|exact IH].
Qed.

(** What provisioning copies or defaults. *)
Lemma provision_fields c h :
  Provision c = Ok h ->
  Handler.OnStoreError h = COnStoreError c
  /\ cc_SameSite (Handler.Cookie h) = cc_SameSite (CCookie c)
  /\ cc_Insecure (Handler.Cookie h) = cc_Insecure (CCookie c)
  /\ Manager.Inactive (Handler.manager h)
     = (if (InactiveTimeout c =? 0)%Z then 1800 * Second else InactiveTimeout c)%Z
  /\ Manager.Final (Handler.manager h)
     = (if (FinalTimeout c =? 0)%Z then 28800 * Second else FinalTimeout c)%Z
  /\ Manager.RotateOnLogin (Handler.manager h) = default true (CRotateOnLogin c).
Proof.
  unfold Provision. destruct (resolveRotateHeader c), (resolveRevokeHeader c).
  destruct (CAuthz c) as [ac|]; [destruct (buildAuthz ac)|]; intros E; simplify_eq; done.
Qed.

Lemma provision_total c :
  match CAuthz c with
  | None => None
  | Some ac => match buildAuthz ac with Ok _ => None | Err e => Some (BadAuthz e) end
  end = None -> exists h, Provision c = Ok h.
Proof.
  unfold Provision. destruct (resolveRotateHeader c), (resolveRevokeHeader c).
  destruct (CAuthz c) as [ac|]; [destruct (buildAuthz ac)|]; eauto; done.
Qed.

Lemma distinct_headers simple_fold c h i j a b :
  (forall r, (0 <= r < 0x80)%Z -> simple_fold r = ascii_fold r) ->
  collision simple_fold (effective_headers c) = None -> Provision c = Ok h -> i <> j ->
  Handler.controlHeaders h !! i = Some a -> Handler.controlHeaders h !! j = Some b ->
  canonical_key a <> canonical_key b.
Proof.
  intros Hf Ec HP. rewrite (provision_headers _ _ HP). intros Hne Hi Hj E.
  destruct (Nat.lt_total i j) as [Hij|[Hij|Hij]]; [|done|].
  - pose proof (collision_None _ _ Ec i j a b Hij Hi Hj) as HF.
    by rewrite (canonical_fold simple_fold Hf a b E) in HF.
  - pose proof (collision_None _ _ Ec j i b a Hij Hj Hi) as HF.
    by rewrite (canonical_fold simple_fold Hf b a (eq_sym E)) in HF.
Qed.

(** C31: a configuration that validates is provisioned, and safely: the four
    control headers stay distinct after canonicalization, so reading or stripping
    one never touches another; the failure policy is one of the two known ones;
    a SameSite=None proxy cookie is Secure; timeouts are positive; and rotation
    on login is on unless it was turned off explicitly. *)
Theorem validated_config_safe simple_fold c :
  (forall r, (0 <= r < 0x80)%Z -> simple_fold r = ascii_fold r) ->
  Validate simple_fold c = None ->
  exists h, Provision c = Ok h
  /\ (forall i j a b, i <> j -> Handler.controlHeaders h !! i = Some a ->
        Handler.controlHeaders h !! j = Some b -> canonical_key a <> canonical_key b)
  /\ (Handler.OnStoreError h = "fail_closed" \/ Handler.OnStoreError h = "fail_open")
  /\ (same_site (Handler.Cookie h) = SameSiteNoneMode -> cc_Insecure (Handler.Cookie h) = false)
  /\ (0 < Manager.Inactive (Handler.manager h))%Z /\ (0 < Manager.Final (Handler.manager h))%Z
  /\ (CRotateOnLogin c <> Some false -> Manager.RotateOnLogin (Handler.manager h) = true).
Proof.
  intros Hf. unfold Validate. case_decide; [done|]. destruct (decide (_ /\ _)) as [|Hon]; [done|].
  destruct (EqualFold _ "none" && _) eqn:Esame; [done|].
  destruct ((InactiveTimeout c <? 0) || (FinalTimeout c <? 0) || (CRotateInterval c <? 0))%Z eqn:Ed; [done|].
  destruct (collision simple_fold (effective_headers c)) eqn:Ec; [done|].
  intros [h HP]%provision_total. exists h. split; [done|].
  split; [intros; by eapply distinct_headers|].
  rewrite !orb_false_iff, !Z.ltb_ge in Ed. destruct Ed as [[Hi Hfi] _].
  destruct (provision_fields c h HP) as (-> & H2 & -> & -> & -> & ->). split_and!.
  - destruct (decide (COnStoreError c = "fail_closed")); [by left|].
    destruct (decide (COnStoreError c = "fail_open")); [by right|]. tauto.
  - unfold same_site. rewrite H2. repeat case_decide; try done. intros _.
    rewrite none_lower_fold in Esame by done. done.
  - destruct (Z.eqb_spec (InactiveTimeout c) 0); [done|lia].
  - destruct (Z.eqb_spec (FinalTimeout c) 0); [done|lia].
  - by destruct (CRotateOnLogin c) as [[]|].
Qed.

Definition demo_config : HandlerConfig :=
  MkHandlerConfig (MkRedisConfig "localhost:6379" "" 0 "") (MkCookieConfig "KEY" "" "None" false)
    ["theme"] ["SID"] 0 0 "X-User-Id" None 0 "off" "" "" None true "fail_open".

Lemma validated_config_safe_witness :
  exists h, Provision demo_config = Ok h /\ Manager.RotateOnLogin (Handler.manager h) = true
    /\ cc_Insecure (Handler.Cookie h) = false.
Proof.
  destruct (validated_config_safe ascii_fold demo_config) as (h & H1 & _ & _ & H2 & _ & _ & H3).
  - intros r _. reflexivity.
  - vm_compute. reflexivity.
  - exists h. split; [exact H1|]. split; [apply H3; discriminate|].
    apply H2. vm_compute in H1. injection H1 as <-. vm_compute. reflexivity.
Defined.

End Config.
