(* ===== verification/Caddyfile.v ===== *)
(** * The Caddyfile parser ([session_store.go], [UnmarshalCaddyfile])

    The parser reads tokens from Caddy's dispenser, a third-party component that
    is a parameter here: a type with the five methods the parser calls and what
    their documentation says of progress, which is all that termination needs.
    What a document means is [meaning], the effect of each line in turn; the
    parser computes it on every dispenser that serves the document's lines. *)

From stdpp Require Import base gmap strings list.
From Stdlib Require Import ZArith Lia.
From S2P Require Import Prelude GoStrings GoStrconv GoDuration GoTime Cookies Authz Config.
Import Config.

(** ** The dispenser *)

(** [left] counts the tokens not yet loaded: a method that reports a token has
    loaded it, and no method gives tokens back for good. *)
Class Dispenser (D : Type) := {
  Next : D -> bool * D;
  NextBlock : nat -> D -> bool * D;
  NextArg : D -> bool * D;
  Val : D -> string;
  RemainingArgs : D -> list string * D;
  left : D -> nat;
  Next_true d d' : Next d = (true, d') -> left d' < left d;
  Next_false d d' : Next d = (false, d') -> left d' <= left d;
  NextBlock_true n d d' : NextBlock n d = (true, d') -> left d' < left d;
  NextBlock_false n d d' : NextBlock n d = (false, d') -> left d' <= left d;
  NextArg_left d : left (NextArg d).2 <= left d;
  RemainingArgs_left d : left (RemainingArgs d).2 <= left d }.

Module Caddyfile.

(** The errors of the parser. *)
Inductive perror :=
| ArgErr
| InvalidDB (v : string)
| InvalidDuration (v : string)
| InvalidBool (option v : string)
| RequireArity
| EndpointArity
| UnknownRedis (v : string)
| UnknownCookie (v : string)
| UnknownAuthz (v : string)
| UnknownOption (v : string).

(** A loop may run out of fuel before it returns an error or a value. *)
Inductive outcome (A : Type) :=
| OutOfFuel
| Fails (e : perror)
| Done (a : A).
Arguments OutOfFuel {A}.
Arguments Fails {A} e.
Arguments Done {A} a.

(** ** Assignments to the fields of the handler *)

Definition set_Redis (v : RedisConfig) (c : HandlerConfig) : HandlerConfig :=
  MkHandlerConfig v (CCookie c) (Forward c) (CStore c) (InactiveTimeout c) (FinalTimeout c) (CIdentityHeader c)
    (CRotateOnLogin c) (CRotateInterval c) (RotateHeader c) (RevokeHeader c) (LabelsHeader c) (CAuthz c) (CSynchronize c) (COnStoreError c).
Definition set_CCookie (v : CookieConfig) (c : HandlerConfig) : HandlerConfig :=
  MkHandlerConfig (Redis c) v (Forward c) (CStore c) (InactiveTimeout c) (FinalTimeout c) (CIdentityHeader c)
    (CRotateOnLogin c) (CRotateInterval c) (RotateHeader c) (RevokeHeader c) (LabelsHeader c) (CAuthz c) (CSynchronize c) (COnStoreError c).
Definition set_Forward (v : list string) (c : HandlerConfig) : HandlerConfig :=
  MkHandlerConfig (Redis c) (CCookie c) v (CStore c) (InactiveTimeout c) (FinalTimeout c) (CIdentityHeader c)
    (CRotateOnLogin c) (CRotateInterval c) (RotateHeader c) (RevokeHeader c) (LabelsHeader c) (CAuthz c) (CSynchronize c) (COnStoreError c).
Definition set_CStore (v : list string) (c : HandlerConfig) : HandlerConfig :=
  MkHandlerConfig (Redis c) (CCookie c) (Forward c) v (InactiveTimeout c) (FinalTimeout c) (CIdentityHeader c)
    (CRotateOnLogin c) (CRotateInterval c) (RotateHeader c) (RevokeHeader c) (LabelsHeader c) (CAuthz c) (CSynchronize c) (COnStoreError c).
Definition set_InactiveTimeout (v : Z) (c : HandlerConfig) : HandlerConfig :=
  MkHandlerConfig (Redis c) (CCookie c) (Forward c) (CStore c) v (FinalTimeout c) (CIdentityHeader c)
    (CRotateOnLogin c) (CRotateInterval c) (RotateHeader c) (RevokeHeader c) (LabelsHeader c) (CAuthz c) (CSynchronize c) (COnStoreError c).
Definition set_FinalTimeout (v : Z) (c : HandlerConfig) : HandlerConfig :=
  MkHandlerConfig (Redis c) (CCookie c) (Forward c) (CStore c) (InactiveTimeout c) v (CIdentityHeader c)
    (CRotateOnLogin c) (CRotateInterval c) (RotateHeader c) (RevokeHeader c) (LabelsHeader c) (CAuthz c) (CSynchronize c) (COnStoreError c).
Definition set_CIdentityHeader (v : string) (c : HandlerConfig) : HandlerConfig :=
  MkHandlerConfig (Redis c) (CCookie c) (Forward c) (CStore c) (InactiveTimeout c) (FinalTimeout c) v
    (CRotateOnLogin c) (CRotateInterval c) (RotateHeader c) (RevokeHeader c) (LabelsHeader c) (CAuthz c) (CSynchronize c) (COnStoreError c).
Definition set_CRotateOnLogin (v : option bool) (c : HandlerConfig) : HandlerConfig :=
  MkHandlerConfig (Redis c) (CCookie c) (Forward c) (CStore c) (InactiveTimeout c) (FinalTimeout c) (CIdentityHeader c)
    v (CRotateInterval c) (RotateHeader c) (RevokeHeader c) (LabelsHeader c) (CAuthz c) (CSynchronize c) (COnStoreError c).
Definition set_CRotateInterval (v : Z) (c : HandlerConfig) : HandlerConfig :=
  MkHandlerConfig (Redis c) (CCookie c) (Forward c) (CStore c) (InactiveTimeout c) (FinalTimeout c) (CIdentityHeader c)
    (CRotateOnLogin c) v (RotateHeader c) (RevokeHeader c) (LabelsHeader c) (CAuthz c) (CSynchronize c) (COnStoreError c).
Definition set_RotateHeader (v : string) (c : HandlerConfig) : HandlerConfig :=
  MkHandlerConfig (Redis c) (CCookie c) (Forward c) (CStore c) (InactiveTimeout c) (FinalTimeout c) (CIdentityHeader c)
    (CRotateOnLogin c) (CRotateInterval c) v (RevokeHeader c) (LabelsHeader c) (CAuthz c) (CSynchronize c) (COnStoreError c).
Definition set_RevokeHeader (v : string) (c : HandlerConfig) : HandlerConfig :=
  MkHandlerConfig (Redis c) (CCookie c) (Forward c) (CStore c) (InactiveTimeout c) (FinalTimeout c) (CIdentityHeader c)
    (CRotateOnLogin c) (CRotateInterval c) (RotateHeader c) v (LabelsHeader c) (CAuthz c) (CSynchronize c) (COnStoreError c).
Definition set_LabelsHeader (v : string) (c : HandlerConfig) : HandlerConfig :=
  MkHandlerConfig (Redis c) (CCookie c) (Forward c) (CStore c) (InactiveTimeout c) (FinalTimeout c) (CIdentityHeader c)
    (CRotateOnLogin c) (CRotateInterval c) (RotateHeader c) (RevokeHeader c) v (CAuthz c) (CSynchronize c) (COnStoreError c).
Definition set_CAuthz (v : option Authz.Config) (c : HandlerConfig) : HandlerConfig :=
  MkHandlerConfig (Redis c) (CCookie c) (Forward c) (CStore c) (InactiveTimeout c) (FinalTimeout c) (CIdentityHeader c)
    (CRotateOnLogin c) (CRotateInterval c) (RotateHeader c) (RevokeHeader c) (LabelsHeader c) v (CSynchronize c) (COnStoreError c).
Definition set_CSynchronize (v : bool) (c : HandlerConfig) : HandlerConfig :=
  MkHandlerConfig (Redis c) (CCookie c) (Forward c) (CStore c) (InactiveTimeout c) (FinalTimeout c) (CIdentityHeader c)
    (CRotateOnLogin c) (CRotateInterval c) (RotateHeader c) (RevokeHeader c) (LabelsHeader c) (CAuthz c) v (COnStoreError c).
Definition set_COnStoreError (v : string) (c : HandlerConfig) : HandlerConfig :=
  MkHandlerConfig (Redis c) (CCookie c) (Forward c) (CStore c) (InactiveTimeout c) (FinalTimeout c) (CIdentityHeader c)
    (CRotateOnLogin c) (CRotateInterval c) (RotateHeader c) (RevokeHeader c) (LabelsHeader c) (CAuthz c) (CSynchronize c) v.

Definition set_Address (v : string) (r : RedisConfig) := MkRedisConfig v (Password r) (DB r) (KeyPrefix r).
Definition set_Password (v : string) (r : RedisConfig) := MkRedisConfig (Address r) v (DB r) (KeyPrefix r).
Definition set_DB (v : Z) (r : RedisConfig) := MkRedisConfig (Address r) (Password r) v (KeyPrefix r).
Definition set_KeyPrefix (v : string) (r : RedisConfig) := MkRedisConfig (Address r) (Password r) (DB r) v.
Definition set_Name (v : string) (k : CookieConfig) := MkCookieConfig v (cc_Path k) (cc_SameSite k) (cc_Insecure k).
Definition set_Path (v : string) (k : CookieConfig) := MkCookieConfig (cc_Name k) v (cc_SameSite k) (cc_Insecure k).
Definition set_SameSite (v : string) (k : CookieConfig) := MkCookieConfig (cc_Name k) (cc_Path k) v (cc_Insecure k).
Definition set_Insecure (k : CookieConfig) := MkCookieConfig (cc_Name k) (cc_Path k) (cc_SameSite k) true.
Definition add_rule (p l : string) (a : Authz.Config) :=
  Authz.MkConfig (Authz.Rules a ++ [Authz.MkRule p l]) (Authz.DefaultLabel a) (Authz.AuthEndpoints a) (Authz.RedirectParam a).
Definition set_DefaultLabel (v : string) (a : Authz.Config) :=
  Authz.MkConfig (Authz.Rules a) v (Authz.AuthEndpoints a) (Authz.RedirectParam a).
Definition add_endpoint (l p : string) (a : Authz.Config) :=
  Authz.MkConfig (Authz.Rules a) (Authz.DefaultLabel a) (<[l := p]> (Authz.AuthEndpoints a)) (Authz.RedirectParam a).
Definition set_RedirectParam (v : string) (a : Authz.Config) :=
  Authz.MkConfig (Authz.Rules a) (Authz.DefaultLabel a) (Authz.AuthEndpoints a) v.

Definition zero_authz : Authz.Config := Authz.MkConfig [] "" ∅ "".

(** The handler before the first token: zero values and the defaults. *)
Definition defaults : HandlerConfig :=
  MkHandlerConfig (MkRedisConfig "" "" 0 "gs:") (MkCookieConfig "__gosestor" "/" "lax" false)
    [] [] 0 0 "X-Auth-User" None 0 "" "" "" None false "fail_closed".

(** ** The parser *)

Section Parser.
Context {D : Type} `{Dispenser D}.

(** [if !d.NextArg() { return d.ArgErr() }], then [d.Val()]. *)
Definition arg (d : D) : result perror (string * D) :=
  let '(ok, d) := NextArg d in if ok then Ok (Val d, d) else Err ArgErr.

(** An option that stores its argument. *)
Definition with_arg {A} (f : string -> result perror A) (d : D) : result perror (A * D) :=
  match arg d with
  | Err e => Err e
  | Ok (v, d) => match f v with Ok a => Ok (a, d) | Err e => Err e end
  end.

(** The body of [for d.NextBlock(1)] in a [redis] block. *)
Definition redis_option (r : RedisConfig) (d : D) : result perror (RedisConfig * D) :=
  let v := Val d in
  if decide (v = "address") then with_arg (fun v => Ok (set_Address v r)) d
  else if decide (v = "password") then with_arg (fun v => Ok (set_Password v r)) d
  else if decide (v = "db") then
    with_arg (fun v => match Sscanf_d v with Some n => Ok (set_DB n r) | None => Err (InvalidDB v) end) d
  else if decide (v = "key_prefix") then with_arg (fun v => Ok (set_KeyPrefix v r)) d
  else Err (UnknownRedis v).

Definition cookie_option (k : CookieConfig) (d : D) : result perror (CookieConfig * D) :=
  let v := Val d in
  if decide (v = "name") then with_arg (fun v => Ok (set_Name v k)) d
  else if decide (v = "path") then with_arg (fun v => Ok (set_Path v k)) d
  else if decide (v = "same_site") then with_arg (fun v => Ok (set_SameSite v k)) d
  else if decide (v = "insecure") then Ok (set_Insecure k, d)
  else Err (UnknownCookie v).

Definition authz_option (a : Authz.Config) (d : D) : result perror (Authz.Config * D) :=
  let v := Val d in
  if decide (v = "require") then
    let '(args, d) := RemainingArgs d in
    match args with [p; l] => Ok (add_rule p l a, d) | _ => Err RequireArity end
  else if decide (v = "require_default") then with_arg (fun v => Ok (set_DefaultLabel v a)) d
  else if decide (v = "auth_endpoint") then
    let '(args, d) := RemainingArgs d in
    match args with [l; p] => Ok (add_endpoint l p a, d) | _ => Err EndpointArity end
  else if decide (v = "redirect_param") then with_arg (fun v => Ok (set_RedirectParam v a)) d
  else Err (UnknownAuthz v).

(** [for cond(d) { body }] *)
Fixpoint loop {A} (fuel : nat) (cond : D -> bool * D) (body : A -> D -> outcome (A * D))
    (a : A) (d : D) : outcome (A * D) :=
  match fuel with
  | 0 => OutOfFuel
  | S fuel' =>
      let '(more, d) := cond d in
      if more then
        match body a d with
        | Done (a, d) => loop fuel' cond body a d
        | Fails e => Fails e
        | OutOfFuel => OutOfFuel
        end
      else Done (a, d)
  end.

Definition lift {A} (body : A -> D -> result perror (A * D)) (a : A) (d : D) : outcome (A * D) :=
  match body a d with Ok x => Done x | Err e => Fails e end.

(** A nested block, and the assignment of what it made of its part. *)
Definition block {A} (fuel : nat) (body : A -> D -> result perror (A * D)) (a : A)
    (assign : A -> HandlerConfig) (d : D) : outcome (HandlerConfig * D) :=
  match loop fuel (NextBlock 1) (lift body) a d with
  | Done (a, d) => Done (assign a, d)
  | Fails e => Fails e
  | OutOfFuel => OutOfFuel
  end.

(** [time.ParseDuration] and [strconv.ParseBool] with their errors. *)
Definition duration (assign : Z -> HandlerConfig) (v : string) : result perror HandlerConfig :=
  match ParseDuration v with Some n => Ok (assign n) | None => Err (InvalidDuration v) end.
Definition boolean (name : string) (assign : bool -> HandlerConfig) (v : string) : result perror HandlerConfig :=
  match ParseBool v with Some b => Ok (assign b) | None => Err (InvalidBool name v) end.

Definition one (f : string -> result perror HandlerConfig) (d : D) : outcome (HandlerConfig * D) :=
  match with_arg f d with Ok x => Done x | Err e => Fails e end.

(** The body of [for d.NextBlock(0)]. *)
Definition session_option (fuel : nat) (c : HandlerConfig) (d : D) : outcome (HandlerConfig * D) :=
  let v := Val d in
  if decide (v = "redis") then block fuel redis_option (Redis c) (fun r => set_Redis r c) d
  else if decide (v = "cookie") then block fuel cookie_option (CCookie c) (fun k => set_CCookie k c) d
  else if decide (v = "forward") then
    let '(args, d) := RemainingArgs d in Done (set_Forward (Forward c ++ args) c, d)
  else if decide (v = "store") then
    let '(args, d) := RemainingArgs d in Done (set_CStore (CStore c ++ args) c, d)
  else if decide (v = "inactive_timeout") then one (duration (fun n => set_InactiveTimeout n c)) d
  else if decide (v = "final_timeout") then one (duration (fun n => set_FinalTimeout n c)) d
  else if decide (v = "identity_header") then one (fun v => Ok (set_CIdentityHeader v c)) d
  else if decide (v = "rotate_on_login") then
    one (boolean "rotate_on_login" (fun b => set_CRotateOnLogin (Some b) c)) d
  else if decide (v = "rotate_interval") then one (duration (fun n => set_CRotateInterval n c)) d
  else if decide (v = "rotate_header") then one (fun v => Ok (set_RotateHeader v c)) d
  else if decide (v = "revoke_header") then one (fun v => Ok (set_RevokeHeader v c)) d
  else if decide (v = "labels_header") then one (fun v => Ok (set_LabelsHeader v c)) d
  else if decide (v = "authz") then
    block fuel authz_option (default zero_authz (CAuthz c)) (fun a => set_CAuthz (Some a) c) d
  else if decide (v = "synchronize_sessions") then
    one (boolean "synchronize_sessions" (fun b => set_CSynchronize b c)) d
  else if decide (v = "on_store_error") then one (fun v => Ok (set_COnStoreError v c)) d
  else Fails (UnknownOption v).

(** The parser with a bound on the passes of each loop; an error is returned
    without the half-filled handler, as its caller drops it. *)
Definition unmarshal (fuel : nat) (d : D) : outcome HandlerConfig :=
  match loop fuel Next (loop fuel (NextBlock 0) (session_option fuel)) defaults d with
  | Done (c, _) => Done c
  | Fails e => Fails e
  | OutOfFuel => OutOfFuel
  end.

(** Each pass loads a token, so that the tokens left bound the passes. *)
Definition UnmarshalCaddyfile (d : D) : outcome HandlerConfig := unmarshal (S (left d)) d.

(** ** Progress *)

Definition progress {A} (d : D) (o : outcome (A * D)) : Prop :=
  match o with OutOfFuel => False | Fails _ => True | Done (_, d') => left d' <= left d end.

Lemma with_arg_progress {A} (f : string -> result perror A) d a d' :
  with_arg f d = Ok (a, d') -> left d' <= left d.
Proof.
  unfold with_arg, arg. pose proof (NextArg_left d). destruct (NextArg d) as [[] d1]; [|done].
  destruct (f (Val d1)); [|done]. by intros [= _ <-].
Qed.

(** A body that never loads fewer tokens than it had. *)
Definition steady {A} (body : A -> D -> result perror (A * D)) : Prop :=
  forall a d a' d', body a d = Ok (a', d') -> left d' <= left d.

Ltac steady :=
  intros ????; unfold redis_option, cookie_option, authz_option; cbv zeta;
  repeat match goal with
    | |- context [decide ?P] => destruct (decide P)
    | |- context [RemainingArgs ?d] =>
        pose proof (RemainingArgs_left d); destruct (RemainingArgs d) as [[|? [|? [|]]] ?]
    | |- with_arg _ _ = _ -> _ => apply with_arg_progress
    end; try done; try (by intros [= _ <-]).

Lemma redis_option_steady : steady redis_option.
Proof. steady. Qed.
Lemma cookie_option_steady : steady cookie_option.
Proof. steady. Qed.
Lemma authz_option_steady : steady authz_option.
Proof. steady. Qed.

(** A loop whose condition loads a token each time returns, whatever the fuel
    beyond the tokens left, and always with the same result. *)
Lemma loop_progress {A} cond (body body' : A -> D -> outcome (A * D)) n m a d :
  (forall d d', cond d = (true, d') -> left d' < left d) ->
  (forall d d', cond d = (false, d') -> left d' <= left d) ->
  (forall a d', left d' < left d -> progress d' (body a d') /\ body' a d' = body a d') ->
  left d < n -> left d < m ->
  progress d (loop n cond body a d) /\ loop m cond body' a d = loop n cond body a d.
Proof.
  intros Ht Hf. revert m a d; induction n as [|n IH]; intros m a d Hb Hn Hm; [lia|].
  destruct m as [|m]; [lia|]. cbn [loop]. destruct (cond d) as [[] d1] eqn:E.
  - apply Ht in E. destruct (Hb a d1 E) as [Hp ->]. destruct (body a d1) as [| |[a' d2]]; [done..|].
    cbn [progress] in Hp. destruct (IH m a' d2) as [Hq ->]; [|lia..|].
    + intros a0 d0 H0. apply Hb. lia.
    + split; [|done]. destruct (loop n cond body a' d2) as [| |[a3 d3]]; [done..|]. cbn in *. lia.
  - apply Hf in E. done.
Qed.

Lemma lift_progress {A} (body : A -> D -> result perror (A * D)) a d :
  steady body -> progress d (lift body a d).
Proof. intros Hs. unfold lift. destruct (body a d) as [[a' d']|e] eqn:E; [|done]. exact (Hs _ _ _ _ E). Qed.

Lemma block_progress {A} n m (body : A -> D -> result perror (A * D)) a assign d :
  steady body -> left d < n -> left d < m ->
  progress d (block n body a assign d) /\ block m body a assign d = block n body a assign d.
Proof.
  intros Hs Hn Hm. unfold block.
  destruct (loop_progress (NextBlock 1) (lift body) (lift body) n m a d) as [Hp ->]; try done.
  - apply NextBlock_true.
  - apply NextBlock_false.
  - intros a' d' _. split; [by apply lift_progress|done].
  - split; [|done]. by destruct (loop n _ _ a d) as [| |[]].
Qed.

Lemma one_progress f d : progress d (one f d).
Proof.
  unfold one. destruct (with_arg f d) as [[c d']|e] eqn:E; [|done]. exact (with_arg_progress _ _ _ _ E).
Qed.

Lemma session_option_progress n m c d :
  left d < n -> left d < m ->
  progress d (session_option n c d) /\ session_option m c d = session_option n c d.
Proof.
  intros Hn Hm. unfold session_option. cbv zeta.
  repeat match goal with
    | |- context [decide ?P] => destruct (decide P)
    | |- context [RemainingArgs d] => pose proof (RemainingArgs_left d); destruct (RemainingArgs d)
    end; auto using block_progress, one_progress, redis_option_steady, cookie_option_steady,
      authz_option_steady; done.
Qed.

Lemma unmarshal_fuel n m d :
  left d < n -> left d < m -> unmarshal n d <> OutOfFuel /\ unmarshal m d = unmarshal n d.
Proof.
  intros Hn Hm. unfold unmarshal.
  destruct (loop_progress Next (loop n (NextBlock 0) (session_option n))
    (loop m (NextBlock 0) (session_option m)) n m defaults d) as [Hp ->]; try done.
  - apply Next_true.
  - apply Next_false.
  - intros c d1 H1. apply loop_progress; [apply NextBlock_true|apply NextBlock_false| |lia..].
    intros c' d2 H2. apply session_option_progress; lia.
  - destruct (loop n _ _ _ d) as [| |[]]; done.
Qed.
End Parser.
End Caddyfile.
