(* ===== verification/CaddyfileThms.v ===== *)
(** * What a Caddyfile means to the handler

    A document is a list of lines; its meaning is the effect of each option in
    turn, taken from tables of the options.  [doc_at] says that a dispenser
    serves a document: each method call of a reader that goes through the lines
    answers with the next part of them. *)

From stdpp Require Import base gmap strings list.
From Stdlib Require Import ZArith Lia.
From S2P Require Import Prelude GoStrings GoStrconv GoDuration GoTime Cookies Authz Config Caddyfile.
Import Config Caddyfile.

(** ** Documents *)

Inductive line :=
| Opt (name : string) (args : list string)
| Blk (name : string) (opts : list (string * list string)).

Section Serves.
Context {D : Type} `{Dispenser D}.

(** The arguments after the current token, one by one or all at once. *)
Fixpoint args_at (d : D) (l : list string) (d' : D) : Prop :=
  match l with
  | [] => NextArg d = (false, d) /\ RemainingArgs d = ([], d) /\ d' = d
  | a :: l' => RemainingArgs d = (l, d')
               /\ exists d1, NextArg d = (true, d1) /\ Val d1 = a /\ args_at d1 l' d'
  end.

Definition opt_at (lvl : nat) (d : D) (o : string * list string) (d' : D) : Prop :=
  exists d1, NextBlock lvl d = (true, d1) /\ Val d1 = o.1 /\ args_at d1 o.2 d'.

Fixpoint opts_at (d : D) (l : list (string * list string)) (d' : D) : Prop :=
  match l with
  | [] => NextBlock 1 d = (false, d')
  | o :: l' => exists d1, opt_at 1 d o d1 /\ opts_at d1 l' d'
  end.

Definition line_at (d : D) (l : line) (d' : D) : Prop :=
  match l with
  | Opt name args => opt_at 0 d (name, args) d'
  | Blk name opts => exists d1, opt_at 0 d (name, []) d1 /\ opts_at d1 opts d'
  end.

Fixpoint lines_at (d : D) (l : list line) (d' : D) : Prop :=
  match l with
  | [] => NextBlock 0 d = (false, d')
  | x :: l' => exists d1, line_at d x d1 /\ lines_at d1 l' d'
  end.

(** The occurrences of the directive, each with its block. *)
Fixpoint doc_at (d : D) (segments : list (list line)) : Prop :=
  match segments with
  | [] => exists d', Next d = (false, d')
  | s :: rest => exists d1 d2, Next d = (true, d1) /\ lines_at d1 s d2 /\ doc_at d2 rest
  end.
End Serves.

(** ** Meaning *)

(** How an option uses its arguments. *)
Inductive usage (A : Type) :=
| Flag (f : A -> A)
| Single (f : string -> A -> result perror A)
| All (f : list string -> A -> result perror A).
Arguments Flag {A} f.
Arguments Single {A} f.
Arguments All {A} f.

Definition use {A} (u : usage A) (args : list string) (a : A) : result perror A :=
  match u, args with
  | Flag f, _ => Ok (f a)
  | Single f, v :: _ => f v a
  | Single _, [] => Err ArgErr
  | All f, _ => f args a
  end.

(** No more arguments than the option reads. *)
Definition arity {A} (u : usage A) (args : list string) : Prop :=
  match u with Flag _ => args = [] | Single _ => length args <= 1 | All _ => True end.

Fixpoint assoc {B} (k : string) (l : list (string * B)) : option B :=
  match l with
  | [] => None
  | (k', b) :: l' => if decide (k = k') then Some b else assoc k l'
  end.

Section Table.
Context {A : Type} (table : list (string * usage A)) (unknown : string -> perror).

Definition option_meaning (o : string * list string) (a : A) : result perror A :=
  match assoc o.1 table with Some u => use u o.2 a | None => Err (unknown o.1) end.
Definition option_ok (o : string * list string) : Prop :=
  match assoc o.1 table with Some u => arity u o.2 | None => True end.

(** The options of a block in order; the first error stops. *)
Fixpoint options_meaning (l : list (string * list string)) (a : A) : result perror A :=
  match l with
  | [] => Ok a
  | o :: l' => match option_meaning o a with Ok a => options_meaning l' a | Err e => Err e end
  end.
End Table.

Definition redis_table : list (string * usage RedisConfig) :=
  [("address", Single (fun v r => Ok (set_Address v r)));
   ("password", Single (fun v r => Ok (set_Password v r)));
   ("db", Single (fun v r => match Sscanf_d v with Some n => Ok (set_DB n r) | None => Err (InvalidDB v) end));
   ("key_prefix", Single (fun v r => Ok (set_KeyPrefix v r)))].

Definition cookie_table : list (string * usage CookieConfig) :=
  [("name", Single (fun v k => Ok (set_Name v k)));
   ("path", Single (fun v k => Ok (set_Path v k)));
   ("same_site", Single (fun v k => Ok (set_SameSite v k)));
   ("insecure", Flag set_Insecure)].

Definition authz_table : list (string * usage Authz.Config) :=
  [("require", All (fun args a => match args with [p; l] => Ok (add_rule p l a) | _ => Err RequireArity end));
   ("require_default", Single (fun v a => Ok (set_DefaultLabel v a)));
   ("auth_endpoint", All (fun args a => match args with [l; p] => Ok (add_endpoint l p a) | _ => Err EndpointArity end));
   ("redirect_param", Single (fun v a => Ok (set_RedirectParam v a)))].

Definition session_table : list (string * usage HandlerConfig) :=
  [("forward", All (fun args c => Ok (set_Forward (Forward c ++ args) c)));
   ("store", All (fun args c => Ok (set_CStore (CStore c ++ args) c)));
   ("inactive_timeout", Single (fun v c => duration (fun n => set_InactiveTimeout n c) v));
   ("final_timeout", Single (fun v c => duration (fun n => set_FinalTimeout n c) v));
   ("identity_header", Single (fun v c => Ok (set_CIdentityHeader v c)));
   ("rotate_on_login", Single (fun v c => boolean "rotate_on_login" (fun b => set_CRotateOnLogin (Some b) c) v));
   ("rotate_interval", Single (fun v c => duration (fun n => set_CRotateInterval n c) v));
   ("rotate_header", Single (fun v c => Ok (set_RotateHeader v c)));
   ("revoke_header", Single (fun v c => Ok (set_RevokeHeader v c)));
   ("labels_header", Single (fun v c => Ok (set_LabelsHeader v c)));
   ("synchronize_sessions", Single (fun v c => boolean "synchronize_sessions" (fun b => set_CSynchronize b c) v));
   ("on_store_error", Single (fun v c => Ok (set_COnStoreError v c)))].

Definition assign {A} (f : A -> HandlerConfig) (r : result perror A) : result perror HandlerConfig :=
  match r with Ok a => Ok (f a) | Err e => Err e end.

Definition line_meaning (l : line) (c : HandlerConfig) : result perror HandlerConfig :=
  match l with
  | Opt name args => option_meaning session_table UnknownOption (name, args) c
  | Blk name opts =>
      if decide (name = "redis") then
        assign (fun r => set_Redis r c) (options_meaning redis_table UnknownRedis opts (Redis c))
      else if decide (name = "cookie") then
        assign (fun k => set_CCookie k c) (options_meaning cookie_table UnknownCookie opts (CCookie c))
      else if decide (name = "authz") then
        assign (fun a => set_CAuthz (Some a) c)
          (options_meaning authz_table UnknownAuthz opts (default zero_authz (CAuthz c)))
      else Err (UnknownOption name)
  end.

Fixpoint meaning (l : list line) (c : HandlerConfig) : result perror HandlerConfig :=
  match l with
  | [] => Ok c
  | x :: l' => match line_meaning x c with Ok c => meaning l' c | Err e => Err e end
  end.

(** A line with a block where, and only where, the option takes one, and without
    surplus arguments.  Unknown names are allowed. *)
Definition line_ok (l : line) : Prop :=
  match l with
  | Opt name args => (name <> "redis" /\ name <> "cookie" /\ name <> "authz")
                     /\ option_ok session_table (name, args)
  | Blk name opts =>
      assoc name session_table = None
      /\ (name = "redis" -> Forall (option_ok redis_table) opts)
      /\ (name = "cookie" -> Forall (option_ok cookie_table) opts)
      /\ (name = "authz" -> Forall (option_ok authz_table) opts)
  end.

(** ** The parser computes the meaning *)

Definition report {A} (r : result perror A) : outcome A :=
  match r with Ok a => Done a | Err e => Fails e end.

Section Reads.
Context {D : Type} `{Dispenser D}.

Lemma args_at_left d l d' : args_at d l d' -> left d' <= left d.
Proof.
  revert d; induction l as [|a l IH]; intros d; cbn [args_at]; [by intros (_ & _ & ->)|].
  intros [E _]. pose proof (RemainingArgs_left d) as Hl. by rewrite E in Hl.
Qed.

Lemma args_at_all d l d' : args_at d l d' -> RemainingArgs d = (l, d').
Proof. destruct l; cbn [args_at]; [by intros (_ & -> & ->)|by intros [-> _]]. Qed.

(** An option that reads one argument. *)
Lemma with_arg_single {A} (f : string -> A -> result perror A) a d args d' :
  args_at d args d' -> length args <= 1 ->
  with_arg (fun v => f v a) d
  = match use (Single f) args a with Ok a => Ok (a, d') | Err e => Err e end.
Proof.
  unfold with_arg, arg, use. destruct args as [|v [|w args]]; cbn [args_at length]; [..|lia].
  - by intros (-> & _).
  - intros (_ & d1 & -> & <- & _ & _ & ->) _. done.
Qed.

(** The body of a loop reads the options of a table. *)
Definition reads {A} (body : A -> D -> result perror (A * D)) (table : list (string * usage A))
    (unknown : string -> perror) : Prop :=
  forall a d args d',
    args_at d args d' -> option_ok table (Val d, args) ->
    body a d = match option_meaning table unknown (Val d, args) a with
               | Ok a => Ok (a, d')
               | Err e => Err e
               end.

Ltac reads :=
  intros a d args d' Ha; unfold option_ok, option_meaning; cbn [assoc fst snd redis_table cookie_table authz_table];
  unfold redis_option, cookie_option, authz_option; cbv zeta;
  repeat match goal with |- context [decide (Val d = ?k)] => destruct (decide (Val d = k)) end;
  cbn [arity]; intros Hok; try done;
  try (exact (with_arg_single _ a d args d' Ha Hok)).

Lemma redis_reads : reads redis_option redis_table UnknownRedis.
Proof. reads. Qed.
Lemma cookie_reads : reads cookie_option cookie_table UnknownCookie.
Proof. reads. subst args. by destruct Ha as (_ & _ & ->). Qed.
Lemma authz_reads : reads authz_option authz_table UnknownAuthz.
Proof.
  reads; rewrite (args_at_all _ _ _ Ha); cbn [use]; by destruct args as [|? [|? [|]]].
Qed.

Lemma loop_reads {A} (body : A -> D -> result perror (A * D)) table unknown opts n a d d' :
  reads body table unknown -> Forall (option_ok table) opts -> opts_at d opts d' -> left d < n ->
  loop n (NextBlock 1) (lift body) a d
  = report (match options_meaning table unknown opts a with Ok a => Ok (a, d') | Err e => Err e end).
Proof.
  intros Hr Hok. revert n a d; induction Hok as [|o opts Ho _ IH]; intros n a d Hs Hn;
    (destruct n as [|n]; [lia|]); cbn [loop opts_at options_meaning] in *.
  - by rewrite Hs.
  - destruct Hs as (d1 & (d0 & E & Ev & Ha) & Hs). rewrite E. apply NextBlock_true in E.
    pose proof (args_at_left _ _ _ Ha). unfold lift at 1. destruct o as [name args]. cbn [fst snd] in *.
    subst name. rewrite (Hr a d0 args d1) by done.
    destruct (option_meaning table unknown (Val d0, args) a) as [a'|e]; [|done].
    apply IH; [done|lia].
Qed.

Lemma block_reads {A} (body : A -> D -> result perror (A * D)) table unknown opts n a f d d' :
  reads body table unknown -> Forall (option_ok table) opts -> opts_at d opts d' -> left d < n ->
  block n body a f d
  = report (match assign f (options_meaning table unknown opts a) with
            | Ok c => Ok (c, d') | Err e => Err e end).
Proof.
  intros Hr Hok Hs Hn. unfold block. rewrite (loop_reads body table unknown opts n a d d') by done.
  by destruct (options_meaning table unknown opts a).
Qed.

Lemma one_single (f : string -> HandlerConfig -> result perror HandlerConfig) c d args d' :
  args_at d args d' -> length args <= 1 ->
  one (fun v => f v c) d
  = report (match use (Single f) args c with Ok c => Ok (c, d') | Err e => Err e end).
Proof.
  intros Ha Hl. unfold one. rewrite (with_arg_single f c d args d') by done.
  by destruct (use (Single f) args c).
Qed.

Lemma opts_at_left d opts d' : opts_at d opts d' -> left d' <= left d.
Proof.
  revert d; induction opts as [|o opts IH]; intros d; cbn [opts_at]; [apply NextBlock_false|].
  intros (d1 & (d0 & E%NextBlock_true & _ & Ha%args_at_left) & Hs%IH). lia.
Qed.

(** An option without a block. *)
Lemma plain_reads n c d name args d' :
  args_at d args d' -> Val d = name -> line_ok (Opt name args) ->
  session_option n c d
  = report (match line_meaning (Opt name args) c with Ok c => Ok (c, d') | Err e => Err e end).
Proof.
  intros Ha <- ((N1 & N2 & N3) & Hok). revert Hok.
  unfold option_ok, session_option. cbn [line_meaning]. unfold option_meaning.
  cbn [assoc fst snd session_table]. cbv zeta.
  rewrite (decide_False (P := Val d = "redis")), (decide_False (P := Val d = "cookie")),
    (decide_False (P := Val d = "authz")) by done.
  repeat match goal with |- context [decide (Val d = ?k)] => destruct (decide (Val d = k)) end;
    cbn [arity]; intros Hok; try done;
    try (rewrite (args_at_all _ _ _ Ha); done);
    try (exact (one_single _ c d args d' Ha Hok)).
Qed.

(** An option with a block. *)
Lemma nested_reads n c d name opts d' :
  opts_at d opts d' -> Val d = name -> line_ok (Blk name opts) -> left d < n ->
  session_option n c d
  = report (match line_meaning (Blk name opts) c with Ok c => Ok (c, d') | Err e => Err e end).
Proof.
  intros Hs <- (Hno & H1 & H2 & H3) Hn. unfold session_option. cbn [line_meaning]. cbv zeta.
  destruct (decide (Val d = "redis")) as [E|].
  { eapply block_reads; eauto using redis_reads. }
  destruct (decide (Val d = "cookie")) as [E|].
  { eapply block_reads; eauto using cookie_reads. }
  destruct (decide (Val d = "authz")) as [E|].
  { repeat match goal with |- context [decide (Val d = ?k)] =>
      rewrite (decide_False (P := Val d = k)) by (by rewrite E) end.
    eapply block_reads; eauto using authz_reads. }
  revert Hno. cbn [assoc session_table].
  by repeat match goal with |- context [decide (Val d = ?k)] => destruct (decide (Val d = k)) end.
Qed.

Lemma line_reads n c d l d' :
  line_at d l d' -> line_ok l -> left d < n ->
  exists d0, NextBlock 0 d = (true, d0) /\ left d' < left d
    /\ session_option n c d0
       = report (match line_meaning l c with Ok c => Ok (c, d') | Err e => Err e end).
Proof.
  intros Hl Hok Hn. destruct l as [name args|name opts].
  - destruct Hl as (d0 & E & Ev & Ha). exists d0. pose proof (NextBlock_true _ _ _ E).
    pose proof (args_at_left _ _ _ Ha). split; [done|]. split; [cbn [snd] in *; lia|].
    by apply plain_reads.
  - destruct Hl as (d1 & (d0 & E & Ev & (_ & _ & ->)) & Hs). exists d0.
    pose proof (NextBlock_true _ _ _ E). pose proof (opts_at_left _ _ _ Hs).
    split; [done|]. split; [lia|]. apply nested_reads; try done. lia.
Qed.

Lemma lines_reads n m c d ls d' :
  lines_at d ls d' -> Forall line_ok ls -> left d < n -> left d < m ->
  left d' <= left d
  /\ loop m (NextBlock 0) (session_option n) c d
     = report (match meaning ls c with Ok c => Ok (c, d') | Err e => Err e end).
Proof.
  intros Hs Hok. revert m c d Hs. induction Hok as [|l ls Hl _ IH]; intros m c d Hs Hn Hm;
    (destruct m as [|m]; [lia|]); cbn [loop lines_at meaning] in *.
  - rewrite Hs. split; [exact (NextBlock_false _ _ _ Hs)|done].
  - destruct Hs as (d1 & H1 & Hs). destruct (line_reads n c d l d1) as (d0 & E & Hlt & Es); [done..|].
    rewrite E, Es. destruct (IH m c d1 Hs) as [Hle _]; [lia..|]. split; [lia|].
    destruct (line_meaning l c) as [c'|e]; [|done]. cbn [report]. apply IH; [done|lia..].
Qed.

Lemma meaning_app l l' c :
  meaning (l ++ l') c = match meaning l c with Ok c => meaning l' c | Err e => Err e end.
Proof.
  revert c; induction l as [|x l IH]; intros c; [done|]. cbn. destruct (line_meaning x c); [apply IH|done].
Qed.

Lemma doc_reads n m c d segs :
  doc_at d segs -> Forall (Forall line_ok) segs -> left d < n -> left d < m ->
  match loop m Next (loop n (NextBlock 0) (session_option n)) c d with
  | Done (c, _) => Done c | Fails e => Fails e | OutOfFuel => OutOfFuel
  end = report (meaning (concat segs) c).
Proof.
  intros Hs Hok. revert m c d Hs. induction Hok as [|s segs Hl _ IH]; intros m c d Hs Hn Hm;
    (destruct m as [|m]; [lia|]); cbn [loop doc_at concat] in *.
  - destruct Hs as [d' ->]. done.
  - destruct Hs as (d1 & d2 & E & Hl' & Hs). rewrite E. apply Next_true in E.
    destruct (lines_reads n n c d1 s d2) as [Hle ->]; [done..|lia|lia|]. rewrite meaning_app.
    destruct (meaning s c) as [c'|e]; cbn [report]; [|done]. apply IH; [done|lia..].
Qed.
End Reads.

(** ** Printing a configuration *)

Definition FormatBool (b : bool) : string := if b then "true" else "false".
Definition in_ns (n : Z) : list string := [FormatInt n +:+ "ns"].

Definition render_redis (r : RedisConfig) : list (string * list string) :=
  [("address", [Address r]); ("password", [Password r]); ("db", [FormatInt (DB r)]);
   ("key_prefix", [KeyPrefix r])].
Definition render_cookie (k : CookieConfig) : list (string * list string) :=
  [("name", [cc_Name k]); ("path", [cc_Path k]); ("same_site", [cc_SameSite k])]
  ++ (if cc_Insecure k then [("insecure", [])] else []).
Definition render_rule (r : Authz.Rule) : string * list string :=
  ("require", [Authz.Path r; Authz.Label r]).
Definition render_endpoint (e : string * string) : string * list string :=
  ("auth_endpoint", [e.1; e.2]).
Definition render_authz (a : Authz.Config) : list (string * list string) :=
  (render_rule <$> Authz.Rules a)
  ++ (render_endpoint <$> map_to_list (Authz.AuthEndpoints a))
  ++ [("require_default", [Authz.DefaultLabel a]); ("redirect_param", [Authz.RedirectParam a])].

Definition render (c : HandlerConfig) : list line :=
  [Blk "redis" (render_redis (Redis c)); Blk "cookie" (render_cookie (CCookie c));
   Opt "forward" (Forward c); Opt "store" (CStore c);
   Opt "inactive_timeout" (in_ns (InactiveTimeout c)); Opt "final_timeout" (in_ns (FinalTimeout c));
   Opt "identity_header" [CIdentityHeader c]; Opt "rotate_interval" (in_ns (CRotateInterval c));
   Opt "rotate_header" [RotateHeader c]; Opt "revoke_header" [RevokeHeader c];
   Opt "labels_header" [LabelsHeader c];
   Opt "synchronize_sessions" [FormatBool (CSynchronize c)];
   Opt "on_store_error" [COnStoreError c]]
  ++ match CRotateOnLogin c with None => [] | Some b => [Opt "rotate_on_login" [FormatBool b]] end
  ++ match CAuthz c with None => [] | Some a => [Blk "authz" (render_authz a)] end.

(** The machine-width fields. *)
Definition config_ok (c : HandlerConfig) : Prop :=
  int64 (DB (Redis c)) /\ int64 (InactiveTimeout c) /\ int64 (FinalTimeout c) /\ int64 (CRotateInterval c).

Lemma option_known {A} (table : list (string * usage A)) unknown name args u a :
  assoc name table = Some u -> option_meaning table unknown (name, args) a = use u args a.
Proof. intros E. unfold option_meaning. cbn [fst snd]. by rewrite E. Qed.

Ltac known := repeat (erewrite option_known by reflexivity; cbn [use]).

Lemma ParseBool_FormatBool b : ParseBool (FormatBool b) = Some b.
Proof. by destruct b. Qed.

Lemma options_meaning_app {A} (table : list (string * usage A)) unknown l l' a :
  options_meaning table unknown (l ++ l') a
  = match options_meaning table unknown l a with
    | Ok a => options_meaning table unknown l' a | Err e => Err e end.
Proof.
  revert a; induction l as [|x l IH]; intros a; [done|]. cbn.
  destruct (option_meaning table unknown x a); [apply IH|done].
Qed.

Lemma rules_meaning rs a :
  options_meaning authz_table UnknownAuthz (render_rule <$> rs) a
  = Ok (Authz.MkConfig (Authz.Rules a ++ rs) (Authz.DefaultLabel a) (Authz.AuthEndpoints a)
          (Authz.RedirectParam a)).
Proof.
  revert a; induction rs as [|[p l] rs IH]; intros a; cbn [fmap list_fmap options_meaning].
  - rewrite app_nil_r. by destruct a.
  - change (option_meaning _ _ _ _) with (Ok (E := perror) (add_rule p l a)). cbv iota.
    rewrite IH. cbn. by rewrite <-app_assoc.
Qed.

Lemma endpoints_meaning es a :
  options_meaning authz_table UnknownAuthz (render_endpoint <$> es) a
  = Ok (Authz.MkConfig (Authz.Rules a) (Authz.DefaultLabel a)
          (foldl (fun m e => <[e.1 := e.2]> m) (Authz.AuthEndpoints a) es) (Authz.RedirectParam a)).
Proof.
  revert a; induction es as [|[l p] es IH]; intros a; cbn [fmap list_fmap options_meaning].
  - by destruct a.
  - change (option_meaning _ _ _ _) with (Ok (E := perror) (add_endpoint l p a)). cbv iota.
    by rewrite IH.
Qed.

Lemma foldl_insert_union (l : list (string * string)) (m : gmap string string) :
  NoDup l.*1 -> foldl (fun m e => <[e.1 := e.2]> m) m l = list_to_map l ∪ m.
Proof.
  revert m; induction l as [|[k v] l IH]; intros m; cbn [foldl fmap list_fmap list_to_map fst snd].
  - intros _. symmetry. apply (left_id_L ∅ (∪)).
  - intros [Hk Hl]%NoDup_cons. rewrite IH by done.
    rewrite <-insert_union_r by (by apply not_elem_of_list_to_map_1). apply insert_union_l.
Qed.

Lemma foldl_insert_map (m : gmap string string) :
  foldl (fun m e => <[e.1 := e.2]> m) ∅ (map_to_list m) = m.
Proof.
  rewrite foldl_insert_union by apply NoDup_fst_map_to_list.
  by rewrite (right_id_L ∅ (∪)), list_to_map_to_list.
Qed.

Lemma authz_meaning a : options_meaning authz_table UnknownAuthz (render_authz a) zero_authz = Ok a.
Proof.
  unfold render_authz. rewrite options_meaning_app, rules_meaning, options_meaning_app, endpoints_meaning.
  cbn [options_meaning]. known. cbn. rewrite foldl_insert_map. by destruct a.
Qed.

Lemma redis_meaning r r0 :
  int64 (DB r) -> options_meaning redis_table UnknownRedis (render_redis r) r0 = Ok r.
Proof.
  intros Hd. unfold render_redis. cbn [options_meaning]. known. rewrite Sscanf_d_FormatInt by done. by destruct r.
Qed.

Lemma cookie_meaning k k0 :
  cc_Insecure k0 = false -> options_meaning cookie_table UnknownCookie (render_cookie k) k0 = Ok k.
Proof. intros H0. unfold render_cookie. destruct k as [n p s i]; cbn [cc_Insecure].
  destruct i; cbn [app options_meaning]; known; [done|].
  unfold set_SameSite, set_Path, set_Name. cbn. by rewrite H0. Qed.

Lemma duration_ns n (f : Z -> HandlerConfig) : int64 n -> duration f (FormatInt n +:+ "ns") = Ok (f n).
Proof. intros Hn. unfold duration. by rewrite ParseDuration_ns. Qed.

Lemma boolean_format name b (f : bool -> HandlerConfig) : boolean name f (FormatBool b) = Ok (f b).
Proof. unfold boolean. by rewrite ParseBool_FormatBool. Qed.

(** The meaning of the three blocks and of a plain option. *)
Lemma redis_line opts c :
  line_meaning (Blk "redis" opts) c
  = assign (fun r => set_Redis r c) (options_meaning redis_table UnknownRedis opts (Redis c)).
Proof. reflexivity. Qed.
Lemma cookie_line opts c :
  line_meaning (Blk "cookie" opts) c
  = assign (fun k => set_CCookie k c) (options_meaning cookie_table UnknownCookie opts (CCookie c)).
Proof. reflexivity. Qed.
Lemma authz_line opts c :
  line_meaning (Blk "authz" opts) c
  = assign (fun a => set_CAuthz (Some a) c)
      (options_meaning authz_table UnknownAuthz opts (default zero_authz (CAuthz c))).
Proof. reflexivity. Qed.
Lemma opt_line name args c :
  line_meaning (Opt name args) c = option_meaning session_table UnknownOption (name, args) c.
Proof. reflexivity. Qed.

Ltac plain :=
  rewrite opt_line; known; rewrite ?duration_ns by done; rewrite ?boolean_format; cbv iota.

Lemma render_meaning c : config_ok c -> meaning (render c) defaults = Ok c.
Proof.
  intros (H1 & H2 & H3 & H4). unfold render, in_ns. rewrite meaning_app.
  cbn [meaning]. rewrite redis_line, redis_meaning by done. cbn [assign].
  rewrite cookie_line, cookie_meaning by done. cbn [assign].
  repeat plain. rewrite meaning_app.
  destruct c as [r k fw st it ft ih rl ri rh vh lh az sy oe]. cbn [CRotateOnLogin CAuthz].
  destruct rl as [b|], az as [a|]; cbn [meaning]; try plain;
    try (rewrite authz_line; cbn [default CAuthz]; rewrite authz_meaning); done.
Qed.

Lemma option_ok_known {A} (table : list (string * usage A)) name args u :
  assoc name table = Some u -> arity u args -> option_ok table (name, args).
Proof. intros E. unfold option_ok. cbn [fst snd]. by rewrite E. Qed.

Ltac option_ok := eapply option_ok_known; [reflexivity|cbn; done || lia].
Ltac each t := repeat first [apply Forall_app_2 | apply Forall_cons_2; [t|] | apply Forall_nil_2].

Lemma render_redis_ok r : Forall (option_ok redis_table) (render_redis r).
Proof. each ltac:(option_ok). Qed.
Lemma render_cookie_ok k : Forall (option_ok cookie_table) (render_cookie k).
Proof. unfold render_cookie. each ltac:(option_ok). destruct (cc_Insecure k); each ltac:(option_ok). Qed.
Lemma render_authz_ok a : Forall (option_ok authz_table) (render_authz a).
Proof.
  unfold render_authz. each ltac:(option_ok); apply Forall_fmap, Forall_true; intros; unfold compose; option_ok.
Qed.

Lemma render_ok c : Forall line_ok (render c).
Proof.
  assert (HO : forall name args u, name <> "redis" /\ name <> "cookie" /\ name <> "authz" ->
    assoc name session_table = Some u -> arity u args -> line_ok (Opt name args)).
  { intros name args u Hn E Ha. split; [done|]. by eapply option_ok_known. }
  assert (HR : line_ok (Blk "redis" (render_redis (Redis c)))).
  { split_and!; try done. intros _. apply render_redis_ok. }
  assert (HC : line_ok (Blk "cookie" (render_cookie (CCookie c)))).
  { split_and!; try done. intros _. apply render_cookie_ok. }
  unfold render. each ltac:(first [exact HR | exact HC | eapply HO; [done|reflexivity|cbn; done || lia]]).
  - destruct (CRotateOnLogin c); each ltac:(eapply HO; [done|reflexivity|cbn; done || lia]).
  - destruct (CAuthz c) as [a|]; [|done]. each ltac:(split_and!; try done; intros _; apply render_authz_ok).
Qed.

(** ** A dispenser over tokens with line breaks *)

(** The current token, the tokens to come, marked when they start a line, and the
    nesting depth. *)
Record tokens := MkTokens { cur : string; rest : list (bool * string); nest : nat }.

Definition load (d : tokens) : bool * tokens :=
  match rest d with [] => (false, d) | (_, t) :: r => (true, MkTokens t r (nest d)) end.

Definition load_arg (d : tokens) : bool * tokens :=
  match rest d with
  | (false, t) :: r => if decide (t = "{") then (false, d) else (true, MkTokens t r (nest d))
  | _ => (false, d)
  end.

Fixpoint same_line (c : string) (r : list (bool * string)) : list string * string * list (bool * string) :=
  match r with
  | (false, t) :: r' =>
      if decide (t = "{") then ([], c, r)
      else let '(args, c, r) := same_line t r' in (t :: args, c, r)
  | _ => ([], c, r)
  end.
Definition load_args (d : tokens) : list string * tokens :=
  let '(args, c, r) := same_line (cur d) (rest d) in (args, MkTokens c r (nest d)).

Definition load_block (n : nat) (d : tokens) : bool * tokens :=
  if decide (n < nest d) then
    match rest d with
    | [] => (false, d)
    | (_, t) :: r =>
        let k := if decide (t = "}") then pred (nest d) else nest d in
        (bool_decide (n < k), MkTokens t r k)
    end
  else
    match rest d with
    | (false, b) :: (_, t) :: r =>
        if decide (b = "{") then
          if decide (t = "}") then (false, MkTokens t r (nest d)) else (true, MkTokens t r (S (nest d)))
        else (false, d)
    | _ => (false, d)
    end.

Lemma load_left d : length (rest (load d).2) <= length (rest d)
  /\ ((load d).1 = true -> length (rest (load d).2) < length (rest d)).
Proof. unfold load. destruct (rest d) as [|[] r] eqn:E; simpl; rewrite ?E; simpl; split; done || lia. Qed.

Lemma load_block_left n d : length (rest (load_block n d).2) <= length (rest d)
  /\ ((load_block n d).1 = true -> length (rest (load_block n d).2) < length (rest d)).
Proof.
  unfold load_block. destruct (rest d) as [|[[] a] [|[b t] r]] eqn:E; simpl;
    repeat case_decide; simpl; rewrite ?E; simpl; split; done || lia.
Qed.

Lemma same_line_left c r : length (same_line c r).2 <= length r.
Proof.
  revert c; induction r as [|[[] t] r IH]; intros c; cbn [same_line]; [done..|].
  case_decide; [done|]. pose proof (IH t). destruct (same_line t r) as [[a c'] r']. simpl in *. lia.
Qed.

#[export, refine] Instance tokens_dispenser : Dispenser tokens := {|
  Next := load; NextBlock := load_block; NextArg := load_arg; Val := cur;
  RemainingArgs := load_args; left d := length (rest d) |}.
Proof.
  - intros d d' E. pose proof (load_left d) as [_ H]. rewrite E in H. by apply H.
  - intros d d' E. pose proof (load_left d) as [H _]. by rewrite E in H.
  - intros n d d' E. pose proof (load_block_left n d) as [_ H]. rewrite E in H. by apply H.
  - intros n d d' E. pose proof (load_block_left n d) as [H _]. by rewrite E in H.
  - intros d. unfold load_arg. destruct (rest d) as [|[[] t] r] eqn:E; simpl; rewrite ?E; [done..|].
    case_decide; simpl; rewrite ?E; simpl; lia.
  - intros d. unfold load_args. pose proof (same_line_left (cur d) (rest d)).
    by destruct (same_line (cur d) (rest d)) as [[a c] r].
Defined.

(** The tokens of a document. *)
Definition words (l : list string) : list (bool * string) :=
  match l with [] => [] | w :: l' => (true, w) :: ((false,.) <$> l') end.
Definition line_tokens (l : line) : list (bool * string) :=
  match l with
  | Opt name args => words (name :: args)
  | Blk name opts => words [name; "{"] ++ mjoin ((fun o => words (o.1 :: o.2)) <$> opts) ++ words ["}"]
  end.
Definition document (segments : list (list line)) : tokens :=
  MkTokens "" (mjoin ((fun s => words ["session_store"; "{"] ++ mjoin (line_tokens <$> s) ++ words ["}"]) <$> segments)) 0.

Definition demo_config : HandlerConfig :=
  MkHandlerConfig (MkRedisConfig "localhost:6379" "s3cret" 2 "gs:")
    (MkCookieConfig "__gosestor" "/app" "strict" true) ["lang"] ["JSESSIONID"; "SID"]
    1800000000000 28800000000000 "X-Auth-User" (Some false) (-1) "off" "X-Session-Revoke" ""
    (Some (Authz.MkConfig [Authz.MkRule "/admin" "adm"] "default" {["adm" := "/login"]} "rd"))
    true "fail_open".

(** Evaluate the calls of a reader. *)
Ltac serve :=
  match goal with
  | |- exists _, _ => eexists; serve
  | |- _ /\ _ => split; serve
  | |- _ = _ => vm_compute; reflexivity
  | _ => progress hnf; serve
  end.

Lemma demo_served : doc_at (document [render demo_config]) [render demo_config].
Proof.
  let r := eval vm_compute in (render demo_config) in
  assert (render demo_config = r) as -> by (vm_compute; reflexivity).
  serve.
Qed.

(** ** Theorems *)

(** C34: the Caddyfile parser always returns: whatever tokens the dispenser serves,
    the three nested loops end within as many passes as there are tokens, with an
    error or a configuration, and more fuel changes nothing. *)
Theorem parser_terminates {D} `{Dispenser D} (d : D) n :
  left d < n -> unmarshal n d = UnmarshalCaddyfile d /\ UnmarshalCaddyfile d <> OutOfFuel.
Proof.
  intros Hn. destruct (unmarshal_fuel (S (left d)) n d) as [H1 H2]; [lia|done|]. by split.
Qed.

Lemma parser_terminates_witness :
  unmarshal 10 (document [[Opt "forward" ["a"; "b"]; Opt "bogus" []]])
  = UnmarshalCaddyfile (document [[Opt "forward" ["a"; "b"]; Opt "bogus" []]])
  /\ UnmarshalCaddyfile (document [[Opt "forward" ["a"; "b"]; Opt "bogus" []]]) <> OutOfFuel.
Proof. apply (parser_terminates (document [[Opt "forward" ["a"; "b"]; Opt "bogus" []]])). vm_compute. lia. Defined.

(** C32: the parser computes the meaning of a document: over every dispenser that
    serves its lines, the options take effect in order over the defaults, blocks
    of several directives accumulate, and the first unknown option, missing
    argument, or value that the Go parser of its option rejects is reported
    instead of being ignored.  ([db] goes through [fmt.Sscanf], which accepts text
    after the digits, see [db_accepts_trailing_text].)  The lines are those of
    [line_ok]: no surplus arguments, and a block exactly where the option takes
    one. *)
Theorem parser_computes_meaning {D} `{Dispenser D} (d : D) segments :
  doc_at d segments -> Forall (Forall line_ok) segments ->
  UnmarshalCaddyfile d = report (meaning (concat segments) defaults).
Proof. intros Hs Hok. unfold UnmarshalCaddyfile, unmarshal. apply doc_reads; [done..|lia|lia]. Qed.

Definition bad_doc : list (list line) :=
  [[Opt "store" ["SID"]; Opt "inactive_timeout" ["15m"]]; [Opt "synchronize_sessions" ["yes"]; Opt "store" ["X"]]].

Lemma parser_computes_meaning_witness :
  UnmarshalCaddyfile (document bad_doc) = Fails (InvalidBool "synchronize_sessions" "yes").
Proof.
  rewrite (parser_computes_meaning (document bad_doc) bad_doc).
  - vm_compute. reflexivity.
  - unfold bad_doc. serve.
  - unfold bad_doc. each ltac:(each ltac:(split; [done|option_ok])).
Defined.

(** C33: a configuration survives the Caddyfile: printed as directives and served
    back by any dispenser, it is read as it was, durations to the nanosecond. *)
Theorem config_roundtrip {D} `{Dispenser D} (d : D) c :
  doc_at d [render c] -> config_ok c -> UnmarshalCaddyfile d = Done c.
Proof.
  intros Hs Hc. unfold UnmarshalCaddyfile, unmarshal.
  rewrite (doc_reads _ _ defaults d [render c]); [|done|by apply Forall_singleton, render_ok|lia..].
  cbn [concat]. by rewrite app_nil_r, render_meaning.
Qed.

Lemma config_roundtrip_witness :
  UnmarshalCaddyfile (document [render demo_config]) = Done demo_config.
Proof.
  apply (config_roundtrip (document [render demo_config]) demo_config); [exact demo_served|].
  unfold config_ok, int64. cbn. lia.
Defined.

(** [fmt.Sscanf] stops at the first byte that is no digit: a database number with
    trailing text is accepted, unlike malformed values of the other options. *)
Example db_accepts_trailing_text :
  UnmarshalCaddyfile (document [[Blk "redis" [("db", ["2abc"])]]])
  = Done (set_Redis (MkRedisConfig "" "" 2 "gs:") defaults).
Proof. vm_compute. reflexivity. Qed.
