(* ===== verification/RedisApi.v ===== *)
(** * A RESP-compatible server and the scripts it runs

    The server is not part of the program: it is a parameter, a type with one
    operation per command ([RedisServer]).  What the store relies on is that the
    command acts on the keys visible to it as the command reference says
    ([documented]).  Lua scripts are trees of commands, run without
    interruption. *)

From stdpp Require Import base gmap strings list.
From Stdlib Require Import ZArith Lia.
From S2P Require Import Prelude GoStrings GoStrconv.

Inductive value :=
| VString (s : string)
| VHash (h : gmap string string)
| VSet (m : gset string).

(** The server's clock (microseconds since the epoch) and the keys that exist,
    with the time (milliseconds since the epoch) at which each expires, if any; a
    key past that time is not there. *)
Record db := MkDb { clock : Z; rows : gmap string (value * option Z) }.
Definition now_ms (d : db) : Z := (clock d / 1000)%Z.

(** The commands the store sends.  Numbers are sent as decimal strings. *)
Inductive command :=
| TYPE (k : string)
| EXISTS (k : string)
| GET (k : string)
| SET (k v : string) (px : option string)
| SETNX (k v : string) (px : option string)     (** [SET k v NX], with [PX px] if given *)
| DEL (ks : list string)
| HSET (k : string) (fvs : list (string * string))
| HGET (k f : string)
| HGETALL (k : string)
| HDEL (k f : string)
| SADD (k m : string)
| SREM (k m : string)
| SMEMBERS (k : string)
| PEXPIRE (k ms : string)
| PTTL (k : string)
| TIME.

(** The part of each reply the callers read; the members of a set come in no
    particular order. *)
Definition reply (c : command) : Type :=
  match c with
  | TYPE _ => string
  | EXISTS _ | PTTL _ => Z
  | GET _ | HGET _ _ => option string
  | SETNX _ _ _ => bool
  | HGETALL _ => gmap string string
  | SMEMBERS _ => gset string
  | TIME => string * string
  | _ => unit
  end.

(** ** The command reference *)

Definition kind (v : option value) : string :=
  match v with
  | None => "none"
  | Some (VString _) => "string"
  | Some (VHash _) => "hash"
  | Some (VSet _) => "set"
  end.

Definition val (d : db) (k : string) : option value := fst <$> rows d !! k.
Definition expiry (d : db) (k : string) : option Z := rows d !! k ≫= snd.

Definition put (k : string) (v : value) (e : option Z) (d : db) : db :=
  MkDb (clock d) (<[k := (v, e)]> (rows d)).
Definition remove (k : string) (d : db) : db := MkDb (clock d) (delete k (rows d)).
(** Hashes and sets that become empty are removed. *)
Definition put_hash (k : string) (h : gmap string string) (d : db) : db :=
  if decide (h = ∅) then remove k d else put k (VHash h) (expiry d k) d.
Definition put_set (k : string) (x : gset string) (d : db) : db :=
  if decide (x = ∅) then remove k d else put k (VSet x) (expiry d k) d.

Definition wrong_type : string :=
  "WRONGTYPE Operation against a key holding the wrong kind of value".
Definition not_integer : string := "ERR value is not an integer or out of range".
Definition invalid_expire : string := "ERR invalid expire time".

Definition hash_at (d : db) (k : string) : result string (gmap string string) :=
  match val d k with None => Ok ∅ | Some (VHash h) => Ok h | Some _ => Err wrong_type end.
Definition set_at (d : db) (k : string) : result string (gset string) :=
  match val d k with None => Ok ∅ | Some (VSet x) => Ok x | Some _ => Err wrong_type end.

(** [SET] with an optional [PX], the latter positive. *)
Definition set_value (k v : string) (px : option string) (d : db) : result string unit * db :=
  match px with
  | None => (Ok tt, put k (VString v) None d)
  | Some ms =>
      match ParseInt ms with
      | None => (Err not_integer, d)
      | Some ms => if (0 <? ms)%Z then (Ok tt, put k (VString v) (Some (now_ms d + ms)%Z) d)
                   else (Err invalid_expire, d)
      end
  end.

Definition hset (fvs : list (string * string)) (h : gmap string string) : gmap string string :=
  foldl (fun h fv => <[fv.1 := fv.2]> h) h fvs.

Definition documented (c : command) (d : db) : result string (reply c) * db :=
  match c return result string (reply c) * db with
  | TYPE k => (Ok (kind (val d k)), d)
  | EXISTS k => (Ok (match val d k with Some _ => 1 | None => 0 end)%Z, d)
  | GET k =>
      (match val d k with None => Ok None | Some (VString v) => Ok (Some v) | Some _ => Err wrong_type end, d)
  | SET k v px => set_value k v px d
  | SETNX k v px =>
      match val d k with
      | Some _ => (Ok false, d)
      | None => match set_value k v px d with
                | (Ok _, d) => (Ok true, d)
                | (Err e, d) => (Err e, d)
                end
      end
  | DEL ks => (Ok tt, foldl (fun d k => remove k d) d ks)
  | HSET k fvs =>
      match hash_at d k with
      | Ok h => (Ok tt, put_hash k (hset fvs h) d)
      | Err e => (Err e, d)
      end
  | HGET k f => (match hash_at d k with Ok h => Ok (h !! f) | Err e => Err e end, d)
  | HGETALL k => (hash_at d k, d)
  | HDEL k f =>
      match hash_at d k with
      | Ok h => (Ok tt, put_hash k (delete f h) d)
      | Err e => (Err e, d)
      end
  | SADD k m =>
      match set_at d k with
      | Ok x => (Ok tt, put_set k ({[m]} ∪ x) d)
      | Err e => (Err e, d)
      end
  | SREM k m =>
      match set_at d k with
      | Ok x => (Ok tt, put_set k (x ∖ {[m]}) d)
      | Err e => (Err e, d)
      end
  | SMEMBERS k => (set_at d k, d)
  | PEXPIRE k ms =>
      match ParseInt ms with
      | None => (Err not_integer, d)
      | Some ms =>
          match val d k with
          | None => (Ok tt, d)
          | Some v => (Ok tt, if (0 <? ms)%Z then put k v (Some (now_ms d + ms)%Z) d else remove k d)
          end
      end
  | PTTL k =>
      (Ok (match rows d !! k with
           | None => -2
           | Some (_, None) => -1
           | Some (_, Some e) => e - now_ms d
           end)%Z, d)
  | TIME => (Ok (FormatInt (clock d / 1000000), FormatInt (clock d mod 1000000)), d)
  end.

(** Time passes: keys expire. *)
Definition alive (t : Z) (r : value * option Z) : Prop :=
  match r.2 with Some e => (t <= e)%Z | None => True end.
#[export] Instance alive_dec t r : Decision (alive t r).
Proof. unfold alive. destruct (r.2); apply _. Defined.
Definition advance (t : Z) (d : db) : db :=
  MkDb (clock d + t)%Z (filter (fun kr => alive ((clock d + t) / 1000) kr.2) (rows d)).

(** ** The server *)

Class RedisServer (R : Type) := {
  send : forall c : command, R -> result string (reply c) * R;
  view : R -> db;
  send_documented : forall c s,
    (send c s).1 = (documented c (view s)).1 /\ view (send c s).2 = (documented c (view s)).2 }.

(** The command reference itself is such a server. *)
#[export] Instance reference_server : RedisServer db := {
  send := documented;
  view := fun d => d;
  send_documented := fun c d => conj eq_refl eq_refl }.

(** ** Scripts *)

Inductive script (A : Type) : Type :=
| Return (a : A)
| Raise (msg : string)                 (** [return redis.error_reply(msg)] *)
| Call (c : command) (k : reply c -> script A).
Arguments Return {A} a.
Arguments Raise {A} msg.
Arguments Call {A} c k.

Fixpoint sbind {A B} (p : script A) (f : A -> script B) : script B :=
  match p with
  | Return a => f a
  | Raise m => Raise m
  | Call c k => Call c (fun r => sbind (k r) f)
  end.

Declare Scope script_scope.
Delimit Scope script_scope with script.
Bind Scope script_scope with script.
Notation "'let!' x ':=' c 'in' q" := (Call c (fun x => q))
  (at level 100, x pattern, c at level 200, q at level 200, right associativity) : script_scope.
Notation "'do!' c ';' q" := (Call c (fun _ => q))
  (at level 100, c at level 200, q at level 200, right associativity) : script_scope.
Notation "'let*' x ':=' p 'in' q" := (sbind p (fun x => q))
  (at level 100, x pattern, p at level 200, q at level 200, right associativity) : script_scope.

(** [EVAL]: an error of a command ends the script, what it has done stays. *)
Fixpoint eval {R} `{RedisServer R} {A} (p : script A) (s : R) : result string A * R :=
  match p with
  | Return a => (Ok a, s)
  | Raise m => (Err m, s)
  | Call c k =>
      match send c s with
      | (Ok r, s') => eval (k r) s'
      | (Err e, s') => (Err e, s')
      end
  end.

(** A script does on any server what it does on the command reference. *)
Lemma eval_documented {R} `{RedisServer R} {A} (p : script A) (s : R) :
  (eval p s).1 = (eval p (view s)).1 /\ view (eval p s).2 = (eval p (view s)).2.
Proof.
  revert s; induction p as [a|m|c k IH]; intros s; [done|done|].
  cbn [eval]. destruct (send_documented c s) as [E1 E2].
  change (send c (view s)) with (documented c (view s)).
  destruct (send c s) as [r s'], (documented c (view s)) as [r' d']. simpl in *. subst r' d'.
  by destruct r.
Qed.

(** No command moves the clock. *)
Lemma documented_clock c d : clock (documented c d).2 = clock d.
Proof.
  destruct c; simpl; try done; unfold set_value, put_hash, put_set, put, remove.
  - by repeat case_match.
  - by repeat case_match; simplify_eq.
  - revert d; induction ks as [|k ks IH]; intros d; simpl; [done|]. by rewrite IH.
  - by repeat case_match.
  - by repeat case_match.
  - by repeat case_match.
  - by repeat case_match.
  - by repeat case_match.
Qed.

Lemma eval_clock {A} (p : script A) (d : db) : clock (eval p d).2 = clock d.
Proof.
  revert d; induction p as [a|m|c k IH]; intros d; [done|done|]. cbn [eval].
  change (send c d) with (documented c d). pose proof (documented_clock c d) as E.
  destruct (documented c d) as [[r|e] d']; simpl in *; [by rewrite IH|done].
Qed.
