(* ===== verification/RedisStore.v ===== *)
(** * The Redis store ([internal/store/redis.go])

    The Lua scripts and the methods that run them.  [KEYS] and [ARGV] are the
    argument lists of [EVAL]; go-redis sends integers in decimal. *)

From stdpp Require Import base gmap strings list.
From Stdlib Require Import ZArith Lia Ascii.
From S2P Require Import Prelude GoStrings GoStrconv Crypto GoTime StoreApi RedisApi.
Local Open Scope script_scope.

Module Redis.

(** [KEYS[i]], [ARGV[i]]: Lua counts from one. *)
Definition at_ (l : list string) (i : nat) : string := default "" (l !! pred i).
Notation "l .[ i ]" := (at_ l i) (at level 1, left associativity, format "l .[ i ]").

(** Lua numbers are IEEE doubles; the ones here are integers. *)
Definition num (z : Z) : Z := if (z <? 0)%Z then (- round53 (- z))%Z else round53 z.
(** [tonumber] on the decimal integers that Go prints. *)
Definition tonumber (s : string) : option Z := num <$> ParseInt s.
(** [tonumber(s) or 0] *)
Definition number (s : string) : Z := default 0%Z (tonumber s).
(** [tonumber(s or "0") or 0], for a reply that is [false] when absent *)
Definition field (v : option string) : Z := number (default "0" v).

(** Refuse a key of another type. *)
Definition require_type (key expected : string) : script unit :=
  let! actual := TYPE key in
  if decide (actual <> "none" /\ actual <> expected)
  then Raise ("WRONGTYPE " +:+ key +:+ " must be " +:+ expected)
  else Return tt.
Fixpoint require_types (l : list (string * string)) : script unit :=
  match l with
  | [] => Return tt
  | (key, expected) :: l' => let* _ := require_type key expected in require_types l'
  end.

Definition putSessionScript (KEYS ARGV : list string) : script Z :=
  let* _ := require_type KEYS.[1] "hash" in
  do! HSET KEYS.[1]
    [("creation", ARGV.[1]); ("last_access", ARGV.[2]);
     ("inactive_timeout", ARGV.[3]); ("final_timeout", ARGV.[4]);
     ("owner_id", ARGV.[5]); ("last_rotation", ARGV.[6]); ("labels", ARGV.[7])];
  if (0 <? number ARGV.[8])%Z then do! PEXPIRE KEYS.[1] ARGV.[8]; Return 1%Z else Return 1%Z.

(** The computation of the time to live that three scripts share: the stored and
    the proposed access time, and [ttl_ms]. *)
Definition deadline_ttl (key access ttl : string) : script (Z * Z * Z) :=
  let! current := HGET key "last_access" in
  let current_access := field current in
  let proposed_access := number access in
  let effective_access := Z.max current_access proposed_access in
  let ttl_ms := number ttl in
  let! inactive := HGET key "inactive_timeout" in
  let inactive_ms := num (field inactive * 1000) in
  let! creation := HGET key "creation" in
  let! final := HGET key "final_timeout" in
  let creation := field creation in
  let final_timeout := field final in
  let! (sec, usec) := TIME in
  let now_ms := num (num (number sec * 1000) + number usec / 1000) in
  let final_ms := num (num (num (creation + final_timeout) * 1000) - now_ms) in
  let inactive_deadline_ms := num (num (num (effective_access * 1000) + inactive_ms) - now_ms) in
  let ttl_ms := if ((0 <? inactive_ms) && (inactive_deadline_ms <? ttl_ms))%Z
                then inactive_deadline_ms else ttl_ms in
  let ttl_ms := if ((0 <? final_timeout) && (final_ms <? ttl_ms))%Z then final_ms else ttl_ms in
  Return (current_access, proposed_access, ttl_ms).

(** [for ... do if EXISTS key == 1 then PEXPIRE key ttl_ms end end] *)
Fixpoint expire_all (ks : list string) (ttl_ms : Z) : script unit :=
  match ks with
  | [] => Return tt
  | k :: ks' =>
      let! e := EXISTS k in
      if (e =? 1)%Z then do! PEXPIRE k (FormatInt ttl_ms); expire_all ks' ttl_ms
      else expire_all ks' ttl_ms
  end.

(** A step taken only under a condition. *)
Definition when (b : bool) (p : script unit) : script unit := if b then p else Return tt.
Definition cmd (c : command) : script unit := Call c (fun _ => Return tt).

Definition touchSessionScript (KEYS ARGV : list string) : script Z :=
  let* _ := require_types [(KEYS.[1], "hash"); (KEYS.[2], "string"); (KEYS.[3], "hash");
                           (KEYS.[4], "hash"); (KEYS.[5], "set")] in
  let! e := EXISTS KEYS.[1] in
  if (e =? 0)%Z then Return 0%Z
  else
  let! g := GET KEYS.[2] in
  if decide (g <> Some ARGV.[4]) then Return (-1)%Z
  else
  let* (current_access, proposed_access, ttl_ms) := deadline_ttl KEYS.[1] ARGV.[1] ARGV.[3] in
  if (ttl_ms <=? 0)%Z then Return 0%Z
  else
  let* _ := when (current_access <? proposed_access)%Z
    (do! HSET KEYS.[1] [("last_access", ARGV.[1])]; expire_all KEYS ttl_ms) in
  let! rotation := HGET KEYS.[1] "last_rotation" in
  let* _ := when (match rotation with
                  | None => true
                  | Some r => bool_decide (tonumber r = Some 0%Z)
                  end)
    (cmd (HSET KEYS.[1] [("last_rotation", ARGV.[2])])) in
  Return 1%Z.

(** [ErrNotFound] for 0, [ErrConflict] for -1. *)
Definition zero_result (r : Z) : option error := if (r =? 0)%Z then Some ErrNotFound else None.
Definition int_result (r : Z) : option error :=
  if (r =? 0)%Z then Some ErrNotFound else if (r =? -1)%Z then Some ErrConflict else None.

(** One cookie of [ApplySessionControls]: name, value, hash and flag. *)
Fixpoint apply_cookies (KEYS ARGV : list string) (i count : nat) : script unit :=
  match count with
  | 0 => Return tt
  | S count' =>
      let offset := 15 + i * 4 in
      let name := ARGV.[offset] in
      if decide (ARGV.[offset + 3] = "1") then
        do! HDEL KEYS.[4] name;
        do! HDEL KEYS.[5] name;
        apply_cookies KEYS ARGV (S i) count'
      else
        do! HSET KEYS.[4] [(name, ARGV.[offset + 1])];
        do! HSET KEYS.[5] [(name, ARGV.[offset + 2])];
        apply_cookies KEYS ARGV (S i) count'
  end.

Definition applySessionControlsScript (KEYS ARGV : list string) : script Z :=
  let* _ := require_types [(KEYS.[1], "hash"); (KEYS.[2], "string"); (KEYS.[3], "string");
                           (KEYS.[4], "hash"); (KEYS.[5], "hash"); (KEYS.[6], "set")] in
  let! e := EXISTS KEYS.[1] in
  if (e =? 0)%Z then Return 0%Z
  else if (number ARGV.[9] <=? 0)%Z then Return 0%Z
  else
  let! g := GET KEYS.[2] in
  if decide (g <> Some ARGV.[1]) then Return (-1)%Z
  else
  let rotate := bool_decide (ARGV.[8] = "1") in
  let* taken :=
    if negb rotate then Return false
    else if decide (ARGV.[12] = ARGV.[13]) then Return true
    else if decide (KEYS.[3] = KEYS.[2]) then Return false
    else let! e := EXISTS KEYS.[3] in Return (e =? 1)%Z in
  if (taken : bool) then Return (-1)%Z
  else
  let* (current_access, proposed_access, ttl_ms) := deadline_ttl KEYS.[1] ARGV.[6] ARGV.[9] in
  if (ttl_ms <=? 0)%Z then Return 0%Z
  else
  let! previous := HGET KEYS.[1] "owner_id" in
  let previous := default "0" previous in
  let previous_owner_key := ARGV.[11] +:+ previous in
  let new_owner_key := ARGV.[11] +:+ ARGV.[3] in
  let set_owner := bool_decide (ARGV.[2] = "1") in
  let other := negb (bool_decide (previous = ARGV.[3])) in
  let had := negb (bool_decide (previous = "0")) in
  let* _ := when set_owner (
    let* _ := require_type new_owner_key "set" in
    when (had && other) (require_type previous_owner_key "set")) in
  let* _ := when (set_owner && other) (
    do! HSET KEYS.[1] [("owner_id", ARGV.[3])];
    do! SADD new_owner_key ARGV.[1];
    let* _ := when (0 <? number ARGV.[10])%Z (cmd (PEXPIRE new_owner_key ARGV.[10])) in
    when had (cmd (SREM previous_owner_key ARGV.[1]))) in
  let* _ := when (bool_decide (ARGV.[4] = "1")) (cmd (HSET KEYS.[1] [("labels", ARGV.[5])])) in
  let advanced := rotate || (0 <? number ARGV.[14])%Z in
  let newer := (current_access <? proposed_access)%Z in
  let* _ := when newer (cmd (HSET KEYS.[1] [("last_access", ARGV.[6])])) in
  let advanced := advanced || newer in
  let! rotation := HGET KEYS.[1] "last_rotation" in
  let later := (field rotation <? number ARGV.[7])%Z in
  let* _ := when later (cmd (HSET KEYS.[1] [("last_rotation", ARGV.[7])])) in
  let advanced := advanced || later in
  let active_key := if rotate then KEYS.[3] else KEYS.[2] in
  let* _ := when rotate (
    do! SET KEYS.[3] ARGV.[1] (Some (FormatInt ttl_ms));
    do! DEL [KEYS.[2]];
    do! SREM KEYS.[6] ARGV.[12];
    cmd (SADD KEYS.[6] ARGV.[13])) in
  let* _ := apply_cookies KEYS ARGV 0 (Z.to_nat (number ARGV.[14])) in
  let* _ := when advanced
    (expire_all [KEYS.[1]; active_key; KEYS.[4]; KEYS.[5]; KEYS.[6]] ttl_ms) in
  Return 1%Z.

(** [for _, key_id in ipairs(key_ids) do redis.call("DEL", prefix .. key_id) end] *)
Fixpoint delete_keys (prefix : string) (key_ids : list string) : script unit :=
  match key_ids with
  | [] => Return tt
  | key_id :: key_ids' => do! DEL [prefix +:+ key_id]; delete_keys prefix key_ids'
  end.

Definition deleteSessionScript (KEYS ARGV : list string) : script Z :=
  let* _ := require_types [(KEYS.[1], "hash"); (KEYS.[2], "hash"); (KEYS.[3], "hash");
                           (KEYS.[4], "set")] in
  let! owner := HGET KEYS.[1] "owner_id" in
  let owner := default "0" owner in
  let owner_key := ARGV.[2] +:+ owner in
  let owned := negb (bool_decide (owner = "0")) in
  let* _ := when owned (require_type owner_key "set") in
  let! key_ids := SMEMBERS KEYS.[4] in
  let* _ := delete_keys ARGV.[1] (elements key_ids) in
  do! DEL [KEYS.[1]; KEYS.[2]; KEYS.[3]; KEYS.[4]];
  let* _ := when owned (cmd (SREM owner_key ARGV.[3])) in
  Return 1%Z.

(** [SET] with the time to live of another key; [ttl] is its [PTTL]. *)
Definition set_with (key v : string) (ttl : Z) : script unit :=
  if (0 <? ttl)%Z then cmd (SET key v (Some (FormatInt ttl))) else cmd (SET key v None).

Definition putKeyScript (KEYS ARGV : list string) : script Z :=
  let* _ := require_types [(KEYS.[1], "hash"); (KEYS.[2], "string"); (KEYS.[3], "set")] in
  let! e := EXISTS KEYS.[1] in
  if (e =? 0)%Z then Return 0%Z
  else
  let! ttl := PTTL KEYS.[1] in
  if (ttl =? 0)%Z then Return 0%Z
  else
  let* _ := set_with KEYS.[2] ARGV.[1] ttl in
  do! SADD KEYS.[3] ARGV.[2];
  let* _ := when (0 <? ttl)%Z (cmd (PEXPIRE KEYS.[3] (FormatInt ttl))) in
  Return 1%Z.

Definition replaceKeyScript (KEYS ARGV : list string) : script Z :=
  let* _ := require_types [(KEYS.[1], "hash"); (KEYS.[2], "string"); (KEYS.[3], "string");
                           (KEYS.[4], "set")] in
  let! e := EXISTS KEYS.[1] in
  if (e =? 0)%Z then Return 0%Z
  else
  let! g := GET KEYS.[2] in
  if decide (g <> Some ARGV.[1]) then Return (-1)%Z
  else
  let! e := EXISTS KEYS.[3] in
  if (e =? 1)%Z then Return (-1)%Z
  else
  let! ttl := PTTL KEYS.[1] in
  if (ttl =? 0)%Z then Return 0%Z
  else
  let* _ := set_with KEYS.[3] ARGV.[1] ttl in
  do! DEL [KEYS.[2]];
  do! SREM KEYS.[4] ARGV.[2];
  do! SADD KEYS.[4] ARGV.[3];
  let* _ := when (0 <? ttl)%Z (cmd (PEXPIRE KEYS.[4] (FormatInt ttl))) in
  Return 1%Z.

Definition deleteKeyScript (KEYS ARGV : list string) : script Z :=
  let! actual := TYPE KEYS.[1] in
  if decide (actual <> "none" /\ actual <> "string")
  then Raise ("WRONGTYPE " +:+ KEYS.[1] +:+ " must be string")
  else if decide (actual = "none") then Return 1%Z
  else
  let! sid := GET KEYS.[1] in
  let reverse := ARGV.[1] +:+ default "" sid +:+ ":keys" in
  let* _ := require_type reverse "set" in
  do! DEL [KEYS.[1]];
  do! SREM reverse ARGV.[2];
  Return 1%Z.

Definition putCookieScript (KEYS ARGV : list string) : script Z :=
  let* _ := require_types [(KEYS.[1], "hash"); (KEYS.[2], "hash"); (KEYS.[3], "hash")] in
  let! e := EXISTS KEYS.[1] in
  if (e =? 0)%Z then Return 0%Z
  else
  let! ttl := PTTL KEYS.[1] in
  if (ttl =? 0)%Z then Return 0%Z
  else
  do! HSET KEYS.[2] [(ARGV.[1], ARGV.[2])];
  do! HSET KEYS.[3] [(ARGV.[1], ARGV.[3])];
  let* _ := when (0 <? ttl)%Z (
    do! PEXPIRE KEYS.[2] (FormatInt ttl);
    cmd (PEXPIRE KEYS.[3] (FormatInt ttl))) in
  Return 1%Z.

Definition deleteCookieScript (KEYS ARGV : list string) : script Z :=
  let* _ := require_types [(KEYS.[1], "hash"); (KEYS.[2], "hash")] in
  do! HDEL KEYS.[1] ARGV.[1];
  do! HDEL KEYS.[2] ARGV.[1];
  Return 1%Z.

Definition addOwnerIndexScript (KEYS ARGV : list string) : script Z :=
  let* _ := require_type KEYS.[1] "set" in
  do! SADD KEYS.[1] ARGV.[1];
  let* _ := when (0 <? number ARGV.[2])%Z (cmd (PEXPIRE KEYS.[1] ARGV.[2])) in
  Return 1%Z.

Definition reassignOwnerScript (KEYS ARGV : list string) : script Z :=
  let* _ := require_types [(KEYS.[1], "hash"); (KEYS.[2], "set")] in
  let! e := EXISTS KEYS.[1] in
  if (e =? 0)%Z then Return 0%Z
  else
  let! previous := HGET KEYS.[1] "owner_id" in
  let previous := default "0" previous in
  let previous_key := ARGV.[7] +:+ previous in
  let* (current_access, proposed_access, ttl_ms) := deadline_ttl KEYS.[1] ARGV.[1] ARGV.[5] in
  if (ttl_ms <=? 0)%Z then Return 0%Z
  else
  let moved := negb (bool_decide (previous = "0")) && negb (bool_decide (previous = ARGV.[3])) in
  let* _ := when moved (require_type previous_key "set") in
  do! HSET KEYS.[1] [("owner_id", ARGV.[3])];
  do! PEXPIRE KEYS.[1] (FormatInt ttl_ms);
  let* _ := when (current_access <? proposed_access)%Z
    (cmd (HSET KEYS.[1] [("last_access", ARGV.[1])])) in
  let! rotation := HGET KEYS.[1] "last_rotation" in
  let* _ := when (field rotation <? number ARGV.[4])%Z
    (cmd (HSET KEYS.[1] [("last_rotation", ARGV.[4])])) in
  do! SADD KEYS.[2] ARGV.[2];
  let* _ := when (0 <? number ARGV.[6])%Z (cmd (PEXPIRE KEYS.[2] ARGV.[6])) in
  let* _ := when moved (cmd (SREM previous_key ARGV.[2])) in
  Return 1%Z.

Definition deleteSessionByOwnerScript (KEYS ARGV : list string) : script Z :=
  let* _ := require_types [(KEYS.[1], "hash"); (KEYS.[2], "set"); (KEYS.[3], "hash");
                           (KEYS.[4], "hash"); (KEYS.[5], "set")] in
  let! current := HGET KEYS.[1] "owner_id" in
  if decide (default "0" current <> ARGV.[1]) then
    do! SREM KEYS.[2] ARGV.[2]; Return 0%Z
  else
  let! key_ids := SMEMBERS KEYS.[5] in
  let* _ := delete_keys ARGV.[3] (elements key_ids) in
  do! DEL [KEYS.[1]; KEYS.[3]; KEYS.[4]; KEYS.[5]];
  do! SREM KEYS.[2] ARGV.[2];
  Return 1%Z.

(** The script of the unlock closure. *)
Definition unlockScript (KEYS ARGV : list string) : script Z :=
  let! g := GET KEYS.[1] in
  if decide (g = Some ARGV.[1]) then do! DEL [KEYS.[1]]; Return 1%Z else Return 0%Z.

(** ** The methods *)

(** [hex.EncodeToString] *)
Definition hex_digit (z : Z) : ascii := ascii_of_Z (if (z <? 10)%Z then 48 + z else 87 + z)%Z.
Fixpoint hex (s : string) : string :=
  match s with
  | EmptyString => ""
  | String c s' =>
      String (hex_digit (byte_val c / 16)) (String (hex_digit (byte_val c mod 16)) (hex s'))
  end.

Definition boolArg (v : bool) : string := if v then "1" else "0".

(** The client: the server it talks to, the configured prefix, and
    [crypto/rand]. *)
Record Redis (R : Type) := MkRedis { server : R; prefix : string; rng : string }.
Arguments MkRedis {R} server prefix rng.
Arguments server {R} r.
Arguments prefix {R} r.
Arguments rng {R} r.

(** The lifetime, in milliseconds, that the client library's [SetNX] gives a key:
    none for a duration of 0 or [KeepTTL] (-1 ns), at least a millisecond for a
    positive one.  Whole seconds go out as [EX n], which the server reads as
    [PX 1000n]. *)
Definition setnx_lifetime (ttl : Z) : option Z :=
  if ((ttl =? 0) || (ttl =? -1))%Z then None
  else Some (if ((0 <? ttl) && (ttl <? Millisecond))%Z then 1%Z else Milliseconds ttl).

Section Names.
Context (prefix : string).
Definition sessKey (id : string) : string := (prefix +:+ "sess:") +:+ id.
Definition attrKey (id : string) : string := sessKey id +:+ ":attr".
Definition shaKey (id : string) : string := sessKey id +:+ ":sha".
(** [r.sessKey(id) + ":keys"] *)
Definition keysKey (id : string) : string := sessKey id +:+ ":keys".
Definition keyKey (k : string) : string := (prefix +:+ "key:") +:+ k.
Definition ownerKey (o : Z) : string := (prefix +:+ "owner:") +:+ FormatInt o.
Definition lockKey (id : string) : string := (prefix +:+ "lock:") +:+ id.

Definition PutSession (s : Session) (ttl : Z) : script Z :=
  putSessionScript [sessKey (ID s)]
    [FormatInt (Creation s); FormatInt (LastAccess s); FormatInt (InactiveTimeout s);
     FormatInt (FinalTimeout s); FormatInt (OwnerID s); FormatInt (LastRotation s);
     Labels s; FormatInt (Milliseconds ttl)].

Definition TouchSession (id keyID : string) (lastAccess legacyRotation ttl : Z) : script Z :=
  touchSessionScript [sessKey id; keyKey keyID; attrKey id; shaKey id; keysKey id]
    [FormatInt lastAccess; FormatInt legacyRotation; FormatInt (Milliseconds ttl); id].

Definition cookie_args (c : CookieMutation) : list string :=
  [cm_Name c; cm_Value c; cm_SHA c; boolArg (cm_Delete c)].

Definition ApplySessionControls (id : string) (c : SessionControls) (ttl ownerTTL : Z) : script Z :=
  let newKeyID := if c_Rotate c then c_NewKeyID c else c_OldKeyID c in
  applySessionControlsScript
    [sessKey id; keyKey (c_OldKeyID c); keyKey newKeyID; attrKey id; shaKey id; keysKey id]
    ([id; boolArg (c_SetOwner c); FormatInt (c_OwnerID c); boolArg (c_SetLabels c); c_Labels c;
      FormatInt (c_LastAccess c); FormatInt (c_LastRotation c); boolArg (c_Rotate c);
      FormatInt (Milliseconds ttl); FormatInt (Milliseconds ownerTTL); prefix +:+ "owner:";
      c_OldKeyID c; newKeyID; FormatInt (Z.of_nat (length (c_Cookies c)))]
     ++ mjoin (cookie_args <$> c_Cookies c)).

Definition RotateSessionKey (id oldKeyID newKeyID : string) (lastRotation ttl : Z) : script Z :=
  ApplySessionControls id
    (MkControls false 0 false "" 0 lastRotation oldKeyID newKeyID true []) ttl 0.

(** The row a hash holds; [strconv.ParseInt]'s error is ignored. *)
Definition decode (id : string) (vals : gmap string string) : Session :=
  let atoi k := parse_value (default "" (vals !! k)) in
  MkSession id (atoi "creation") (atoi "last_access") (atoi "inactive_timeout")
    (atoi "final_timeout") (atoi "owner_id") (atoi "last_rotation") (default "" (vals !! "labels")).

Definition DeleteSession (id : string) : script Z :=
  deleteSessionScript [sessKey id; attrKey id; shaKey id; keysKey id]
    [prefix +:+ "key:"; prefix +:+ "owner:"; id].
Definition PutKey (keyID sessionID : string) : script Z :=
  putKeyScript [sessKey sessionID; keyKey keyID; keysKey sessionID] [sessionID; keyID].
Definition ReplaceKey (oldKeyID newKeyID sessionID : string) : script Z :=
  replaceKeyScript [sessKey sessionID; keyKey oldKeyID; keyKey newKeyID; keysKey sessionID]
    [sessionID; oldKeyID; newKeyID].
Definition DeleteKey (keyID : string) : script Z :=
  deleteKeyScript [keyKey keyID] [prefix +:+ "sess:"; keyID].
Definition PutCookie (sessionID name v sha : string) : script Z :=
  putCookieScript [sessKey sessionID; attrKey sessionID; shaKey sessionID] [name; v; sha].
Definition DeleteCookie (sessionID name : string) : script Z :=
  deleteCookieScript [attrKey sessionID; shaKey sessionID] [name].
Definition AddOwnerIndex (ownerID : Z) (sessionID : string) (ttl : Z) : script Z :=
  addOwnerIndexScript [ownerKey ownerID] [sessionID; FormatInt (Milliseconds ttl)].
Definition ReassignOwner (s : Session) (sessionTTL ownerIndexTTL : Z) : script Z :=
  reassignOwnerScript [sessKey (ID s); ownerKey (OwnerID s)]
    [FormatInt (LastAccess s); ID s; FormatInt (OwnerID s); FormatInt (LastRotation s);
     FormatInt (Milliseconds sessionTTL); FormatInt (Milliseconds ownerIndexTTL); prefix +:+ "owner:"].
Definition DeleteSessionByOwner (ownerID : Z) (sessionID : string) : script Z :=
  deleteSessionByOwnerScript
    [sessKey sessionID; ownerKey ownerID; attrKey sessionID; shaKey sessionID; keysKey sessionID]
    [FormatInt ownerID; sessionID; prefix +:+ "key:"].
Definition unlock (sessionID token : string) : script Z := unlockScript [lockKey sessionID] [token].

(** The methods that send one command. *)
Definition GetSession (id : string) : script (res Session) :=
  let! vals := HGETALL (sessKey id) in
  Return (if decide (vals = ∅) then Err ErrNotFound else Ok (decode id vals)).
Definition GetKey (keyID : string) : script (res string) :=
  let! sid := GET (keyKey keyID) in
  Return (match sid with None => Err ErrNotFound | Some sid => Ok sid end).
Definition GetCookies (sessionID : string) : script (res (gmap string string)) :=
  let! m := HGETALL (attrKey sessionID) in Return (Ok m).
Definition CookieSHAs (sessionID : string) : script (res (gmap string string)) :=
  let! m := HGETALL (shaKey sessionID) in Return (Ok m).
Definition RemoveOwnerIndex (ownerID : Z) (sessionID : string) : script (option error) :=
  do! SREM (ownerKey ownerID) sessionID; Return None.
Definition OwnerSessions (ownerID : Z) : script (res (list string)) :=
  let! x := SMEMBERS (ownerKey ownerID) in Return (Ok (elements x)).
Definition Lock (sessionID token : string) (ttl : Z) : script (res (option string)) :=
  let! ok := SETNX (lockKey sessionID) token (FormatInt <$> setnx_lifetime ttl) in
  Return (Ok (if ok then Some token else None)).

(** What a method sends to the server and makes of the reply; the token of a
    lock is an argument. *)
Definition request (token : string) (o : store_op) : script (store_ret o) :=
  match o return script (store_ret o) with
  | StoreApi.GetSession id => GetSession id
  | StoreApi.GetKey k => GetKey k
  | StoreApi.GetCookies id => GetCookies id
  | StoreApi.CookieSHAs id => CookieSHAs id
  | StoreApi.OwnerSessions o => OwnerSessions o
  | StoreApi.RemoveOwnerIndex o id => RemoveOwnerIndex o id
  | StoreApi.DeleteSessionByOwner o id =>
      let* r := DeleteSessionByOwner o id in Return (Ok (bool_decide (r = 1%Z)))
  | StoreApi.Lock id ttl => Lock id token ttl
  | StoreApi.Unlock id token => let* _ := unlock id token in Return None
  | StoreApi.PutSession s ttl => let* _ := PutSession s ttl in Return None
  | StoreApi.TouchSession id k la lr ttl => let* r := TouchSession id k la lr ttl in Return (int_result r)
  | StoreApi.ApplySessionControls id c ttl ottl =>
      let* r := ApplySessionControls id c ttl ottl in Return (int_result r)
  | StoreApi.RotateSessionKey id ok nk lr ttl =>
      let* r := RotateSessionKey id ok nk lr ttl in Return (int_result r)
  | StoreApi.DeleteSession id => let* _ := DeleteSession id in Return None
  | StoreApi.PutKey k id _ => let* r := PutKey k id in Return (zero_result r)
  | StoreApi.ReplaceKey ok nk id _ => let* r := ReplaceKey ok nk id in Return (int_result r)
  | StoreApi.DeleteKey k => let* _ := DeleteKey k in Return None
  | StoreApi.PutCookie id n v h => let* r := PutCookie id n v h in Return (zero_result r)
  | StoreApi.DeleteCookie id n => let* _ := DeleteCookie id n in Return None
  | StoreApi.AddOwnerIndex o id ttl => let* _ := AddOwnerIndex o id ttl in Return None
  | StoreApi.ReassignOwner s ttl ottl =>
      let* r := ReassignOwner s ttl ottl in Return (zero_result r)
  end.
End Names.

(** Only [Lock] draws a token, 16 random bytes in hex, before it sends. *)
Definition draws (o : store_op) : bool := match o with StoreApi.Lock _ _ => true | _ => false end.
Definition drawToken (rng : string) : option (string * string) :=
  (fun br => (hex br.1, br.2)) <$> take_bytes 16 rng.

(** The methods together: an error of the random source or of the server is the
    method's error. *)
#[export] Instance redis_store {R} `{RedisServer R} : Store (Redis R) := fun o r =>
  match (if draws o then drawToken (rng r) else Some ("", rng r)) with
  | None => (fail_with ErrRand o, MkRedis (server r) (prefix r) "")
  | Some (token, rest) =>
      let '(a, s) := eval (request (prefix r) token o) (server r) in
      (match a with Ok a => a | Err e => fail_with (ErrBackend e) o end, MkRedis s (prefix r) rest)
  end.
End Redis.
