(* ===== verification/RedisProps.v ===== *)
(** * Reasoning about Redis scripts

    The keys of the store as slots with pairwise different names, the numbers of
    the scripts, and a weakest precondition for scripts over what the slots
    hold. *)

From stdpp Require Import base gmap strings list.
From Stdlib Require Import ZArith Lia Ascii.
From S2P Require Import Prelude GoStrings GoStrconv Crypto GoTime StoreApi RedisApi RedisStore.
Import Redis.
Local Open Scope Z_scope.

(** The script of a request. *)
Ltac open_request :=
  cbn [request Redis.GetSession Redis.GetKey Redis.GetCookies
       Redis.CookieSHAs Redis.OwnerSessions Redis.RemoveOwnerIndex Redis.Lock].

(** ** Numbers *)

Lemma num_id z : Z.abs z <= 2 ^ 53 -> num z = z.
Proof.
  assert (HR : forall n, 0 <= n <= 2 ^ 53 -> round53 n = n).
  { intros n Hn. unfold round53. destruct (decide (n = 2 ^ 53)) as [->|]; [reflexivity|].
    destruct (decide (n = 0)) as [->|]; [reflexivity|].
    assert (Z.log2 n < 53) by (apply Z.log2_lt_pow2; lia).
    by rewrite (proj2 (Z.leb_le _ _)) by lia. }
  intros H. unfold num. destruct (Z.ltb_spec z 0); rewrite HR; lia.
Qed.

Lemma number_int n : Z.abs n <= 2 ^ 53 -> number (FormatInt n) = n.
Proof.
  intros H. unfold number, tonumber. rewrite ParseInt_FormatInt by (unfold int64; lia).
  simpl. by apply num_id.
Qed.

Lemma tonumber_int n : Z.abs n <= 2 ^ 53 -> tonumber (FormatInt n) = Some n.
Proof.
  intros H. unfold tonumber. rewrite ParseInt_FormatInt by (unfold int64; lia).
  simpl. by rewrite num_id.
Qed.

Lemma FormatInt_inj n n' : int64 n -> int64 n' -> FormatInt n = FormatInt n' -> n = n'.
Proof.
  intros H H' E. apply (f_equal ParseInt) in E.
  rewrite !ParseInt_FormatInt in E by done. by injection E.
Qed.

(** ** Names *)

(** A string without a colon, as every generated identifier is. *)
Definition plain (s : string) : Prop := sep_free ":" s.

Lemma plain_cut a b x y :
  plain a -> plain b -> a +:+ String ":" x = b +:+ String ":" y -> a = b /\ x = y.
Proof.
  unfold plain. revert b; induction a as [|c a IH]; intros [|c' b] Ha Hb E; simpl in *.
  - by injection E.
  - injection E as <- _. apply sep_free_cons in Hb as [Hb _]. done.
  - injection E as -> _. apply sep_free_cons in Ha as [Ha _]. done.
  - injection E as <- E. apply sep_free_cons in Ha as [_ Ha], Hb as [_ Hb].
    destruct (IH b Ha Hb E) as [-> ->]. done.
Qed.

Lemma plain_no_cut a b x : plain a -> a <> b +:+ String ":" x.
Proof.
  intros Ha ->. apply sep_free_app in Ha as [_ Ha]. apply sep_free_cons in Ha as [Ha _]. done.
Qed.

(** Identifiers drawn by the manager are plain. *)
Lemma base64_plain s : plain (base64_rawurl s).
Proof.
  unfold plain. pose proof (base64_alphabet s) as H. revert H.
  generalize (base64_rawurl s) as t. induction t as [|c t IH]; intros H; [done|].
  cbn [all_bytes] in H. apply andb_prop in H as [Hc Ht]. apply sep_free_cons. split; [|by apply IH].
  intros ->. vm_compute in Hc. done.
Qed.

Inductive slot :=
| SSess (id : string)
| SAttr (id : string)
| SSha (id : string)
| SKeys (id : string)
| SKey (k : string)
| SOwner (o : string)
| SLock (id : string).

#[export] Instance slot_eq_dec : EqDecision slot.
Proof. solve_decision. Defined.

Definition plain_slot (sl : slot) : Prop :=
  match sl with
  | SSess id | SAttr id | SSha id | SKeys id => plain id
  | SKey _ | SOwner _ | SLock _ => True
  end.

Definition slot_type (sl : slot) : string :=
  match sl with
  | SSess _ | SAttr _ | SSha _ => "hash"
  | SKeys _ | SOwner _ => "set"
  | SKey _ | SLock _ => "string"
  end.

Definition name (prefix : string) (sl : slot) : string :=
  match sl with
  | SSess id => sessKey prefix id
  | SAttr id => attrKey prefix id
  | SSha id => shaKey prefix id
  | SKeys id => keysKey prefix id
  | SKey k => keyKey prefix k
  | SOwner o => (prefix +:+ "owner:") +:+ o
  | SLock id => lockKey prefix id
  end.

Lemma sapp_cancel p s t : p +:+ s = p +:+ t -> s = t.
Proof. induction p as [|c p IH]; simpl; [done|]. intros [= E]. by apply IH. Qed.

(** No two slots share a key of the server. *)
Lemma name_inj prefix sl sl' :
  plain_slot sl -> plain_slot sl' -> name prefix sl = name prefix sl' -> sl = sl'.
Proof.
  intros H H' E.
  destruct sl, sl'; unfold name, attrKey, shaKey, keysKey, sessKey, keyKey, lockKey in E;
    rewrite ?sapp_assoc in E; apply sapp_cancel in E; simpl in E, H, H';
    try discriminate E; injection E as E; rewrite ?sapp_nil_l in E;
    try (by subst); try (by destruct (plain_no_cut _ _ _ H E));
    try (by destruct (plain_no_cut _ _ _ H' (eq_sym E)));
    destruct (plain_cut _ _ _ _ H H' E) as [-> ?]; done.
Qed.

(** ** What the slots hold *)

Definition holds := slot -> option value.

Definition upd (sl : slot) (v : option value) (W : holds) : holds :=
  fun sl' => if decide (sl = sl') then v else W sl'.

Lemma upd_eq sl v W : upd sl v W sl = v.
Proof. unfold upd. by rewrite decide_True. Qed.
Lemma upd_ne sl v W sl' : sl <> sl' -> upd sl v W sl' = W sl'.
Proof. intros H. unfold upd. by rewrite decide_False. Qed.

(** The value an emptied or filled hash or set leaves. *)
Definition vhash (h : gmap string string) : option value := if decide (h = ∅) then None else Some (VHash h).
Definition vset (x : gset string) : option value := if decide (x = ∅) then None else Some (VSet x).

Definition hashed (v : option value) (h : gmap string string) : Prop :=
  v = Some (VHash h) \/ (v = None /\ h = ∅).
Definition setted (v : option value) (x : gset string) : Prop :=
  v = Some (VSet x) \/ (v = None /\ x = ∅).

Lemma hashed_vhash h : hashed (vhash h) h.
Proof. unfold hashed, vhash. case_decide; auto. Qed.
Lemma setted_vset x : setted (vset x) x.
Proof. unfold setted, vset. case_decide; auto. Qed.

(** Expiry times lie at least [lo] and at most [2^61] milliseconds ahead. *)
Definition timed (lo : Z) (d : db) : Prop :=
  forall k v e, rows d !! k = Some (v, Some e) -> now_ms d + lo <= e <= now_ms d + 2 ^ 61.

(** Every slot with a plain identifier holds what [W] says. *)
Record state (prefix : string) (lo : Z) (c : Z) (d : db) (W : holds) : Prop := {
  st_clock : clock d = c;
  st_timed : timed lo d;
  st_val : forall sl, plain_slot sl -> val d (name prefix sl) = W sl }.
Arguments st_clock {prefix lo c d W}.
Arguments st_timed {prefix lo c d W}.
Arguments st_val {prefix lo c d W}.

(** ** Weakest preconditions *)

Definition wp {A} (p : script A) (d : db) (Q : result string A -> db -> Prop) : Prop :=
  Q (eval p d).1 (eval p d).2.

#[global] Arguments wp {A} p d Q : simpl never.

Lemma wp_bind {A B} (p : script A) (f : A -> script B) d Q :
  wp p d (fun r d' => match r with Ok a => wp (f a) d' Q | Err e => Q (Err e) d' end) ->
  wp (sbind p f) d Q.
Proof.
  unfold wp. revert d; induction p as [a|m|c k IH]; intros d; cbn [sbind eval]; [done|done|].
  destruct (send c d) as [[r|e] d']; [apply IH|done].
Qed.

Lemma wp_mono {A} (p : script A) d (Q Q' : result string A -> db -> Prop) :
  wp p d Q -> (forall r d', Q r d' -> Q' r d') -> wp p d Q'.
Proof. unfold wp. eauto. Qed.

Lemma wp_return {A} (a : A) d (Q : result string A -> db -> Prop) : Q (Ok a) d -> wp (Return a) d Q.
Proof. done. Qed.
Lemma wp_raise {A} m d (Q : result string A -> db -> Prop) : Q (Err m) d -> wp (Raise m) d Q.
Proof. done. Qed.

Section Commands.
Context (prefix : string) (lo c : Z).
Hypothesis lo_small : lo <= 1.
Notation st := (state prefix lo c).
Notation key := (name prefix).
Context {A : Type} (Q : result string A -> db -> Prop).

Lemma wp_read (cm : command) (k : reply cm -> script A) d r :
  documented cm d = (Ok r, d) -> wp (k r) d Q -> wp (Call cm k) d Q.
Proof. unfold wp. cbn [eval send reference_server]. by intros ->. Qed.

Lemma wp_write (cm : command) (k : reply cm -> script A) d r d' :
  documented cm d = (Ok r, d') -> wp (k r) d' Q -> wp (Call cm k) d Q.
Proof. unfold wp. cbn [eval send reference_server]. by intros ->. Qed.

Lemma wp_type d W sl k : plain_slot sl -> st d W ->
  wp (k (kind (W sl))) d Q -> wp (Call (TYPE (key sl)) k) d Q.
Proof. intros P S. apply wp_read. simpl. by rewrite (st_val S). Qed.

Lemma wp_exists d W sl k : plain_slot sl -> st d W ->
  wp (k (match W sl with Some _ => 1 | None => 0 end)) d Q -> wp (Call (EXISTS (key sl)) k) d Q.
Proof. intros P S. apply wp_read. simpl. by rewrite (st_val S). Qed.

Lemma wp_get d W sl v k : plain_slot sl -> st d W ->
  W sl = VString <$> v -> wp (k v) d Q -> wp (Call (GET (key sl)) k) d Q.
Proof.
  intros P S E. apply wp_read. simpl. rewrite (st_val S), E by done. by destruct v.
Qed.

Lemma hash_at_st d W sl h : plain_slot sl -> st d W -> hashed (W sl) h -> hash_at d (key sl) = Ok h.
Proof.
  intros P S E. unfold hash_at. rewrite (st_val S) by done. by destruct E as [->|[-> ->]].
Qed.
Lemma set_at_st d W sl x : plain_slot sl -> st d W -> setted (W sl) x -> set_at d (key sl) = Ok x.
Proof.
  intros P S E. unfold set_at. rewrite (st_val S) by done. by destruct E as [->|[-> ->]].
Qed.

Lemma wp_hget d W sl h f k : plain_slot sl -> st d W -> hashed (W sl) h ->
  wp (k (h !! f)) d Q -> wp (Call (HGET (key sl) f) k) d Q.
Proof. intros P S E. apply wp_read. simpl. by rewrite (hash_at_st d W sl h). Qed.

Lemma wp_hgetall d W sl h k : plain_slot sl -> st d W -> hashed (W sl) h ->
  wp (k h) d Q -> wp (Call (HGETALL (key sl)) k) d Q.
Proof. intros P S E. apply wp_read. simpl. by rewrite (hash_at_st d W sl h). Qed.

Lemma wp_smembers d W sl x k : plain_slot sl -> st d W -> setted (W sl) x ->
  wp (k x) d Q -> wp (Call (SMEMBERS (key sl)) k) d Q.
Proof. intros P S E. apply wp_read. simpl. by rewrite (set_at_st d W sl x). Qed.

Lemma wp_pttl d W sl k : plain_slot sl -> st d W ->
  (forall t, t <= 2 ^ 61 -> (W sl <> None -> t = -1 \/ lo <= t) -> wp (k t) d Q) ->
  wp (Call (PTTL (key sl)) k) d Q.
Proof.
  intros P S H. eapply wp_read; [reflexivity|]. apply H.
  - destruct (rows d !! key sl) as [[v [e|]]|] eqn:E; [|lia|lia].
    pose proof (st_timed S _ _ _ E). lia.
  - rewrite <-(st_val S) by done. unfold val.
    destruct (rows d !! key sl) as [[v [e|]]|] eqn:E; [|auto|done].
    intros _. right. pose proof (st_timed S _ _ _ E). lia.
Qed.

Lemma state_put d W sl v e : plain_slot sl -> st d W ->
  match e with Some e => now_ms d + lo <= e <= now_ms d + 2 ^ 61 | None => True end ->
  st (put (key sl) v e d) (upd sl (Some v) W).
Proof.
  intros P [HC HT HV] He. constructor; [done| |].
  - intros k v' e'. unfold put. simpl. rewrite lookup_insert. unfold now_ms. simpl.
    case_decide; [intros [= <- ->]; done|]. apply HT.
  - intros sl' P'. unfold put, val, upd. simpl. rewrite lookup_insert. case_decide as E.
    + apply name_inj in E; [|done..]. by rewrite decide_True.
    + rewrite decide_False by (intros ->; done). by apply HV.
Qed.

Lemma state_remove d W sl : plain_slot sl -> st d W -> st (remove (key sl) d) (upd sl None W).
Proof.
  intros P [HC HT HV]. constructor; [done| |].
  - intros k v' e'. unfold remove. simpl. rewrite lookup_delete. case_decide; [done|]. apply HT.
  - intros sl' P'. unfold remove, val, upd. simpl. rewrite lookup_delete. case_decide as E.
    + apply name_inj in E; [|done..]. by rewrite decide_True.
    + rewrite decide_False by (intros ->; done). by apply HV.
Qed.

Lemma expiry_timed d W k : st d W ->
  match expiry d k with Some e => now_ms d + lo <= e <= now_ms d + 2 ^ 61 | None => True end.
Proof.
  intros S. unfold expiry. destruct (rows d !! k) as [[v [e|]]|] eqn:E; simpl; try done.
  by apply (st_timed S k v).
Qed.

Lemma wp_hset d W sl h fvs k : plain_slot sl -> st d W -> hashed (W sl) h ->
  (forall d', st d' (upd sl (vhash (hset fvs h)) W) -> wp (k tt) d' Q) ->
  wp (Call (HSET (key sl) fvs) k) d Q.
Proof.
  intros P S E H. eapply wp_write; [simpl; rewrite (hash_at_st d W sl h) by done; reflexivity|].
  apply H. unfold put_hash, vhash. case_decide; [by apply state_remove|].
  apply state_put; [done..|]. by eapply expiry_timed.
Qed.

Lemma wp_hdel d W sl h f k : plain_slot sl -> st d W -> hashed (W sl) h ->
  (forall d', st d' (upd sl (vhash (delete f h)) W) -> wp (k tt) d' Q) ->
  wp (Call (HDEL (key sl) f) k) d Q.
Proof.
  intros P S E H. eapply wp_write; [simpl; rewrite (hash_at_st d W sl h) by done; reflexivity|].
  apply H. unfold put_hash, vhash. case_decide; [by apply state_remove|].
  apply state_put; [done..|]. by eapply expiry_timed.
Qed.

Lemma put_set_state d W sl x : plain_slot sl -> st d W ->
  st (put_set (key sl) x d) (upd sl (vset x) W).
Proof.
  intros P S. unfold put_set, vset. case_decide; [by apply state_remove|].
  apply state_put; [done..|]. by eapply expiry_timed.
Qed.

Lemma wp_sadd d W sl x m k : plain_slot sl -> st d W -> setted (W sl) x ->
  (forall d', st d' (upd sl (vset ({[m]} ∪ x)) W) -> wp (k tt) d' Q) ->
  wp (Call (SADD (key sl) m) k) d Q.
Proof.
  intros P S E H. eapply wp_write; [simpl; rewrite (set_at_st d W sl x) by done; reflexivity|].
  apply H. by apply put_set_state.
Qed.

Lemma wp_srem d W sl x m k : plain_slot sl -> st d W -> setted (W sl) x ->
  (forall d', st d' (upd sl (vset (x ∖ {[m]})) W) -> wp (k tt) d' Q) ->
  wp (Call (SREM (key sl) m) k) d Q.
Proof.
  intros P S E H. eapply wp_write; [simpl; rewrite (set_at_st d W sl x) by done; reflexivity|].
  apply H. by apply put_set_state.
Qed.

Lemma wp_set d W sl v px k : plain_slot sl -> st d W ->
  match px with Some ms => 0 < ms <= 2 ^ 61 | None => True end ->
  (forall d', st d' (upd sl (Some (VString v)) W) -> wp (k tt) d' Q) ->
  wp (Call (SET (key sl) v (FormatInt <$> px)) k) d Q.
Proof.
  intros P S B H. destruct px as [ms|]; simpl.
  - eapply wp_write.
    + simpl. unfold set_value. rewrite ParseInt_FormatInt by (unfold int64; lia).
      rewrite (proj2 (Z.ltb_lt _ _)) by lia. reflexivity.
    + apply H, state_put; [done..|]. lia.
  - eapply wp_write; [reflexivity|]. by apply H, state_put.
Qed.

(** Setting an expiry changes no value. *)
Lemma wp_pexpire d W sl ms k : plain_slot sl -> st d W -> 0 < ms <= 2 ^ 61 ->
  (forall d', st d' W -> wp (k tt) d' Q) ->
  wp (Call (PEXPIRE (key sl) (FormatInt ms)) k) d Q.
Proof.
  intros P S B H. pose proof (st_val S sl P) as HV.
  destruct (val d (key sl)) as [v|] eqn:E.
  - eapply wp_write.
    + simpl. rewrite ParseInt_FormatInt by (unfold int64; lia). rewrite E.
      rewrite (proj2 (Z.ltb_lt _ _)) by lia. reflexivity.
    + apply H. destruct (state_put d W sl v (Some (now_ms d + ms)) P S) as [S1 S2 S3]; [lia|].
      constructor; [done..|]. intros sl' P'. rewrite S3 by done. unfold upd.
      case_decide; [by subst|done].
  - eapply wp_write.
    + simpl. rewrite ParseInt_FormatInt by (unfold int64; lia). rewrite E. reflexivity.
    + by apply H.
Qed.

(** [DEL] of the keys of some slots. *)
Lemma wp_del d W sls k : Forall plain_slot sls -> st d W ->
  (forall d', st d' (foldl (fun W sl => upd sl None W) W sls) -> wp (k tt) d' Q) ->
  wp (Call (DEL (key <$> sls)) k) d Q.
Proof.
  intros P S H. eapply wp_write; [reflexivity|]. apply H. clear H.
  revert d W P S; induction sls as [|sl sls IH]; intros d W P S; simpl; [done|].
  apply Forall_cons in P as [P Ps]. apply IH; [done|]. by apply state_remove.
Qed.
End Commands.
Arguments wp_type {prefix lo c A Q d W} sl.
Arguments wp_exists {prefix lo c A Q d W} sl.
Arguments wp_get {prefix lo c A Q d W} sl.
Arguments wp_hget {prefix lo c A Q d W} sl.
Arguments wp_hgetall {prefix lo c A Q d W} sl.
Arguments wp_smembers {prefix lo c A Q d W} sl.
Arguments wp_pttl {prefix lo c A Q d W} sl.
Arguments wp_hset {prefix lo c A Q d W} sl.
Arguments wp_hdel {prefix lo c A Q d W} sl.
Arguments wp_sadd {prefix lo c A Q d W} sl.
Arguments wp_srem {prefix lo c A Q d W} sl.
Arguments wp_del {prefix lo c A Q d W} sls.
Arguments wp_set {prefix lo c} lo_small {A Q d W} sl.
Arguments wp_pexpire {prefix lo c} lo_small {A Q d W} sl.

(** ** The building blocks of the scripts *)

Definition typed (W : holds) (sl : slot) : Prop := kind (W sl) = "none" \/ kind (W sl) = slot_type sl.

Lemma typed_hash W sl : typed W sl -> slot_type sl = "hash" -> exists h, hashed (W sl) h.
Proof.
  unfold typed, hashed. intros H E. rewrite E in H. destruct (W sl) as [[]|]; simpl in H;
    try (by destruct H); eauto.
Qed.
Lemma typed_set W sl : typed W sl -> slot_type sl = "set" -> exists x, setted (W sl) x.
Proof.
  unfold typed, setted. intros H E. rewrite E in H. destruct (W sl) as [[]|]; simpl in H;
    try (by destruct H); eauto.
Qed.
Lemma typed_string W sl : typed W sl -> slot_type sl = "string" -> exists v, W sl = VString <$> v.
Proof.
  unfold typed. intros H E. rewrite E in H. destruct (W sl) as [[v| |]|]; simpl in H;
    try (by destruct H); [by exists (Some v)|by exists None].
Qed.

Section Blocks.
Context (prefix : string) (lo c : Z).
Hypothesis lo_small : lo <= 1.
Notation st := (state prefix lo c).
Notation key := (name prefix).

Lemma wp_require_type d W sl : plain_slot sl -> st d W ->
  wp (require_type (key sl) (slot_type sl)) d (fun r d' => d' = d
    /\ match r with Ok _ => typed W sl | Err _ => ~ typed W sl end).
Proof.
  intros P S. unfold require_type. eapply wp_type; [done..|]. unfold typed.
  case_decide; [apply wp_raise|apply wp_return]; (split; [done|]); [tauto|].
  destruct (decide (kind (W sl) = "none")), (decide (kind (W sl) = slot_type sl)); tauto.
Qed.

Lemma wp_require_types d W sls : Forall plain_slot sls -> st d W ->
  wp (require_types ((fun sl => (key sl, slot_type sl)) <$> sls)) d (fun r d' => d' = d
    /\ match r with Ok _ => Forall (typed W) sls | Err _ => ~ Forall (typed W) sls end).
Proof.
  intros P S. induction P as [|sl sls P Ps IH]; rewrite ?fmap_cons; cbn [require_types].
  { apply wp_return. split; [done|]. apply Forall_nil_2. }
  apply wp_bind. eapply wp_mono; [by apply wp_require_type|].
  intros r d' [-> H]. destruct r as [[]|e].
  - eapply wp_mono; [exact IH|]. intros r d' [-> Hr]. split; [done|].
    destruct r; [by apply Forall_cons_2|]. intros F. apply Forall_cons in F as [_ F]. done.
  - split; [done|]. intros F. apply Forall_cons in F as [F _]. done.
Qed.

Lemma wp_expire_all d W sls ms : Forall plain_slot sls -> st d W -> 0 < ms <= 2 ^ 61 ->
  wp (expire_all (key <$> sls) ms) d (fun r d' => r = Ok tt /\ st d' W).
Proof.
  intros P S B. revert d S; induction P as [|sl sls P Ps IH]; intros d S; simpl.
  { by apply wp_return. }
  eapply wp_exists; [done..|]. destruct (W sl) as [v|]; simpl; [|by apply IH].
  eapply wp_pexpire; [done..|]. intros d' S'. by apply IH.
Qed.

Definition without (ks : list string) (W : holds) : holds := fun sl =>
  match sl with SKey k => if decide (k ∈ ks) then None else W sl | _ => W sl end.

Lemma state_ext d W W' : (forall sl, plain_slot sl -> W sl = W' sl) -> st d W -> st d W'.
Proof. intros H [S1 S2 S3]. constructor; [done..|]. intros sl P. rewrite S3 by done. by apply H. Qed.

Lemma wp_delete_keys d W ks : st d W ->
  wp (delete_keys (prefix +:+ "key:") ks) d (fun r d' => r = Ok tt /\ st d' (without ks W)).
Proof.
  revert d W; induction ks as [|k ks IH]; intros d W S; simpl.
  { apply wp_return. split; [done|]. by eapply state_ext; [|done]; intros []. }
  eapply (wp_del [SKey k]); [|done|].
  { by apply Forall_singleton. }
  intros d' S'. simpl in S'. eapply wp_mono; [by apply IH|]. intros r d'' [-> S2]. split; [done|].
  eapply state_ext; [|exact S2]. intros [] _; try done; simpl; unfold upd.
  destruct (decide (k0 ∈ ks)) as [Hi|Hi].
  - rewrite decide_True; [done|]. by apply elem_of_cons; right.
  - destruct (decide (SKey k = SKey k0)) as [[= ->]|Hne].
    + rewrite decide_True; [done|]. by apply elem_of_cons; left.
    + rewrite decide_False; [done|]. intros [->|?]%elem_of_cons; done.
Qed.

Lemma wp_when {A} (b : bool) (p : script unit) (f : unit -> script A) d (Q : result string A -> db -> Prop) :
  wp (if b then sbind p f else f tt) d Q -> wp (sbind (when b p) f) d Q.
Proof. by destruct b. Qed.

Lemma wp_cmd {A} cm (f : unit -> script A) d (Q : result string A -> db -> Prop) :
  wp (Call cm (fun _ => f tt)) d Q -> wp (sbind (cmd cm) f) d Q.
Proof. done. Qed.

(** Writing a key with the time to live of another. *)
Lemma wp_set_with d W sl v t Q : plain_slot sl -> st d W -> t <= 2 ^ 61 ->
  (forall d', st d' (upd sl (Some (VString v)) W) -> Q (Ok tt) d') ->
  wp (set_with (key sl) v t) d Q.
Proof.
  intros P S B H. unfold set_with. destruct (Z.ltb_spec 0 t).
  - unfold cmd. eapply (wp_set lo_small sl v (Some t)); [done..| |]; [lia|].
    intros d' S'. apply wp_return. by apply H.
  - unfold cmd. eapply (wp_set lo_small sl v None); [done..|].
    intros d' S'. apply wp_return. by apply H.
Qed.
End Blocks.
Arguments wp_require_type {prefix lo c d W} sl.
Arguments wp_require_types {prefix lo c d W} sls.
Arguments wp_expire_all {prefix lo c} lo_small {d W} sls.
Arguments wp_set_with {prefix lo c} lo_small {d W} sl.
Arguments wp_delete_keys {prefix lo c d W} ks.

(** The cookie loop, by recursion on the mutations. *)
Fixpoint cookie_script (attr sha : string) (cs : list CookieMutation) : script unit :=
  match cs with
  | [] => Return tt
  | m :: cs' =>
      if cm_Delete m then
        Call (HDEL attr (cm_Name m)) (fun _ => Call (HDEL sha (cm_Name m)) (fun _ =>
          cookie_script attr sha cs'))
      else
        Call (HSET attr [(cm_Name m, cm_Value m)]) (fun _ =>
          Call (HSET sha [(cm_Name m, cm_SHA m)]) (fun _ => cookie_script attr sha cs'))
  end.

Lemma cookie_args_at pre don m cs j :
  (length pre = 14 -> j < 4 ->
  at_ (pre ++ mjoin (cookie_args <$> don ++ m :: cs)) (15 + length don * 4 + j)
  = default "" (cookie_args m !! j))%nat.
Proof.
  intros Hp Hj. unfold at_. f_equal.
  assert (Hlen : length (mjoin (cookie_args <$> don)) = (length don * 4)%nat).
  { clear. induction don as [|x don IH]; [done|].
    change (length (cookie_args x ++ mjoin (cookie_args <$> don)) = (S (length don) * 4)%nat).
    rewrite length_app, IH. simpl. lia. }
  rewrite lookup_app_r by lia. rewrite fmap_app.
  assert (Hj' : mjoin ((cookie_args <$> don) ++ (cookie_args <$> m :: cs))
    = mjoin (cookie_args <$> don) ++ cookie_args m ++ mjoin (cookie_args <$> cs)).
  { rewrite join_app. done. }
  rewrite Hj', lookup_app_r by lia. rewrite Hlen, lookup_app_l.
  - f_equal. lia.
  - simpl. lia.
Qed.

Lemma apply_cookies_script KEYS pre don cs : length pre = 14%nat ->
  apply_cookies KEYS (pre ++ mjoin (cookie_args <$> don ++ cs)) (length don) (length cs)
  = cookie_script (at_ KEYS 4) (at_ KEYS 5) cs.
Proof.
  intros Hp. revert don; induction cs as [|m cs IH]; intros don; [done|].
  cbn [length apply_cookies cookie_script].
  pose proof (cookie_args_at pre don m cs 0 Hp ltac:(lia)) as H0.
  pose proof (cookie_args_at pre don m cs 1 Hp ltac:(lia)) as H1.
  pose proof (cookie_args_at pre don m cs 2 Hp ltac:(lia)) as H2.
  pose proof (cookie_args_at pre don m cs 3 Hp ltac:(lia)) as H3.
  rewrite Nat.add_0_r in H0. simpl in H0, H1, H2, H3. cbn [at_] in *.
  change (15 + length don * 4)%nat with (S (14 + length don * 4)) in *.
  specialize (IH (don ++ [m])). rewrite <-app_assoc, length_app in IH. simpl in IH.
  rewrite Nat.add_1_r in IH. cbn [Nat.add] in *. rewrite H0, H1, H2, H3, IH.
  by destruct (cm_Delete m).
Qed.
