(* ===== verification/RedisRefine.v ===== *)
(** * The Redis store implements the in-memory store

    How the rows of a server represent the maps of [Memory], and that each
    method keeps the representation and returns the same result, for the calls
    [op_ok] describes. *)

From stdpp Require Import base gmap strings list.
From Stdlib Require Import ZArith Lia Ascii.
From S2P Require Import Prelude GoStrings GoStrconv Crypto GoTime StoreApi Memory MemoryProps.
From S2P Require Import RedisApi RedisStore RedisProps.
Import Memory MemoryProps Redis.
Local Open Scope Z_scope.

(** ** Rows as hashes *)

Definition small (z : Z) : Prop := Z.abs z <= 2 ^ 40.

Record small_row (s : Session) : Prop := {
  small_creation : small (Creation s);
  small_access : small (LastAccess s);
  small_inactive : small (InactiveTimeout s);
  small_final : small (FinalTimeout s);
  small_owner : int64 (OwnerID s);
  small_rotation : small (LastRotation s) }.

Definition row_fields (s : Session) : list (string * string) :=
  [("creation", FormatInt (Creation s)); ("last_access", FormatInt (LastAccess s));
   ("inactive_timeout", FormatInt (InactiveTimeout s)); ("final_timeout", FormatInt (FinalTimeout s));
   ("owner_id", FormatInt (OwnerID s)); ("last_rotation", FormatInt (LastRotation s));
   ("labels", Labels s)].
Definition encode (s : Session) : gmap string string := hset (row_fields s) ∅.

Ltac map_fields :=
  apply map_eq; intros ?f; unfold encode, hset, row_fields; cbn [foldl fst snd];
  repeat (rewrite lookup_insert; case_decide; [subst; done|]); done.

Lemma encode_put s h : (h = ∅ \/ exists s0, h = encode s0) -> hset (row_fields s) h = encode s.
Proof. intros [->|[s0 ->]]; [done|]. map_fields. Qed.
Lemma encode_access v s : hset [("last_access", FormatInt v)] (encode s) = encode (with_LastAccess v s).
Proof. map_fields. Qed.
Lemma encode_rotation v s :
  hset [("last_rotation", FormatInt v)] (encode s) = encode (with_LastRotation v s).
Proof. map_fields. Qed.
Lemma encode_owner v s : hset [("owner_id", FormatInt v)] (encode s) = encode (with_OwnerID v s).
Proof. map_fields. Qed.
Lemma encode_labels v s : hset [("labels", v)] (encode s) = encode (with_Labels v s).
Proof. map_fields. Qed.

Lemma encode_nonempty s : encode s <> ∅.
Proof.
  intros E. apply (f_equal (fun h : gmap string string => h !! "labels")) in E.
  unfold encode, hset, row_fields in E. cbn [foldl fst snd] in E.
  by rewrite lookup_insert_eq, lookup_empty in E.
Qed.

Lemma vhash_encode s : vhash (encode s) = Some (VHash (encode s)).
Proof. unfold vhash. rewrite decide_False; [done|]. apply encode_nonempty. Qed.

Lemma encode_lookup s :
  encode s !! "creation" = Some (FormatInt (Creation s))
  /\ encode s !! "last_access" = Some (FormatInt (LastAccess s))
  /\ encode s !! "inactive_timeout" = Some (FormatInt (InactiveTimeout s))
  /\ encode s !! "final_timeout" = Some (FormatInt (FinalTimeout s))
  /\ encode s !! "owner_id" = Some (FormatInt (OwnerID s))
  /\ encode s !! "last_rotation" = Some (FormatInt (LastRotation s))
  /\ encode s !! "labels" = Some (Labels s).
Proof.
  unfold encode, hset, row_fields. cbn [foldl fst snd].
  split_and!; repeat first [rewrite lookup_insert_eq; done | rewrite lookup_insert_ne by done].
Qed.

Lemma small_int64 z : small z -> int64 z.
Proof. unfold small, int64. lia. Qed.

Lemma decode_encode s : small_row s -> decode (ID s) (encode s) = s.
Proof.
  intros []. destruct (encode_lookup s) as (E1 & E2 & E3 & E4 & E5 & E6 & E7).
  unfold decode. rewrite E1, E2, E3, E4, E5, E6, E7. cbn [default id].
  rewrite !(fun n H => parse_value_ParseInt _ n (ParseInt_FormatInt n H)) by eauto using small_int64.
  by destruct s.
Qed.

Lemma field_encode z : small z -> field (Some (FormatInt z)) = z.
Proof. intros H. unfold field. simpl. apply number_int. unfold small in H. lia. Qed.

(** ** The representation *)

Definition keys_of (ks : gmap string string) (id : string) : gset string :=
  dom (filter (fun kv => kv.2 = id) ks).

Lemma elem_of_keys_of ks id k : k ∈ keys_of ks id <-> ks !! k = Some id.
Proof.
  unfold keys_of. rewrite elem_of_dom. split.
  - intros [v H]. apply map_lookup_filter_Some in H as [H E]. simpl in E. by subst.
  - intros H. exists id. by apply map_lookup_filter_Some.
Qed.

(** The members of the owner set with the given decimal name. *)
Definition named_members (ow : gmap Z (gset string)) (o : string) : gset string :=
  match ParseInt o with
  | Some z => if decide (FormatInt z = o) then members ow z else ∅
  | None => ∅
  end.

Definition content (m : Memory) (locks : string -> option value) : holds := fun sl =>
  match sl with
  | SSess id => (fun s => VHash (encode s)) <$> sessions m !! id
  | SAttr id => vhash (default ∅ (cookies m !! id))
  | SSha id => vhash (default ∅ (shas m !! id))
  | SKeys id => vset (keys_of (keys m) id)
  | SKey k => VString <$> keys m !! k
  | SOwner o => vset (named_members (owners m) o)
  | SLock id => locks id
  end.

Record repr (prefix : string) (L : string -> option value) (d : db) (m : Memory) : Prop := {
  repr_rows : state prefix 1 (clock d) d (content m L);
  repr_clock : 0 <= now_ms d <= 2 ^ 50;
  repr_id : forall sid s, sessions m !! sid = Some s -> ID s = sid /\ plain sid /\ small_row s;
  repr_keys : forall k sid, keys m !! k = Some sid -> plain sid }.

Lemma named_members_int ow z : int64 z -> named_members ow (FormatInt z) = members ow z.
Proof. intros H. unfold named_members. by rewrite ParseInt_FormatInt, decide_True. Qed.

(** A change of one owner's set shows at that owner's name only. *)
Lemma named_members_change ow ow' z o :
  int64 z -> (forall z', z' <> z -> members ow' z' = members ow z') ->
  named_members ow' o = if decide (FormatInt z = o) then members ow' z else named_members ow o.
Proof.
  intros Hz H. case_decide as E; [subst; by apply named_members_int|].
  unfold named_members. destruct (ParseInt o) as [z'|]; [|done]. case_decide; [|done].
  apply H. intros ->. done.
Qed.

(** ** When a call is in time *)

(** The time to live the scripts compute. *)
Definition session_ttl (now : Z) (s : Session) (access ttl : Z) : Z :=
  let inactive := (Z.max (LastAccess s) access + InactiveTimeout s) * 1000 - now in
  let final := (Creation s + FinalTimeout s) * 1000 - now in
  let t := if ((0 <? InactiveTimeout s) && (inactive <? ttl))%Z then inactive else ttl in
  if ((0 <? FinalTimeout s) && (final <? t))%Z then final else t.

Lemma session_ttl_le now s access ttl : session_ttl now s access ttl <= ttl.
Proof.
  unfold session_ttl. repeat case_match; rewrite ?andb_true_iff, ?Z.ltb_lt in *; lia.
Qed.

Lemma Milliseconds_bound d : int64 d -> Z.abs (Milliseconds d) <= 2 ^ 44.
Proof.
  unfold int64, Milliseconds, Millisecond. intros H.
  pose proof (Z.quot_rem' d 1000000). pose proof (Z.rem_bound_abs d 1000000). lia.
Qed.

Definition in_time (now : Z) (m : Memory) (sid : string) (access ttl : Z) : Prop :=
  forall s, sessions m !! sid = Some s -> 0 < session_ttl now s access (Milliseconds ttl).

(** The calls for which both stores agree: identifiers are plain, numbers within
    the range of the clock, the session's deadlines not past, a published key not
    that of another session. *)
Definition op_ok (now : Z) (m : Memory) (o : store_op) : Prop :=
  match o with
  | StoreApi.PutSession s ttl => plain (ID s) /\ small_row s /\ int64 ttl
  | StoreApi.TouchSession sid _ la lr ttl =>
      plain sid /\ small la /\ small lr /\ int64 ttl /\ in_time now m sid la ttl
  | StoreApi.ApplySessionControls sid c ttl ottl =>
      plain sid /\ small (c_LastAccess c) /\ small (c_LastRotation c) /\ int64 (c_OwnerID c)
      /\ int64 ttl /\ int64 ottl /\ Z.of_nat (length (c_Cookies c)) <= 2 ^ 53
      /\ in_time now m sid (c_LastAccess c) ttl
  | StoreApi.RotateSessionKey sid _ _ lr ttl =>
      plain sid /\ small lr /\ int64 ttl /\ in_time now m sid 0 ttl
  | StoreApi.GetSession sid | StoreApi.DeleteSession sid | StoreApi.GetCookies sid
  | StoreApi.CookieSHAs sid | StoreApi.DeleteCookie sid _
  | StoreApi.ReplaceKey _ _ sid _ => plain sid
  | StoreApi.PutKey k sid _ => plain sid /\ (keys m !! k = None \/ keys m !! k = Some sid)
  | StoreApi.PutCookie sid _ _ _ =>
      plain sid /\ (cookies m !! sid = None -> default ∅ (shas m !! sid) = ∅)
  | StoreApi.GetKey _ | StoreApi.DeleteKey _ => True
  | StoreApi.AddOwnerIndex o _ ttl => int64 o /\ int64 ttl
  | StoreApi.RemoveOwnerIndex o _ | StoreApi.OwnerSessions o => int64 o
  | StoreApi.ReassignOwner s ttl ottl =>
      plain (ID s) /\ small (LastAccess s) /\ small (LastRotation s) /\ int64 (OwnerID s)
      /\ int64 ttl /\ int64 ottl /\ in_time now m (ID s) (LastAccess s) ttl
      /\ forall s0, sessions m !! ID s = Some s0 -> 0 <= OwnerID s0
  | StoreApi.DeleteSessionByOwner o sid =>
      plain sid /\ int64 o /\ (o <> 0 \/ is_Some (sessions m !! sid))
  | StoreApi.Lock _ _ | StoreApi.Unlock _ _ => False
  end.

(** Leave a script that has returned. *)
Ltac ret := repeat (apply wp_return; cbn beta iota).

(** Take the branch of a test on the reply of [EXISTS]. *)
Ltac branch := change (1 =? 0) with false; change (0 =? 0) with true; cbn iota.

(** Read the argument lists of a script. *)
Ltac args := unfold at_; cbn [lookup list_lookup pred default from_option id].
Ltac args_in H := unfold at_ in H; cbn [lookup list_lookup pred default from_option id] in H.

Lemma one_le : 1 <= 1.
Proof. done. Qed.

Section Refine.
Context (prefix : string).
Notation st c := (state prefix 1 c).
Notation key := (name prefix).

(** The time to live the scripts compute, exactly. *)
Lemma wp_deadline_ttl c d W sid s la ttl :
  plain sid -> st c d W -> W (SSess sid) = Some (VHash (encode s)) ->
  small_row s -> small la -> Z.abs ttl <= 2 ^ 44 -> 0 <= now_ms d <= 2 ^ 50 ->
  wp (deadline_ttl (sessKey prefix sid) (FormatInt la) (FormatInt ttl)) d (fun r d' =>
    d' = d /\ r = Ok (LastAccess s, la, session_ttl (now_ms d) s la ttl)).
Proof.
  intros P S E [] Hla Httl Hnow. destruct (encode_lookup s) as (E1 & E2 & E3 & E4 & _).
  assert (HH : hashed (W (SSess sid)) (encode s)) by (by left).
  unfold deadline_ttl.
  do 4 (eapply (wp_hget (SSess sid)); [done..|]).
  eapply wp_read; [reflexivity|]. rewrite E1, E2, E3, E4, !field_encode by done.
  assert (Hs : number (FormatInt (clock d / 1000000)) = clock d / 1000000).
  { apply number_int. unfold now_ms in Hnow.
    pose proof (Z.div_pos (clock d) 1000000). pose proof (Z.div_mod (clock d) 1000).
    pose proof (Z.mod_pos_bound (clock d) 1000). 
    assert (clock d / 1000000 <= 2 ^ 50) by (apply Z.div_le_upper_bound; lia). lia. }
  assert (Hu : number (FormatInt (clock d mod 1000000)) = clock d mod 1000000).
  { apply number_int. pose proof (Z.mod_pos_bound (clock d) 1000000). lia. }
  assert (Hms : clock d / 1000000 * 1000 + clock d mod 1000000 / 1000 = now_ms d).
  { unfold now_ms. pose proof (Z.div_mod (clock d) 1000000 ltac:(lia)) as D.
    rewrite D at 3. replace (1000000 * (clock d / 1000000) + clock d mod 1000000)
      with (clock d mod 1000000 + (clock d / 1000000 * 1000) * 1000) by lia.
    rewrite Z.div_add by lia. lia. }
  rewrite Hs, Hu, !number_int by (unfold small in *; lia).
  assert (Hsec : 0 <= clock d mod 1000000 / 1000).
  { apply Z.div_pos; [apply Z.mod_pos_bound|]; lia. }
  assert (Hsec2 : 0 <= clock d / 1000000).
  { apply Z.div_pos; [|lia]. unfold now_ms in Hnow.
    pose proof (Z.div_mod (clock d) 1000 ltac:(lia)). pose proof (Z.mod_pos_bound (clock d) 1000). lia. }
  rewrite (num_id (clock d / 1000000 * 1000)) by lia. rewrite Hms.
  apply wp_return. split; [done|]. unfold small in *.
  rewrite (num_id (now_ms d)), (num_id (InactiveTimeout s * 1000)), (num_id (Creation s + FinalTimeout s)) by lia.
  rewrite (num_id ((Creation s + FinalTimeout s) * 1000)) by lia.
  rewrite (num_id ((Creation s + FinalTimeout s) * 1000 - now_ms d)) by lia.
  rewrite (num_id (Z.max (LastAccess s) la * 1000)) by lia.
  rewrite (num_id (Z.max (LastAccess s) la * 1000 + InactiveTimeout s * 1000)) by lia.
  rewrite (num_id (_ - now_ms d)) by lia. unfold session_ttl.
  rewrite <-Z.mul_add_distr_r.
  replace (0 <? InactiveTimeout s * 1000) with (0 <? InactiveTimeout s); [done|].
  destruct (Z.ltb_spec 0 (InactiveTimeout s)), (Z.ltb_spec 0 (InactiveTimeout s * 1000)); lia.
Qed.

(** Every row has the type its name says. *)
Lemma content_typed m L sl : match sl with SLock _ => False | _ => True end -> typed (content m L) sl.
Proof.
  unfold typed, content, vhash, vset. destruct sl as [id|id|id|id|k|o|id]; intros H; simpl.
  - destruct (sessions m !! id); simpl; auto.
  - case_decide; auto.
  - case_decide; auto.
  - case_decide; auto.
  - destruct (keys m !! k); simpl; auto.
  - case_decide; auto.
  - done.
Qed.

(** The type checks of a script pass. *)
Lemma wp_checked1 {A} c d m L sl (f : unit -> script A) Q :
  plain_slot sl -> match sl with SLock _ => False | _ => True end ->
  st c d (content m L) -> wp (f tt) d Q ->
  wp (sbind (require_type (key sl) (slot_type sl)) f) d Q.
Proof.
  intros P N S H. apply wp_bind. eapply wp_mono; [by eapply (wp_require_type sl)|].
  intros r d' [-> Hr]. destruct r as [[]|e]; [done|]. destruct Hr. by apply content_typed.
Qed.

Lemma wp_checked {A} c d m L sls (f : unit -> script A) Q :
  Forall (fun sl => plain_slot sl /\ match sl with SLock _ => False | _ => True end) sls ->
  st c d (content m L) -> wp (f tt) d Q ->
  wp (sbind (require_types ((fun sl => (key sl, slot_type sl)) <$> sls)) f) d Q.
Proof.
  intros F S H. apply wp_bind.
  eapply wp_mono; [eapply wp_require_types; [|done]|].
  { eapply Forall_impl; [exact F|]. by intros sl [? _]. }
  intros r d' [-> Hr]. destruct r as [[]|e]; [done|]. destruct Hr.
  eapply Forall_impl; [exact F|]. intros sl [_ ?]. by apply content_typed.
Qed.

Lemma repr_step d m d' m' L W :
  repr prefix L d m -> st (clock d) d' W ->
  (forall sl, plain_slot sl -> W sl = content m' L sl) ->
  (forall sid s, sessions m' !! sid = Some s ->
     sessions m !! sid = Some s \/ (ID s = sid /\ plain sid /\ small_row s)) ->
  (forall k sid, keys m' !! k = Some sid -> keys m !! k = Some sid \/ plain sid) ->
  repr prefix L d' m'.
Proof.
  intros [_ Hc Hid Hk] S HW Hs' Hk'. pose proof (st_clock S) as EC.
  assert (now_ms d' = now_ms d) as EN by (unfold now_ms; by rewrite EC). split.
  - rewrite EC. by eapply state_ext.
  - by rewrite EN.
  - intros sid s H. destruct (Hs' _ _ H) as [?|?]; [by apply Hid|done].
  - intros k sid H. destruct (Hk' _ _ H) as [?|?]; [by eapply Hk|done].
Qed.

(** What a method of the Redis store does, next to its specification. *)
Definition refines (o : store_op) : Prop := forall tok L d m,
  repr prefix L d m -> op_ok (now_ms d) m o ->
  wp (request prefix tok o) d (fun r d' => r = Ok (exec o m).1 /\ repr prefix L d' (exec o m).2).

(** A method that only reads. *)
Lemma refines_read (o : store_op) (cm : command) (k : reply cm -> script (store_ret o)) L d m r :
  repr prefix L d m -> documented cm d = (Ok r, d) -> k r = Return (exec o m).1 -> (exec o m).2 = m ->
  wp (Call cm k) d (fun r d' => r = Ok (exec o m).1 /\ repr prefix L d' (exec o m).2).
Proof. intros R E Ek Em. eapply wp_read; [done|]. rewrite Ek. apply wp_return. by rewrite Em. Qed.

Lemma refines_GetKey k : refines (StoreApi.GetKey k).
Proof.
  intros tok L d m R _. pose proof (repr_rows _ _ _ _ R) as S. open_request.
  pose proof (st_val S (SKey k) I) as E. cbn [name content] in E.
  eapply refines_read with (r := keys m !! k); [done|..].
  - simpl. rewrite E. by destruct (keys m !! k).
  - simpl. by destruct (keys m !! k).
  - done.
Qed.

Lemma content_attr m L id : hashed (content m L (SAttr id)) (default ∅ (cookies m !! id)).
Proof. apply hashed_vhash. Qed.
Lemma content_sha m L id : hashed (content m L (SSha id)) (default ∅ (shas m !! id)).
Proof. apply hashed_vhash. Qed.
Lemma content_keys m L id : setted (content m L (SKeys id)) (keys_of (keys m) id).
Proof. apply setted_vset. Qed.
Lemma content_owner m L o : int64 o -> setted (content m L (SOwner (FormatInt o))) (members (owners m) o).
Proof. intros H. simpl. rewrite named_members_int by done. apply setted_vset. Qed.

Lemma refines_GetCookies id : refines (StoreApi.GetCookies id).
Proof.
  intros tok L d m R P. pose proof (repr_rows _ _ _ _ R) as S. open_request.
  eapply refines_read; [done|..]; [|done..].
  apply (f_equal (fun r => (r, d))), (hash_at_st prefix 1 (clock d) d (content m L) (SAttr id)); [done..|].
  apply content_attr.
Qed.

Lemma refines_CookieSHAs id : refines (StoreApi.CookieSHAs id).
Proof.
  intros tok L d m R P. pose proof (repr_rows _ _ _ _ R) as S. open_request.
  eapply refines_read; [done|..]; [|done..].
  apply (f_equal (fun r => (r, d))), (hash_at_st prefix 1 (clock d) d (content m L) (SSha id)); [done..|].
  apply content_sha.
Qed.

Lemma refines_OwnerSessions o : refines (StoreApi.OwnerSessions o).
Proof.
  intros tok L d m R H. pose proof (repr_rows _ _ _ _ R) as S. open_request.
  eapply refines_read; [done|..]; [|done..].
  apply (f_equal (fun r => (r, d))), (set_at_st prefix 1 (clock d) d (content m L) (SOwner (FormatInt o)));
    [done..|]. by apply content_owner.
Qed.

Lemma refines_GetSession id : refines (StoreApi.GetSession id).
Proof.
  intros tok L d m R P. pose proof (repr_rows _ _ _ _ R) as S. open_request.
  eapply refines_read; [done|..]; [| |done].
  - apply (f_equal (fun r => (r, d))), (hash_at_st prefix 1 (clock d) d (content m L) (SSess id));
      [done..|]. instantiate (1 := from_option encode ∅ (sessions m !! id)).
    unfold hashed. simpl. destruct (sessions m !! id); simpl; auto.
  - cbn [exec memory_store]. unfold Memory.GetSession. destruct (sessions m !! id) as [s|] eqn:E; simpl.
    + rewrite decide_False by apply encode_nonempty.
      destruct (repr_id _ _ _ _ R _ _ E) as (<- & _ & Hs). by rewrite decode_encode.
    + by rewrite decide_True.
Qed.

(** ** The effect of a write on the representation *)

Lemma content_set_owner m L ow o :
  int64 o -> (forall z, z <> o -> members ow z = members (owners m) z) ->
  forall sl, upd (SOwner (FormatInt o)) (vset (members ow o)) (content m L) sl
             = content (set_owners ow m) L sl.
Proof.
  intros Ho H sl. unfold upd. destruct sl as [id|id|id|id|k|o'|id]; cbn [content set_owners sessions keys cookies shas owners];
    try (by rewrite decide_False by done).
  rewrite (named_members_change (owners m) ow o o') by done.
  destruct (decide (FormatInt o = o')) as [->|Hne]; [by rewrite decide_True|].
  by rewrite decide_False by congruence.
Qed.

Lemma content_set_session m L id s sl :
  upd (SSess id) (Some (VHash (encode s))) (content m L) sl
  = content (set_sessions (<[id := s]> (sessions m)) m) L sl.
Proof.
  unfold upd. destruct sl as [id'|id'|id'|id'|k|o|id']; cbn [content set_sessions sessions keys cookies shas owners];
    try (by rewrite decide_False by done).
  rewrite lookup_insert. destruct (decide (id = id')) as [->|]; [by rewrite decide_True|].
  by rewrite decide_False by congruence.
Qed.

Lemma content_set_cookies m m' L id h h' sl :
  sessions m' = sessions m -> keys m' = keys m -> owners m' = owners m ->
  (forall i, default ∅ (cookies m' !! i) = if decide (id = i) then h else default ∅ (cookies m !! i)) ->
  (forall i, default ∅ (shas m' !! i) = if decide (id = i) then h' else default ∅ (shas m !! i)) ->
  upd (SSha id) (vhash h') (upd (SAttr id) (vhash h) (content m L)) sl = content m' L sl.
Proof.
  intros E1 E2 E3 HC HS. unfold upd. destruct sl as [id'|id'|id'|id'|k|o|id']; cbn [content];
    rewrite ?E1, ?E2, ?E3, ?HC, ?HS; try (by rewrite !decide_False by done).
  all: rewrite ?(decide_False (P := SSha _ = SAttr _)) by done.
  all: destruct (decide (id = id')) as [->|]; [by rewrite decide_True|].
  all: by rewrite ?decide_False by congruence.
Qed.

(** The keys of a session before and after a key starts or stops naming it. *)
Lemma keys_of_insert ks k id :
  ks !! k = None \/ ks !! k = Some id -> forall id',
  keys_of (<[k := id]> ks) id' = if decide (id = id') then {[k]} ∪ keys_of ks id' else keys_of ks id'.
Proof.
  intros H id'. apply set_eq. intros x. rewrite elem_of_keys_of, lookup_insert.
  destruct (decide (id = id')) as [->|Hne];
    rewrite ?elem_of_union, ?elem_of_singleton, elem_of_keys_of; case_decide; subst; naive_solver.
Qed.

Lemma keys_of_delete ks k id : ks !! k = Some id -> forall id',
  keys_of (delete k ks) id' = if decide (id = id') then keys_of ks id' ∖ {[k]} else keys_of ks id'.
Proof.
  intros H id'. apply set_eq. intros x. rewrite elem_of_keys_of, lookup_delete.
  destruct (decide (id = id')) as [->|Hne];
    rewrite ?elem_of_difference, ?elem_of_singleton, elem_of_keys_of; case_decide; subst; naive_solver.
Qed.

Lemma content_set_keys m L W ks' :
  (forall sl, match sl with SKey _ | SKeys _ => True | _ => W sl = content m L sl end) ->
  (forall k, W (SKey k) = VString <$> ks' !! k) ->
  (forall i, W (SKeys i) = vset (keys_of ks' i)) ->
  forall sl, W sl = content (set_keys ks' m) L sl.
Proof. intros H1 H2 H3 sl. specialize (H1 sl). destruct sl; cbn [content]; auto. Qed.

Lemma refines_AddOwnerIndex o id ttl : refines (StoreApi.AddOwnerIndex o id ttl).
Proof.
  intros tok L d m R [Ho Ht]. pose proof (repr_rows _ _ _ _ R) as S. pose proof (Milliseconds_bound _ Ht).
  cbn [request]. unfold Redis.AddOwnerIndex, addOwnerIndexScript.
  apply wp_bind. eapply (wp_checked1 _ _ _ _ (SOwner (FormatInt o))); [done..|].
  eapply (wp_sadd (SOwner (FormatInt o))); [done..|by apply content_owner|].
  intros d1 S1. apply wp_when. unfold at_. simpl. rewrite number_int by lia.
  assert (F : forall d', st (clock d) d' (upd (SOwner (FormatInt o))
      (vset ({[id]} ∪ members (owners m) o)) (content m L)) ->
    repr prefix L d' (set_owners (owner_add o id (owners m)) m)).
  { intros d' S'. eapply repr_step; [done..| | |]; simpl; [|auto..]. intros sl _.
    rewrite <-(content_set_owner m L (owner_add o id (owners m)) o); [|done|].
    - by rewrite members_add, decide_True.
    - intros z Hz. by rewrite members_add, decide_False by congruence. }
  destruct (Z.ltb_spec 0 (Milliseconds ttl)); [|by ret; auto].
  eapply (wp_pexpire one_le (SOwner (FormatInt o))); [done..| |]; [lia|].
  intros d2 S2. ret. auto.
Qed.

Lemma refines_RemoveOwnerIndex o id : refines (StoreApi.RemoveOwnerIndex o id).
Proof.
  intros tok L d m R Ho. pose proof (repr_rows _ _ _ _ R) as S. open_request.
  eapply (wp_srem (SOwner (FormatInt o))); [done..|by apply content_owner|].
  intros d1 S1. ret. split; [done|]. eapply repr_step; [done..| | |]; [|simpl; auto..].
  intros sl _. cbn [exec memory_store Memory.RemoveOwnerIndex snd].
  rewrite <-(content_set_owner m L (owner_del o id (owners m)) o); [|done|].
  - by rewrite members_del, decide_True.
  - intros z Hz. by rewrite members_del, decide_False by congruence.
Qed.

Lemma refines_DeleteCookie id n : refines (StoreApi.DeleteCookie id n).
Proof.
  intros tok L d m R P. pose proof (repr_rows _ _ _ _ R) as S.
  cbn [request]. unfold Redis.DeleteCookie, deleteCookieScript. apply wp_bind.
  eapply (wp_checked _ _ _ _ [SAttr id; SSha id]); [|done|].
  { repeat apply Forall_cons_2; done || apply Forall_nil_2. }
  eapply (wp_hdel (SAttr id)); [done..|apply content_attr|]. intros d1 S1.
  eapply (wp_hdel (SSha id)); [done..| |].
  { rewrite upd_ne by done. apply content_sha. }
  intros d2 S2. ret. split; [done|]. eapply repr_step; [done..| | |]; [|simpl; auto..].
  intros sl _. apply content_set_cookies; try done; intros i; simpl; unfold del_inner;
    rewrite lookup_alter; case_decide; subst; try done.
  - by destruct (cookies m !! i); simpl; rewrite ?delete_empty.
  - by destruct (shas m !! i); simpl; rewrite ?delete_empty.
Qed.

(** The session's row exists, as a hash, exactly when the session does. *)
Lemma content_sess m L id :
  (exists s, sessions m !! id = Some s /\ content m L (SSess id) = Some (VHash (encode s)))
  \/ (sessions m !! id = None /\ content m L (SSess id) = None).
Proof. simpl. destruct (sessions m !! id); simpl; eauto. Qed.

Lemma refines_PutCookie id n v h : refines (StoreApi.PutCookie id n v h).
Proof.
  intros tok L d m R [P HP]. pose proof (repr_rows _ _ _ _ R) as S.
  cbn [request]. unfold Redis.PutCookie, putCookieScript. apply wp_bind.
  eapply (wp_checked _ _ _ _ [SSess id; SAttr id; SSha id]); [|done|].
  { repeat apply Forall_cons_2; done || apply Forall_nil_2. }
  eapply (wp_exists (SSess id)); [done..|]. cbn [exec memory_store]. unfold Memory.PutCookie.
  destruct (content_sess m L id) as [(s & E & Ec)|[E Ec]]; rewrite E, Ec; simpl; [|by ret].
  eapply (wp_pttl (SSess id)); [done..|]. intros t Ht Ht0. rewrite Ec in Ht0.
  destruct (Z.eqb_spec t 0); [destruct Ht0; lia || done|].
  eapply (wp_hset (SAttr id)); [done..|apply content_attr|]. intros d1 S1.
  eapply (wp_hset (SSha id)); [done..| |].
  { rewrite upd_ne by done. apply content_sha. }
  intros d2 S2. cbn [hset foldl fst snd] in S2.
  set (W := upd (SSha id) _ _) in S2. set (m' := set_shas _ _).
  assert (F : forall d', st (clock d) d' W -> repr prefix L d' m').
  { intros d' S'. eapply repr_step; [done..| | |]; [|by unfold m'; case_match; simpl; auto..].
    intros sl _. apply content_set_cookies; try (by unfold m'; case_match); intros i;
      unfold m'; simpl; unfold put_inner; destruct (cookies m !! id) as [g|] eqn:Ei; simpl;
      rewrite !lookup_insert; case_decide; subst; simpl; try done.
    - by rewrite Ei.
    - by rewrite Ei, decide_True.
    - by rewrite HP, decide_True. }
  unfold when. destruct (Z.ltb_spec 0 t); [|by ret; auto].
  eapply (wp_pexpire one_le (SAttr id)); [done..| |]; [lia|]. intros d3 S3.
  eapply (wp_pexpire one_le (SSha id)); [done..| |]; [lia|]. intros d4 S4. ret. auto.
Qed.

Lemma refines_PutSession s ttl : refines (StoreApi.PutSession s ttl).
Proof.
  intros tok L d m R (P & Hs & Ht). pose proof (repr_rows _ _ _ _ R) as S.
  pose proof (Milliseconds_bound _ Ht).
  cbn [request]. unfold Redis.PutSession, putSessionScript. apply wp_bind.
  eapply (wp_checked1 _ _ _ _ (SSess (ID s))); [done..|].
  eapply (wp_hset (SSess (ID s))) with (h := from_option encode ∅ (sessions m !! ID s)); [done..| |].
  { unfold hashed. simpl. destruct (sessions m !! ID s); simpl; auto. }
  intros d1 S1. args_in S1.
  fold (row_fields s) in S1. rewrite encode_put, vhash_encode in S1.
  2:{ destruct (sessions m !! ID s); simpl; eauto. }
  assert (F : forall d', st (clock d) d' (upd (SSess (ID s)) (Some (VHash (encode s))) (content m L)) ->
    repr prefix L d' (set_sessions (<[ID s := s]> (sessions m)) m)).
  { intros d' S'. eapply repr_step; [done..| | |]; [intros sl _; apply content_set_session| |by auto].
    intros sid s'. simpl. rewrite lookup_insert. case_decide; [intros [= <-]; subst; auto|auto]. }
  args. rewrite number_int by lia.
  destruct (Z.ltb_spec 0 (Milliseconds ttl)); [|by ret; auto].
  eapply (wp_pexpire one_le (SSess (ID s))); [done..| |]; [lia|]. intros d2 S2. ret. auto.
Qed.

Lemma refines_PutKey k id ttl : refines (StoreApi.PutKey k id ttl).
Proof.
  intros tok L d m R [P Hk]. pose proof (repr_rows _ _ _ _ R) as S.
  cbn [request]. unfold Redis.PutKey, putKeyScript. apply wp_bind.
  eapply (wp_checked _ _ _ _ [SSess id; SKey k; SKeys id]); [|done|].
  { repeat apply Forall_cons_2; done || apply Forall_nil_2. }
  eapply (wp_exists (SSess id)); [done..|]. cbn [exec memory_store]. unfold Memory.PutKey.
  destruct (content_sess m L id) as [(s & E & Ec)|[E Ec]]; rewrite E, Ec; simpl; [|by ret].
  eapply (wp_pttl (SSess id)); [done..|]. intros t Ht Ht0. rewrite Ec in Ht0.
  destruct (Z.eqb_spec t 0); [destruct Ht0; lia || done|].
  apply wp_bind. eapply (wp_set_with one_le (SKey k)); [done..|]. intros d1 S1.
  eapply (wp_sadd (SKeys id)); [done..| |].
  { rewrite upd_ne by done. apply content_keys. }
  intros d2 S2. set (W := upd (SKeys id) _ _) in S2.
  assert (F : forall d', st (clock d) d' W -> repr prefix L d' (set_keys (<[k := id]> (keys m)) m)).
  { intros d' S'. eapply repr_step; [done..| |by auto|].
    - intros sl _. apply content_set_keys.
      + intros [] ; done.
      + intros k'. unfold W. rewrite upd_ne by done. unfold upd. simpl. rewrite lookup_insert.
        repeat case_decide; by simplify_eq.
      + intros i. rewrite keys_of_insert by done. unfold W, upd.
        destruct (decide (id = i)) as [->|]; [by rewrite decide_True|].
        by rewrite !decide_False by congruence.
    - intros k' i. simpl. rewrite lookup_insert. case_decide; [intros [= <-]; auto|auto]. }
  unfold when. destruct (Z.ltb_spec 0 t); [|by ret; auto].
  eapply (wp_pexpire one_le (SKeys id)); [done..| |]; [lia|]. intros d3 S3. ret. auto.
Qed.

(** A key replaced by a fresh one of the same session. *)
Lemma keys_of_replace ks ok nk id : ks !! ok = Some id -> ks !! nk = None -> forall i,
  keys_of (delete ok (<[nk := id]> ks)) i
  = if decide (id = i) then {[nk]} ∪ keys_of ks i ∖ {[ok]} else keys_of ks i.
Proof.
  intros Ho Hn i. rewrite (keys_of_delete _ ok id).
  2:{ rewrite lookup_insert. case_decide; congruence. }
  rewrite keys_of_insert by auto. case_decide; [|done]. subst. apply set_eq. intros x.
  rewrite elem_of_difference, !elem_of_union, elem_of_difference, !elem_of_singleton. naive_solver.
Qed.

(** The rows after such a replacement. *)
Definition replaced (m : Memory) (L : string -> option value) (ok nk id : string) : holds :=
  upd (SKeys id) (vset ({[nk]} ∪ keys_of (keys m) id ∖ {[ok]}))
    (upd (SKey ok) None (upd (SKey nk) (Some (VString id)) (content m L))).

Lemma content_replaced m L ok nk id :
  keys m !! ok = Some id -> keys m !! nk = None ->
  forall sl, replaced m L ok nk id sl = content (set_keys (delete ok (<[nk := id]> (keys m))) m) L sl.
Proof.
  intros Ho Hn. apply content_set_keys; unfold replaced, upd.
  - by intros [].
  - intros k. simpl. rewrite lookup_delete, lookup_insert. repeat case_decide; by simplify_eq.
  - intros i. rewrite (keys_of_replace _ ok nk id) by done.
    destruct (decide (id = i)) as [->|]; [by rewrite decide_True|].
    by rewrite !decide_False by congruence.
Qed.

(** [DEL] of the old key and the two changes of the reverse index, common to
    [ReplaceKey] and to a rotation. *)
Lemma wp_reindex {A} c d W ok nk id x (p : script A) Q :
  plain id -> st c d W -> setted (W (SKeys id)) x ->
  (forall d', st c d' (upd (SKeys id) (vset ({[nk]} ∪ x ∖ {[ok]})) (upd (SKey ok) None W)) -> wp p d' Q) ->
  wp (Call (DEL [keyKey prefix ok]) (fun _ => Call (SREM (keysKey prefix id) ok) (fun _ =>
        Call (SADD (keysKey prefix id) nk) (fun _ => p)))) d Q.
Proof.
  intros P S E H. eapply (wp_del [SKey ok]); [by apply Forall_singleton|done|]. intros d1 S1.
  eapply (wp_srem (SKeys id)); [done..| |].
  { simpl. rewrite upd_ne by done. exact E. }
  intros d2 S2. eapply (wp_sadd (SKeys id)); [done..| |].
  { rewrite upd_eq. apply setted_vset. }
  intros d3 S3. apply H. eapply state_ext; [|exact S3]. intros sl _. simpl. unfold upd.
  by case_decide.
Qed.

Lemma refines_ReplaceKey ok nk id ttl : refines (StoreApi.ReplaceKey ok nk id ttl).
Proof.
  intros tok L d m R P. pose proof (repr_rows _ _ _ _ R) as S.
  cbn [request]. unfold Redis.ReplaceKey, replaceKeyScript. apply wp_bind.
  eapply (wp_checked _ _ _ _ [SSess id; SKey ok; SKey nk; SKeys id]); [|done|].
  { repeat apply Forall_cons_2; done || apply Forall_nil_2. }
  eapply (wp_exists (SSess id)); [done..|]. cbn [exec memory_store]. unfold Memory.ReplaceKey.
  destruct (content_sess m L id) as [(s & E & Ec)|[E Ec]]; rewrite E, Ec; simpl; [|by ret].
  eapply (wp_get (SKey ok)); [done..|reflexivity|]. unfold at_. simpl.
  destruct (decide (keys m !! ok <> Some id)) as [|Ho]; [by ret|]. apply dec_stable in Ho.
  eapply (wp_exists (SKey nk)); [done..|]. simpl.
  destruct (keys m !! nk) as [i|] eqn:En; simpl; [by ret|].
  eapply (wp_pttl (SSess id)); [done..|]. intros t Ht Ht0. rewrite Ec in Ht0.
  destruct (Z.eqb_spec t 0); [destruct Ht0; lia || done|].
  apply wp_bind. eapply (wp_set_with one_le (SKey nk)); [done..|]. intros d1 S1.
  eapply wp_reindex; [done..| |].
  { rewrite upd_ne by done. apply content_keys. }
  intros d2 S2.
  assert (F : forall d', st (clock d) d' (replaced m L ok nk id) ->
    repr prefix L d' (set_keys (delete ok (<[nk := id]> (keys m))) m)).
  { intros d' S'. eapply repr_step; [done..|by intros sl _; apply content_replaced|by auto|].
    intros k i. simpl. rewrite lookup_delete, lookup_insert.
    repeat case_decide; try done; [by intros [= <-]; right|auto]. }
  destruct (Z.ltb_spec 0 t); [|by ret; auto].
  eapply (wp_pexpire one_le (SKeys id)); [done..| |]; [lia|]. intros d3 S3. ret. auto.
Qed.

Lemma refines_DeleteKey k : refines (StoreApi.DeleteKey k).
Proof.
  intros tok L d m R _. pose proof (repr_rows _ _ _ _ R) as S.
  cbn [request]. unfold Redis.DeleteKey, deleteKeyScript. apply wp_bind.
  eapply (wp_type (SKey k)); [done..|]. cbn [content exec memory_store]. unfold Memory.DeleteKey.
  destruct (keys m !! k) as [id|] eqn:E; simpl.
  2:{ ret. split; [done|]. rewrite delete_id by done. by destruct m. }
  eapply (wp_get (SKey k)) with (v := Some id); [done..|by simpl; rewrite E|]. unfold at_. simpl. rewrite <-sapp_assoc.
  pose proof (repr_keys _ _ _ _ R _ _ E) as P.
  eapply (wp_checked1 _ _ _ _ (SKeys id)); [done..|].
  eapply (wp_del [SKey k]); [by apply Forall_singleton|done|]. intros d1 S1.
  eapply (wp_srem (SKeys id)); [done..| |].
  { simpl. rewrite upd_ne by done. apply content_keys. }
  intros d2 S2. ret. split; [done|]. eapply repr_step; [done..| |by auto|].
  - intros sl _. apply content_set_keys; unfold upd; simpl; unfold upd.
    + by intros [].
    + intros k'. simpl. rewrite lookup_delete. repeat case_decide; by simplify_eq.
    + intros i. rewrite (keys_of_delete _ k id) by done. simpl.
      destruct (decide (id = i)) as [->|]; [by rewrite decide_True|].
      by rewrite !decide_False by congruence.
  - intros k' i. simpl. rewrite lookup_delete. case_decide; [done|auto].
Qed.

(** ** Removing a session *)

Definition removed (id : string) (m : Memory) : Memory :=
  MkMemory (delete id (sessions m)) (drop_keys id (keys m)) (delete id (cookies m))
    (delete id (shas m)) (owners m) (locks m).

Lemma keys_of_drop id ks i :
  keys_of (drop_keys id ks) i = if decide (id = i) then ∅ else keys_of ks i.
Proof.
  apply set_eq. intros k. rewrite elem_of_keys_of, lookup_drop_keys.
  case_decide; subst; rewrite ?elem_of_keys_of; set_solver.
Qed.

Lemma content_removed m L id sl :
  foldl (fun W sl => upd sl None W)
    (without (elements (keys_of (keys m) id)) (content m L)) [SSess id; SAttr id; SSha id; SKeys id] sl
  = content (removed id m) L sl.
Proof.
  cbn [foldl]. unfold upd. destruct sl as [i|i|i|i|k|o|i]; cbn [content removed without sessions keys cookies shas owners].
  1-4: destruct (decide (id = i)) as [->|Hne];
    [rewrite ?lookup_delete_eq, ?keys_of_drop, ?(decide_True (P := i = i)) by done
    |rewrite ?lookup_delete_ne, ?keys_of_drop, ?(decide_False (P := id = i)) by done];
    repeat (case_decide; simplify_eq); try done; try (unfold vhash, vset; by rewrite decide_True).
  2-3: by rewrite !decide_False by done.
  rewrite !decide_False by done.
  destruct (drop_keys id (keys m) !! k) as [i|] eqn:E.
  - apply lookup_drop_keys in E as [E Hne]. rewrite decide_False, E; [done|].
    rewrite elem_of_elements, elem_of_keys_of. congruence.
  - destruct (keys m !! k) as [i|] eqn:Ek; [|by case_decide].
    destruct (decide (i = id)) as [->|Hne].
    + rewrite decide_True; [done|]. by rewrite elem_of_elements, elem_of_keys_of.
    + assert (drop_keys id (keys m) !! k = Some i) by (by apply lookup_drop_keys). congruence.
Qed.

Lemma FormatInt_zero z : int64 z -> FormatInt z = "0" -> z = 0.
Proof. intros H E. apply FormatInt_inj; [done|unfold int64; lia|]. by rewrite E. Qed.

(** A session that goes, perhaps with an entry of an owner's index. *)
Lemma repr_removed d m L id d' :
  repr prefix L d m -> st (clock d) d' (content (removed id m) L) -> repr prefix L d' (removed id m).
Proof.
  intros R S. eapply repr_step; [done..| |]; simpl.
  - intros sid s. rewrite lookup_delete_Some. tauto.
  - intros k sid H. apply lookup_drop_keys in H as [H _]. auto.
Qed.

Lemma repr_owner_del d m L o id d' :
  int64 o -> repr prefix L d m ->
  st (clock d) d' (upd (SOwner (FormatInt o)) (vset (members (owners m) o ∖ {[id]})) (content m L)) ->
  repr prefix L d' (set_owners (owner_del o id (owners m)) m).
Proof.
  intros Ho R S. eapply repr_step; [done..| | |]; [|simpl; auto..]. intros sl _.
  rewrite <-(content_set_owner m L (owner_del o id (owners m)) o); [|done|].
  - by rewrite members_del, decide_True.
  - intros z Hz. by rewrite members_del, decide_False by congruence.
Qed.

(** The loop over the reverse index and the [DEL] of the rows. *)
Lemma wp_remove {A} d m L id (p : script A) Q :
  plain id -> st (clock d) d (content m L) ->
  (forall d', st (clock d) d' (content (removed id m) L) -> wp p d' Q) ->
  wp (sbind (delete_keys (prefix +:+ "key:") (elements (keys_of (keys m) id))) (fun _ =>
        Call (DEL [sessKey prefix id; attrKey prefix id; shaKey prefix id; keysKey prefix id])
          (fun _ => p))) d Q.
Proof.
  intros P S H. apply wp_bind. eapply wp_mono; [by apply (wp_delete_keys _ S)|].
  intros r d1 [-> S1].
  eapply (wp_del [SSess id; SAttr id; SSha id; SKeys id]); [|done|].
  { repeat apply Forall_cons_2; done || apply Forall_nil_2. }
  intros d2 S2. apply H. eapply state_ext; [|exact S2]. intros sl _. apply content_removed.
Qed.

Lemma content_hashed m L id : hashed (content m L (SSess id)) (from_option encode ∅ (sessions m !! id)).
Proof. unfold hashed. simpl. destruct (sessions m !! id); simpl; auto. Qed.

Lemma refines_DeleteSession id : refines (StoreApi.DeleteSession id).
Proof.
  intros tok L d m R P. pose proof (repr_rows _ _ _ _ R) as S.
  cbn [request]. unfold Redis.DeleteSession, deleteSessionScript. apply wp_bind.
  eapply (wp_checked _ _ _ _ [SSess id; SAttr id; SSha id; SKeys id]); [|done|].
  { repeat apply Forall_cons_2; done || apply Forall_nil_2. }
  eapply (wp_hget (SSess id)); [done..|apply content_hashed|].
  cbn [exec memory_store]. unfold Memory.DeleteSession.
  destruct (sessions m !! id) as [s|] eqn:E; cbn [from_option].
  - destruct (encode_lookup s) as (_ & _ & _ & _ & -> & _). args.
    destruct (repr_id _ _ _ _ R _ _ E) as (Hid & _ & Hs). pose proof (small_owner _ Hs) as Ho.
    destruct (decide (OwnerID s = 0)) as [E0|Hne].
    + rewrite E0. change (FormatInt 0) with "0". rewrite bool_decide_eq_true_2 by done. simpl.
      eapply (wp_smembers (SKeys id)); [done..|apply content_keys|].
      eapply wp_remove; [done..|]. intros d1 S1. ret. split; [done|]. by eapply repr_removed.
    + rewrite bool_decide_eq_false_2 by (intros ?%FormatInt_zero; done). apply wp_when. simpl.
      eapply (wp_checked1 _ _ _ _ (SOwner (FormatInt (OwnerID s)))); [done..|].
      eapply (wp_smembers (SKeys id)); [done..|apply content_keys|].
      eapply wp_remove; [done..|]. intros d1 S1.
      eapply (wp_srem (SOwner (FormatInt (OwnerID s)))); [done..|by apply content_owner|].
      intros d2 S2. ret. split; [done|].
      apply (repr_owner_del d1 (removed id m) L); [done|by eapply repr_removed|].
      by rewrite (st_clock S1).
  - rewrite lookup_empty. simpl.
    eapply (wp_smembers (SKeys id)); [done..|apply content_keys|].
    eapply wp_remove; [done..|]. intros d1 S1. ret. split; [done|]. by eapply repr_removed.
Qed.

Lemma refines_DeleteSessionByOwner o id : refines (StoreApi.DeleteSessionByOwner o id).
Proof.
  intros tok L d m R (P & Ho & Hz). pose proof (repr_rows _ _ _ _ R) as S.
  cbn [request]. unfold Redis.DeleteSessionByOwner, deleteSessionByOwnerScript. apply wp_bind.
  eapply (wp_checked _ _ _ _ [SSess id; SOwner (FormatInt o); SAttr id; SSha id; SKeys id]); [|done|].
  { repeat apply Forall_cons_2; done || apply Forall_nil_2. }
  eapply (wp_hget (SSess id)); [done..|apply content_hashed|].
  cbn [exec memory_store]. unfold Memory.DeleteSessionByOwner. cbn [sessions set_owners].
  destruct (sessions m !! id) as [s|] eqn:E; cbn [from_option].
  - destruct (encode_lookup s) as (_ & _ & _ & _ & -> & _). args.
    destruct (repr_id _ _ _ _ R _ _ E) as (Hid & _ & Hs). pose proof (small_owner _ Hs) as Ho'.
    args.
    destruct (decide (OwnerID s = o)) as [->|Hne].
    + rewrite decide_False by auto.
      eapply (wp_smembers (SKeys id)); [done..|apply content_keys|].
      eapply wp_remove; [done..|]. intros d1 S1.
      eapply (wp_srem (SOwner (FormatInt o))); [done..|by apply content_owner|].
      intros d2 S2. ret. split; [done|].
      apply (repr_owner_del d1 (removed id m) L); [done|by eapply repr_removed|].
      by rewrite (st_clock S1).
    + rewrite decide_True by (intros ?%FormatInt_inj; done).
      eapply (wp_srem (SOwner (FormatInt o))); [done..|by apply content_owner|].
      intros d2 S2. ret. split; [done|]. by eapply repr_owner_del.
  - rewrite lookup_empty. args.
    rewrite decide_True.
    2:{ intros E0. destruct Hz as [Hz|[? Hz]]; [|done]. by apply Hz, FormatInt_zero. }
    eapply (wp_srem (SOwner (FormatInt o))); [done..|by apply content_owner|].
    intros d2 S2. ret. split; [done|]. by eapply repr_owner_del.
Qed.
End Refine.
