(* ===== verification/RedisControls.v ===== *)
(** * The Redis scripts that update a live session

    [TouchSession], [ReassignOwner] and [ApplySessionControls] do what the
    in-memory store does; with the methods of [RedisRefine], every call and so
    every program gets the same answers from both stores. *)

From stdpp Require Import base gmap strings list.
From Stdlib Require Import ZArith Lia Ascii.
From S2P Require Import Prelude GoStrings GoStrconv Crypto GoTime StoreApi Memory MemoryProps.
From S2P Require Import RedisApi RedisStore RedisProps RedisRefine.
Import Memory MemoryProps Redis.
Local Open Scope Z_scope.

Section Controls.
Context (prefix : string).
Notation st c := (state prefix 1 c).
Notation key := (name prefix).

(** The session's row is [s], everything else as in [W]. *)
Definition with_row (id : string) (s : Session) (W : holds) : holds :=
  upd (SSess id) (Some (VHash (encode s))) W.

Lemma with_row_hashed id s W : hashed (with_row id s W (SSess id)) (encode s).
Proof. left. apply upd_eq. Qed.

Lemma with_row_twice id s s' W sl : with_row id s' (with_row id s W) sl = with_row id s' W sl.
Proof. unfold with_row, upd. by case_decide. Qed.

Lemma with_row_content m L id s sl :
  sessions m !! id = Some s -> with_row id s (content m L) sl = content m L sl.
Proof. intros E. unfold with_row, upd. case_decide; [subst; simpl; by rewrite E|done]. Qed.

Lemma wp_row {A} c d id s s' W fvs (k : unit -> script A) Q :
  plain id -> st c d (with_row id s W) -> hset fvs (encode s) = encode s' ->
  (forall d', st c d' (with_row id s' W) -> wp (k tt) d' Q) ->
  wp (Call (HSET (sessKey prefix id) fvs) k) d Q.
Proof.
  intros P S E H. eapply (wp_hset (SSess id)); [done..|apply with_row_hashed|].
  intros d' S'. apply H. eapply state_ext; [|exact S']. intros sl _.
  rewrite E, vhash_encode. apply with_row_twice.
Qed.

(** A field set under a condition. *)
Lemma wp_row_when {A} c d id s s' W (b : bool) fvs (k : unit -> script A) Q :
  plain id -> st c d (with_row id s W) ->
  (if b then hset fvs (encode s) = encode s' else s' = s) ->
  (forall d', st c d' (with_row id s' W) -> wp (k tt) d' Q) ->
  wp (sbind (when b (cmd (HSET (sessKey prefix id) fvs))) k) d Q.
Proof.
  intros P S E H. destruct b; simpl; [by eapply wp_row|]. subst. by apply H.
Qed.

Lemma repr_row d m L id s s' d' :
  repr prefix L d m -> sessions m !! id = Some s -> ID s' = id -> small_row s' ->
  st (clock d) d' (with_row id s' (content m L)) ->
  repr prefix L d' (set_sessions (<[id := s']> (sessions m)) m).
Proof.
  intros R E Ei Hs S. destruct (repr_id _ _ _ _ R _ _ E) as (_ & P & _).
  eapply repr_step; [done..|intros sl _; apply content_set_session| |by auto].
  intros sid s0. simpl. rewrite lookup_insert. case_decide; [intros [= <-]; subst; auto|auto].
Qed.

Lemma small_with_access v s : small_row s -> small v -> small_row (with_LastAccess v s).
Proof. intros [] ?. by constructor. Qed.
Lemma small_with_rotation v s : small_row s -> small v -> small_row (with_LastRotation v s).
Proof. intros [] ?. by constructor. Qed.
Lemma small_with_owner v s : small_row s -> int64 v -> small_row (with_OwnerID v s).
Proof. intros [] ?. by constructor. Qed.
Lemma small_with_labels v s : small_row s -> small_row (with_Labels v s).
Proof. intros []. by constructor. Qed.

Lemma field_rotation s : small_row s -> field (encode s !! "last_rotation") = LastRotation s.
Proof.
  intros Hs. destruct (encode_lookup s) as (_ & _ & _ & _ & _ & -> & _).
  apply field_encode, small_rotation, Hs.
Qed.

Lemma small_number z : small z -> number (FormatInt z) = z.
Proof. intros H. apply number_int. unfold small in H. lia. Qed.

Lemma refines_TouchSession id k la lr ttl : refines prefix (StoreApi.TouchSession id k la lr ttl).
Proof.
  intros tok L d m R (P & Hla & Hlr & Ht & Hin). pose proof (repr_rows _ _ _ _ R) as S.
  pose proof (Milliseconds_bound _ Ht).
  cbn [request]. unfold Redis.TouchSession, touchSessionScript. apply wp_bind.
  eapply (wp_checked _ _ _ _ _ [SSess id; SKey k; SAttr id; SSha id; SKeys id]); [|done|].
  { repeat apply Forall_cons_2; done || apply Forall_nil_2. }
  eapply (wp_exists (SSess id)); [done..|]. cbn [exec memory_store]. unfold Memory.TouchSession.
  destruct (content_sess m L id) as [(s & E & Ec)|[E Ec]]; rewrite E, Ec; branch; [|by ret].
  eapply (wp_get (SKey k)); [done..|reflexivity|]. args.
  destruct (decide (keys m !! k = Some id)) as [Hk|Hk]; [|by rewrite decide_True by done; ret].
  rewrite decide_False by auto.
  destruct (repr_id _ _ _ _ R _ _ E) as (Hid & _ & Hs). specialize (Hin s E).
  apply wp_bind. eapply wp_mono.
  { eapply (wp_deadline_ttl _ _ d _ id s la (Milliseconds ttl)); try done. apply R. }
  intros r d0 [-> ->]. set (t := session_ttl _ _ _ _) in *.
  pose proof (session_ttl_le (now_ms d) s la (Milliseconds ttl)) as Hle. fold t in Hle.
  rewrite (proj2 (Z.leb_gt _ _)) by lia.
  set (s1 := if LastAccess s <? la then with_LastAccess la s else s).
  assert (Hs1 : small_row s1) by (unfold s1; case_match; auto using small_with_access).
  apply wp_bind.
  eapply wp_mono with (Q := fun r d1 => r = Ok tt /\ st (clock d) d1 (with_row id s1 (content m L))).
  { assert (S0 : st (clock d) d (with_row id s (content m L))).
    { eapply state_ext; [|exact S]. intros sl _. by rewrite with_row_content. }
    unfold when, s1. destruct (LastAccess s <? la); [|by ret].
    eapply wp_row; [done..|apply encode_access|]. intros d1 S1.
    eapply wp_mono; [eapply (wp_expire_all one_le [SSess id; SKey k; SAttr id; SSha id; SKeys id])|]; [|done|lia|].
    { repeat apply Forall_cons_2; done || apply Forall_nil_2. }
    by intros r d2 [-> S2]. }
  intros r d1 [-> S1].
  eapply (wp_hget (SSess id)); [done..|apply with_row_hashed|].
  destruct (encode_lookup s1) as (_ & _ & _ & _ & _ & -> & _).
  set (s2 := if LastRotation s1 =? 0 then with_LastRotation lr s1 else s1).
  eapply (wp_row_when _ _ _ s1 s2); [done..| |].
  { pose proof (small_rotation _ Hs1) as Hr. unfold small in Hr.
    rewrite tonumber_int by lia. unfold s2. destruct (Z.eqb_spec (LastRotation s1) 0) as [->|].
    - rewrite bool_decide_eq_true_2 by done. apply encode_rotation.
    - by rewrite bool_decide_eq_false_2 by congruence. }
  intros d2 S2. ret. split; [done|]. eapply repr_row; [done..| | |done].
  - unfold s2, s1. by repeat case_match.
  - unfold s2. case_match; auto using small_with_rotation.
Qed.

(** ** Blocks that work beside an updated row *)

Lemma with_row_ext id s W W' sl :
  (forall sl', sl' <> SSess id -> W sl' = W' sl') -> with_row id s W sl = with_row id s W' sl.
Proof. intros H. unfold with_row, upd. case_decide as E; [done|]. apply H. congruence. Qed.

Lemma wp_owner_add {A} c d m L id s o x (k : unit -> script A) Q :
  int64 o -> st c d (with_row id s (content m L)) ->
  (forall d', st c d' (with_row id s (content (set_owners (owner_add o x (owners m)) m) L)) ->
     wp (k tt) d' Q) ->
  wp (Call (SADD (ownerKey prefix o) x) k) d Q.
Proof.
  intros Ho S H. eapply (wp_sadd (SOwner (FormatInt o))); [done..| |].
  { unfold with_row. rewrite upd_ne by done. by apply content_owner. }
  intros d' S'. apply H. eapply state_ext; [|exact S']. intros sl _. unfold with_row, upd.
  rewrite <-(content_set_owner m L (owner_add o x (owners m)) o); [|done|].
  - replace (members (owner_add o x (owners m)) o) with ({[x]} ∪ members (owners m) o)
      by (by rewrite members_add, decide_True).
    unfold upd. repeat case_decide; simplify_eq; done.
  - intros z Hz. by rewrite members_add, decide_False by congruence.
Qed.

Lemma wp_owner_del {A} c d m L id s o x (k : unit -> script A) Q :
  int64 o -> st c d (with_row id s (content m L)) ->
  (forall d', st c d' (with_row id s (content (set_owners (owner_del o x (owners m)) m) L)) ->
     wp (k tt) d' Q) ->
  wp (Call (SREM (ownerKey prefix o) x) k) d Q.
Proof.
  intros Ho S H. eapply (wp_srem (SOwner (FormatInt o))); [done..| |].
  { unfold with_row. rewrite upd_ne by done. by apply content_owner. }
  intros d' S'. apply H. eapply state_ext; [|exact S']. intros sl _. unfold with_row, upd.
  rewrite <-(content_set_owner m L (owner_del o x (owners m)) o); [|done|].
  - replace (members (owner_del o x (owners m)) o) with (members (owners m) o ∖ {[x]})
      by (by rewrite members_del, decide_True).
    unfold upd. repeat case_decide; simplify_eq; done.
  - intros z Hz. by rewrite members_del, decide_False by congruence.
Qed.

Lemma wp_expire_when {A} c d W sl ms (k : unit -> script A) Q :
  plain_slot sl -> st c d W -> Z.abs ms <= 2 ^ 44 ->
  (forall d', st c d' W -> wp (k tt) d' Q) ->
  wp (sbind (when (0 <? number (FormatInt ms)) (cmd (PEXPIRE (key sl) (FormatInt ms)))) k) d Q.
Proof.
  intros P S B H. rewrite number_int by lia. destruct (Z.ltb_spec 0 ms); simpl; [|by apply H].
  eapply (wp_pexpire one_le sl); [done..| |done]. lia.
Qed.

(** Two stores with the same rows, keys, owner sets and cookies look the same. *)
Lemma content_eq m m' L sl :
  sessions m = sessions m' -> keys m = keys m' ->
  (forall z, members (owners m) z = members (owners m') z) ->
  (forall i, default ∅ (cookies m !! i) = default ∅ (cookies m' !! i)) ->
  (forall i, default ∅ (shas m !! i) = default ∅ (shas m' !! i)) ->
  content m L sl = content m' L sl.
Proof.
  intros E1 E2 E3 E4 E5. destruct sl; simpl; rewrite ?E1, ?E2, ?E4, ?E5; try done.
  unfold named_members. destruct (ParseInt o); [|done]. case_decide; by rewrite ?E3.
Qed.

(** The comparisons of owners that the script makes on decimal strings. *)
Lemma moved_test o o' :
  int64 o -> int64 o' -> 0 <= o ->
  negb (bool_decide (FormatInt o = "0")) && negb (bool_decide (FormatInt o = FormatInt o'))
  = bool_decide (0 < o /\ o <> o').
Proof.
  intros Ho Ho' Hpos. destruct (bool_decide_reflect (FormatInt o = "0")) as [E0|E0].
  - apply FormatInt_zero in E0; [|done]. symmetry. apply bool_decide_eq_false. lia.
  - assert (o <> 0) by (intros ->; by apply E0).
    destruct (bool_decide_reflect (FormatInt o = FormatInt o')) as [E1|E1].
    + apply FormatInt_inj in E1; [|done..]. symmetry. apply bool_decide_eq_false. lia.
    + symmetry. apply bool_decide_eq_true. split; [lia|]. congruence.
Qed.

Lemma wp_require_owner {A} d m L b o (p : script A) Q :
  st (clock d) d (content m L) -> int64 o -> wp p d Q ->
  wp (sbind (when b (require_type (ownerKey prefix o) "set")) (fun _ => p)) d Q.
Proof.
  intros S Ho Hp. destruct b; simpl; [|done]. by eapply (wp_checked1 _ _ _ _ _ (SOwner (FormatInt o))).
Qed.

(** The row and the owner index after a reassignment. *)
Lemma reassigned_repr d d' m L id s3 ow :
  repr prefix L d m -> st (clock d) d (content m L) -> plain id -> ID s3 = id -> small_row s3 ->
  st (clock d) d' (with_row id s3 (content (set_owners ow m) L)) ->
  repr prefix L d' (set_owners ow (set_sessions (<[id := s3]> (sessions m)) m)).
Proof.
  intros R S P Hid Hs S'. eapply repr_step; [done..|intros sl _; apply content_set_session| |by auto].
  intros sid s'. simpl. rewrite lookup_insert. case_decide; [intros [= <-]|by auto].
  right. subst. by split_and!.
Qed.

Lemma refines_ReassignOwner s ttl ottl : refines prefix (StoreApi.ReassignOwner s ttl ottl).
Proof.
  intros tok L d m R (P & Hla & Hlr & Ho & Ht & Hot & Hin & Hprev).
  pose proof (repr_rows _ _ _ _ R) as S. set (id := ID s) in *.
  pose proof (Milliseconds_bound _ Ht). pose proof (Milliseconds_bound _ Hot).
  cbn [request]. unfold Redis.ReassignOwner, reassignOwnerScript. apply wp_bind. fold id.
  eapply (wp_checked _ _ _ _ _ [SSess id; SOwner (FormatInt (OwnerID s))]); [|done|].
  { repeat apply Forall_cons_2; done || apply Forall_nil_2. }
  eapply (wp_exists (SSess id)); [done..|]. cbn [exec memory_store]. unfold Memory.ReassignOwner. fold id.
  destruct (content_sess m L id) as [(s0 & E & Ec)|[E Ec]]; rewrite E, Ec; branch; [|by ret].
  eapply (wp_hget (SSess id)); [done..|by left|].
  destruct (encode_lookup s0) as (_ & _ & _ & _ & -> & _ & _). args.
  destruct (repr_id _ _ _ _ R _ _ E) as (Hid & _ & Hs). specialize (Hin s0 E). specialize (Hprev s0 E).
  pose proof (small_owner _ Hs) as Ho0.
  apply wp_bind. eapply wp_mono.
  { eapply (wp_deadline_ttl _ _ d _ id s0 (LastAccess s) (Milliseconds ttl)); try done. apply R. }
  intros r d0 [-> ->]. set (t := session_ttl _ _ _ _) in *.
  pose proof (session_ttl_le (now_ms d) s0 (LastAccess s) (Milliseconds ttl)) as Hle. fold t in Hle.
  rewrite (proj2 (Z.leb_gt _ _)) by lia.
  rewrite moved_test by done. eapply wp_require_owner; [done..|].
  assert (S0 : st (clock d) d (with_row id s0 (content m L))).
  { eapply state_ext; [|exact S]. intros sl _. by rewrite with_row_content. }
  eapply wp_row; [done..|apply encode_owner|]. intros d1 S1.
  eapply (wp_pexpire one_le (SSess id)); [done..| |]; [lia|]. intros d2 S2.
  set (s1 := with_OwnerID (OwnerID s) s0) in *.
  set (s2 := if LastAccess s1 <? LastAccess s then with_LastAccess (LastAccess s) s1 else s1).
  assert (Hs2 : small_row s2).
  { unfold s2, s1. case_match; auto using small_with_access, small_with_owner. }
  eapply (wp_row_when _ _ _ s1 s2); [done..| |].
  { unfold s2. change (LastAccess s1) with (LastAccess s0). case_match; [apply encode_access|done]. }
  intros d3 S3. eapply (wp_hget (SSess id)); [done..|apply with_row_hashed|].
  rewrite field_rotation, (small_number (LastRotation s)) by done.
  set (s3 := if LastRotation s2 <? LastRotation s then with_LastRotation (LastRotation s) s2 else s2).
  eapply (wp_row_when _ _ _ s2 s3); [done..| |].
  { unfold s3. case_match; [apply encode_rotation|done]. }
  intros d4 S4. eapply wp_owner_add; [done..|]. intros d5 S5.
  eapply (wp_expire_when _ _ _ (SOwner (FormatInt (OwnerID s)))); [done..|]. intros d6 S6.
  set (ow := if decide (0 < OwnerID s0 /\ OwnerID s0 <> OwnerID s)
             then owner_del (OwnerID s0) id (owners m) else owners m).
  pose proof (fun d' => reassigned_repr d d' m L id s3 (owner_add (OwnerID s) id ow) R S P) as F.
  specialize (fun d' => F d' ltac:(unfold s3, s2; by repeat case_match)
    ltac:(unfold s3; case_match; auto using small_with_rotation)).
  unfold ow in F. destruct (decide (0 < OwnerID s0 /\ OwnerID s0 <> OwnerID s)) as [Hd|Hd].
  - rewrite bool_decide_eq_true_2 by done. simpl.
    eapply wp_owner_del; [done..|]. intros d7 S7. ret. split; [done|]. apply F.
    eapply state_ext; [|exact S7]. intros sl _. apply with_row_ext. intros sl' _.
    apply content_eq; try done. intros z. simpl. rewrite members_add, !members_del, members_add.
    repeat case_decide; subst; try done. by destruct Hd.
  - rewrite bool_decide_eq_false_2 by done. ret. split; [done|]. by apply F.
Qed.

(** ** ApplySessionControls *)

Definition change_cookie (f : CookieMutation -> string) (h : gmap string string) (c : CookieMutation) :
    gmap string string :=
  if cm_Delete c then delete (cm_Name c) h else <[cm_Name c := f c]> h.

Lemma change_cookie_eq f h c :
  change_cookie f h c = if cm_Delete c then delete (cm_Name c) h else <[cm_Name c := f c]> h.
Proof. done. Qed.

Lemma wp_cookies {A} c d W id cs h h' (k : unit -> script A) Q :
  plain id -> st c d W -> W (SAttr id) = vhash h -> W (SSha id) = vhash h' ->
  (forall d', st c d' (upd (SSha id) (vhash (foldl (change_cookie cm_SHA) h' cs))
      (upd (SAttr id) (vhash (foldl (change_cookie cm_Value) h cs)) W)) -> wp (k tt) d' Q) ->
  wp (sbind (cookie_script (attrKey prefix id) (shaKey prefix id) cs) k) d Q.
Proof.
  intros P. revert d W h h'; induction cs as [|m cs IH]; intros d W h h' S Eh Eh' H.
  { apply H. eapply state_ext; [|exact S]. intros sl _. unfold upd. by repeat case_decide; subst. }
  assert (Hh : hashed (W (SAttr id)) h) by (rewrite Eh; apply hashed_vhash).
  assert (Hh' : forall v, hashed (upd (SAttr id) v W (SSha id)) h').
  { intros v. rewrite upd_ne, Eh' by done. apply hashed_vhash. }
  cbn [cookie_script foldl] in *. rewrite !change_cookie_eq in H. destruct (cm_Delete m); cbn [sbind].
  - eapply (wp_hdel (SAttr id)); [done..|]. intros d1 S1.
    eapply (wp_hdel (SSha id)); [done..|apply Hh'|]. intros d2 S2.
    eapply IH; [done|by rewrite upd_ne, upd_eq by done|by rewrite upd_eq|]. intros d3 S3. apply H.
    eapply state_ext; [|exact S3]. intros sl _. unfold upd. by repeat case_decide.
  - eapply (wp_hset (SAttr id)); [done..|]. intros d1 S1.
    eapply (wp_hset (SSha id)); [done..|apply Hh'|]. intros d2 S2.
    eapply IH; [done|by rewrite upd_ne, upd_eq by done|by rewrite upd_eq|]. intros d3 S3. apply H.
    eapply state_ext; [|exact S3]. intros sl _. unfold upd. by repeat case_decide.
Qed.

Lemma apply_cookie_maps id cs m i :
  default ∅ (cookies (foldl (apply_cookie id) m cs) !! i)
    = (if decide (id = i) then foldl (change_cookie cm_Value) (default ∅ (cookies m !! id)) cs
       else default ∅ (cookies m !! i))
  /\ default ∅ (shas (foldl (apply_cookie id) m cs) !! i)
    = (if decide (id = i) then foldl (change_cookie cm_SHA) (default ∅ (shas m !! id)) cs
       else default ∅ (shas m !! i)).
Proof.
  revert m; induction cs as [|c cs IH]; intros m; cbn [foldl].
  { by case_decide; subst. }
  destruct (IH (apply_cookie id m c)) as [-> ->]. rewrite !change_cookie_eq.
  unfold apply_cookie, put_inner, del_inner. destruct (cm_Delete c); simpl;
    rewrite ?lookup_insert, ?lookup_alter, ?(decide_True (P := id = id)) by done;
    case_decide; subst; try done.
  by destruct (cookies m !! i), (shas m !! i); simpl; rewrite ?delete_empty.
Qed.

Lemma wp_apply_cookies {A} c d m L id s cs (k : unit -> script A) Q :
  plain id -> st c d (with_row id s (content m L)) ->
  (forall d', st c d' (with_row id s (content (foldl (apply_cookie id) m cs) L)) -> wp (k tt) d' Q) ->
  wp (sbind (cookie_script (attrKey prefix id) (shaKey prefix id) cs) k) d Q.
Proof.
  intros P S H. eapply wp_cookies; [done..| | |].
  { unfold with_row. rewrite upd_ne by done. reflexivity. }
  { unfold with_row. rewrite upd_ne by done. reflexivity. }
  intros d' S'. apply H. eapply state_ext; [|exact S']. intros sl _.
  destruct (apply_cookie_frame id cs m) as (E1 & E2 & E3 & _).
  transitivity (with_row id s (upd (SSha id) (vhash (foldl (change_cookie cm_SHA) (default ∅ (shas m !! id)) cs))
    (upd (SAttr id) (vhash (foldl (change_cookie cm_Value) (default ∅ (cookies m !! id)) cs)) (content m L))) sl).
  { unfold with_row, upd. repeat case_decide; by simplify_eq. }
  apply with_row_ext. intros sl' _.
  apply content_set_cookies; try done; intros i; apply apply_cookie_maps.
Qed.

Lemma wp_rotation {A} cl d m L id s (c : SessionControls) t (k : unit -> script A) Q :
  plain id -> st cl d (with_row id s (content m L)) -> 0 < t <= 2 ^ 61 ->
  keys m !! c_OldKeyID c = Some id -> (c_Rotate c = true -> keys m !! c_NewKeyID c = None) ->
  (forall d', st cl d' (with_row id s (content (set_keys (controlled_keys id c (keys m)) m) L)) ->
     wp (k tt) d' Q) ->
  wp (sbind (when (c_Rotate c) (
    Call (SET (keyKey prefix (c_NewKeyID c)) id (Some (FormatInt t))) (fun _ =>
    Call (DEL [keyKey prefix (c_OldKeyID c)]) (fun _ =>
    Call (SREM (keysKey prefix id) (c_OldKeyID c)) (fun _ =>
    cmd (SADD (keysKey prefix id) (c_NewKeyID c))))))) k) d Q.
Proof.
  intros P S Ht Ho Hn H. unfold controlled_keys in H. destruct (c_Rotate c).
  2:{ apply H. eapply state_ext; [|exact S]. intros sl _. by destruct m. }
  specialize (Hn eq_refl). simpl.
  eapply (wp_set one_le (SKey (c_NewKeyID c)) id (Some t)); [done..|]. intros d1 S1.
  eapply wp_reindex; [done..| |].
  { unfold with_row. rewrite !upd_ne by done. apply content_keys. }
  intros d2 S2. apply H. eapply state_ext; [|exact S2]. intros sl _.
  transitivity (with_row id s (replaced m L (c_OldKeyID c) (c_NewKeyID c) id) sl).
  { unfold with_row, replaced, upd. repeat case_decide; by simplify_eq. }
  apply with_row_ext. intros sl' _. by apply content_replaced.
Qed.

(** The owner tests of the script on decimal names are those on numbers. *)
Lemma owner_tests z z' : int64 z -> int64 z' ->
  bool_decide (FormatInt z = FormatInt z') = bool_decide (z = z')
  /\ bool_decide (FormatInt z = "0") = bool_decide (z = 0).
Proof.
  intros H H'. split; apply bool_decide_ext.
  - split; [by apply FormatInt_inj|by intros ->].
  - split; [by apply FormatInt_zero|by intros ->].
Qed.

Lemma wp_apply_owner {A} cl d m L id s (c : SessionControls) ms (k : unit -> script A) Q :
  plain id -> int64 (OwnerID s) -> int64 (c_OwnerID c) -> Z.abs ms <= 2 ^ 44 ->
  st cl d (with_row id s (content m L)) ->
  (forall d' ow, (forall z, members ow z = members (apply_owner id c s (owners m)).2 z) ->
     st cl d' (with_row id (apply_owner id c s (owners m)).1 (content (set_owners ow m) L)) ->
     wp (k tt) d' Q) ->
  wp (sbind (when (c_SetOwner c && negb (bool_decide (OwnerID s = c_OwnerID c))) (
    Call (HSET (sessKey prefix id) [("owner_id", FormatInt (c_OwnerID c))]) (fun _ =>
    Call (SADD (ownerKey prefix (c_OwnerID c)) id) (fun _ =>
    sbind (when (0 <? number (FormatInt ms)) (cmd (PEXPIRE (ownerKey prefix (c_OwnerID c)) (FormatInt ms))))
      (fun _ => when (negb (bool_decide (OwnerID s = 0)))
                  (cmd (SREM (ownerKey prefix (OwnerID s)) id))))))) k) d Q.
Proof.
  intros P Ho Ho' Hms S H. unfold apply_owner in H.
  replace (negb (bool_decide (OwnerID s = c_OwnerID c)))
    with (bool_decide (c_OwnerID c <> OwnerID s)).
  2:{ rewrite <-bool_decide_not. apply bool_decide_ext. split; congruence. }
  destruct (c_SetOwner c && bool_decide (c_OwnerID c <> OwnerID s)) eqn:Eo.
  2:{ apply (H d (owners m)); [done|]. eapply state_ext; [|exact S]. intros sl _. by destruct m. }
  apply andb_prop in Eo as [_ Hne%bool_decide_eq_true]. cbn [when sbind fst snd] in *.
  eapply wp_row; [done..|apply encode_owner|]. intros d1 S1.
  eapply wp_owner_add; [done..|]. intros d2 S2. apply wp_bind.
  eapply (wp_expire_when _ _ _ (SOwner (FormatInt (c_OwnerID c)))); [done..|]. intros d3 S3.
  destruct (decide (OwnerID s = 0)) as [E0|E0].
  - rewrite bool_decide_eq_true_2 by done. simpl. apply wp_return.
    eapply H; [|exact S3]. done.
  - rewrite bool_decide_eq_false_2 by done. simpl.
    eapply wp_owner_del; [done..|]. intros d4 S4. apply wp_return. eapply H; [|exact S4].
    intros z. simpl. rewrite members_del, !members_add, members_prune, members_del.
    repeat case_decide; subst; try done.
Qed.

(** The two requirements on the owner sets hold. *)
Lemma wp_owner_checks {A} cl d m L o o' (b b' : bool) (p : script A) Q :
  st cl d (content m L) -> wp p d Q ->
  wp (sbind (when b (sbind (require_type (ownerKey prefix o) "set")
        (fun _ => when b' (require_type (ownerKey prefix o') "set")))) (fun _ => p)) d Q.
Proof.
  intros S H. destruct b; [|done]. cbn [when]. apply wp_bind.
  eapply (wp_checked1 _ _ _ _ _ (SOwner (FormatInt o))); [done..|].
  destruct b'; [|by apply wp_return]. cbn [when].
  eapply wp_mono; [by eapply (wp_require_type (SOwner (FormatInt o')))|].
  intros r d' [-> Hr]. destruct r; [done|]. destruct Hr. by apply content_typed.
Qed.

(** Whether the new key of a rotation is in use. *)
Lemma wp_taken cl d m L id c : st cl d (content m L) -> keys m !! c_OldKeyID c = Some id ->
  let newKeyID := if c_Rotate c then c_NewKeyID c else c_OldKeyID c in
  wp (if negb (c_Rotate c) then Return false
      else if decide (c_OldKeyID c = newKeyID) then Return true
      else if decide (keyKey prefix newKeyID = keyKey prefix (c_OldKeyID c)) then Return false
      else Call (EXISTS (keyKey prefix newKeyID)) (fun e => Return (e =? 1))) d
    (fun r d' => d' = d /\ r = Ok (c_Rotate c && bool_decide (is_Some (keys m !! c_NewKeyID c)))).
Proof.
  intros S Ho newKeyID. subst newKeyID. destruct (c_Rotate c); cbn [negb andb]; [|by apply wp_return].
  destruct (decide (c_OldKeyID c = c_NewKeyID c)) as [E|Hne].
  { apply wp_return. split; [done|]. rewrite bool_decide_eq_true_2; [done|]. rewrite <-E, Ho. eauto. }
  rewrite decide_False.
  2:{ intros E. apply (name_inj prefix (SKey _) (SKey _)) in E; [|done..]. congruence. }
  eapply (wp_exists (SKey (c_NewKeyID c))); [done..|]. apply wp_return. split; [done|]. simpl.
  by destruct (keys m !! c_NewKeyID c).
Qed.

Lemma boolArg_true b : bool_decide (boolArg b = "1") = b.
Proof. by destruct b. Qed.

(** The part of the script after the guards, for arguments as the method builds
    them: [s] is the stored row. *)
Definition apply_body (id : string) (c : SessionControls) (s : Session) (ms t : Z) : script Z :=
  let advanced := c_Rotate c || (0 <? Z.of_nat (length (c_Cookies c))) in
  let newer := LastAccess s <? c_LastAccess c in
  sbind (when (c_SetOwner c && negb (bool_decide (OwnerID s = c_OwnerID c))) (
    Call (HSET (sessKey prefix id) [("owner_id", FormatInt (c_OwnerID c))]) (fun _ =>
    Call (SADD (ownerKey prefix (c_OwnerID c)) id) (fun _ =>
    sbind (when (0 <? number (FormatInt ms)) (cmd (PEXPIRE (ownerKey prefix (c_OwnerID c)) (FormatInt ms))))
      (fun _ => when (negb (bool_decide (OwnerID s = 0)))
                  (cmd (SREM (ownerKey prefix (OwnerID s)) id))))))) (fun _ =>
  sbind (when (c_SetLabels c) (cmd (HSET (sessKey prefix id) [("labels", c_Labels c)]))) (fun _ =>
  sbind (when newer (cmd (HSET (sessKey prefix id) [("last_access", FormatInt (c_LastAccess c))]))) (fun _ =>
  Call (HGET (sessKey prefix id) "last_rotation") (fun rotation =>
  let later := field rotation <? c_LastRotation c in
  sbind (when later (cmd (HSET (sessKey prefix id) [("last_rotation", FormatInt (c_LastRotation c))]))) (fun _ =>
  sbind (when (c_Rotate c) (
    Call (SET (keyKey prefix (c_NewKeyID c)) id (Some (FormatInt t))) (fun _ =>
    Call (DEL [keyKey prefix (c_OldKeyID c)]) (fun _ =>
    Call (SREM (keysKey prefix id) (c_OldKeyID c)) (fun _ =>
    cmd (SADD (keysKey prefix id) (c_NewKeyID c))))))) (fun _ =>
  sbind (cookie_script (attrKey prefix id) (shaKey prefix id) (c_Cookies c)) (fun _ =>
  sbind (when (advanced || newer || later)
    (expire_all (key <$> [SSess id; SKey (if c_Rotate c then c_NewKeyID c else c_OldKeyID c);
                          SAttr id; SSha id; SKeys id]) t)) (fun _ =>
  Return 1)))))))).

Lemma small_controlled c s : small_row s -> small (c_LastAccess c) -> small (c_LastRotation c) ->
  int64 (c_OwnerID c) -> small_row (controlled c s).
Proof.
  intros [] ? ? ?. unfold small in *. constructor; simpl; try done; unfold small; try lia.
  by destruct (c_SetOwner c).
Qed.

(** The store after the controls of a response have been applied to the row, the
    owner index, the keys and the cookies. *)
Lemma applied_repr d d' m L id s c m' ow :
  repr prefix L d m -> st (clock d) d (content m L) -> sessions m !! id = Some s -> plain id -> ID s = id ->
  small_row s -> small (c_LastAccess c) -> small (c_LastRotation c) -> int64 (c_OwnerID c) ->
  ~ cas_conflict id c m -> Memory.ApplySessionControls id c m = (None, m') ->
  (forall z, members ow z = members (apply_owner id c s (owners m)).2 z) ->
  st (clock d) d' (with_row id (controlled c s) (content (foldl (apply_cookie id)
    (set_keys (controlled_keys id c (keys (set_owners ow m))) (set_owners ow m)) (c_Cookies c)) L)) ->
  repr prefix L d' m'.
Proof.
  intros R S E P Hid Hs Hla Hlr Ho Hcas Happ How S'.
  pose proof (ApplySessionControls_spec id c m) as Spec. rewrite E in Spec.
  rewrite decide_False in Spec by done.
  destruct Spec as (m0 & Em & H1 & H2 & H3 & _ & mc & HC & HH & HC' & HH').
  rewrite Happ in Em. injection Em as <-.
  destruct (apply_cookie_frame id (c_Cookies c)
    (set_keys (controlled_keys id c (keys (set_owners ow m))) (set_owners ow m)))
    as (F1 & F2 & F3 & _). set (m6 := foldl _ _ _) in *. simpl in F1, F2, F3.
  eapply (repr_step prefix d m d' m' L); [done..| | |].
  - intros sl _. transitivity (content (set_sessions (<[id := controlled c s]> (sessions m6)) m6) L sl).
    { apply content_set_session. }
    apply content_eq; simpl.
    + by rewrite F1, H1.
    + by rewrite F2, H2.
    + intros z. by rewrite F3, H3.
    + intros i. rewrite HC'. unfold m6. rewrite !(proj1 (apply_cookie_maps _ _ _ _)). by rewrite HC.
    + intros i. rewrite HH'. unfold m6. rewrite !(proj2 (apply_cookie_maps _ _ _ _)). by rewrite HH.
  - intros sid s'. rewrite H1, lookup_insert. case_decide; [intros [= <-]|by auto].
    right. subst sid. split_and!; [done..|]. by apply small_controlled.
  - intros k sid. rewrite H2. unfold controlled_keys. case_match; [|by auto].
    rewrite lookup_delete, lookup_insert. repeat case_decide; try done; [by intros [= <-]; right|auto].
Qed.

Lemma wp_apply_body d m L id s c ms t m' :
  repr prefix L d m -> st (clock d) d (content m L) -> sessions m !! id = Some s ->
  small (c_LastAccess c) -> small (c_LastRotation c) -> int64 (c_OwnerID c) ->
  Z.abs ms <= 2 ^ 44 -> 0 < t <= 2 ^ 61 ->
  ~ cas_conflict id c m -> Memory.ApplySessionControls id c m = (None, m') ->
  wp (apply_body id c s ms t) d (fun r d' => r = Ok 1 /\ repr prefix L d' m').
Proof.
  intros R S E Hla Hlr Ho Hms Ht Hcas Happ.
  destruct (repr_id _ _ _ _ R _ _ E) as (Hid & P & Hs). pose proof (small_owner _ Hs) as Ho0.
  unfold cas_conflict in Hcas. unfold apply_body. cbn zeta.
  eapply (wp_apply_owner (clock d) d m L); try done.
  { eapply state_ext; [|exact S]. intros sl _. by rewrite with_row_content. }
  intros d1 ow How S1. pose proof (apply_row_controlled id c s (owners m)) as Hrow.
  set (s1 := (apply_owner id c s (owners m)).1) in *.
  assert (Hacc : LastAccess s = LastAccess s1) by (unfold s1, apply_owner; by case_match).
  set (s2 := if c_SetLabels c then with_Labels (c_Labels c) s1 else s1).
  eapply (wp_row_when _ _ _ s1 s2); [done..| |].
  { unfold s2. destruct (c_SetLabels c); [apply encode_labels|done]. }
  intros d2 S2.
  set (s3 := if LastAccess s2 <? c_LastAccess c then with_LastAccess (c_LastAccess c) s2 else s2).
  eapply (wp_row_when _ _ _ s2 s3); [done..| |].
  { assert (LastAccess s2 = LastAccess s) as E2 by (unfold s2; by case_match).
    unfold s3. rewrite E2. case_match; [apply encode_access|done]. }
  intros d3 S3. eapply (wp_hget (SSess id)); [done..|apply with_row_hashed|].
  assert (Hs3 : small_row s3).
  { assert (small_row s1) by (unfold s1, apply_owner; destruct (_ && _); cbn [fst]; auto using small_with_owner).
    unfold s3, s2. repeat case_match; auto using small_with_access, small_with_labels. }
  rewrite field_rotation by done.
  eapply (wp_row_when _ _ _ s3 (controlled c s)); [done..| |].
  { rewrite <-Hrow. unfold apply_fields. fold s2. fold s3. case_match; [apply encode_rotation|done]. }
  intros d4 S4. eapply (wp_rotation _ _ (set_owners ow m)); [done..| | |].
  { simpl. destruct (decide (keys m !! c_OldKeyID c = Some id)); [done|tauto]. }
  { simpl. intros Hr. destruct (keys m !! c_NewKeyID c) eqn:En; [|done]. destruct Hcas. right. eauto. }
  intros d5 S5. eapply wp_apply_cookies; [done..|]. intros d6 S6.
  set (m6 := foldl (apply_cookie id) _ _) in S6.
  assert (F : forall d', st (clock d) d' (with_row id (controlled c s) (content m6 L)) -> repr prefix L d' m').
  { intros d' S'. by eapply (applied_repr d d' m L id s c m' ow). }
  unfold when. case_match; [|by ret; auto]. apply wp_bind.
  eapply wp_mono; [eapply (wp_expire_all one_le); [|exact S6|lia]|].
  { repeat apply Forall_cons_2; done || apply Forall_nil_2. }
  intros r d7 [-> S7]. ret. auto.
Qed.

Lemma refines_apply id c ttl ottl L d m :
  repr prefix L d m -> op_ok (now_ms d) m (StoreApi.ApplySessionControls id c ttl ottl) ->
  wp (Redis.ApplySessionControls prefix id c ttl ottl) d (fun r d' =>
    exists z, r = Ok z /\ int_result z = (Memory.ApplySessionControls id c m).1
    /\ repr prefix L d' (Memory.ApplySessionControls id c m).2).
Proof.
  intros R (P & Hla & Hlr & Ho & Ht & Hot & Hlen & Hin). pose proof (repr_rows _ _ _ _ R) as S.
  pose proof (Milliseconds_bound _ Ht). pose proof (Milliseconds_bound _ Hot).
  unfold Redis.ApplySessionControls, applySessionControlsScript.
  set (nk := if c_Rotate c then c_NewKeyID c else c_OldKeyID c). set (pre := [id; _; _; _; _; _; _; _; _; _; _; _; _; _]).
  pose proof (apply_cookies_script
    [sessKey prefix id; keyKey prefix (c_OldKeyID c); keyKey prefix nk; attrKey prefix id;
     shaKey prefix id; keysKey prefix id] pre [] (c_Cookies c) eq_refl) as Hcs.
  cbn [app length] in Hcs. set (ARGV := pre ++ mjoin (cookie_args <$> c_Cookies c)) in *.
  assert (A14 : number (at_ ARGV 14) = Z.of_nat (length (c_Cookies c))) by (apply number_int; lia).
  rewrite A14, Nat2Z.id, Hcs. clear A14 Hcs.
  eapply (wp_checked _ _ _ _ _ [SSess id; SKey (c_OldKeyID c); SKey nk; SAttr id; SSha id; SKeys id]); [|done|].
  { repeat apply Forall_cons_2; done || apply Forall_nil_2. }
  pose proof (ApplySessionControls_spec id c m) as Spec.
  eapply (wp_exists (SSess id)); [done..|].
  destruct (content_sess m L id) as [(s & E & Ec)|[E Ec]]; rewrite E in Spec; rewrite Ec; branch.
  2:{ rewrite Spec. ret. by exists 0. }
  destruct (repr_id _ _ _ _ R _ _ E) as (Hid & _ & Hs). pose proof (small_owner _ Hs) as Ho0.
  specialize (Hin s E). pose proof (session_ttl_le (now_ms d) s (c_LastAccess c) (Milliseconds ttl)) as Hle.
  change (at_ ARGV 9) with (FormatInt (Milliseconds ttl)). rewrite number_int by lia.
  rewrite (proj2 (Z.leb_gt _ _)) by lia.
  eapply (wp_get (SKey (c_OldKeyID c))); [done..|reflexivity|]. change (at_ ARGV 1) with id.
  destruct (decide (keys m !! c_OldKeyID c = Some id)) as [Hk|Hk].
  2:{ rewrite decide_True in Spec by (by left). rewrite Spec.
      rewrite (decide_True (P := keys m !! c_OldKeyID c <> Some id)) by done. ret. by exists (-1). }
  rewrite (decide_False (P := keys m !! c_OldKeyID c <> Some id)) by auto. cbn zeta.
  change (at_ ARGV 8) with (boolArg (c_Rotate c)). rewrite boolArg_true.
  apply wp_bind. eapply wp_mono; [by eapply (wp_taken _ _ _ _ id c)|].
  intros r d0 [-> ->]. cbn beta iota.
  destruct (c_Rotate c && bool_decide (is_Some (keys m !! c_NewKeyID c))) eqn:Et.
  { apply andb_prop in Et as [Hr Hb%bool_decide_eq_true].
    rewrite decide_True in Spec by (by right). rewrite Spec. ret. by exists (-1). }
  assert (Hcas : ~ cas_conflict id c m).
  { intros [?|[Hr Hb]]; [done|]. rewrite Hr, bool_decide_eq_true_2 in Et by done. done. }
  rewrite decide_False in Spec by done. destruct Spec as (m' & Happ & _). rewrite Happ.
  apply wp_bind. eapply wp_mono.
  { eapply (wp_deadline_ttl _ _ d _ id s (c_LastAccess c) (Milliseconds ttl)); try done. apply R. }
  intros r d0 [-> ->]. cbn beta iota. set (t := session_ttl _ _ _ _) in *.
  rewrite (proj2 (Z.leb_gt _ _)) by lia.
  eapply (wp_hget (SSess id)); [done..|by left|].
  destruct (encode_lookup s) as (_ & _ & _ & _ & -> & _ & _).
  change (at_ ARGV 2) with (boolArg (c_SetOwner c)). change (at_ ARGV 3) with (FormatInt (c_OwnerID c)).
  change (at_ ARGV 4) with (boolArg (c_SetLabels c)). rewrite !boolArg_true.
  change (at_ ARGV 5) with (c_Labels c). change (at_ ARGV 6) with (FormatInt (c_LastAccess c)).
  change (at_ ARGV 7) with (FormatInt (c_LastRotation c)). rewrite (small_number (c_LastRotation c)) by done.
  change (at_ ARGV 10) with (FormatInt (Milliseconds ottl)). change (at_ ARGV 11) with (prefix +:+ "owner:").
  change (at_ ARGV 12) with (c_OldKeyID c). change (at_ ARGV 13) with nk. args.
  destruct (owner_tests (OwnerID s) (c_OwnerID c) Ho0 Ho) as [-> ->].
  eapply (wp_owner_checks (clock d) d m L (c_OwnerID c) (OwnerID s)); [done|].
  assert (HB : wp (apply_body id c s (Milliseconds ottl) t) d (fun r d' => r = Ok 1 /\ repr prefix L d' m')).
  { apply (wp_apply_body d m L); try done. lia. }
  assert (HW : forall (r : result string Z) d', r = Ok 1 /\ repr prefix L d' m' ->
    exists z, r = Ok z /\ int_result z = None /\ repr prefix L d' m').
  { intros r d' [-> R']. by exists 1. }
  pose proof (wp_mono _ _ _ _ HB HW) as HC. clear HB HW. unfold apply_body in HC. unfold nk.
  destruct (c_Rotate c); exact HC.
Qed.

Lemma refines_ApplySessionControls id c ttl ottl :
  refines prefix (StoreApi.ApplySessionControls id c ttl ottl).
Proof.
  intros tok L d m R H. open_request. apply wp_bind. eapply wp_mono; [by apply refines_apply|].
  intros r d' (z & -> & E & R'). ret. by rewrite E.
Qed.

Lemma refines_RotateSessionKey id ok nk lr ttl :
  refines prefix (StoreApi.RotateSessionKey id ok nk lr ttl).
Proof.
  intros tok L d m R (P & Hlr & Ht & Hin). cbn [request]. unfold Redis.RotateSessionKey.
  apply wp_bind. eapply wp_mono; [apply refines_apply; [done|]|].
  - unfold op_ok. simpl. split_and!; try done; unfold small, int64; lia.
  - intros r d' (z & -> & E & R'). ret. by rewrite E.
Qed.

(** Every method. *)
Lemma refines_all o : refines prefix o.
Proof.
  destruct o.
  - apply refines_PutSession.
  - apply refines_TouchSession.
  - apply refines_ApplySessionControls.
  - apply refines_RotateSessionKey.
  - apply refines_GetSession.
  - apply refines_DeleteSession.
  - apply refines_PutKey.
  - apply refines_ReplaceKey.
  - apply refines_GetKey.
  - apply refines_DeleteKey.
  - apply refines_GetCookies.
  - apply refines_CookieSHAs.
  - apply refines_PutCookie.
  - apply refines_DeleteCookie.
  - apply refines_AddOwnerIndex.
  - apply refines_RemoveOwnerIndex.
  - apply refines_OwnerSessions.
  - apply refines_ReassignOwner.
  - apply refines_DeleteSessionByOwner.
  - by intros tok L d m R [].
  - by intros tok L d m R [].
Qed.
End Controls.
