(* ===== verification/RedisAtomic.v ===== *)
(** * A script that fails has changed nothing

    Whatever the keys of the store hold, the wrong types included, a method of
    the Redis store that reports an error of the server has left every key as it
    was: all type errors are raised before the first write. *)

From stdpp Require Import base gmap strings list.
From Stdlib Require Import ZArith Lia Ascii.
From S2P Require Import Prelude GoStrings GoStrconv Crypto GoTime StoreApi.
From S2P Require Import RedisApi RedisStore RedisProps RedisRefine.
Import Redis.
Local Open Scope Z_scope.

(** The slots of [sls] have the type their name says. *)
Definition good (prefix : string) (c : Z) (sls : list slot) (d : db) : Prop :=
  exists W, state prefix 0 c d W /\ Forall (fun sl => plain_slot sl /\ typed W sl) sls.

Lemma zero_le : 0 <= 1.
Proof. done. Qed.

Lemma shorter_le b x t u : t <= u -> (if b && (x <? t) then x else t) <= u.
Proof. destruct b, (Z.ltb_spec x t); simpl; lia. Qed.

Section Good.
Context (prefix : string) (c : Z) (sls : list slot).
Notation ok := (good prefix c sls).
Notation key := (name prefix).
Context {A : Type} (Q : result string A -> db -> Prop).

Lemma good_upd W sl v :
  kind v = "none" \/ kind v = slot_type sl ->
  Forall (fun sl => plain_slot sl /\ typed W sl) sls ->
  Forall (fun sl' => plain_slot sl' /\ typed (upd sl v W) sl') sls.
Proof.
  intros Hv F. eapply Forall_impl; [exact F|]. intros sl' [P T]. split; [done|].
  unfold typed, upd. case_decide; [by subst|done].
Qed.

Lemma kind_vhash h : kind (vhash h) = "none" \/ kind (vhash h) = "hash".
Proof. unfold vhash. case_decide; auto. Qed.
Lemma kind_vset x : kind (vset x) = "none" \/ kind (vset x) = "set".
Proof. unfold vset. case_decide; auto. Qed.

Lemma good_in d sl : ok d -> sl ∈ sls ->
  exists W, state prefix 0 c d W /\ Forall (fun sl => plain_slot sl /\ typed W sl) sls
            /\ plain_slot sl /\ typed W sl.
Proof. intros (W & S & F) H. exists W. split_and!; try done; by eapply Forall_forall in F as [? ?]. Qed.

Lemma good_hget d sl f k : ok d -> sl ∈ sls -> slot_type sl = "hash" ->
  (forall v, wp (k v) d Q) -> wp (Call (HGET (key sl) f) k) d Q.
Proof.
  intros G Hi Ht H. destruct (good_in d sl G Hi) as (W & S & F & P & T).
  destruct (typed_hash W sl T Ht) as [h Hh]. by eapply (wp_hget sl).
Qed.

Lemma good_get d sl k : ok d -> sl ∈ sls -> slot_type sl = "string" ->
  (forall v, wp (k v) d Q) -> wp (Call (GET (key sl)) k) d Q.
Proof.
  intros G Hi Ht H. destruct (good_in d sl G Hi) as (W & S & F & P & T).
  destruct (typed_string W sl T Ht) as [v Hv]. by eapply (wp_get sl).
Qed.

Lemma good_smembers d sl k : ok d -> sl ∈ sls -> slot_type sl = "set" ->
  (forall v, wp (k v) d Q) -> wp (Call (SMEMBERS (key sl)) k) d Q.
Proof.
  intros G Hi Ht H. destruct (good_in d sl G Hi) as (W & S & F & P & T).
  destruct (typed_set W sl T Ht) as [x Hx]. by eapply (wp_smembers sl).
Qed.

Lemma good_exists d sl k : ok d -> plain_slot sl ->
  (forall v, wp (k v) d Q) -> wp (Call (EXISTS (key sl)) k) d Q.
Proof. intros (W & S & _) P H. by eapply (wp_exists sl). Qed.

Lemma good_pttl d sl k : ok d -> plain_slot sl ->
  (forall t, t <= 2 ^ 61 -> wp (k t) d Q) -> wp (Call (PTTL (key sl)) k) d Q.
Proof. intros (W & S & _) P H. eapply (wp_pttl sl); [done..|]. auto. Qed.

Lemma good_hset d sl fvs k : ok d -> sl ∈ sls -> slot_type sl = "hash" ->
  (forall d', ok d' -> wp (k tt) d' Q) -> wp (Call (HSET (key sl) fvs) k) d Q.
Proof.
  intros G Hi Ht H. destruct (good_in d sl G Hi) as (W & S & F & P & T).
  destruct (typed_hash W sl T Ht) as [h Hh]. eapply (wp_hset sl); [done..|].
  intros d' S'. apply H. eexists. split; [done|]. apply good_upd; [|done]. rewrite Ht. apply kind_vhash.
Qed.

Lemma good_hdel d sl f k : ok d -> sl ∈ sls -> slot_type sl = "hash" ->
  (forall d', ok d' -> wp (k tt) d' Q) -> wp (Call (HDEL (key sl) f) k) d Q.
Proof.
  intros G Hi Ht H. destruct (good_in d sl G Hi) as (W & S & F & P & T).
  destruct (typed_hash W sl T Ht) as [h Hh]. eapply (wp_hdel sl); [done..|].
  intros d' S'. apply H. eexists. split; [done|]. apply good_upd; [|done]. rewrite Ht. apply kind_vhash.
Qed.

Lemma good_sadd d sl m k : ok d -> sl ∈ sls -> slot_type sl = "set" ->
  (forall d', ok d' -> wp (k tt) d' Q) -> wp (Call (SADD (key sl) m) k) d Q.
Proof.
  intros G Hi Ht H. destruct (good_in d sl G Hi) as (W & S & F & P & T).
  destruct (typed_set W sl T Ht) as [x Hx]. eapply (wp_sadd sl); [done..|].
  intros d' S'. apply H. eexists. split; [done|]. apply good_upd; [|done]. rewrite Ht. apply kind_vset.
Qed.

Lemma good_srem d sl m k : ok d -> sl ∈ sls -> slot_type sl = "set" ->
  (forall d', ok d' -> wp (k tt) d' Q) -> wp (Call (SREM (key sl) m) k) d Q.
Proof.
  intros G Hi Ht H. destruct (good_in d sl G Hi) as (W & S & F & P & T).
  destruct (typed_set W sl T Ht) as [x Hx]. eapply (wp_srem sl); [done..|].
  intros d' S'. apply H. eexists. split; [done|]. apply good_upd; [|done]. rewrite Ht. apply kind_vset.
Qed.

Lemma good_set d sl v t k : ok d -> plain_slot sl -> slot_type sl = "string" -> 0 < t <= 2 ^ 61 ->
  (forall d', ok d' -> wp (k tt) d' Q) ->
  wp (Call (SET (key sl) v (Some (FormatInt t))) k) d Q.
Proof.
  intros (W & S & F) P Ht B H. eapply (wp_set zero_le sl v (Some t)); [done..|].
  intros d' S'. apply H. eexists. split; [done|]. apply good_upd; [|done]. rewrite Ht. auto.
Qed.

Lemma good_pexpire d sl t k : ok d -> plain_slot sl -> 0 < t <= 2 ^ 61 ->
  (forall d', ok d' -> wp (k tt) d' Q) -> wp (Call (PEXPIRE (key sl) (FormatInt t)) k) d Q.
Proof.
  intros (W & S & F) P B H. eapply (wp_pexpire zero_le sl); [done..|].
  intros d' S'. apply H. by exists W.
Qed.

Lemma good_del d sls' k : ok d -> Forall plain_slot sls' ->
  (forall d', ok d' -> wp (k tt) d' Q) -> wp (Call (DEL (key <$> sls')) k) d Q.
Proof.
  intros (W & S & F) P H. eapply (wp_del sls'); [done..|]. intros d' S'. apply H.
  eexists. split; [done|]. clear P S S'. revert W F; induction sls' as [|sl sls' IH]; intros W F; [done|].
  simpl. apply IH. apply good_upd; auto.
Qed.

Lemma good_set_with d sl v t (k : unit -> script A) : ok d -> plain_slot sl ->
  slot_type sl = "string" -> t <= 2 ^ 61 ->
  (forall d', ok d' -> wp (k tt) d' Q) -> wp (sbind (set_with (key sl) v t) k) d Q.
Proof.
  intros (W & S & F) P Ht B H. apply wp_bind. eapply (wp_set_with zero_le sl); [done..|].
  intros d' S'. apply H. eexists. split; [done|]. apply good_upd; [|done]. rewrite Ht. auto.
Qed.

Lemma good_expire_all d sls' t (k : unit -> script A) : ok d -> Forall plain_slot sls' -> 0 < t <= 2 ^ 61 ->
  (forall d', ok d' -> wp (k tt) d' Q) -> wp (sbind (expire_all (key <$> sls') t) k) d Q.
Proof.
  intros (W & S & F) P B H. apply wp_bind. eapply wp_mono; [by eapply (wp_expire_all zero_le sls')|].
  intros r d' [-> S']. apply H. by exists W.
Qed.

Lemma good_delete_keys d ks (k : unit -> script A) : ok d ->
  (forall d', ok d' -> wp (k tt) d' Q) -> wp (sbind (delete_keys (prefix +:+ "key:") ks) k) d Q.
Proof.
  intros (W & S & F) H. apply wp_bind. eapply wp_mono; [by eapply wp_delete_keys|].
  intros r d' [-> S']. apply H. exists (without ks W). split; [done|].
  eapply Forall_impl; [exact F|]. intros sl [P T]. split; [done|]. unfold typed, without in *.
  destruct sl; try done. case_decide; auto.
Qed.

Lemma good_cookies d id cs (k : unit -> script A) : ok d -> SAttr id ∈ sls -> SSha id ∈ sls ->
  (forall d', ok d' -> wp (k tt) d' Q) ->
  wp (sbind (cookie_script (attrKey prefix id) (shaKey prefix id) cs) k) d Q.
Proof.
  intros G Ha Hs H. revert d G; induction cs as [|m cs IH]; intros d G; [by apply H|].
  cbn [cookie_script]. destruct (cm_Delete m); cbn [sbind].
  - apply (good_hdel d (SAttr id)); [done..|]. intros d1 G1.
    apply (good_hdel d1 (SSha id)); [done..|]. auto.
  - apply (good_hset d (SAttr id)); [done..|]. intros d1 G1.
    apply (good_hset d1 (SSha id)); [done..|]. auto.
Qed.

(** A step under a condition, taken or not. *)
Lemma good_when d (b : bool) p (k : unit -> script A) : ok d ->
  (b = true -> wp p d (fun r d' => r = Ok tt /\ ok d')) ->
  (forall d', ok d' -> wp (k tt) d' Q) -> wp (sbind (when b p) k) d Q.
Proof.
  intros G Hp H. destruct b; [|by apply H]. apply wp_bind. eapply wp_mono; [by apply Hp|].
  intros r d' [-> G']. by apply H.
Qed.

Lemma good_when_end d (b : bool) p : ok d ->
  (b = true -> wp p d (fun r d' => r = Ok tt /\ ok d')) -> wp (when b p) d (fun r d' => r = Ok tt /\ ok d').
Proof. intros G Hp. destruct b; [by apply Hp|by apply wp_return]. Qed.

(** The time to live is never more than what the caller gave. *)
Lemma good_deadline d id la ttl (k : Z * Z * Z -> script A) : ok d -> SSess id ∈ sls ->
  Z.abs ttl <= 2 ^ 44 -> (forall ca pa t, t <= 2 ^ 61 -> wp (k (ca, pa, t)) d Q) ->
  wp (sbind (deadline_ttl (sessKey prefix id) la (FormatInt ttl)) k) d Q.
Proof.
  intros G Hi B H. unfold deadline_ttl. cbn [sbind].
  do 4 (apply (good_hget d (SSess id)); [done..|]; intros ?).
  eapply wp_read; [reflexivity|]. cbn [sbind]. apply H. rewrite (number_int ttl) by lia.
  do 2 apply shorter_le. lia.
Qed.
End Good.

(** ** The methods *)

(** What Go's types and the callers guarantee of the arguments. *)
Definition args_ok (o : store_op) : Prop :=
  match o with
  | StoreApi.PutSession s ttl => plain (ID s) /\ int64 ttl
  | StoreApi.TouchSession sid _ _ _ ttl => plain sid /\ int64 ttl
  | StoreApi.ApplySessionControls sid c ttl ottl =>
      plain sid /\ int64 ttl /\ int64 ottl /\ Z.of_nat (length (c_Cookies c)) <= 2 ^ 53
  | StoreApi.RotateSessionKey sid _ _ _ ttl => plain sid /\ int64 ttl
  | StoreApi.GetSession sid | StoreApi.DeleteSession sid | StoreApi.GetCookies sid
  | StoreApi.CookieSHAs sid | StoreApi.PutCookie sid _ _ _ | StoreApi.DeleteCookie sid _
  | StoreApi.ReplaceKey _ _ sid _ | StoreApi.PutKey _ sid _ => plain sid
  | StoreApi.AddOwnerIndex _ _ ttl => int64 ttl
  | StoreApi.ReassignOwner s ttl ottl => plain (ID s) /\ int64 ttl /\ int64 ottl
  | StoreApi.DeleteSessionByOwner _ sid => plain sid
  | _ => True
  end.

(** An error leaves the keys [d0]. *)
Definition unchanged {A} (d0 : db) (r : result string A) (d : db) : Prop :=
  match r with Err _ => d = d0 | Ok _ => True end.

Section Atomic.
Context (prefix : string).
Notation key := (name prefix).

Lemma wp_assoc {A B C} (p : script A) (f : A -> script B) (g : B -> script C) d Q :
  wp (sbind p (fun a => sbind (f a) g)) d Q -> wp (sbind (sbind p f) g) d Q.
Proof.
  unfold wp. revert d; induction p as [a|m|cm k IH]; intros d; cbn [sbind eval]; [done|done|].
  destruct (send cm d) as [[r|e] d']; [apply IH|done].
Qed.

Lemma atomic_checked {A} d sls (f : unit -> script A) :
  Forall plain_slot sls -> timed 0 d ->
  (good prefix (clock d) sls d -> wp (f tt) d (unchanged d)) ->
  wp (sbind (require_types ((fun sl => (key sl, slot_type sl)) <$> sls)) f) d (unchanged d).
Proof.
  intros P T H. apply wp_bind.
  assert (S : state prefix 0 (clock d) d (fun sl => val d (key sl))) by (by constructor).
  eapply wp_mono; [by eapply wp_require_types|]. intros r d' [-> Hr].
  destruct r as [[]|e]; [|done]. apply H. eexists. split; [done|].
  apply Forall_and. split; done.
Qed.

Lemma atomic_check1 {A} d sls sl (f : unit -> script A) :
  plain_slot sl -> good prefix (clock d) sls d ->
  (good prefix (clock d) (sl :: sls) d -> wp (f tt) d (unchanged d)) ->
  wp (sbind (require_type (key sl) (slot_type sl)) f) d (unchanged d).
Proof.
  intros P (W & S & F) H. apply wp_bind. eapply wp_mono; [by eapply wp_require_type|].
  intros r d' [-> Hr]. destruct r as [[]|e]; [|done]. apply H. exists W. split; [done|].
  by apply Forall_cons.
Qed.

Lemma unchanged_bind {A B} d0 (p : script A) (f : A -> B) d :
  wp p d (unchanged d0) -> wp (sbind p (fun a => Return (f a))) d (unchanged d0).
Proof. intros H. apply wp_bind. eapply wp_mono; [exact H|]. by intros [a|e] d' Hd. Qed.
End Atomic.

(** The slot a key names. *)
Ltac slot_of k :=
  match k with
  | sessKey _ ?i => constr:(SSess i)
  | attrKey _ ?i => constr:(SAttr i)
  | shaKey _ ?i => constr:(SSha i)
  | keysKey _ ?i => constr:(SKeys i)
  | keyKey _ ?i => constr:(SKey i)
  | lockKey _ ?i => constr:(SLock i)
  | ownerKey _ ?o => constr:(SOwner (FormatInt o))
  | (_ +:+ "owner:") +:+ ?o => constr:(SOwner o)
  end.

Ltac listed := by rewrite !elem_of_cons; auto 10.
Ltac plains := repeat apply Forall_cons_2; done || apply Forall_nil_2.

(** One step of a script that has passed its type checks. *)
Ltac gstep :=
  unfold cmd; cbn [sbind when negb andb];
  match goal with
  | |- wp (Return _) _ _ => by apply wp_return
  | |- wp (Call (HGET ?k _) _) _ _ =>
      let sl := slot_of k in eapply (good_hget _ _ _ _ _ sl); [done|listed|done|intros ?]
  | |- wp (Call (GET ?k) _) _ _ =>
      let sl := slot_of k in eapply (good_get _ _ _ _ _ sl); [done|listed|done|intros ?]
  | |- wp (Call (SMEMBERS ?k) _) _ _ =>
      let sl := slot_of k in eapply (good_smembers _ _ _ _ _ sl); [done|listed|done|intros ?]
  | |- wp (Call (EXISTS ?k) _) _ _ =>
      let sl := slot_of k in eapply (good_exists _ _ _ _ _ sl); [done|done|intros ?]
  | |- wp (Call (PTTL ?k) _) _ _ =>
      let sl := slot_of k in eapply (good_pttl _ _ _ _ _ sl); [done|done|intros ? ?]
  | |- wp (Call (HSET ?k _) _) _ _ =>
      let sl := slot_of k in eapply (good_hset _ _ _ _ _ sl); [done|listed|done|intros ? ?]
  | |- wp (Call (HDEL ?k _) _) _ _ =>
      let sl := slot_of k in eapply (good_hdel _ _ _ _ _ sl); [done|listed|done|intros ? ?]
  | |- wp (Call (SADD ?k _) _) _ _ =>
      let sl := slot_of k in eapply (good_sadd _ _ _ _ _ sl); [done|listed|done|intros ? ?]
  | |- wp (Call (SREM ?k _) _) _ _ =>
      let sl := slot_of k in eapply (good_srem _ _ _ _ _ sl); [done|listed|done|intros ? ?]
  | |- wp (Call (SET ?k _ (Some (FormatInt ?t))) _) _ _ =>
      let sl := slot_of k in eapply (good_set _ _ _ _ _ sl _ t); [done|done|done|lia|intros ? ?]
  | |- wp (Call (PEXPIRE ?k (FormatInt ?t)) _) _ _ =>
      let sl := slot_of k in eapply (good_pexpire _ _ _ _ _ sl t); [done|done|lia|intros ? ?]
  | |- wp (sbind (set_with ?k _ _) _) _ _ =>
      let sl := slot_of k in eapply (good_set_with _ _ _ _ _ sl); [done|done|done|lia|intros ? ?]
  | |- wp (sbind (sbind _ _) _) _ _ => apply wp_assoc
  | |- wp (sbind (deadline_ttl _ _ _) _) _ _ => eapply good_deadline; [done|listed|lia|intros ? ? ? ?]
  | |- wp (sbind (cookie_script _ _ _) _) _ _ => eapply good_cookies; [done|listed|listed|intros ? ?]
  | |- wp (sbind (expire_all [?k1; ?k2; ?k3; ?k4; ?k5] _) _) _ _ =>
      let s1 := slot_of k1 in let s2 := slot_of k2 in let s3 := slot_of k3 in
      let s4 := slot_of k4 in let s5 := slot_of k5 in
      eapply (good_expire_all _ _ _ _ _ [s1; s2; s3; s4; s5]); [done|plains|lia|intros ? ?]
  | |- wp (Call (DEL [?k1]) _) _ _ =>
      let s1 := slot_of k1 in eapply (good_del _ _ _ _ _ [s1]); [done|plains|intros ? ?]
  | |- wp (Call (DEL [?k1; ?k2; ?k3; ?k4]) _) _ _ =>
      let s1 := slot_of k1 in let s2 := slot_of k2 in let s3 := slot_of k3 in
      let s4 := slot_of k4 in
      eapply (good_del _ _ _ _ _ [s1; s2; s3; s4]); [done|plains|intros ? ?]
  | |- wp (sbind (require_type ?k _) _) _ _ =>
      let sl := slot_of k in eapply (atomic_check1 _ _ _ sl); [done|done|intros ?]
  | |- wp (sbind (delete_keys _ _) _) _ _ => eapply good_delete_keys; [done|intros ? ?]
  | |- wp (sbind (when (?a <? ?b) _) _) _ _ => destruct (Z.ltb_spec a b)
  | |- wp (sbind (when ?b _) _) _ _ => destruct b
  | |- wp (sbind (if ?b then _ else _) _) _ _ => destruct b
  | |- wp (if (?a <=? ?b) then _ else _) _ _ => destruct (Z.leb_spec a b)
  | |- wp (if ?b then _ else _) _ _ => destruct b
  end.

(** The same, up to the first conditional step; and with conditional steps taken
    by [good_when]. *)
Ltac gpre := lazymatch goal with |- wp (sbind (when _ _) _) _ _ => fail | _ => gstep end.
Ltac gpost :=
  unfold cmd; cbn [sbind when negb andb];
  lazymatch goal with
  | |- wp (sbind (when _ (expire_all _ _)) _) _ _ => gstep
  | |- wp (sbind (when ?b _) _) _ _ =>
      eapply good_when; [done|intros ?; rewrite ?Z.ltb_lt in *|intros ? ?]
  | |- wp (when _ _) _ _ => eapply good_when_end; [done|intros ?]
  | _ => gstep
  end.

(** The tests on the stored owner name. *)
Ltac owner_tests o :=
  try match goal with |- context [bool_decide (?x = "0")] => destruct (bool_decide (x = "0")) end;
  try match goal with |- context [bool_decide (?x = o)] => destruct (bool_decide (x = o)) end.

Section Methods.
Context (prefix : string) (d : db).
Hypothesis d_timed : timed 0 d.
Notation key := (name prefix).
Notation atomic p := (wp p d (unchanged d)).

Lemma atomic_single {A} (cm : command) (k : reply cm -> script A) :
  (forall e d', documented cm d = (Err e, d') -> d' = d) ->
  (forall r d', exists a, eval (k r) d' = (Ok a, d')) -> atomic (Call cm k).
Proof.
  intros He Hk. unfold wp. cbn [eval send reference_server].
  destruct (documented cm d) as [[r|e] d'] eqn:E; [|by apply (He e)].
  by destruct (Hk r d') as [a ->].
Qed.

Lemma atomic_PutSession s ttl : plain (ID s) -> int64 ttl -> atomic (Redis.PutSession prefix s ttl).
Proof.
  intros P Ht. pose proof (Milliseconds_bound _ Ht). unfold Redis.PutSession, putSessionScript. args.
  apply (atomic_check1 prefix d [] (SSess (ID s))); [done| |intros G].
  { eexists. split; [by constructor|apply Forall_nil_2]. }
  gstep. rewrite number_int by lia. destruct (Z.ltb_spec 0 (Milliseconds ttl)); repeat gstep.
Qed.

Lemma atomic_TouchSession id k la lr ttl :
  plain id -> int64 ttl -> atomic (Redis.TouchSession prefix id k la lr ttl).
Proof.
  intros P Ht. pose proof (Milliseconds_bound _ Ht). unfold Redis.TouchSession, touchSessionScript. args.
  apply (atomic_checked prefix d [SSess id; SKey k; SAttr id; SSha id; SKeys id]); [plains|done|intros G].
  repeat gstep.
Qed.

Lemma atomic_DeleteSession id : plain id -> atomic (Redis.DeleteSession prefix id).
Proof.
  intros P. unfold Redis.DeleteSession, deleteSessionScript. args.
  apply (atomic_checked prefix d [SSess id; SAttr id; SSha id; SKeys id]); [plains|done|intros G].
  gstep. repeat gstep.
Qed.

Lemma atomic_PutKey k id : plain id -> atomic (Redis.PutKey prefix k id).
Proof.
  intros P. unfold Redis.PutKey, putKeyScript. args.
  apply (atomic_checked prefix d [SSess id; SKey k; SKeys id]); [plains|done|intros G]. repeat gstep.
Qed.

Lemma atomic_ReplaceKey ok nk id : plain id -> atomic (Redis.ReplaceKey prefix ok nk id).
Proof.
  intros P. unfold Redis.ReplaceKey, replaceKeyScript. args.
  apply (atomic_checked prefix d [SSess id; SKey ok; SKey nk; SKeys id]); [plains|done|intros G].
  repeat gstep.
Qed.

Lemma atomic_PutCookie id n v h : plain id -> atomic (Redis.PutCookie prefix id n v h).
Proof.
  intros P. unfold Redis.PutCookie, putCookieScript. args.
  apply (atomic_checked prefix d [SSess id; SAttr id; SSha id]); [plains|done|intros G]. repeat gstep.
Qed.

Lemma atomic_DeleteCookie id n : plain id -> atomic (Redis.DeleteCookie prefix id n).
Proof.
  intros P. unfold Redis.DeleteCookie, deleteCookieScript. args.
  apply (atomic_checked prefix d [SAttr id; SSha id]); [plains|done|intros G]. repeat gstep.
Qed.

Lemma atomic_AddOwnerIndex o id ttl : int64 ttl -> atomic (Redis.AddOwnerIndex prefix o id ttl).
Proof.
  intros Ht. pose proof (Milliseconds_bound _ Ht). unfold Redis.AddOwnerIndex, addOwnerIndexScript. args.
  rewrite number_int by lia.
  apply (atomic_check1 prefix d [] (SOwner (FormatInt o))); [done| |intros G].
  { eexists. split; [by constructor|apply Forall_nil_2]. }
  repeat gstep.
Qed.

Lemma atomic_ReassignOwner s ttl ottl :
  plain (ID s) -> int64 ttl -> int64 ottl -> atomic (Redis.ReassignOwner prefix s ttl ottl).
Proof.
  intros P Ht Ho. pose proof (Milliseconds_bound _ Ht). pose proof (Milliseconds_bound _ Ho).
  unfold Redis.ReassignOwner, reassignOwnerScript. args. rewrite (number_int (Milliseconds ottl)) by lia.
  apply (atomic_checked prefix d [SSess (ID s); SOwner (FormatInt (OwnerID s))]); [plains|done|intros G].
  repeat gstep.
Qed.

Lemma atomic_DeleteSessionByOwner o id : plain id -> atomic (Redis.DeleteSessionByOwner prefix o id).
Proof.
  intros P. unfold Redis.DeleteSessionByOwner, deleteSessionByOwnerScript. args.
  apply (atomic_checked prefix d [SSess id; SOwner (FormatInt o); SAttr id; SSha id; SKeys id]);
    [plains|done|intros G]. repeat gstep.
Qed.

Lemma atomic_ApplySessionControls id c ttl ottl :
  plain id -> int64 ttl -> int64 ottl -> Z.of_nat (length (c_Cookies c)) <= 2 ^ 53 ->
  atomic (Redis.ApplySessionControls prefix id c ttl ottl).
Proof.
  intros P Ht Hot Hlen. pose proof (Milliseconds_bound _ Ht). pose proof (Milliseconds_bound _ Hot).
  unfold Redis.ApplySessionControls, applySessionControlsScript.
  set (nk := if c_Rotate c then c_NewKeyID c else c_OldKeyID c).
  set (pre := [id; _; _; _; _; _; _; _; _; _; _; _; _; _]).
  pose proof (apply_cookies_script
    [sessKey prefix id; keyKey prefix (c_OldKeyID c); keyKey prefix nk; attrKey prefix id;
     shaKey prefix id; keysKey prefix id] pre [] (c_Cookies c) eq_refl) as Hcs.
  cbn [app length] in Hcs. set (ARGV := pre ++ mjoin (cookie_args <$> c_Cookies c)) in *.
  assert (A14 : number (at_ ARGV 14) = Z.of_nat (length (c_Cookies c))) by (apply number_int; lia).
  rewrite A14, Nat2Z.id, Hcs. clear A14 Hcs.
  change (at_ ARGV 9) with (FormatInt (Milliseconds ttl)).
  change (at_ ARGV 10) with (FormatInt (Milliseconds ottl)).
  change (at_ ARGV 11) with (prefix +:+ "owner:"). cbn zeta.
  set (rotate := bool_decide (at_ ARGV 8 = "1")). set (set_owner := bool_decide (at_ ARGV 2 = "1")).
  rewrite !number_int by lia. generalize (at_ ARGV 3) as o. intros o. clearbody ARGV rotate set_owner.
  args. apply (atomic_checked prefix d [SSess id; SKey (c_OldKeyID c); SKey nk; SAttr id; SSha id; SKeys id]);
    [plains|done|intros G].
  destruct rotate, set_owner; repeat gpre; owner_tests o; repeat gpost.
Qed.

(** The key may name any session here, so its reverse index is no slot. *)
Lemma atomic_DeleteKey k : atomic (Redis.DeleteKey prefix k).
Proof.
  unfold Redis.DeleteKey, deleteKeyScript. args.
  eapply wp_read; [reflexivity|]. cbn [kind].
  destruct (val d (keyKey prefix k)) as [[sid|h|x]|] eqn:E; cbn [kind];
    try (by rewrite decide_True by done; apply wp_raise).
  2:{ rewrite decide_False by (by intros []). by rewrite decide_True by done; apply wp_return. }
  rewrite decide_False by (by intros []). rewrite decide_False by done.
  eapply wp_read; [simpl; rewrite E; reflexivity|]. args.
  set (rev := (prefix +:+ "sess:") +:+ sid +:+ ":keys").
  assert (Hne : keyKey prefix k <> rev).
  { unfold rev, keyKey. rewrite !sapp_assoc. by intros Hc%sapp_cancel. }
  assert (HV : forall A (p : script A) (Q : result string A -> db -> Prop), (forall d', wp p d' Q) ->
    (exists x, set_at d rev = Ok x) ->
    wp (Call (DEL [keyKey prefix k]) (fun _ => Call (SREM rev k) (fun _ => p))) d Q).
  { intros A p Q Hp [x Hx]. eapply wp_write; [reflexivity|]. eapply wp_write; [|apply Hp].
    simpl. assert (set_at (remove (keyKey prefix k) d) rev = set_at d rev) as ->.
    { unfold set_at, val, remove. simpl. by rewrite lookup_delete_ne. }
    rewrite Hx. reflexivity. }
  unfold require_type. cbn [sbind]. eapply wp_read; [reflexivity|].
  destruct (val d rev) as [[v|h|x]|] eqn:Er; cbn [kind];
    try (by rewrite decide_True by done; apply wp_raise);
    rewrite decide_False by (by intros []); cbn [sbind]; (apply HV; [intros d'; by apply wp_return|]);
    unfold set_at; rewrite Er; eauto.
Qed.

(** Every method: an error of the server leaves its keys alone. *)
Lemma atomic_all tok o : args_ok o -> atomic (request prefix tok o).
Proof.
  destruct o; cbn [args_ok]; open_request; intros H; destruct_and?; try apply unchanged_bind.
  - by apply atomic_PutSession.
  - by apply atomic_TouchSession.
  - by apply atomic_ApplySessionControls.
  - apply atomic_ApplySessionControls; try done; unfold int64; simpl; lia.
  - apply atomic_single; [by simpl; intros ? ? [= _ <-]|eauto].
  - by apply atomic_DeleteSession.
  - by apply atomic_PutKey.
  - by apply atomic_ReplaceKey.
  - apply atomic_single; [by simpl; intros ? ? [= _ <-]|eauto].
  - apply atomic_DeleteKey.
  - apply atomic_single; [by simpl; intros ? ? [= _ <-]|eauto].
  - apply atomic_single; [by simpl; intros ? ? [= _ <-]|eauto].
  - by apply atomic_PutCookie.
  - by apply atomic_DeleteCookie.
  - by apply atomic_AddOwnerIndex.
  - apply atomic_single; [simpl; intros ? ?; destruct (set_at _ _); by intros [=]|eauto].
  - apply atomic_single; [by simpl; intros ? ? [= _ <-]|eauto].
  - by apply atomic_ReassignOwner.
  - by apply atomic_DeleteSessionByOwner.
  - apply atomic_single; [|eauto]. simpl. intros ? ?. destruct (val _ _); [done|].
    unfold set_value. destruct (setnx_lifetime ttl) as [n|]; simpl; [|by intros [=]].
    destruct (ParseInt _); [destruct (0 <? _)|]; by intros [=].
  - unfold unlock, unlockScript. args. unfold wp. cbn [eval send reference_server documented].
    destruct (val d _) as [[v|h|x]|]; simpl; try done; by case_decide.
Qed.
End Methods.
