(* ===== verification/RedisThms.v ===== *)
(** * What the Redis store guarantees

    It answers like the in-memory store, its errors change nothing, its locks
    are released by their holder only, and its rows expire with the session. *)

From stdpp Require Import base gmap strings list.
From Stdlib Require Import ZArith Lia Ascii.
From S2P Require Import Prelude GoStrings GoStrconv Crypto GoTime StoreApi Memory MemoryProps Manager ManagerThms.
From S2P Require Import RedisApi RedisStore RedisProps RedisRefine RedisControls RedisAtomic.
Import Memory MemoryProps Redis.
Local Open Scope Z_scope.

(** ** Programs over both stores *)

(** Every store call of the run over [Memory] is one [op_ok] admits. *)
Fixpoint calls_ok {A} (now : Z) (p : prog A) (w : world Memory) : Prop :=
  match p with
  | Ret _ => True
  | Do o k =>
      match o with OStore so => op_ok now (w_store w) so | _ => True end
      /\ let '(r, w') := step o w in calls_ok now (k r) w'
  end.

(** The client's state represents [m], with the given rows for the locks: a lock
    is held in [m] when its row is there. *)
Definition represents_at {R} `{RedisServer R} (L : string -> option value) (r : Redis R) (m : Memory) : Prop :=
  repr (prefix r) L (view (server r)) m /\ forall sid, is_Some (L sid) <-> sid ∈ locks m.
Definition represents {R} `{RedisServer R} (r : Redis R) (m : Memory) : Prop :=
  exists L, represents_at L r m.

Lemma draws_ok now m o : op_ok now m o -> draws o = false.
Proof. by destruct o. Qed.

(** No call but those of the lock touches the locks. *)
Lemma exec_locks now m o : op_ok now m o -> locks (exec o m).2 = locks m.
Proof.
  assert (HA : forall id c, locks (Memory.ApplySessionControls id c m).2 = locks m).
  { intros id c. pose proof (ApplySessionControls_spec id c m) as HA.
    destruct (sessions m !! id); [|by rewrite HA]. case_decide; [by rewrite HA|].
    destruct HA as (m' & -> & _ & _ & _ & HL & _). done. }
  destruct o; cbn [op_ok exec memory_store]; try done; intros _; try apply HA;
    unfold Memory.TouchSession, Memory.PutKey, Memory.ReplaceKey, Memory.PutCookie, Memory.ReassignOwner,
      Memory.DeleteSessionByOwner; by repeat case_match.
Qed.

Lemma exec_refines {R} `{RedisServer R} L (r : Redis R) m o :
  represents_at L r m -> op_ok (now_ms (view (server r))) m o ->
  let '(a, r') := exec o r in
  a = (exec o m).1 /\ represents_at L r' (exec o m).2 /\ rng r' = rng r
  /\ clock (view (server r')) = clock (view (server r)).
Proof.
  intros [HR HL] Hok. unfold exec at 1, redis_store. rewrite (draws_ok _ _ _ Hok). cbn iota.
  pose proof (refines_all (prefix r) o "" L (view (server r)) m HR Hok) as [Hr Hs].
  destruct (eval_documented (request (prefix r) "" o) (server r)) as [E1 E2].
  destruct (eval _ (server r)) as [a s]. cbn [fst snd] in E1, E2. rewrite E1, Hr. split; [done|].
  unfold represents_at. cbn [prefix server rng]. rewrite E2. split; [|by split; [|apply eval_clock]].
  split; [done|]. by rewrite (exec_locks _ _ _ Hok).
Qed.

Lemma run_refines {R} `{RedisServer R} {A} (p : prog A) (r : Redis R) m t rng :
  represents r m -> calls_ok (now_ms (view (server r))) p (MkWorld m t rng) ->
  (run p (MkWorld r t rng)).1 = (run p (MkWorld m t rng)).1
  /\ represents (w_store (run p (MkWorld r t rng)).2) (w_store (run p (MkWorld m t rng)).2).
Proof.
  revert r m t rng; induction p as [a|o k IH]; intros r m t rng HR Hok; [done|].
  pose proof HR as [L HRL]. destruct Hok as [Ho Hok]. cbn [run]. destruct o as [so| |n]; cbn [step w_store w_clock w_rng] in *.
  - pose proof (exec_refines L r m so HRL Ho) as Hx.
    destruct (exec so r) as [a r']. destruct Hx as (-> & HR' & _ & Hc).
    destruct (exec so m) as [a m']. cbn [fst snd] in *. apply IH; [by exists L|].
    unfold now_ms in *. by rewrite Hc.
  - by apply IH.
  - destruct (take_bytes n rng) as [[b rest]|]; by apply IH.
Qed.

(** ** Theorems *)


(** An empty server at 1000 s. *)
Definition empty_server : Redis db := MkRedis (MkDb 1000000000 ∅) "gs:" "".

Lemma empty_represents : represents empty_server NewMemory.
Proof.
  exists (fun _ => None). split; [split|].
  - constructor; [done|by intros k v e|]. intros sl _.
    destruct sl; try done. simpl. unfold named_members, members. simpl.
    by destruct (ParseInt o); [case_decide|].
  - vm_compute. split; discriminate.
  - done.
  - done.
  - intros sid. split; [by intros [? [=]]|by intros ?%not_elem_of_empty].
Qed.

(** A visit: begin a session, then resolve its key. *)
Definition visit : prog (res (option Manager.Live)) :=
  bind (Manager.Begin ManagerThms.demo_cfg) (fun r =>
    match r with
    | Ok l => Manager.Resolve ManagerThms.demo_cfg (Manager.l_KeyID l)
    | Err e => Ret (Err e)
    end).

(** ** Deciding [op_ok] *)

Definition smallb (z : Z) : bool := Z.abs z <=? 2 ^ 40.
Definition int64b (z : Z) : bool := (- 2 ^ 63 <=? z) && (z <? 2 ^ 63).
Definition plainb (s : string) : bool := negb (contains_byte ":" s).
Definition small_rowb (s : Session) : bool :=
  smallb (Creation s) && smallb (LastAccess s) && smallb (InactiveTimeout s)
  && smallb (FinalTimeout s) && int64b (OwnerID s) && smallb (LastRotation s).
Definition in_timeb (now : Z) (m : Memory) (sid : string) (access ttl : Z) : bool :=
  match sessions m !! sid with
  | Some s => 0 <? session_ttl now s access (Milliseconds ttl)
  | None => true
  end.

Definition op_okb (now : Z) (m : Memory) (o : store_op) : bool :=
  match o with
  | StoreApi.PutSession s ttl => plainb (ID s) && small_rowb s && int64b ttl
  | StoreApi.TouchSession sid _ la lr ttl =>
      plainb sid && smallb la && smallb lr && int64b ttl && in_timeb now m sid la ttl
  | StoreApi.ApplySessionControls sid c ttl ottl =>
      plainb sid && smallb (c_LastAccess c) && smallb (c_LastRotation c) && int64b (c_OwnerID c)
      && int64b ttl && int64b ottl && (Z.of_nat (length (c_Cookies c)) <=? 2 ^ 53)
      && in_timeb now m sid (c_LastAccess c) ttl
  | StoreApi.GetSession sid | StoreApi.DeleteSession sid | StoreApi.GetCookies sid
  | StoreApi.CookieSHAs sid | StoreApi.DeleteCookie sid _ => plainb sid
  | StoreApi.PutKey k sid _ => plainb sid && bool_decide (keys m !! k = None)
  | StoreApi.GetKey _ | StoreApi.DeleteKey _ => true
  | StoreApi.OwnerSessions o => int64b o
  | _ => false
  end.

Lemma smallb_spec z : smallb z = true -> small z.
Proof. unfold smallb, small. lia. Qed.
Lemma int64b_spec z : int64b z = true -> int64 z.
Proof. unfold int64b, int64. lia. Qed.
Lemma plainb_spec s : plainb s = true -> plain s.
Proof. unfold plainb, plain, sep_free. by destruct (contains_byte ":" s). Qed.
Lemma small_rowb_spec s : small_rowb s = true -> small_row s.
Proof.
  unfold small_rowb. rewrite !andb_true_iff. intros (((((? & ?) & ?) & ?) & ?) & ?).
  constructor; auto using smallb_spec, int64b_spec.
Qed.
Lemma in_timeb_spec now m sid access ttl : in_timeb now m sid access ttl = true -> in_time now m sid access ttl.
Proof. unfold in_timeb, in_time. intros H s E. rewrite E in H. lia. Qed.

Lemma op_okb_spec now m o : op_okb now m o = true -> op_ok now m o.
Proof.
  destruct o; cbn [op_okb op_ok]; rewrite ?andb_true_iff; intros H; destruct_and?; split_and?;
    try done; auto using smallb_spec, int64b_spec, plainb_spec, small_rowb_spec, in_timeb_spec.
  - lia.
  - left. by eapply bool_decide_eq_true.
Qed.

Fixpoint calls_okb {A} (now : Z) (p : prog A) (w : world Memory) : bool :=
  match p with
  | Ret _ => true
  | Do o k =>
      match o with OStore so => op_okb now (w_store w) so | _ => true end
      && let '(r, w') := step o w in calls_okb now (k r) w'
  end.

Lemma calls_okb_spec {A} now (p : prog A) w : calls_okb now p w = true -> calls_ok now p w.
Proof.
  revert w; induction p as [a|o k IH]; intros w; [done|]. cbn [calls_okb calls_ok].
  rewrite andb_true_iff. intros [H1 H2]. split.
  - destruct o; try done. by apply op_okb_spec.
  - destruct (step o w) as [r w']. by apply IH.
Qed.


(** ** Errors *)

(** What a script can return. *)
Fixpoint leaves {A} (P : A -> Prop) (p : script A) : Prop :=
  match p with
  | Return a => P a
  | Raise _ => True
  | Call c k => forall r, leaves P (k r)
  end.

Lemma leaves_eval {A} (P : A -> Prop) (p : script A) (d : db) a :
  leaves P p -> (eval p d).1 = Ok a -> P a.
Proof.
  revert d; induction p as [x|m|c k IH]; intros d; cbn [leaves eval]; [by intros ? [= <-]|done|].
  intros H. destruct (send c d) as [[r|e] d']; [by apply IH|done].
Qed.

Lemma leaves_bind {A B} (P : B -> Prop) (p : script A) (f : A -> B) :
  (forall a, P (f a)) -> leaves P (sbind p (fun a => Return (f a))).
Proof. intros H. induction p as [a|m|c k IH]; cbn [sbind leaves]; auto. Qed.

(** No method makes up an error of the server. *)
Lemma request_leaves prefix tok o e :
  leaves (fun a => a <> fail_with (ErrBackend e) o) (request prefix tok o).
Proof.
  destruct o; cbn [fail_with]; open_request; try (apply leaves_bind; intros a);
    unfold int_result, zero_result; try (by repeat case_match); cbn [leaves]; intros r; try done;
    by case_match.
Qed.

(** C11: when a method of the Redis store reports an error of the server, a key
    of a foreign type included, every key of the server is as it was: no method
    fails half-way. *)
Theorem redis_errors_change_nothing {R} `{RedisServer R} (r r' : Redis R) o e :
  args_ok o -> timed 0 (view (server r)) -> exec o r = (fail_with (ErrBackend e) o, r') ->
  view (server r') = view (server r).
Proof.
  intros Ha Ht. unfold exec, redis_store.
  destruct (if draws o then _ else _) as [[tk rest]|]; [|by intros [= _ <-]].
  pose proof (atomic_all (prefix r) _ Ht tk o Ha) as Hatomic.
  pose proof (request_leaves (prefix r) tk o e) as Hl.
  destruct (eval_documented (request (prefix r) tk o) (server r)) as [E1 E2].
  destruct (eval _ (server r)) as [a s]. cbn [fst snd] in E1, E2. intros [= Ea <-]. cbn [server].
  rewrite E2. destruct a as [a|e'].
  - destruct (leaves_eval _ _ _ a Hl (eq_sym E1)). done.
  - unfold wp in Hatomic. by rewrite <-E1 in Hatomic.
Qed.

(** A server where somebody has put a string in the place of the cookies. *)
Definition corrupt_server : Redis db :=
  MkRedis (MkDb 1000000000 {[ "gs:sess:sid" := (VHash {[ "owner_id" := "7" ]}, None);
                              "gs:sess:sid:attr" := (VString "x", None) ]}) "gs:" "".

Lemma redis_errors_change_nothing_witness : exists e r',
  exec (StoreApi.DeleteSession "sid") corrupt_server = (Some (ErrBackend e), r')
  /\ view (server r') = view (server corrupt_server).
Proof.
  eexists _, (exec (StoreApi.DeleteSession "sid") corrupt_server).2.
  split; [vm_compute; reflexivity|].
  refine (redis_errors_change_nothing corrupt_server _ (StoreApi.DeleteSession "sid") _ _ _ _).
  - vm_compute. reflexivity.
  - intros k v t E. simpl in E. apply lookup_insert_Some in E as [[_ [=]]|[_ E]].
    apply lookup_singleton_Some in E as [_ [=]].
  - vm_compute. reflexivity.
Defined.

(** ** Locks *)

Lemma hex_digit_inj x y : 0 <= x < 16 -> 0 <= y < 16 -> hex_digit x = hex_digit y -> x = y.
Proof.
  intros Hx Hy E. apply (f_equal byte_val) in E. unfold hex_digit, byte_val, ascii_of_Z in E.
  rewrite !N_ascii_embedding in E by (destruct (Z.ltb_spec x 10), (Z.ltb_spec y 10); lia).
  destruct (Z.ltb_spec x 10), (Z.ltb_spec y 10); lia.
Qed.

Lemma hex_inj s t : hex s = hex t -> s = t.
Proof.
  revert t; induction s as [|a s IH]; intros [|b t]; try done. cbn [hex]. intros [= E1 E2 E].
  f_equal; [|by apply IH]. pose proof (byte_val_range a). pose proof (byte_val_range b).
  apply hex_digit_inj in E1; [|split; [apply Z.div_pos|apply Z.div_lt_upper_bound]; lia..].
  apply hex_digit_inj in E2; [|apply Z.mod_pos_bound; lia..].
  assert (byte_val a = byte_val b) as Eab.
  { rewrite (Z.div_mod (byte_val a) 16), (Z.div_mod (byte_val b) 16) by lia. by rewrite E1, E2. }
  unfold byte_val in Eab. apply N2Z.inj in Eab.
  rewrite <-(ascii_N_embedding a), <-(ascii_N_embedding b). by rewrite Eab.
Qed.

(** An acquired lock: the token is what was drawn, and the lock's key holds it. *)
Lemma lock_acquired {R} `{RedisServer R} (r r' : Redis R) sid ttl tok :
  exec (StoreApi.Lock sid ttl) r = (Ok (Some tok), r') ->
  prefix r' = prefix r /\ val (view (server r')) (lockKey (prefix r) sid) = Some (VString tok)
  /\ exists b rest, take_bytes 16 (rng r) = Some (b, rest) /\ tok = hex b.
Proof.
  unfold exec, redis_store, drawToken. cbn [draws].
  destruct (take_bytes 16 (rng r)) as [[b rest]|] eqn:Eb; [|done]. cbn [fmap option_fmap option_map fst snd].
  destruct (eval_documented (request (prefix r) (hex b) (StoreApi.Lock sid ttl)) (server r)) as [E1 E2].
  destruct (eval _ (server r)) as [a s]. cbn [fst snd] in E1, E2. subst a.
  cbn [request Redis.Lock eval send reference_server documented] in E2 |- *.
  destruct (val (view (server r)) (lockKey (prefix r) sid)) eqn:Ev; [by intros [=]|].
  assert (HS : forall px, set_value (lockKey (prefix r) sid) (hex b) px (view (server r))
    = (Ok tt, put (lockKey (prefix r) sid) (VString (hex b)) (px ≫= fun ms => Z.add (now_ms (view (server r))) <$> ParseInt ms) (view (server r)))
    \/ exists e, set_value (lockKey (prefix r) sid) (hex b) px (view (server r)) = (Err e, view (server r))).
  { intros [ms|]; simpl; [|by left]. destruct (ParseInt ms); simpl; [|eauto]. destruct (0 <? _); eauto. }
  destruct (HS (FormatInt <$> setnx_lifetime ttl)) as [E|[e E]]; rewrite E in *; cbn [fst snd eval] in *;
    [|by intros [=]]. intros [= <- <-]. cbn [prefix server].
  rewrite E2. split_and!; [done| |eauto]. unfold val, put. simpl. by rewrite lookup_insert_eq.
Qed.

Lemma unlock_view {R} `{RedisServer R} (r : Redis R) sid tok v :
  val (view (server r)) (lockKey (prefix r) sid) = Some (VString v) ->
  (exec (StoreApi.Unlock sid tok) r).1 = None
  /\ view (server (exec (StoreApi.Unlock sid tok) r).2)
     = if decide (v = tok) then remove (lockKey (prefix r) sid) (view (server r)) else view (server r).
Proof.
  intros Ev. unfold exec, redis_store. cbn [draws].
  destruct (eval_documented (request (prefix r) "" (StoreApi.Unlock sid tok)) (server r)) as [E1 E2].
  destruct (eval _ (server r)) as [a s]. cbn [fst snd server] in *. rewrite E1, E2. clear E1 E2.
  cbn [request]. unfold unlock, unlockScript. args. cbn [sbind eval send reference_server documented].
  rewrite Ev. case_decide as E.
  - injection E as ->. by rewrite decide_True.
  - rewrite decide_False by congruence. done.
Qed.

(** C12: a lock is released by its holder only.  After one caller's lock [ta] has
    run out and another has taken it ([tb]), the first caller's late unlock
    changes nothing, the lock still excludes everybody, and the holder's own
    unlock frees it; for random sources that drew different bytes. *)
Theorem stale_unlock_harmless {R} `{RedisServer R} (r ra r' rb : Redis R) sid ttl ttl' ta tb :
  prefix r = prefix r' -> exec (StoreApi.Lock sid ttl) r = (Ok (Some ta), ra) ->
  exec (StoreApi.Lock sid ttl') r' = (Ok (Some tb), rb) ->
  fst <$> take_bytes 16 (rng r) <> fst <$> take_bytes 16 (rng r') ->
  ((exec (StoreApi.Unlock sid ta) rb).1 = None
   /\ view (server (exec (StoreApi.Unlock sid ta) rb).2) = view (server rb))
  /\ (forall ttl'', (exec (StoreApi.Lock sid ttl'') rb).1 = Ok None
                    \/ (exec (StoreApi.Lock sid ttl'') rb).1 = Err ErrRand)
  /\ (exec (StoreApi.Unlock sid tb) rb).1 = None
  /\ val (view (server (exec (StoreApi.Unlock sid tb) rb).2)) (lockKey (prefix rb) sid) = None.
Proof.
  intros Hp Ha Hb Hne. apply lock_acquired in Ha as (_ & _ & ba & resta & Ea & ->).
  apply lock_acquired in Hb as (Hpb & Hv & bb & restb & Eb & ->). rewrite <-Hpb in Hv.
  rewrite Ea, Eb in Hne. split_and!.
  - by destruct (unlock_view rb sid (hex ba) _ Hv).
  - destruct (unlock_view rb sid (hex ba) _ Hv) as [_ ->]. rewrite decide_False; [done|].
    intros E%hex_inj. simpl in Hne. congruence.
  - intros ttl''. unfold exec, redis_store, drawToken. cbn [draws].
    destruct (take_bytes 16 (rng rb)) as [[b rest]|]; [left|by right]. cbn [fmap option_fmap option_map fst snd].
    destruct (eval_documented (request (prefix rb) (hex b) (StoreApi.Lock sid ttl'')) (server rb)) as [E1 _].
    destruct (eval _ (server rb)) as [a s]. cbn [fst] in *. rewrite E1.
    cbn [request Redis.Lock eval send reference_server documented]. by rewrite Hv.
  - by destruct (unlock_view rb sid (hex bb) _ Hv).
  - destruct (unlock_view rb sid (hex bb) _ Hv) as [_ ->]. rewrite decide_True by done.
    unfold val, remove. simpl. by rewrite lookup_delete_eq.
Qed.

(** The lock of one visitor expires after five seconds; another takes it. *)
Definition locker (clk : Z) (bytes : string) : Redis db := MkRedis (MkDb clk ∅) "gs:" bytes.

Lemma stale_unlock_harmless_witness :
  let ra := locker 0 "0123456789abcdef" in
  let rb := (exec (StoreApi.Lock "sid" (5 * Second)) (locker 6000000 "fedcba9876543210")).2 in
  view (server (exec (StoreApi.Unlock "sid" (hex "0123456789abcdef")) rb).2) = view (server rb).
Proof.
  intros ra rb.
  refine (proj2 (proj1 (stale_unlock_harmless ra (exec (StoreApi.Lock "sid" (5 * Second)) ra).2
    (locker 6000000 "fedcba9876543210") rb "sid" (5 * Second) (5 * Second)
    (hex "0123456789abcdef") (hex "fedcba9876543210") _ _ _ _)));
    try (vm_compute; reflexivity).
  vm_compute. discriminate.
Defined.

Lemma Milliseconds_int64 d : int64 d -> int64 (Milliseconds d).
Proof. intros Hd%Milliseconds_bound. unfold int64. lia. Qed.

Lemma setnx_lifetime_int64 ttl n : int64 ttl -> setnx_lifetime ttl = Some n -> int64 n.
Proof.
  intros Ht. unfold setnx_lifetime. destruct (_ || _); [done|]. intros [= <-].
  destruct (_ && _); [unfold int64; lia|by apply Milliseconds_int64].
Qed.

Lemma setnx_lifetime_pos ttl n : 0 < ttl -> setnx_lifetime ttl = Some n -> 0 < n.
Proof.
  intros Ht. unfold setnx_lifetime. destruct (_ || _); [done|]. intros [= <-].
  destruct (_ && _) eqn:E; [lia|]. apply andb_false_iff in E. rewrite !Z.ltb_ge in E.
  unfold Milliseconds, Millisecond in *. apply Z.quot_str_pos. lia.
Qed.

(** The row of an acquired lock. *)
Lemma lock_row {R} `{RedisServer R} (r r' : Redis R) sid ttl tok :
  int64 ttl -> exec (StoreApi.Lock sid ttl) r = (Ok (Some tok), r') ->
  rows (view (server r')) !! lockKey (prefix r) sid
  = Some (VString tok, Z.add (now_ms (view (server r'))) <$> setnx_lifetime ttl).
Proof.
  intros Ht. unfold exec, redis_store, drawToken. cbn [draws].
  destruct (take_bytes 16 (rng r)) as [[b rest]|]; [|done]. cbn [fmap option_fmap option_map fst snd].
  destruct (eval_documented (request (prefix r) (hex b) (StoreApi.Lock sid ttl)) (server r)) as [E1 E2].
  destruct (eval _ (server r)) as [a s]. cbn [fst snd] in E1, E2. subst a.
  cbn [request Redis.Lock eval send reference_server documented] in E2 |- *.
  destruct (val (view (server r)) (lockKey (prefix r) sid)); [by intros [=]|].
  unfold set_value in *. destruct (setnx_lifetime ttl) as [n|] eqn:En; cbn [fmap option_fmap option_map] in *.
  - rewrite ParseInt_FormatInt in * by (by eapply setnx_lifetime_int64).
    destruct (0 <? _); [|by intros [=]]. cbn [fst snd eval] in *. intros [= <- <-]. cbn [server].
    rewrite E2. unfold put, now_ms. simpl. by rewrite lookup_insert_eq.
  - cbn [fst snd eval] in *. intros [= <- <-]. cbn [server].
    rewrite E2. unfold put, now_ms. simpl. by rewrite lookup_insert_eq.
Qed.

(** An attempt to lock, for a positive lifetime. *)
Lemma lock_attempt {R} `{RedisServer R} (r : Redis R) sid ttl b rest :
  take_bytes 16 (rng r) = Some (b, rest) -> int64 ttl -> 0 < ttl ->
  (exec (StoreApi.Lock sid ttl) r).1
  = Ok (match val (view (server r)) (lockKey (prefix r) sid) with
        | Some _ => None
        | None => Some (hex b)
        end).
Proof.
  intros Eb Ht Hpos. unfold exec, redis_store, drawToken. cbn [draws]. rewrite Eb.
  cbn [fmap option_fmap option_map fst snd].
  destruct (eval_documented (request (prefix r) (hex b) (StoreApi.Lock sid ttl)) (server r)) as [E1 _].
  destruct (eval _ (server r)) as [a s]. cbn [fst] in *. subst a.
  cbn [request Redis.Lock eval send reference_server documented].
  destruct (val _ _); [done|]. unfold set_value.
  destruct (setnx_lifetime ttl) as [n|] eqn:En; cbn [fmap option_fmap option_map]; [|done].
  rewrite ParseInt_FormatInt by (by eapply setnx_lifetime_int64).
  by rewrite (proj2 (Z.ltb_lt _ _)) by (by eapply setnx_lifetime_pos).
Qed.

(** C37: a lock whose holder has gone away frees itself.  If nothing but time
    passes after an acquisition, every attempt is refused up to the lifetime that
    was asked for and the first attempt after it succeeds (the lifetime in
    milliseconds, at least one; a lock asked for with no lifetime stays). *)
Theorem abandoned_lock_expires {R} `{RedisServer R} (r ra r' : Redis R) sid ttl ttl' tok t b rest :
  int64 ttl -> exec (StoreApi.Lock sid ttl) r = (Ok (Some tok), ra) ->
  prefix r' = prefix r -> view (server r') = advance t (view (server ra)) ->
  take_bytes 16 (rng r') = Some (b, rest) -> int64 ttl' -> 0 < ttl' ->
  (exec (StoreApi.Lock sid ttl') r').1
  = Ok (match setnx_lifetime ttl with
        | Some ms => if decide (now_ms (view (server r')) <= now_ms (view (server ra)) + ms)
                     then None else Some (hex b)
        | None => None
        end).
Proof.
  intros Ht HL Hp Hv Hb Ht' Hpos. rewrite (lock_attempt r' sid ttl' b rest) by done.
  pose proof (lock_row _ _ _ _ _ Ht HL) as Hrow. rewrite Hp, Hv. f_equal.
  unfold val, advance, now_ms. cbn [rows clock]. unfold now_ms in Hrow.
  destruct (setnx_lifetime ttl) as [n|]; cbn [fmap option_fmap option_map] in Hrow.
  2:{ by rewrite (map_lookup_filter_Some_2 _ _ _ _ Hrow). }
  destruct (decide _) as [Hle|Hgt].
  - by rewrite (map_lookup_filter_Some_2 _ _ _ _ Hrow).
  - rewrite map_lookup_filter_None_2; [done|]. right. intros x E. rewrite Hrow in E. by injection E as <-.
Qed.

Lemma abandoned_lock_expires_witness :
  let ra := (exec (StoreApi.Lock "sid" (5 * Second)) (locker 0 "0123456789abcdef")).2 in
  (exec (StoreApi.Lock "sid" Second)
     (MkRedis (advance 5001000 (server ra)) "gs:" "fedcba9876543210")).1
  = Ok (Some (hex "fedcba9876543210")).
Proof.
  intros ra.
  refine (abandoned_lock_expires (locker 0 "0123456789abcdef") ra
    (MkRedis (advance 5001000 (server ra)) "gs:" "fedcba9876543210") "sid" (5 * Second) Second
    (hex "0123456789abcdef") 5001000 "fedcba9876543210" "" _ _ _ _ _ _ _).
  - unfold int64, Second. lia.
  - vm_compute. reflexivity.
  - reflexivity.
  - reflexivity.
  - reflexivity.
  - unfold int64, Second. lia.
  - reflexivity.
Defined.

(** ** Locks and the representation *)

(** The lock rows after one of them changes. *)
Definition set_lock (sid : string) (v : option value) (L : string -> option value) : string -> option value :=
  fun sid' => if decide (sid = sid') then v else L sid'.

Lemma content_set_lock m L sid v ls sl :
  upd (SLock sid) v (content m L) sl = content (set_locks ls m) (set_lock sid v L) sl.
Proof.
  unfold upd, set_lock. destruct sl as [i|i|i|i|k|o|i]; cbn [content set_locks sessions keys cookies shas owners];
    try (by rewrite decide_False by done).
  destruct (decide (sid = i)) as [->|]; [by rewrite decide_True|by rewrite decide_False by congruence].
Qed.

Lemma repr_set_lock prefix L d m d' sid v ls :
  repr prefix L d m -> state prefix 1 (clock d) d' (upd (SLock sid) v (content m L)) ->
  repr prefix (set_lock sid v L) d' (set_locks ls m).
Proof.
  intros [_ Hc Hid Hk] S. pose proof (st_clock S) as EC. split; [| |done..].
  - rewrite EC. eapply state_ext; [|exact S]. intros sl _. apply content_set_lock.
  - unfold now_ms. by rewrite EC.
Qed.

Lemma lock_val {R} `{RedisServer R} L (r : Redis R) m sid :
  represents_at L r m -> val (view (server r)) (lockKey (prefix r) sid) = L sid.
Proof. intros [HR _]. exact (st_val (repr_rows _ _ _ _ HR) (SLock sid) I). Qed.

(** Both stores refuse a lock that is held. *)
Lemma lock_refused {R} `{RedisServer R} L (r : Redis R) m sid ttl b rest :
  represents_at L r m -> take_bytes 16 (rng r) = Some (b, rest) -> sid ∈ locks m ->
  exists r', exec (StoreApi.Lock sid ttl) r = (Ok None, r') /\ represents_at L r' m
    /\ clock (view (server r')) = clock (view (server r)).
Proof.
  intros HR Hb Hin. pose proof (lock_val L r m sid HR) as HV. destruct HR as [HR HL].
  apply HL in Hin as [v Ev]. rewrite Ev in HV.
  unfold exec, redis_store, drawToken. cbn [draws]. rewrite Hb. cbn [fmap option_fmap option_map fst snd].
  destruct (eval_documented (request (prefix r) (hex b) (StoreApi.Lock sid ttl)) (server r)) as [E1 E2].
  destruct (eval _ (server r)) as [a s]. cbn [fst snd] in E1, E2. subst a.
  cbn [request Redis.Lock eval send reference_server documented] in E2 |- *. rewrite HV in *.
  cbn [fst snd eval] in *. eexists. split; [reflexivity|]. unfold represents_at. cbn [prefix server].
  by rewrite E2.
Qed.

(** Both stores grant a lock that is free. *)
Lemma lock_granted {R} `{RedisServer R} L (r : Redis R) m sid ttl b rest :
  represents_at L r m -> take_bytes 16 (rng r) = Some (b, rest) -> int64 ttl -> 0 < ttl -> sid ∉ locks m ->
  exists r', exec (StoreApi.Lock sid ttl) r = (Ok (Some (hex b)), r')
    /\ represents_at (set_lock sid (Some (VString (hex b))) L) r' (set_locks ({[sid]} ∪ locks m) m)
    /\ clock (view (server r')) = clock (view (server r)).
Proof.
  intros HR Hb Ht Hpos Hin. pose proof (lock_val L r m sid HR) as HV. destruct HR as [HR HL].
  assert (L sid = None) as E0 by (apply eq_None_not_Some; by rewrite HL). rewrite E0 in HV.
  pose proof (lock_attempt r sid ttl b rest Hb Ht Hpos) as HA. rewrite HV in HA.
  destruct (exec (StoreApi.Lock sid ttl) r) as [a r'] eqn:E. cbn [fst] in HA. subst a.
  pose proof (lock_acquired _ _ _ _ _ E) as (Hp & _).
  exists r'. split; [done|].
  unfold exec, redis_store, drawToken in E. cbn [draws] in E. rewrite Hb in E. cbn [fmap option_fmap option_map fst snd] in E.
  destruct (eval_documented (request (prefix r) (hex b) (StoreApi.Lock sid ttl)) (server r)) as [E1 E2].
  pose proof (eval_clock (request (prefix r) (hex b) (StoreApi.Lock sid ttl)) (view (server r))) as EC.
  rewrite <-E2 in EC. destruct (eval _ (server r)) as [a s]. cbn [fst snd] in E1, E2, EC.
  injection E as _ <-. cbn [server prefix] in *. split; [|done].
  cbn [request Redis.Lock eval send reference_server documented] in E2. rewrite HV in E2.
  split; cbn [server prefix].
  - apply repr_set_lock with (d := view (server r)); [done|]. pose proof (repr_rows _ _ _ _ HR) as S.
    assert (HT : exists e, view s = put (lockKey (prefix r) sid) (VString (hex b)) e (view (server r))
      /\ match e with Some e => now_ms (view (server r)) + 1 <= e <= now_ms (view (server r)) + 2 ^ 61 | None => True end).
    { unfold set_value in E2. destruct (setnx_lifetime ttl) as [n|] eqn:En; cbn [fmap option_fmap option_map] in E2.
      - pose proof (setnx_lifetime_pos _ _ Hpos En) as Hn.
        rewrite ParseInt_FormatInt in E2 by (by eapply setnx_lifetime_int64).
        rewrite (proj2 (Z.ltb_lt _ _) Hn) in E2. eexists. split; [exact E2|].
        pose proof (Milliseconds_bound _ Ht). unfold setnx_lifetime in En.
        destruct (_ || _); [done|]. injection En as <-. destruct (_ && _); lia.
      - exists None. split; [exact E2|done]. }
    destruct HT as (e & -> & He). by apply (state_put (prefix r) 1 _ _ _ (SLock sid)).
  - intros sid'. unfold set_lock. simpl. rewrite elem_of_union, elem_of_singleton, <-HL.
    case_decide; [subst; split; [auto|eauto]|]. split; [auto|]. intros [?|?]; [congruence|done].
Qed.

(** Both stores release the lock of its holder. *)
Lemma unlock_released {R} `{RedisServer R} L (r : Redis R) m sid tok :
  represents_at L r m -> L sid = Some (VString tok) ->
  exists r', exec (StoreApi.Unlock sid tok) r = (None, r')
    /\ represents_at (set_lock sid None L) r' (set_locks (locks m ∖ {[sid]}) m)
    /\ clock (view (server r')) = clock (view (server r)).
Proof.
  intros HR Ev. pose proof (lock_val L r m sid HR) as HV. rewrite Ev in HV.
  destruct (unlock_view r sid tok tok HV) as [H1 H2]. rewrite decide_True in H2 by done.
  assert (HP : prefix (exec (StoreApi.Unlock sid tok) r).2 = prefix r).
  { unfold exec, redis_store. cbn [draws]. by destruct (eval _ _). }
  destruct (exec (StoreApi.Unlock sid tok) r) as [a r']. cbn [fst snd] in *. subst a.
  destruct HR as [HR HL]. exists r'. split; [done|]. rewrite H2. split; [split|done].
  - rewrite HP, H2. apply repr_set_lock with (d := view (server r)); [done|].
    apply (state_remove (prefix r) 1 _ _ _ (SLock sid)); [done|]. apply (repr_rows _ _ _ _ HR).
  - intros sid'. unfold set_lock. simpl. rewrite elem_of_difference, elem_of_singleton, <-HL.
    case_decide; [subst; split; [by intros [? [=]]|tauto]|]. split; [auto|tauto].
Qed.
