(* ===== verification/RedisSystem.v ===== *)
(** * A whole request over Redis

    The production system is the handler over the Redis store.  Serving a request
    meets the conditions under which the two stores agree: identifiers are freshly
    drawn or were stored, and deadlines are not past because the manager checked
    them against the same clock.  So a request is answered from Redis exactly as
    it is from the in-memory store, and the theorems proved there carry over. *)

From stdpp Require Import base gmap strings list.
From Stdlib Require Import ZArith Lia.
From S2P Require Import Prelude GoStrings GoStrconv Crypto GoTime StoreApi Memory MemoryProps Manager ManagerThms Lifetimes.
From S2P Require Import GoDuration Http HttpProps Cookies Staging Handler Serve HandlerThms ServeThms RedisApi RedisStore RedisProps RedisRefine RedisControls RedisThms.
Import Memory MemoryProps.
#[local] Existing Instance Redis.redis_store.
Local Open Scope Z_scope.
Local Open Scope prog_scope.

Section Agree.
(** The time of the request, and whether sessions are synchronized. *)
Context {R : Type} `{RedisServer R} (t : Z) (sync : bool).

(** The server's clock, in milliseconds, is the proxy's. *)
Notation now_ms_t := (t / 1000000).

(** The ends [x] and [y] of two runs agree, with the lock rows [L]. *)
Definition ends {A} (L : string -> option value) (x : A * world (Redis.Redis R)) (y : A * world Memory) : Prop :=
  x.1 = y.1 /\ represents_at L (w_store x.2) (w_store y.2)
  /\ now_ms (view (Redis.server (w_store x.2))) = now_ms_t
  /\ w_clock x.2 = t /\ w_clock y.2 = t /\ w_rng x.2 = w_rng y.2.

(** Both runs of [p], which takes no lock, from [m] and from any database that
    represents it, return the same, end in related states with every lock as it
    was, and [Q] holds of the end. *)
Definition agree {A} (p : prog A) (Q : A -> Memory -> string -> Prop) (m : Memory) (rng : string) : Prop :=
  forall L (r : Redis.Redis R),
    represents_at L r m -> now_ms (view (Redis.server r)) = now_ms_t ->
    let x := run p (MkWorld r t rng) in
    let y := run p (MkWorld m t rng) in
    ends L x y /\ Redis.rng (w_store x.2) = Redis.rng r /\ Q y.1 (w_store y.2) (w_rng y.2).

(** The same of a program that may take one lock, for which (when sessions are
    synchronized) the store's own random source has the bytes of a token. *)
Definition agree_locking {A} (p : prog A) (Q : A -> Memory -> string -> Prop) (m : Memory) (rng : string) : Prop :=
  forall L (r : Redis.Redis R),
    represents_at L r m -> now_ms (view (Redis.server r)) = now_ms_t ->
    (sync = true -> (16 <= String.length (Redis.rng r))%nat) ->
    let x := run p (MkWorld r t rng) in
    let y := run p (MkWorld m t rng) in
    (exists L', ends L' x y) /\ Q y.1 (w_store y.2) (w_rng y.2).

Lemma agree_ret {A} (a : A) (Q : A -> Memory -> string -> Prop) m rng :
  Q a m rng -> agree (Ret a) Q m rng.
Proof. intros HQ L r HR Hc. cbn. by split_and!. Qed.

Lemma agree_mono {A} (p : prog A) (Q Q' : A -> Memory -> string -> Prop) m rng :
  agree p Q m rng -> (forall a m' rng', Q a m' rng' -> Q' a m' rng') -> agree p Q' m rng.
Proof. intros Hp HQ L r HR Hc. destruct (Hp L r HR Hc) as (? & ? & ?). split_and!; auto. Qed.

Lemma agree_bind {A B} (p : prog A) (f : A -> prog B) Q m rng :
  agree p (fun a m' rng' => agree (f a) Q m' rng') m rng -> agree (bind p f) Q m rng.
Proof.
  intros Hp L r HR Hc. cbv zeta. rewrite !run_bind. specialize (Hp L r HR Hc). cbv zeta in Hp.
  destruct (run p (MkWorld r t rng)) as [a [r' c' g']], (run p (MkWorld m t rng)) as [b [m' c'' g'']].
  unfold ends in Hp. cbn [fst snd w_store w_clock w_rng] in Hp.
  destruct Hp as ((-> & HR' & Hc' & -> & -> & ->) & Hg & Hf).
  destruct (Hf L r' HR' Hc') as (He & Hg' & HQ). rewrite Hg' in *. by split_and!.
Qed.

Lemma agree_lock_free {A} (p : prog A) Q m rng : agree p Q m rng -> agree_locking p Q m rng.
Proof. intros Hp L r HR Hc _. destruct (Hp L r HR Hc) as (? & _ & ?). cbv zeta. eauto. Qed.

(** The lock is taken in the second part, or in the first. *)
Lemma agree_locking_bind {A B} (p : prog A) (f : A -> prog B) Q m rng :
  agree p (fun a m' rng' => agree_locking (f a) Q m' rng') m rng -> agree_locking (bind p f) Q m rng.
Proof.
  intros Hp L r HR Hc Hn. cbv zeta. rewrite !run_bind. specialize (Hp L r HR Hc). cbv zeta in Hp.
  destruct (run p (MkWorld r t rng)) as [a [r' c' g']], (run p (MkWorld m t rng)) as [b [m' c'' g'']].
  unfold ends in Hp. cbn [fst snd w_store w_clock w_rng] in Hp.
  destruct Hp as ((-> & HR' & Hc' & -> & -> & ->) & Hg & Hf). apply (Hf L r' HR' Hc'). by rewrite Hg.
Qed.

Lemma agree_locking_then {A B} (p : prog A) (f : A -> prog B) Q m rng :
  agree_locking p (fun a m' rng' => agree (f a) Q m' rng') m rng -> agree_locking (bind p f) Q m rng.
Proof.
  intros Hp L r HR Hc Hn. cbv zeta. rewrite !run_bind. specialize (Hp L r HR Hc Hn). cbv zeta in Hp.
  destruct (run p (MkWorld r t rng)) as [a [r' c' g']], (run p (MkWorld m t rng)) as [b [m' c'' g'']].
  unfold ends in Hp. cbn [fst snd w_store w_clock w_rng] in Hp.
  destruct Hp as ((L' & -> & HR' & Hc' & -> & -> & ->) & Hf).
  destruct (Hf L' r' HR' Hc') as (? & _ & ?). eauto.
Qed.

(** A store call that [op_ok] admits. *)
Lemma agree_call o (Q : store_ret o -> Memory -> string -> Prop) m rng :
  op_ok now_ms_t m o -> Q (exec o m).1 (exec o m).2 rng -> agree (call o) Q m rng.
Proof.
  intros Hok HQ L r HR Hc. cbv zeta. cbn [call run step w_store w_clock w_rng]. rewrite <-Hc in Hok.
  pose proof (exec_refines L r m o HR Hok) as Hx. unfold ends.
  destruct (exec o r) as [a r'], (exec o m) as [b m']. cbn [fst snd w_store w_clock w_rng] in *.
  destruct Hx as (-> & HR' & Hg & Hcl). split_and!; try done. unfold now_ms in *. by rewrite Hcl.
Qed.

(** The body of [WithLock] runs under the lock in both stores, or in neither. *)
Lemma agree_WithLock {A} cfg sid (fn : prog (option error * A)) skipped
    (Q : option error * A -> Memory -> string -> Prop) m rng :
  Manager.Synchronize cfg = sync -> (forall ls, agree fn (fun _ _ _ => True) (set_locks ls m) rng) ->
  (forall res m' rng', Q res m' rng') ->
  agree_locking (Manager.WithLock cfg sid fn skipped) Q m rng.
Proof.
  intros Hsync Hfn HQ. unfold Manager.WithLock. rewrite Hsync. destruct sync eqn:Es; cbn [negb].
  2:{ apply agree_lock_free. eapply agree_mono; [|intros; apply HQ].
    specialize (Hfn (locks m)). by destruct m. }
  intros L r HR Hc Hn. cbv zeta. split; [|apply HQ].
  destruct (take_bytes_long 16 (Redis.rng r) (Hn Es)) as (b & rest & Eb).
  unfold call. cbn [bind run step w_store w_clock w_rng].
  destruct (decide (sid ∈ locks m)) as [Hin|Hin].
  { destruct (lock_refused L r m sid (5 * Second) b rest HR Eb Hin) as (r' & -> & HR' & Hcl).
    cbn [exec memory_store]. unfold Memory.Lock. rewrite decide_True by done. cbn [bind run].
    exists L. unfold ends. cbn. split_and!; try done. unfold now_ms in *. by rewrite Hcl. }
  destruct (lock_granted L r m sid (5 * Second) b rest HR Eb) as (r1 & -> & HR1 & Hc1);
    [unfold int64, Second; lia|unfold Second; lia|done|].
  cbn [exec memory_store]. unfold Memory.Lock. rewrite decide_False by done. cbn [bind run].
  rewrite !run_bind.
  assert (now_ms (view (Redis.server r1)) = now_ms_t) as Hn1 by (unfold now_ms in *; by rewrite Hc1).
  destruct (Hfn ({[sid]} ∪ locks m) _ r1 HR1 Hn1) as ((E & HR2 & Hc2 & Ec & Ec' & Eg) & _ & _).
  destruct (run fn (MkWorld r1 t rng)) as [a [r2 c2 g2]],
    (run fn (MkWorld (set_locks ({[sid]} ∪ locks m) m) t rng)) as [a' [m2 c2' g2']].
  cbn [fst snd w_store w_clock w_rng] in *. subst.
  destruct (unlock_released _ r2 m2 sid (Redis.hex b) HR2) as (r3 & E3 & HR3 & Hc3).
  { unfold set_lock. by rewrite decide_True. }
  cbn [bind run step w_store w_clock w_rng]. rewrite E3. cbn [exec memory_store]. unfold Memory.unlock.
  cbn [bind run]. eexists. unfold ends. cbn [fst snd w_store w_clock w_rng].
  split_and!; [done|exact HR3|by unfold now_ms in *; rewrite Hc3|done..].
Qed.

Lemma agree_unix_now Q m rng : Q (Unix t) m rng -> agree Manager.unix_now Q m rng.
Proof. intros HQ L r HR Hc. cbn. by split_and!. Qed.

Lemma agree_now Q m rng : Q t m rng -> agree now Q m rng.
Proof. intros HQ L r HR Hc. cbn. by split_and!. Qed.

Lemma agree_newID Q m rng :
  (forall b rest, take_bytes 32 rng = Some (b, rest) -> Q (Ok (base64_rawurl b)) m rest) ->
  Q (Err ErrRand) m "" -> agree Manager.newID Q m rng.
Proof.
  intros HQ HE L r HR Hc. unfold Manager.newID, read_rand. cbn [bind run step w_rng w_store w_clock].
  destruct (take_bytes 32 rng) as [[b rest]|] eqn:E; unfold ends; cbn; split_and!; auto.
Qed.

(** What a representable store looks like. *)
Record shape (m : Memory) : Prop := {
  shape_row sid s : sessions m !! sid = Some s -> ID s = sid /\ plain sid /\ small_row s;
  shape_key k sid : keys m !! k = Some sid -> plain sid }.

Lemma agree_shape {A} (p : prog A) Q m rng : (shape m -> agree p Q m rng) -> agree p Q m rng.
Proof.
  intros Hp L r HR Hc. pose proof HR as [[_ _ H1 H2] _].
  exact (Hp {| shape_row := H1; shape_key := H2 |} L r HR Hc).
Qed.

(** ** The state a request finds and leaves *)

(** Rows with times until 2106 and an inactive timeout. *)
Definition tidy (m : Memory) : Prop :=
  forall sid s, sessions m !! sid = Some s -> sane s (Unix t) /\ 0 < InactiveTimeout s.

(** No identifier the random source will give names a session already. *)
Definition unused (m : Memory) (rng : string) : Prop :=
  forall a b c, rng = a +:+ b +:+ c -> String.length b = 32%nat -> keys m !! base64_rawurl b = None.

(** The session of a handle is stored under a drawn identifier and not expired. *)
Definition held (l : Manager.Live) (m : Memory) : Prop :=
  plain (Manager.l_SessionID l)
  /\ forall s, sessions m !! Manager.l_SessionID l = Some s -> Manager.expired s (Unix t) = false.

Lemma clocks : Unix t * 1000 <= now_ms_t < Unix t * 1000 + 1000.
Proof.
  unfold Unix, Second. pose proof (Z.div_mod t 1000000 ltac:(lia)). pose proof (Z.mod_pos_bound t 1000000 ltac:(lia)).
  pose proof (Z.div_mod t 1000000000 ltac:(lia)). pose proof (Z.mod_pos_bound t 1000000000 ltac:(lia)). lia.
Qed.

Lemma Milliseconds_seconds n : Milliseconds (n * Second) = n * 1000.
Proof.
  unfold Milliseconds, Second, Millisecond. replace (n * 1000000000) with (n * 1000 * 1000000) by lia.
  apply Z.quot_mul. lia.
Qed.

Lemma ttl_int64 s now : int64 (Manager.ttl s now).
Proof. unfold Manager.ttl, of_seconds. case_match; apply wrap64_range. Qed.

(** A session that is not expired is in time for a write with the manager's time
    to live. *)
Lemma live_in_time s s' access :
  sane s (Unix t) -> 0 < InactiveTimeout s -> Manager.expired s (Unix t) = false ->
  Creation s' = Creation s -> InactiveTimeout s' = InactiveTimeout s -> FinalTimeout s' = FinalTimeout s ->
  0 < session_ttl now_ms_t s access (Milliseconds (Manager.ttl s' (Unix t))).
Proof.
  intros Hs Hi He E1 E2 E3. pose proof clocks as Hc.
  assert (Manager.ttl s' (Unix t) = Manager.ttl s (Unix t)) as ->.
  { unfold Manager.ttl. by rewrite E1, E2, E3. }
  assert (~ (LastAccess s + InactiveTimeout s <= Unix t \/ Creation s + FinalTimeout s <= Unix t)) as Hx.
  { rewrite <-expired_spec by done. by rewrite He. }
  rewrite ttl_spec, Milliseconds_seconds by done. unfold session_ttl.
  repeat case_match; rewrite ?andb_true_iff, ?andb_false_iff, ?Z.ltb_lt, ?Z.ltb_ge in *; lia.
Qed.

Lemma tidy_subset m m' :
  tidy m -> (forall sid s, sessions m' !! sid = Some s -> sessions m !! sid = Some s) -> tidy m'.
Proof. intros Ht Hm sid s Es. by apply (Ht sid), Hm. Qed.

Lemma unused_subset m m' rng :
  unused m rng -> (forall k sid, keys m' !! k = Some sid -> keys m !! k = Some sid) -> unused m' rng.
Proof.
  intros Hu Hm a b c E Hb. specialize (Hu a b c E Hb).
  destruct (keys m' !! base64_rawurl b) eqn:Ek; [|done]. apply Hm in Ek. congruence.
Qed.

Lemma small_sane z : sane_seconds z -> small z.
Proof. unfold sane_seconds, small. lia. Qed.

Lemma touched_alive cfg s :
  sane s (Unix t) -> 0 < InactiveTimeout s -> Manager.expired s (Unix t) = false ->
  sane (touched cfg s (Unix t)) (Unix t) /\ Manager.expired (touched cfg s (Unix t)) (Unix t) = false.
Proof.
  intros Hs Hi He.
  assert (Hs' : sane (touched cfg s (Unix t)) (Unix t)).
  { destruct Hs. constructor; try done. cbn. unfold sane_seconds in *. lia. }
  split; [done|]. apply not_true_is_false. rewrite expired_spec by done. cbn.
  assert (~ (LastAccess s + InactiveTimeout s <= Unix t \/ Creation s + FinalTimeout s <= Unix t)) as Hx.
  { rewrite <-expired_spec by done. by rewrite He. }
  lia.
Qed.

Section Manager.
Context (cfg : Manager.Config).

Lemma agree_Resolve k Q m rng :
  tidy m ->
  (forall res m', tidy m' -> (unused m rng -> unused m' rng) ->
     match res with Ok (Some l) => held l m' | _ => True end -> Q res m' rng) ->
  agree (Manager.Resolve cfg k) Q m rng.
Proof.
  intros Ht HQ. apply agree_shape. intros Hm. unfold Manager.Resolve.
  apply agree_bind, agree_call; [done|]. cbn [exec memory_store]. unfold Memory.GetKey.
  destruct (keys m !! k) as [sid|] eqn:Hk; cbn [fst snd]; [|apply agree_ret; by apply HQ].
  pose proof (shape_key m Hm _ _ Hk) as Hp.
  apply agree_bind, agree_call; [done|]. cbn [exec memory_store]. unfold Memory.GetSession.
  destruct (sessions m !! sid) as [s|] eqn:Hs; cbn [fst snd]; [|apply agree_ret; by apply HQ].
  destruct (Ht sid s Hs) as [Hsane Hi]. destruct (shape_row m Hm _ _ Hs) as (_ & _ & Hrow).
  apply agree_bind, agree_unix_now. destruct (Manager.expired s (Unix t)) eqn:He.
  { apply agree_bind, agree_call; [done|]. apply agree_ret, HQ; [| |done].
    - eapply tidy_subset; [done|]. intros sid' s'. cbn. by intros [_ ?]%lookup_delete_Some.
    - intros Hu. eapply unused_subset; [done|]. intros k' sid'. cbn. unfold drop_keys.
      by intros [? _]%map_lookup_filter_Some. }
  pose proof (touch_touched cfg s sid k m (Unix t) Hs Hk) as HT.
  assert (Hlr : small (LastRotation (Manager.rotation_due cfg s (Unix t)).1)).
  { unfold Manager.rotation_due. repeat case_match; cbn; try apply Hrow. apply small_sane, Hsane. }
  assert (Hsess : with_LastAccess (Unix t) (Manager.rotation_due cfg s (Unix t)).1
    = with_LastRotation (LastRotation (Manager.rotation_due cfg s (Unix t)).1) (with_LastAccess (Unix t) s)).
  { unfold Manager.rotation_due. repeat case_match; by destruct s. }
  destruct (Manager.rotation_due cfg s (Unix t)) as [s' due]. cbn [fst] in *. cbv beta iota zeta.
  rewrite Hsess. cbn [LastAccess LastRotation with_LastRotation with_LastAccess].
  destruct (touched_alive cfg s Hsane Hi He) as [Hsane' He'].
  apply agree_bind, agree_call.
  { cbn. split_and!; [done|apply small_sane, Hsane|done|apply ttl_int64|].
    intros s0 Es0. rewrite Hs in Es0. injection Es0 as <-. by apply live_in_time. }
  cbn [exec memory_store]. rewrite HT. cbn [fst snd].
  apply agree_bind, agree_call; [done|]. cbn [exec memory_store]. unfold Memory.GetCookies. cbn [fst snd].
  apply agree_bind, agree_call; [done|]. cbn [exec memory_store]. unfold Memory.CookieSHAs. cbn [fst snd].
  apply agree_ret, HQ.
  - intros sid' s0. cbn. rewrite lookup_insert. case_decide; [intros [= <-]|apply Ht]. done.
  - done.
  - split; [done|]. cbn. intros s0. rewrite lookup_insert_eq. by intros [= <-].
Qed.

(** Timeouts of at least a second, until 2106. *)
Definition timeouts_ok : Prop :=
  sane_seconds (Unix t) /\ 0 < Seconds (Manager.Inactive cfg) < 2 ^ 32 /\ 0 < Seconds (Manager.Final cfg) < 2 ^ 32.

Lemma take_bytes_split n s b rest : take_bytes n s = Some (b, rest) -> s = b +:+ rest.
Proof.
  revert s b; induction n as [|n IH]; intros s b; simpl; [by intros [= <- <-]|].
  destruct s as [|c s]; [done|]. destruct (take_bytes n s) as [[b' r']|] eqn:E; [|done].
  intros [= <- <-]. by rewrite (IH _ _ E).
Qed.

Lemma agree_Begin Q m rng :
  timeouts_ok -> tidy m -> unused m rng ->
  (forall e m' rng', Q (Err e) m' rng') ->
  (forall l m' rng', held l m' -> tidy m' -> Q (Ok l) m' rng') ->
  agree (Manager.Begin cfg) Q m rng.
Proof.
  intros (Hn & Hi & Hf) Ht Hu HE HQ. unfold Manager.Begin. apply agree_bind, agree_unix_now.
  apply agree_bind, agree_newID; [|by apply agree_ret]. intros b1 rest1 E1.
  apply agree_bind, agree_newID; [|by apply agree_ret]. intros b2 rest2 E2.
  assert (Hfree : keys m !! base64_rawurl b2 = None).
  { apply (Hu b1 b2 rest2); [|by eapply take_bytes_length].
    rewrite (take_bytes_split _ _ _ _ E1), (take_bytes_split _ _ _ _ E2). done. }
  cbv zeta. set (s := MkSession _ _ _ _ _ _ _ _).
  assert (Hs : sane s (Unix t)) by (unfold s, sane_seconds in *; constructor; cbn; unfold sane_seconds; lia).
  assert (He : Manager.expired s (Unix t) = false).
  { apply not_true_is_false. rewrite expired_spec by done. cbn. lia. }
  apply agree_bind, agree_call.
  { cbn. split_and!; [apply base64_plain| |apply ttl_int64].
    unfold sane_seconds in Hn. constructor; cbn; unfold small, int64; lia. }
  cbn [exec memory_store]. unfold Memory.PutSession. cbn [fst snd ID].
  apply agree_bind, agree_call.
  { cbn. split; [apply base64_plain|by left]. }
  cbn [exec memory_store]. unfold Memory.PutKey. cbn [sessions set_sessions].
  rewrite lookup_insert_eq. cbn [fst snd]. apply agree_ret, HQ.
  - split; [apply base64_plain|]. cbn. intros s0. rewrite lookup_insert_eq. by intros [= <-].
  - intros sid s0. cbn. rewrite lookup_insert. case_decide; [intros [= <-]|apply Ht].
    split; [done|]. cbn. lia.
Qed.

Lemma agree_applyControls o ls f p muts l Q m rng :
  sane_seconds (Unix t) -> tidy m -> held l m -> (forall z, o = Some z -> int64 z) -> Z.of_nat (length muts) <= 2 ^ 53 ->
  (forall res m' rng', Q res m' rng') ->
  agree (Manager.applyControls cfg o ls f p muts l) Q m rng.
Proof.
  intros Hn Ht [Hp Ha] Ho Hlen HQ. unfold Manager.applyControls. apply agree_bind, agree_unix_now.
  apply agree_bind, agree_call; [done|]. cbn [exec memory_store]. unfold Memory.GetSession.
  destruct (sessions m !! Manager.l_SessionID l) as [s|] eqn:Hs; cbn [fst snd]; [|by apply agree_ret].
  cbv zeta. destruct (_ && _ && _ && _); [by apply agree_ret|].
  set (la := if _ || _ then Unix t else 0). set (rot := Manager.rotate_wanted _ _ _ _ _ _ _ _).
  assert (Hla : small la) by (unfold la; case_match; [by apply small_sane|unfold small; lia]).
  apply agree_bind.
  assert (HC : forall newKey (rng' : string), agree
    (let* e := call (StoreApi.ApplySessionControls (Manager.l_SessionID l)
       (MkControls (Manager.owner_changed o s) (default 0 o) (Manager.labels_changed ls s)
          (match ls with Some ls => Manager.normalizeLabels ls | None => "" end) la
          (if rot then Unix t else 0) (Manager.l_KeyID l) newKey rot (Manager.to_store_mutation <$> muts))
       (Manager.ttl (with_LastAccess (Z.max (LastAccess s) la) s) (Unix t))
       (of_seconds (FinalTimeout (with_LastAccess (Z.max (LastAccess s) la) s)))) in
     match e with
     | Some e => Ret (Some e, l)
     | None => Ret (None, let l := foldl Manager.apply_local (Manager.set_labels_opt ls (Manager.set_owner_opt o l))
                       (Manager.to_store_mutation <$> muts) in if rot then Manager.set_key newKey newKey true l else l)
     end) Q m rng').
  { intros newKey rng'. destruct (Ht _ _ Hs) as [Hsane Hi]. apply agree_bind, agree_call.
    - cbn [op_ok c_LastAccess c_LastRotation c_OwnerID c_Cookies]. split_and!; [done|done| | |apply ttl_int64|apply wrap64_range| |].
      + case_match; [by apply small_sane|unfold small; lia].
      + destruct o as [z|]; [by apply Ho|]. cbn. unfold int64. lia.
      + by rewrite length_fmap.
      + intros s0 Es. rewrite Hs in Es. injection Es as <-. apply live_in_time; auto.
    - destruct ((exec _ m).1); by apply agree_ret. }
  destruct rot.
  - apply agree_newID; [|by apply agree_ret]. intros b rest _. apply HC.
  - apply agree_ret. apply HC.
Qed.

Lemma agree_Revoke l Q m rng :
  plain (Manager.l_SessionID l) -> (forall res m' rng', Q res m' rng') -> agree (Manager.Revoke l) Q m rng.
Proof.
  intros Hp HQ. unfold Manager.Revoke. apply agree_bind, agree_call; [done|]. by apply agree_ret.
Qed.
End Manager.

(** ** The response pipeline *)

Section Handler.
Context (date : string -> option Z) (h : Handler.Handler).
Hypothesis timeouts : timeouts_ok (Handler.manager h).
Hypothesis synced : Manager.Synchronize (Handler.manager h) = sync.

(** The handle of a request, if it has one yet, and the store. *)
Definition context (lo : option Manager.Live) (m : Memory) (rng : string) : Prop :=
  tidy m /\ (lo = None -> unused m rng) /\ (forall l, lo = Some l -> held l m).

Lemma agree_ensureLive lo Q m rng :
  context lo m rng -> (forall e m' rng', Q (Err e) m' rng') ->
  (forall l m' rng', context (Some l) m' rng' -> Q (Ok l) m' rng') ->
  agree (Handler.ensureLive h lo) Q m rng.
Proof.
  intros (Ht & Hu & Hl) HE HQ. destruct lo as [l|]; cbn [Handler.ensureLive].
  - apply agree_ret, HQ. by split_and!.
  - apply agree_Begin; auto. intros l m' rng' Hh Ht'. apply HQ. split_and!; [done..|]. by intros l' [= <-].
Qed.

Lemma agree_cookie_loop scs lo hdr muts Q m rng :
  context lo m rng ->
  (forall e lo' hdr' muts' m' rng',
     (e = None -> context lo' m' rng' /\ (length muts' <= length muts + length scs)%nat) ->
     Q (e, lo', hdr', muts') m' rng') ->
  agree (Handler.cookie_loop date h scs lo hdr muts) Q m rng.
Proof.
  revert lo hdr muts m rng. induction scs as [|sc scs IH]; intros lo hdr muts m rng HC HQ;
    cbn [Handler.cookie_loop].
  { apply agree_ret, HQ. intros _. split; [done|]. simpl. lia. }
  assert (HIH : forall lo' hdr' muts' m' rng', context lo' m' rng' -> (length muts' <= S (length muts))%nat ->
    agree (Handler.cookie_loop date h scs lo' hdr' muts') Q m' rng').
  { intros lo' hdr' muts' m' rng' HC' Hl. apply IH; [done|]. intros e lo2 hdr2 muts2 m2 rng2 HE.
    apply HQ. intros E. destruct (HE E). split; [done|]. simpl. lia. }
  destruct (ParseSetCookie date sc) as [cookie|]; [|apply HIH; auto].
  destruct (Filter.Filter.Decide _ _); [apply HIH; auto|apply HIH; auto|].
  apply agree_bind, agree_now. destruct (cookieDeletesNow _ _ _).
  { apply HIH; [done|]. destruct lo; rewrite ?length_app; simpl; lia. }
  apply agree_bind, agree_ensureLive; [done|intros; by apply agree_ret, HQ|].
  intros l m' rng' HC'. apply HIH; [done|]. rewrite length_app. simpl. lia.
Qed.

Lemma agree_commit owner labels rot muts lo hdr Q m rng :
  context lo m rng -> (forall z, owner = Some z -> int64 z) -> Z.of_nat (length muts) <= 2 ^ 53 ->
  (forall res m' rng', Q res m' rng') ->
  agree (Handler.commit_response h owner labels rot muts lo hdr) Q m rng.
Proof.
  intros HC Ho Hlen HQ. unfold Handler.commit_response. cbv zeta.
  set (wanted := match owner with Some _ => true | None => _ end).
  apply agree_bind.
  assert (HA : forall l m' rng', context (Some l) m' rng' -> agree
    (let* (e, l) := Manager.ApplyResponse (Handler.manager h) owner labels rot muts l in
     match e with
     | Some e => Ret (Some e, Some l, hdr)
     | None =>
         let '(val, changed) := Manager.NewProxyCookie l in
         Ret (None, Some l, if (changed : bool) then Add hdr "Set-Cookie" (buildProxyCookie (Handler.Cookie h) val) else hdr)
     end) Q m' rng').
  { intros l m' rng' (Ht & _ & Hl). apply agree_bind, agree_applyControls; auto; [apply timeouts|].
    intros [[e|] l'] m2 rng2; [by apply agree_ret|]. destruct (Manager.NewProxyCookie l'). by apply agree_ret. }
  destruct lo as [l|]; [apply agree_ret; by apply HA|].
  destruct wanted; [|apply agree_ret; by apply agree_ret].
  apply agree_bind, agree_ensureLive; [done|intros; apply agree_ret; by apply agree_ret|].
  intros l m' rng' HC'. apply agree_ret. by apply HA.
Qed.

Lemma ParseInt_int64 s n : ParseInt s = Some n -> int64 n.
Proof.
  assert (HD : forall ds x, digits ds = Some x -> 0 <= x).
  { intros ds x. unfold digits. case_decide; [done|]. apply digits_go_le. lia. }
  assert (Hpos : forall ds, (x ← digits ds; if x <? 2 ^ 63 then Some x else None) = Some n -> int64 n).
  { intros ds. destruct (digits ds) as [x|] eqn:E; cbn; [|done]. apply HD in E.
    destruct (Z.ltb_spec x (2 ^ 63)); [|done]. intros [= <-]. unfold int64. lia. }
  assert (Hneg : forall ds, (x ← digits ds; if x <=? 2 ^ 63 then Some (- x) else None) = Some n -> int64 n).
  { intros ds. destruct (digits ds) as [x|] eqn:E; cbn; [|done]. apply HD in E.
    destruct (Z.leb_spec x (2 ^ 63)); [|done]. intros [= <-]. unfold int64. lia. }
  unfold ParseInt. destruct s as [|[[] [] [] [] [] [] [] []] s]; first [apply Hpos|apply Hneg].
Qed.

Lemma owner_control_int64 raw z : Handler.owner_control raw = Some z -> int64 z.
Proof.
  unfold Handler.owner_control. case_decide; [done|]. destruct (ParseInt raw) as [n|] eqn:E; [|done].
  case_match; [|done]. intros [= <-]. by eapply ParseInt_int64.
Qed.

Definition few (hdr : Header) : Prop := Z.of_nat (length (Values hdr "Set-Cookie")) <= 2 ^ 53.

Lemma agree_processLocked i Q m rng :
  context (Handler.live i) m rng -> few (Handler.responseHeader i) -> (forall res m' rng', Q res m' rng') ->
  agree (Handler.processLocked date h i) Q m rng.
Proof.
  intros HC Hfew HQ. unfold Handler.processLocked. cbv zeta. destruct (Handler.revokeRequested i).
  - unfold Handler.process_revoke. cbv zeta. apply agree_bind.
    destruct HC as (_ & _ & Hl). destruct (Handler.live i) as [l|].
    + apply agree_bind, agree_Revoke; [by apply Hl|]. intros [[e|] l'] m' rng'; by apply agree_ret, agree_ret.
    + by apply agree_ret, agree_ret.
  - apply agree_bind, agree_cookie_loop; [done|]. intros e lo' hdr' muts' m' rng' HE.
    destruct e as [e|]; [by apply agree_ret|]. destruct (HE eq_refl) as [HC' Hlen].
    apply agree_bind, agree_commit; [done|by intros z; apply owner_control_int64| |].
    + unfold few in Hfew. simpl in Hlen. lia.
    + intros [[e2 l2] hdr2] m2 rng2. by apply agree_ret.
Qed.

Lemma few_strip hdr k : few hdr -> few (Del (stripManagedTrailerDeclarations hdr (Handler.managedNames h)) k).
Proof.
  unfold few, Values. intros Hf. change (canonical_key "Set-Cookie") with "Set-Cookie" in *.
  rewrite lookup_Del. case_decide; [simpl; lia|].
  destruct (strip_lookup hdr (Handler.managedNames h) "Set-Cookie" ltac:(done)) as [[->|[-> _]] _]; [done|].
  simpl. lia.
Qed.

Lemma agree_process i Q m rng :
  context (Handler.live i) m rng -> few (Handler.responseHeader i) -> (forall res m' rng', Q res m' rng') ->
  agree_locking (Handler.process date h i) Q m rng.
Proof.
  intros HC Hfew HQ. unfold Handler.process. cbv zeta. set (i1 := Handler.set_revoke _ _).
  assert (forall Q' ls, (forall res m' rng', Q' res m' rng') ->
    agree (Handler.processLocked date h i1) Q' (set_locks ls m) rng) as HP.
  { intros Q' ls HQ'. apply agree_processLocked; [exact HC|by apply few_strip|done]. }
  assert (agree_locking (Handler.processLocked date h i1) Q m rng) as HP'.
  { apply agree_lock_free. specialize (HP Q (locks m) HQ). by destruct m. }
  assert (forall x, agree_locking (Ret x) Q m rng) as HE by (intros x; by apply agree_lock_free, agree_ret).
  destruct (Handler.revokeRequested i1), (Handler.resolveErr i1), (Handler.live i1);
    first [exact HP' | apply HE | apply agree_WithLock; [exact synced|intros ls; by apply HP|done]].
Qed.

Lemma agree_ensureProcessed i Q m rng :
  context (Handler.live i) m rng -> few (Handler.responseHeader i) -> (forall res m' rng', Q res m' rng') ->
  agree_locking (Handler.ensureProcessed date h i) Q m rng.
Proof.
  intros HC Hfew HQ. unfold Handler.ensureProcessed.
  destruct (Handler.once i); [by apply agree_lock_free, agree_ret|].
  apply agree_locking_then, agree_process; [done..|]. intros [[e|] i'] m' rng'; by apply agree_ret.
Qed.

(** The downstream handler cannot change the handle. *)
Lemma WriteHeader_live st i g i' g' :
  Serve.WriteHeader st i g = Some (i', g') -> Handler.live i' = Handler.live i.
Proof.
  unfold Serve.WriteHeader, Serve.reserveBytes, Serve.note_writeErr.
  intros E. repeat (case_match; simplify_eq/=; try done).
Qed.

Lemma implied_live i g i' g' :
  (if Handler.wroteHeader i then Some (i, g) else Serve.WriteHeader 200 i g) = Some (i', g') ->
  Handler.live i' = Handler.live i.
Proof. destruct (Handler.wroteHeader i); [by intros [= <- _]|apply WriteHeader_live]. Qed.

Lemma reserveFinal_live i g e i' g' :
  Serve.reserveFinalMetadata h i g = (e, i', g') ->
  Handler.live i' = Handler.live i /\ Handler.responseHeader i' = Handler.responseHeader i.
Proof.
  unfold Serve.reserveFinalMetadata, Serve.reserveBytes.
  destruct (Handler.finalMetadataReserved i); [by intros [= <- <- <-]|].
  destruct (Staging.reserveMetadataBytes _ _ _ _) as [[[[e0|] m0] b] g0]; by intros [= <- <- <-].
Qed.

Lemma commitTerminal_live always i w g i' w' g' :
  Serve.commitTerminal h always i w g = (i', w', g') -> Handler.live i' = Handler.live i.
Proof.
  unfold Serve.commitTerminal, Serve.releaseTerminalStaging, Handler.discardBackendMetadata. cbv zeta.
  destruct (Staging.Reset _ _) as [b g1]. intros [= <- _ _]. cbn. by destruct (Handler.once i).
Qed.

Lemma act_live ext a i w g i' w' g' :
  Serve.act h ext a i w g = Some (i', w', g') -> Handler.live i' = Handler.live i.
Proof.
  destruct a as [f|st|io p|out|sup out]; cbn [Serve.act].
  - by intros [= <- <- <-].
  - destruct (Serve.WriteHeader st i g) as [[i1 g1]|] eqn:E; [|done]. intros [= <- <- <-].
    by eapply WriteHeader_live.
  - unfold Serve.Write. destruct (Handler.terminal i); [by intros [= <- <- <-]|].
    destruct (if Handler.wroteHeader i then _ else _) as [[i1 g1]|] eqn:E; [|done].
    apply implied_live in E. destruct (Serve.bodyless _); [by intros [= <- <- <-]|].
    destruct (Staging.Write _ _ _ _) as [[[n [e|]] b] g2]; intros [= <- <- <-]; [|done].
    rewrite <-E. unfold Serve.note_writeErr. by case_match.
  - unfold Serve.FlushError. destruct (negb ext); [by intros [= <- <- <-]|].
    destruct (Handler.terminal i); [by intros [= <- <- <-]|].
    destruct (Handler.writeErr i); [by intros [= <- <- <-]|].
    destruct (Serve.reserveFinalMetadata h i g) as [[[e|] i1] g1] eqn:ER;
      apply reserveFinal_live in ER as [ER _]; [by intros [= <- <- <-]|].
    destruct (negb _); [by intros [= <- <- <-]|].
    destruct (if Handler.wroteHeader i1 then _ else _) as [[i2 g2]|] eqn:E; [|done].
    apply implied_live in E. destruct (Serve.commitTerminal h true i2 w g2) as [[i3 w3] g3] eqn:EC.
    apply commitTerminal_live in EC. intros [= <- <- <-]. destruct out; cbn; congruence.
  - intros [= E0]. revert E0. unfold Serve.Hijack. destruct (negb sup); [by intros [= <- <- <-]|].
    destruct (Handler.writeErr i); [by intros [= <- <- <-]|].
    destruct (Serve.reserveFinalMetadata h i g) as [[[e|] i1] g1] eqn:ER;
      apply reserveFinal_live in ER as [ER _]; [by intros [= <- <- <-]|].
    destruct (negb _); [by intros [= <- <- <-]|].
    destruct (Serve.commitTerminal h false i1 w g1) as [[i3 w3] g3] eqn:EC.
    apply commitTerminal_live in EC. destruct out; intros [= <- <- <-]; cbn; congruence.
Qed.

Lemma downstream_live ext acts i w g pn i' w' g' :
  Serve.downstream h ext acts i w g = (pn, i', w', g') -> Handler.live i' = Handler.live i.
Proof.
  revert i w g. induction acts as [|a acts IH]; intros i w g; cbn [Serve.downstream]; [by intros [= _ <- _ _]|].
  destruct (Serve.act h ext a i w g) as [[[i1 w1] g1]|] eqn:E; [|by intros [= _ <- _ _]].
  apply act_live in E. intros ->%IH. done.
Qed.

(** ** Serving *)

Lemma agree_finish cio nerr i w g up Q m rng :
  context (Handler.live i) m rng -> few (Handler.responseHeader i) -> (forall res m' rng', Q res m' rng') ->
  agree_locking (Serve.finish date h cio nerr i w g up) Q m rng.
Proof.
  intros HC Hfew HQ. unfold Serve.finish. cbv zeta.
  assert (forall x, agree_locking (Ret x) Q m rng) as HE by (intros x; by apply agree_lock_free, agree_ret).
  destruct (Handler.writeErr i); [destruct (Staging.Reset _ _); apply HE|].
  destruct nerr; [destruct (Staging.Reset _ _); apply HE|].
  destruct (Serve.reserveFinalMetadata h i g) as [[e i1] g1] eqn:ER.
  destruct (reserveFinal_live _ _ _ _ _ ER) as [K1 K2]. destruct e; [destruct (Staging.Reset _ _); apply HE|].
  destruct (Handler.terminal i1); [apply HE|].
  destruct (Staging.Validate _ _) as [[e|] b]; [destruct (Staging.Reset _ _); apply HE|].
  apply agree_locking_then, agree_ensureProcessed; cbn [Handler.live Handler.responseHeader Handler.set_body];
    [by rewrite K1|by rewrite K2|].
  intros i2 m' rng'. repeat case_match; by apply agree_ret.
Qed.

(** The backend's response to any handle has at most [2^53] cookies. *)
Definition few_cookies (next : Serve.request -> list Serve.action * option string) (ext : bool)
    (w : Serve.writer) (g : Staging.stagedResponseBudget) : Prop :=
  forall up l had rerr pn i' w' g',
    Serve.downstream h ext (next up).1 (Serve.newInterceptor l had rerr w) w g = (pn, i', w', g') ->
    few (Handler.responseHeader i').

Lemma agree_ServeHTTP next cio w g rq Q m rng :
  tidy m -> unused m rng -> few_cookies next (Serve.r_extended rq) w g -> (forall res m' rng', Q res m' rng') ->
  agree_locking (Serve.ServeHTTP date h next cio w g rq) Q m rng.
Proof.
  intros Ht Hu Hfew HQ. unfold Serve.ServeHTTP. cbv zeta. apply agree_locking_bind.
  match goal with |- agree _ ?post m rng => set (rest := post) end.
  assert (HR : forall had rerr lo m' rng', context lo m' rng' -> rest (had, rerr, lo) m' rng').
  { intros had rerr lo m' rng' HC. unfold rest.
    assert (forall x, agree_locking (Ret x) Q m' rng') as HE by (intros x; by apply agree_lock_free, agree_ret).
    destruct rerr as [e|]; [destruct (bool_decide _); [apply HE|]|];
      (destruct (Serve.missing_label _ _ _) as [[a req]|]; [apply HE|]);
      destruct (next _) as [acts nerr] eqn:En;
      destruct (Serve.downstream _ _ _ _ _ _) as [[[pn i] w1] g1] eqn:ED;
      (destruct pn; [apply HE|]);
      (apply agree_finish; [by rewrite (downstream_live _ _ _ _ _ _ _ _ _ ED)| |done]);
      (eapply Hfew; rewrite En; exact ED). }
  unfold Serve.resolve_cookie. destruct (RequestCookie _ _) as [c|].
  - apply agree_bind, agree_Resolve; [done|]. intros [[l|]|e] m' Ht' Hu' Hl; apply agree_ret, HR;
      (split_and!; [done|auto; done|]); [by intros l' [= <-]|done|done].
  - apply agree_ret, HR. by split_and!.
Qed.
End Handler.
End Agree.

(** ** Theorem *)


(** A visitor of a handler with synchronized sessions: a login, and a second
    request with the key it was given, which takes the session's lock. *)
Definition visit_with (key : string) : prog Serve.served :=
  Serve.ServeHTTP (fun _ => None) demo_handler sso_backend easy_io fresh_writer
    Staging.globalStagedResponseBudget (demo_request "/" key).
Definition noon : Z := 1000 * Second.
Definition token_server : Redis.Redis db := Redis.MkRedis (MkDb 1000000000 ∅) "gs:" "0123456789abcdef".
Definition redis1 : Redis.Redis db := w_store (run (visit_with "none") (MkWorld token_server noon rng64)).2.
Definition memory1 : Memory := w_store (run (visit_with "none") (MkWorld NewMemory noon rng64)).2.
Definition key1 : string := default "" (head (map_to_list (keys memory1)).*1).

Lemma token_represents : represents token_server NewMemory.
Proof. exact empty_represents. Qed.

Lemma demo_timeouts : timeouts_ok noon (Handler.manager demo_handler).
Proof. unfold timeouts_ok, sane_seconds. split_and!; vm_compute; discriminate || reflexivity. Qed.

Lemma sso_few ext : few_cookies demo_handler sso_backend ext fresh_writer Staging.globalStagedResponseBudget.
Proof. intros up l had rerr pn i' w' g' E. vm_compute in E. injection E as _ <- _ _. vm_compute. discriminate. Qed.

Lemma memory1_tidy : tidy noon memory1.
Proof.
  assert (E : map_to_list (sessions memory1) = [(base64_rawurl (String.substring 0 32 rng64),
    MkSession (base64_rawurl (String.substring 0 32 rng64)) 1000 1000 1800 28800 7 1000 "")])
    by (vm_compute; reflexivity).
  intros sid s Hs%elem_of_map_to_list. rewrite E in Hs. apply list_elem_of_singleton in Hs as [= -> ->].
  clear E. split; [|done]. split; vm_compute; split; discriminate || reflexivity.
Qed.

