(* ===== verification/Contract.v ===== *)
(** * The contract of a store ([internal/store/contract.go])

    [RunContract] as a list of programs over the [Store] interface, one per
    subtest; [false] is a fatal failure.  Both implementations pass it, the Redis
    store over every server that acts as the command reference says. *)

From stdpp Require Import base gmap strings list.
From Stdlib Require Import ZArith Lia.
From S2P Require Import Prelude GoStrings GoTime StoreApi Memory RedisApi RedisStore RedisProps.
From S2P Require Import RedisRefine RedisControls RedisAtomic RedisThms.
Local Open Scope prog_scope.
Local Open Scope Z_scope.

Module Contract.

Definition Minute : Z := 60 * Second.
Definition Hour : Z := 3600 * Second.

(** [if cond { t.Fatal(...) }], with the condition that must hold. *)
Notation "'must' b ';' p" := (if (b : bool) then p else Ret false)
  (at level 100, b at level 99, p at level 200, right associativity) : prog_scope.
(** [_ = s.Method(...)] *)
Notation "'drop' o ';' p" := (bind (call o) (fun _ => p))
  (at level 100, o at level 99, p at level 200, right associativity) : prog_scope.

Definition nil_err (e : option error) : bool := bool_decide (e = None).
Definition is_err {A} (want : error) (r : res A) : bool :=
  match r with Err e => bool_decide (e = want) | Ok _ => false end.
Definition equals {A} `{EqDecision A} (want : A) (r : res A) : bool :=
  match r with Ok a => bool_decide (a = want) | Err _ => false end.
(** [got, err := ...; err != nil || !P(got)] *)
Definition satisfies {A} (P : A -> bool) (r : res A) : bool :=
  match r with Ok a => P a | Err _ => false end.
(** [v, _ := ...]: the zero value when the call fails. *)
Definition value {A} (zero : A) (r : res A) : A := match r with Ok a => a | Err _ => zero end.
Definition zero_session : Session := MkSession "" 0 0 0 0 0 0 "".
(** [m[k]]: the zero value when absent. *)
Definition index (m : gmap string string) (k : string) : string := default "" (m !! k).

Definition session (id : string) (owner : Z) : Session := MkSession id 1 1 10 100 owner 0 "".

Definition session_round_trip : prog bool :=
  let* e := call (PutSession (MkSession "sid" 100 100 1800 28800 0 0 "adm default") Hour) in
  must nil_err e;
  let* got := call (GetSession "sid") in
  must satisfies (fun got => bool_decide (ID got = "sid") && (FinalTimeout got =? 28800)) got;
  must satisfies (fun got => bool_decide (Labels got = "adm default")) got;
  Ret true.

Definition missing_session : prog bool :=
  let* r := call (GetSession "nope") in
  must is_err ErrNotFound r; Ret true.

Definition stale_mutations : prog bool :=
  let* e := call (TouchSession "gone" "missing-key" 2 2 Hour) in
  must bool_decide (e = Some ErrNotFound);
  let* e := call (ApplySessionControls "gone" (MkControls false 0 false "" 0 2 "missing-key" "" false []) Hour Hour) in
  must bool_decide (e = Some ErrNotFound);
  let* e := call (PutKey "orphan-key" "gone" Hour) in
  must bool_decide (e = Some ErrNotFound);
  let* r := call (GetKey "orphan-key") in
  must is_err ErrNotFound r;
  let* e := call (PutCookie "gone" "JSESSIONID" "secret" "sha") in
  must bool_decide (e = Some ErrNotFound);
  let* values := call (GetCookies "gone") in
  must bool_decide (value ∅ values = ∅);
  let* shas := call (CookieSHAs "gone") in
  must bool_decide (value ∅ shas = ∅);
  Ret true.

Definition scoped_updates : prog bool :=
  let got_is (P : Session -> bool) (r : res Session) := P (value zero_session r) in
  let labels l s := bool_decide (Labels s = l) in
  let* e := call (PutSession (MkSession "scoped" 1 1 10 100 42 10 "default") Hour) in
  must nil_err e;
  let* e := call (PutKey "scoped-key" "scoped" Hour) in
  must nil_err e;
  let* e := call (TouchSession "scoped" "scoped-key" 2 99 Hour) in
  must nil_err e;
  let* got := call (GetSession "scoped") in
  must got_is (fun s => (LastAccess s =? 2) && (LastRotation s =? 10) && (OwnerID s =? 42) && labels "default" s) got;
  let* e := call (RotateSessionKey "scoped" "scoped-key" "rotated-key" 20 Hour) in
  must nil_err e;
  let* got := call (GetSession "scoped") in
  must got_is (fun s => (LastRotation s =? 20) && (OwnerID s =? 42) && labels "default" s) got;
  let* e := call (ApplySessionControls "scoped" (MkControls false 0 true "adm" 3 0 "rotated-key" "" false []) Hour Hour) in
  must nil_err e;
  let* got := call (GetSession "scoped") in
  must got_is (fun s => labels "adm" s && (LastAccess s =? 3) && (LastRotation s =? 20) && (OwnerID s =? 42)) got;
  let* e := call (ApplySessionControls "scoped" (MkControls false 0 true "default adm" 4 30 "rotated-key" "" false []) Hour Hour) in
  must nil_err e;
  let* got := call (GetSession "scoped") in
  must got_is (fun s => labels "default adm" s && (LastAccess s =? 4) && (LastRotation s =? 30) && (OwnerID s =? 42)) got;
  let* e := call (TouchSession "scoped" "rotated-key" 3 20 Hour) in
  must nil_err e;
  let* e := call (ApplySessionControls "scoped" (MkControls false 0 true "latest" 3 20 "rotated-key" "" false []) Hour Hour) in
  must nil_err e;
  let* got := call (GetSession "scoped") in
  must got_is (fun s => labels "latest" s && (LastAccess s =? 4) && (LastRotation s =? 30)) got;
  Ret true.

Definition key_replacement : prog bool :=
  drop PutSession (session "sid" 0) Hour;
  drop PutKey "old" "sid" Hour;
  let* e := call (ReplaceKey "old" "new-1" "sid" Hour) in
  must nil_err e;
  let* e := call (ReplaceKey "old" "new-2" "sid" Hour) in
  must bool_decide (e = Some ErrConflict);
  let* r := call (GetKey "old") in
  must is_err ErrNotFound r;
  let* r := call (GetKey "new-1") in
  must equals "sid" r;
  let* r := call (GetKey "new-2") in
  must is_err ErrNotFound r;
  Ret true.

Definition equal_rotation_key : prog bool :=
  let* e := call (PutSession (MkSession "equal-key" 1 1 10 100 0 1 "") Hour) in
  must nil_err e;
  let* e := call (PutKey "same-key" "equal-key" Hour) in
  must nil_err e;
  let* e := call (ApplySessionControls "equal-key" (MkControls false 0 false "" 2 2 "same-key" "same-key" true []) Hour Hour) in
  must bool_decide (e = Some ErrConflict);
  let* r := call (GetKey "same-key") in
  must equals "equal-key" r;
  let* got := call (GetSession "equal-key") in
  must satisfies (fun s => (LastAccess s =? 1) && (LastRotation s =? 1)) got;
  Ret true.

Definition response_controls : prog bool :=
  drop PutSession (MkSession "controls" 1 1 10 100 1 0 "default") Hour;
  drop PutKey "old-controls" "controls" Hour;
  drop AddOwnerIndex 1 "controls" Hour;
  let* e := call (ApplySessionControls "controls"
    (MkControls true 2 true "adm" 2 2 "old-controls" "new-controls" true
      [MkCookieMutation "JSESSIONID" "winner" "winner-sha" false]) Hour Hour) in
  must nil_err e;
  let* got := call (GetSession "controls") in
  must satisfies (fun s => (OwnerID s =? 2) && bool_decide (Labels s = "adm") && (LastAccess s =? 2)
                           && (LastRotation s =? 2)) got;
  let* r := call (GetKey "old-controls") in
  must is_err ErrNotFound r;
  let* r := call (GetKey "new-controls") in
  must equals "controls" r;
  let* e := call (TouchSession "controls" "old-controls" 99 99 Hour) in
  must bool_decide (e = Some ErrConflict);
  let* e := call (ApplySessionControls "controls"
    (MkControls true 3 true "stale" 3 3 "old-controls" "losing-controls" true
      [MkCookieMutation "JSESSIONID" "stale" "stale-sha" false]) Hour Hour) in
  must bool_decide (e = Some ErrConflict);
  let* got := call (GetSession "controls") in
  must (fun s => (OwnerID s =? 2) && bool_decide (Labels s = "adm") && (LastRotation s =? 2)) (value zero_session got);
  let* cookies := call (GetCookies "controls") in
  let* shas := call (CookieSHAs "controls") in
  must bool_decide (index (value ∅ cookies) "JSESSIONID" = "winner")
       && bool_decide (index (value ∅ shas) "JSESSIONID" = "winner-sha");
  Ret true.

Definition delete_cascade : prog bool :=
  drop PutSession (session "sid" 0) Hour;
  drop PutKey "k1" "sid" Hour;
  let* r := call (GetKey "k1") in
  must equals "sid" r;
  drop DeleteSession "sid";
  let* r := call (GetKey "k1") in
  must is_err ErrNotFound r;
  Ret true.

Definition cookies_and_shas : prog bool :=
  drop PutSession (session "sid" 0) Hour;
  drop PutCookie "sid" "JSESSIONID" "abc" "sha1";
  let* vals := call (GetCookies "sid") in
  must bool_decide (index (value ∅ vals) "JSESSIONID" = "abc");
  let* shas := call (CookieSHAs "sid") in
  must bool_decide (index (value ∅ shas) "JSESSIONID" = "sha1");
  let* e := call (DeleteCookie "sid" "JSESSIONID") in
  must nil_err e;
  let* e := call (DeleteCookie "sid" "JSESSIONID") in
  must nil_err e;
  let* vals := call (GetCookies "sid") in
  let* shas := call (CookieSHAs "sid") in
  must bool_decide (value ∅ vals !! "JSESSIONID" = None);
  must bool_decide (value ∅ shas !! "JSESSIONID" = None);
  Ret true.

Definition owner_index : prog bool :=
  drop AddOwnerIndex 42 "sidA" Hour;
  drop AddOwnerIndex 42 "sidB" Hour;
  let* sids := call (OwnerSessions 42) in
  must (length (value [] sids) =? 2)%nat; Ret true.

Definition owner_index_prunes : prog bool :=
  drop PutSession (session "sidA" 42) Hour;
  drop PutSession (session "sidB" 42) Hour;
  drop AddOwnerIndex 42 "sidA" Hour;
  drop AddOwnerIndex 42 "sidB" Hour;
  drop DeleteSession "sidA";
  let* sids := call (OwnerSessions 42) in
  must bool_decide (value [] sids = ["sidB"]); Ret true.

Definition remove_owner_entry : prog bool :=
  drop AddOwnerIndex 42 "stale" Hour;
  drop AddOwnerIndex 42 "live" Hour;
  let* e := call (RemoveOwnerIndex 42 "stale") in
  must nil_err e;
  let* sids := call (OwnerSessions 42) in
  must bool_decide (value [] sids = ["live"]); Ret true.

Definition reassign_missing : prog bool :=
  let* e := call (ReassignOwner (session "missing" 42) Hour Hour) in
  must bool_decide (e = Some ErrNotFound);
  let* sids := call (OwnerSessions 42) in
  must equals [] sids; Ret true.

Definition reassign_atomic : prog bool :=
  let* e := call (PutSession (MkSession "sid" 1 1 10 100 41 10 "default") Hour) in
  must nil_err e;
  let* e := call (AddOwnerIndex 41 "sid" Hour) in
  must nil_err e;
  let* e := call (ReassignOwner (MkSession "sid" 999 2 10 100 42 10 "stale") Hour (2 * Hour)) in
  must nil_err e;
  let* got := call (GetSession "sid") in
  must satisfies (fun s => (OwnerID s =? 42) && (LastAccess s =? 2) && (Creation s =? 1)
                           && bool_decide (Labels s = "default")) got;
  let* oldSIDs := call (OwnerSessions 41) in
  must equals [] oldSIDs;
  let* newSIDs := call (OwnerSessions 42) in
  must equals ["sid"] newSIDs; Ret true.

Definition owner_delete : prog bool :=
  let* e := call (PutSession (session "sid" 42) Hour) in
  must nil_err e;
  let* e := call (PutKey "key" "sid" Hour) in
  must nil_err e;
  let* e := call (PutCookie "sid" "JSESSIONID" "secret" "sha") in
  must nil_err e;
  let* e := call (AddOwnerIndex 42 "sid" Hour) in
  must nil_err e;
  let* deleted := call (DeleteSessionByOwner 42 "sid") in
  must equals true deleted;
  let* r := call (GetSession "sid") in
  must is_err ErrNotFound r;
  let* r := call (GetKey "key") in
  must is_err ErrNotFound r;
  let* cookies := call (GetCookies "sid") in
  must equals ∅ cookies;
  let* shas := call (CookieSHAs "sid") in
  must equals ∅ shas;
  let* sids := call (OwnerSessions 42) in
  must equals [] sids; Ret true.

Definition owner_delete_reassigned : prog bool :=
  let* e := call (PutSession (session "sid" 41) Hour) in
  must nil_err e;
  let* e := call (AddOwnerIndex 41 "sid" Hour) in
  must nil_err e;
  let* e := call (ReassignOwner (session "sid" 42) Hour Hour) in
  must nil_err e;
  let* deleted := call (DeleteSessionByOwner 41 "sid") in
  must equals false deleted;
  let* got := call (GetSession "sid") in
  must satisfies (fun s => OwnerID s =? 42) got; Ret true.

Definition lock_exclusive : prog bool :=
  let* r := call (Lock "sid" Minute) in
  match r with
  | Ok (Some token) =>
    let* r2 := call (Lock "sid" Minute) in
    must negb (match r2 with Ok (Some _) => true | _ => false end);
    let* e := call (Unlock "sid" token) in
    must nil_err e;
    let* r3 := call (Lock "sid" Minute) in
    must match r3 with Ok (Some _) => true | _ => false end; Ret true
  | _ => Ret false
  end.

Definition RunContract : list (string * prog bool) :=
  [("session round-trip", session_round_trip);
   ("missing session is ErrNotFound", missing_session);
   ("stale mutations cannot recreate a deleted session", stale_mutations);
   ("field-scoped updates preserve unrelated state", scoped_updates);
   ("atomic key replacement admits only one winner", key_replacement);
   ("equal old and new rotation key is rejected atomically", equal_rotation_key);
   ("atomic response controls are all-or-nothing", response_controls);
   ("key mapping and delete cascade", delete_cascade);
   ("cookies and shas", cookies_and_shas);
   ("owner index", owner_index);
   ("owner index prunes deleted session", owner_index_prunes);
   ("remove owner index entry", remove_owner_entry);
   ("owner reassignment refuses a missing session", reassign_missing);
   ("owner reassignment updates row and indexes atomically", reassign_atomic);
   ("owner-conditional delete removes the complete session", owner_delete);
   ("owner-conditional delete preserves reassigned session", owner_delete_reassigned);
   ("lock is exclusive then released", lock_exclusive)].

(** Every subtest, over a fresh store. *)
Definition passes {S} `{Store S} (newStore : S) (t : Z) : bool :=
  forallb (fun test => (run test.2 (MkWorld newStore t "")).1) RunContract.

#[local] Existing Instance Memory.memory_store.
#[local] Existing Instance Redis.redis_store.

(** A program cannot tell a server from the command reference. *)
Lemma run_view {R} `{RedisServer R} {A} (p : prog A) (s : R) pre bytes t g :
  (run p (MkWorld (Redis.MkRedis s pre bytes) t g)).1
  = (run p (MkWorld (Redis.MkRedis (view s) pre bytes) t g)).1.
Proof.
  revert s bytes g; induction p as [a|o k IH]; intros s bytes g; [done|]. cbn [run].
  destruct o as [so| |n]; cbn [step w_store w_clock w_rng].
  - unfold exec, Redis.redis_store. cbn [Redis.rng Redis.server Redis.prefix].
    destruct (if Redis.draws so then _ else _) as [[b rest]|]; [|apply IH].
    destruct (eval_documented (Redis.request pre b so) s) as [E1 E2].
    destruct (eval _ s) as [a s'], (eval _ (view s)) as [a' d']. cbn [fst snd] in E1, E2. subst.
    apply IH.
  - apply IH.
  - by destruct (take_bytes n g) as [[b rest]|]; apply IH.
Qed.

Lemma take_bytes_rest n s b rest :
  take_bytes n s = Some (b, rest) -> String.length s = (n + String.length rest)%nat.
Proof.
  revert s b; induction n as [|n IH]; intros s b; simpl; [by intros [= _ <-]|].
  destruct s as [|c s]; [done|]. destruct (take_bytes n s) as [[b' r']|] eqn:E; [|done].
  intros [= _ <-]. simpl. by rewrite (IH _ _ E).
Qed.

(** One round of the lock over the reference server. *)
Lemma lock_step d pre bytes b rest id :
  take_bytes 16 bytes = Some (b, rest) ->
  exec (Lock id Minute) (Redis.MkRedis d pre bytes)
  = match val d (Redis.lockKey pre id) with
    | Some _ => (Ok None, Redis.MkRedis d pre rest)
    | None => (Ok (Some (Redis.hex b)),
               Redis.MkRedis (put (Redis.lockKey pre id) (VString (Redis.hex b))
                 (Some (now_ms d + 60000)) d) pre rest)
    end.
Proof.
  intros E. unfold exec, Redis.redis_store. cbn [Redis.draws Redis.rng Redis.server Redis.prefix].
  unfold Redis.drawToken. rewrite E. cbn [fmap option_fmap option_map fst snd].
  cbn [Redis.request Redis.Lock eval send reference_server documented].
  by destruct (val d (Redis.lockKey pre id)).
Qed.

Lemma unlock_step d pre bytes id tok :
  val d (Redis.lockKey pre id) = Some (VString tok) ->
  exec (Unlock id tok) (Redis.MkRedis d pre bytes)
  = (None, Redis.MkRedis (remove (Redis.lockKey pre id) d) pre bytes).
Proof.
  intros E. unfold exec, Redis.redis_store. cbn [Redis.draws Redis.rng Redis.server Redis.prefix].
  cbn [Redis.request]. unfold Redis.unlock, Redis.unlockScript, Redis.at_. cbn.
  rewrite E. cbn. by rewrite decide_True.
Qed.

Lemma lock_exclusive_redis d bytes t :
  val d (Redis.lockKey "gs:" "sid") = None -> (48 <= String.length bytes)%nat ->
  (run lock_exclusive (MkWorld (Redis.MkRedis d "gs:" bytes) t "")).1 = true.
Proof.
  intros Hv Hlen.
  destruct (take_bytes_long 16 bytes) as (b1 & r1 & E1); [lia|]. pose proof (take_bytes_rest _ _ _ _ E1).
  destruct (take_bytes_long 16 r1) as (b2 & r2 & E2); [lia|]. pose proof (take_bytes_rest _ _ _ _ E2).
  destruct (take_bytes_long 16 r2) as (b3 & r3 & E3); [lia|].
  unfold lock_exclusive, call. cbn [bind run step w_store w_clock w_rng].
  rewrite (lock_step d "gs:" bytes b1 r1), Hv by done. cbn [bind run step w_store w_clock w_rng].
  set (d1 := put _ _ _ d).
  assert (Hv1 : val d1 (Redis.lockKey "gs:" "sid") = Some (VString (Redis.hex b1))).
  { unfold d1, val, put. simpl. by rewrite lookup_insert_eq. }
  rewrite (lock_step d1 "gs:" r1 b2 r2), Hv1 by done. cbn [bind run step w_store w_clock w_rng negb].
  rewrite unlock_step by done. cbn [bind run step w_store w_clock w_rng].
  change (nil_err None) with true. cbn [bind run step w_store w_clock w_rng].
  rewrite (lock_step _ "gs:" r2 b3 r3) by done.
  assert (val (remove (Redis.lockKey "gs:" "sid") d1) (Redis.lockKey "gs:" "sid") = None) as ->.
  { unfold val, remove. simpl. by rewrite lookup_delete_eq. }
  done.
Qed.

(** Both stores pass the contract of [RunContract]: the in-memory store, and
    the Redis store over any server that acts as the command reference says and
    starts empty one second into the epoch, as its test sets it up. *)
Theorem stores_pass_contract :
  (forall t, passes Memory.NewMemory t = true)
  /\ forall R (H : RedisServer R) (s : R) bytes t,
       view s = MkDb 1000000 ∅ -> (48 <= String.length bytes)%nat ->
       passes (Redis.MkRedis s "gs:" bytes) t = true.
Proof.
  split; [intros t; vm_compute; reflexivity|]. intros R H s bytes t Hs Hlen.
  assert (HL : (run lock_exclusive (MkWorld (Redis.MkRedis (view s) "gs:" bytes) t "")).1 = true).
  { apply lock_exclusive_redis; [by rewrite Hs|done]. }
  assert (HT : forallb (fun test => (run test.2 (MkWorld (Redis.MkRedis (view s) "gs:" bytes) t "")).1)
    (take 16 RunContract) = true).
  { rewrite Hs. vm_compute. reflexivity. }
  unfold passes. apply forallb_forall. intros test Hin. rewrite run_view.
  rewrite forallb_forall in HT. rewrite <-(take_drop 16 RunContract) in Hin.
  apply in_app_iff in Hin as [Hin|Hin]; [by apply HT|]. simpl in Hin.
  destruct Hin as [<-|[]]. exact HL.
Qed.

Definition demo_bytes : string := "0123456789abcdef0123456789abcdeffedcba9876543210".

Lemma stores_pass_contract_witness :
  passes (Redis.MkRedis (MkDb 1000000 ∅ : db) "gs:" demo_bytes) 0 = true.
Proof.
  apply (proj2 stores_pass_contract db reference_server); [reflexivity|vm_compute; lia].
Defined.
End Contract.
